(* ===== verification/_CoqProject ===== *)
-Q . S2P
Prelude.v
Oprt.v
Ota.v
MjpegCodec.v
Queue.v
QueueSystem.v
MutexSystem.v
Rtos.v
Memory.v
Flash.v
Md5.v
Crc.v
Partition.v
EspOta.v
Image.v
Bootloader.v
ImageCheck.v
TklFlash.v
MjpegTasks.v
Lwip.v
Network.v
TlsSockets.v
Iot.v
NetInterface.v
Update.v
JpegTables.v
Jpeg.v
JpegBits.v
JpegBlock.v
JpegFilter.v
JpegPixels.v
JpegImage.v
JpegScan.v
JpegFormat.v
JpegIdct.v
JpegDecode.v
Movie.v
Player.v
Wifi.v
Gpio.v
Devices.v
