(* ===== verification/Prelude.v ===== *)
(** * Verification of the Plantsio Ivy 2.0 firmware

    The firmware of a smart flower pot on an ESP32-S3: an application ([app],
    [ivy], [main]) on the TuyaOS SDK, of which the sources hold the adapter to the
    chip ([tuya/tuyaos_adapter]), on ESP-IDF and FreeRTOS ([esp-idf]).  The cloud
    reaches the device over sockets, updates its firmware through the flash, and
    sets data points; the device plays motion-JPEG animations, read from a file by one
    task and decoded and drawn by two others.

    ** The parts and the files that model them

    Firmware update.
    - [Ota] ([tkl_ota.c]): the session the SDK drives, from the announced size over
      the packets to the switch of the boot partition; the record is the C global
      [tkl_ota_handle].
    - [EspOta] ([esp_ota_ops.c], [bootloader_common_loader.c]): handles, writing an
      image, the two selection entries.  [Crc] ([esp_rom_crc.c]) is their checksum.
    - [Bootloader] ([bootloader_utility.c], [bootloader_start.c]): which image is
      loaded at the next start.  Loading is an argument with the laws of [Loader].
    - [Image] ([esp_image_format.c] and the flash access of [bootloader_flash.c] and
      [flash_mmap.c] in the builds of the application and of the bootloader):
      checking an image and copying its segments to RAM; [ImageCheck] gives the
      format as an encoder and makes the check an instance of [Loader].
    - [Update] joins these on the flash.

    Storage.
    - [Flash] ([esp_flash_api.c], [spi_flash_os_func_app.c]): the chip as bytes, the
      driver's bounds and write protection.
    - [Md5] ([esp_rom_md5.c]) and [Partition] ([partition.c], [partition_table.h],
      the table update of [device_interface.cpp]): the partition table and access
      to a partition.
    - [TklFlash] ([tkl_flash.c]): Tuya's data partition.

    Operating system.
    - [Queue] ([queue.c], parts of [list.c] and [tasks.c]): the object behind queues,
      semaphores and mutexes, one definition per critical section.
    - [QueueSystem], [MutexSystem]: any number of tasks and interrupts on one of
      them, as step relations.
    - [Rtos] ([tkl_mutex.c], [tkl_semaphore.c], [tkl_queue.c], [tkl_thread.c],
      [tkl_system.c], [tkl_sleep.c], [tkl_output.c]) and [Memory] ([tkl_memory.c]):
      the adapter.

    Animation.
    - [MjpegCodec] ([MjpegCodec::read_frame]): cutting a file into frames.
    - [MjpegTasks] (the rest of [MjpegCodec.cpp]): the decode task, the draw task and
      their client, as a step relation with one step per call.
    - [JpegTables], [Jpeg] ([jpeg.inl], [JPEGDEC.cpp]): the decoder, from opening a file
      in memory over markers, Huffman codes, inverse DCT and colors to the blocks sent
      to the display.  Its proof goes by layers, each with the format of the
      standard as an encoder: [JpegBits] (codes), [JpegBlock] (a block),
      [JpegFilter] (stuffing and the file buffer), [JpegPixels] (the pixel buffer),
      [JpegImage] (the loops over the image), [JpegScan] (restart intervals), [JpegFormat]
      (headers).  [JpegDecode] puts them together; [JpegIdct] compares the shortcuts of the
      inverse DCT with the full calculation.
    - [Movie]: the frame reader with the decoder.
    - [Player] ([MjpegDriver.cpp], [AnimDriver.cpp], [AudioDriver.cpp], [IvyAnim.cpp]): the
      task that plays a file at 25 frames a second and repeats it; the record holds
      the members of [MjpegDriver].

    Devices.
    - [Gpio] ([gpio.c], [tkl_pin.c]): pins, their registers and interrupts.
    - [Devices] ([tkl_bt.c], [tkl_uart.c], [tkl_rtc.c], [LED.cpp]): a Module for each.

    Network and application.
    - [Lwip] ([ip4_addr.c], [ip.c], [def.c]) and [Network] ([tkl_network.c]).
    - [TlsSockets] ([net_sockets.c]): the sockets of TLS, on the calls of [Network].
    - [Wifi] ([tkl_wifi.c]): the Wi-Fi adapter; the state are its static variables.
    - [Iot] ([IOT.cpp], [device_interface.cpp]): data points and credentials.
    - [NetInterface] ([NetInterface.cpp]): Wi-Fi events and provisioning.

    [Prelude] and [Oprt] hold what the components share: machine integers, lists,
    the monad below, return codes.

    ** How code is modelled

    A machine integer is a [Z] kept in range by [u8], [u16], [u32] or [i32] where the
    C code wraps.  Code that calls a platform is a [prog]: a tree of calls whose
    answers are unknown until a handler gives them.  [exec] runs it on any answers,
    [always] and [wp] state properties of all of them, [interp] runs it on a state,
    [translate] implements the calls of one component by those of another.  Tasks
    are interleaved by step relations whose atomic steps are the critical sections
    of the code; on this platform a queue is locked only inside a critical section,
    so its lock counters do not rise.  Loops that are not structural take fuel; the
    theorems that matter show that the fuel given is enough ([read_frame_returns],
    [recv_nd_size_exact]), and the loops over partitions and sessions are bounded by
    the data.  The decoder's loops over markers, codes and stuffed data take fuel from the
    size of its buffer or of the file, which [show_frame_decodes] shows to be enough; its
    arrays are accessed with a check, and leaving one is a fault.  The player's loop
    over late frames takes more fuel than the file has frames, and its wait 40 ms for each
    of them; an endless task is run for any number of turns.  An interrupt has
    32 flags to look at.  The constants that are bounds (2^32 sequence numbers, 8 MB of flash,
    255 data points, 95 partition entries) are those of the code.

    Power loss ([cut], [torn_flash]) can come between any two flash operations and
    inside one: a write stops after any prefix of its bytes, an erase is done or not
    done for each sector.  Allocations and mappings of the flash that can fail are
    answered by the environment: a list of answers, a predicate, or a labelled step.

    ** What the theorems show

    - Update: no sequence of calls and no power loss damages the running image or
      leaves a device that does not boot, unless the client ends a session with an
      image on which the bootloader stops; a complete image is installed byte for
      byte and boots; the application and the bootloader agree on the selected slot;
      the session refines an abstract one.
    - Images: the check accepts exactly the encodings of well-formed images that fit
      the slot; loading puts segments that do not overlap into RAM and changes nothing else; a
      segment that crosses 0x80000000 passes the application's check and stops the
      bootloader in an assertion.
    - Storage: what is written is read back, nothing outside a partition changes, the
      table is taken over completely or not at all, MD5 and CRC are independent of
      how they are computed.
    - Operating system: queues are bounded FIFOs for any interleaving, no wake-up is
      lost, mutexes exclude, timeouts are exact.
    - Animation: every frame of a file is handed out in order; buffers are freed
      exactly once, except the descriptor of a block that finds no memory for its pixels;
      two tasks that could be created do not deadlock and leave nothing else behind.  A
      JPEG file of a picture within the decoder's limits ([supported_file]) is decoded without
      leaving an array, and each of its pixels is drawn once with the value the decoder's
      arithmetic gives for its coefficients; so a file of such pictures is played
      completely.  That arithmetic is judged by itself: the shortcuts of the inverse DCT on
      blocks that stay in range, the color conversion.  The player never runs ahead of the clock, repeats a file as often as it is told
      to, and then blocks on the mutex it holds.
    - Network and application: streams and addresses arrive unchanged, data points
      are handled in order and reported consistently, credentials are reconciled,
      reconnection is bounded; sockets are closed once and none is lost; the address
      the Wi-Fi adapter gives is that of the current connection; a scan leaks nothing.
    - Devices: an interrupt calls the handlers of its pins, at most one of which can be
      registered at a time; packets are sent whole, the clock reads back what was set.

    ** Not modelled

    The SDK itself, Arduino and the closed libraries are not among the sources and
    appear as calls; so do the property store and the user interface of the device.
    SHA-256, the random generator and what the ROM maps are arguments of [Image].  Of the
    decoder, the branches its caller does not take are left out: scaled, dithered, gray and
    big-endian output, thumbnails, progressive files.  [LED::fade_to_percent]
    calculates with [double], and the functions of [gpio.c] for hold and wake-up are used by nothing
    modelled.  [tkl_fs.c] only returns an error code; [app_main.cpp] starts one
    animation; [Screen.cpp] and the pages of the user interface only call the display
    libraries.  The display driver [TFT_eSPI], the [audio] library, the radio, and the parts of
    ESP-IDF the modelled code does not reach are left out.  Branches the configuration
    ([sdkconfig]) turns off (flash encryption, rollback, anti-rollback, secure boot) are
    left out where they stand. *)
From stdpp Require Import base list strings gmap.
From Stdlib Require Import ZArith Lia.
Local Open Scope Z_scope.

(** ** Machine integers *)

Definition u8 (z : Z) : Z := z mod 2 ^ 8.
Definition u16 (z : Z) : Z := z mod 2 ^ 16.
Definition u32 (z : Z) : Z := z mod 2 ^ 32.
Definition i32 (z : Z) : Z := (z + 2 ^ 31) mod 2 ^ 32 - 2 ^ 31.
Definition i16 (z : Z) : Z := (z + 2 ^ 15) mod 2 ^ 16 - 2 ^ 15.
Definition i8 (z : Z) : Z := (z + 2 ^ 7) mod 2 ^ 8 - 2 ^ 7.

Arguments u8 : simpl never.
Arguments u16 : simpl never.
Arguments u32 : simpl never.
Arguments i32 : simpl never.
Arguments i16 : simpl never.
Arguments i8 : simpl never.

Lemma u8_range z : 0 <= u8 z < 256.
Proof. apply (Z.mod_pos_bound z 256). lia. Qed.

Lemma u16_range z : 0 <= u16 z < 65536.
Proof. apply (Z.mod_pos_bound z 65536). lia. Qed.

Lemma u32_range z : 0 <= u32 z < 4294967296.
Proof. apply (Z.mod_pos_bound z 4294967296). lia. Qed.

Lemma u8_small z : 0 <= z < 256 -> u8 z = z.
Proof. apply Z.mod_small. Qed.

Lemma u16_small z : 0 <= z < 65536 -> u16 z = z.
Proof. apply Z.mod_small. Qed.

Lemma u32_small z : 0 <= z < 4294967296 -> u32 z = z.
Proof. apply Z.mod_small. Qed.

Lemma i32_small z : -2147483648 <= z < 2147483648 -> i32 z = z.
Proof. intros H. unfold i32. rewrite Z.mod_small; lia. Qed.

Lemma i32_range z : -2147483648 <= i32 z < 2147483648.
Proof.
  unfold i32. pose proof (Z.mod_pos_bound (z + 2 ^ 31) (2 ^ 32) ltac:(lia)). lia.
Qed.

Lemma u32_add_l a b : u32 (u32 a + b) = u32 (a + b).
Proof. apply Z.add_mod_idemp_l. lia. Qed.

Lemma u32_add_r a b : u32 (a + u32 b) = u32 (a + b).
Proof. apply Z.add_mod_idemp_r. lia. Qed.

Lemma u32_sub_l a b : u32 (u32 a - b) = u32 (a - b).
Proof. unfold u32. apply Zminus_mod_idemp_l. Qed.

Lemma u32_idem a : u32 (u32 a) = u32 a.
Proof. apply Z.mod_mod. lia. Qed.

(** Fields of a word: selecting one, and joining two that do not overlap. *)
Lemma land_mask x k n : 0 <= k -> 0 <= n -> Z.land x (Z.shiftl (Z.ones n) k) = (x / 2 ^ k) mod 2 ^ n * 2 ^ k.
Proof.
  intros Hk Hn. rewrite <- Z.land_ones, <- Z.shiftr_div_pow2, <- Z.shiftl_mul_pow2 by lia.
  apply Z.bits_inj'. intros i Hi. rewrite Z.land_spec, !Z.shiftl_spec, Z.land_spec by lia.
  destruct (Z.ltb_spec i k).
  - rewrite (Z.testbit_neg_r (Z.ones n)) by lia. rewrite (Z.testbit_neg_r (Z.shiftr x k)) by lia. by rewrite andb_false_r.
  - rewrite Z.shiftr_spec by lia. by replace (i - k + k) with i by lia.
Qed.

Lemma land_field x k : 0 <= k -> Z.land x (Z.shiftl 255 k) = (x / 2 ^ k) mod 256 * 2 ^ k.
Proof. intros Hk. apply (land_mask x k 8); lia. Qed.

Lemma lor_field m b k : 0 <= k -> 0 <= b < 2 ^ k -> Z.lor (m * 2 ^ k) b = m * 2 ^ k + b.
Proof.
  intros Hk Hb. assert (H0 : Z.land (m * 2 ^ k) b = 0).
  { apply Z.bits_inj'. intros n Hn. rewrite Z.land_spec, Z.bits_0, <- Z.shiftl_mul_pow2, Z.shiftl_spec by lia.
    destruct (Z.ltb_spec n k); [by rewrite Z.testbit_neg_r by lia|].
    rewrite <- (Z.mod_small b (2 ^ k)) by lia. rewrite Z.mod_pow2_bits_high by lia. apply andb_false_r. }
  rewrite Z.add_nocarry_lxor, Z.lxor_lor by done. done.
Qed.

(** ** Buffers

    [store_at buf j bs] is [memcpy] of [bs] to offset [j] of [buf]. *)
Definition store_at {A} (buf : list A) (j : nat) (bs : list A) : list A :=
  take j buf ++ bs ++ drop (j + length bs) buf.

Lemma store_at_length {A} (buf : list A) (j : nat) (bs : list A) :
  (j + length bs <= length buf)%nat -> length (store_at buf j bs) = length buf.
Proof.
  intros ?. unfold store_at. rewrite !length_app, length_take, length_drop. lia.
Qed.

Lemma store_at_hit {A} (buf : list A) (j : nat) (bs : list A) (k : nat) :
  (j <= length buf)%nat -> (k < length bs)%nat -> store_at buf j bs !! (j + k)%nat = bs !! k.
Proof.
  intros ??. unfold store_at.
  rewrite lookup_app_r by (rewrite length_take; lia).
  rewrite lookup_app_l by (rewrite length_take; lia).
  f_equal. rewrite length_take. lia.
Qed.

Lemma store_at_before {A} (buf : list A) (j : nat) (bs : list A) (k : nat) :
  (j <= length buf)%nat -> (k < j)%nat -> store_at buf j bs !! k = buf !! k.
Proof.
  intros ??. unfold store_at.
  rewrite lookup_app_l by (rewrite length_take; lia). by apply lookup_take_lt.
Qed.


Lemma store_at_after {A} (buf : list A) (j : nat) (bs : list A) (k : nat) :
  (j + length bs <= k)%nat -> (j + length bs <= length buf)%nat -> store_at buf j bs !! k = buf !! k.
Proof.
  intros ??. unfold store_at.
  rewrite lookup_app_r by (rewrite length_take; lia).
  rewrite lookup_app_r by (rewrite length_take; lia).
  rewrite lookup_drop, length_take. f_equal. lia.
Qed.

Lemma take_store_at {A} (buf : list A) (j : nat) (bs : list A) :
  (j <= length buf)%nat -> take (j + length bs) (store_at buf j bs) = take j buf ++ bs.
Proof.
  intros Hj. unfold store_at. rewrite app_assoc, take_app_le.
  - apply take_ge. rewrite length_app, length_take. lia.
  - rewrite length_app, length_take. lia.
Qed.

(** ** Programs that call the platform

    A function of the firmware is a tree of the platform calls it makes.
    [E X] is the type of the calls whose answer has type [X].  The answers are
    not fixed: [exec] runs a program against an environment that may choose
    each answer from the whole history of calls. *)

(** Ways of not returning: a failed [assert] or [ESP_ERROR_CHECK], a restart of
    the chip, and a call that waits forever. *)
Inductive halt := Aborted | Restarted | Blocked.

Inductive prog (E : Type -> Type) (A : Type) : Type :=
| Ret (a : A)
| Halt (h : halt)
| Vis {X : Type} (e : E X) (k : X -> prog E A).
Arguments Ret {E A} a.
Arguments Halt {E A} h.
Arguments Vis {E A X} e k.

Fixpoint bind {E A B} (p : prog E A) (f : A -> prog E B) : prog E B :=
  match p with
  | Ret a => f a
  | Halt h => Halt h
  | Vis e k => Vis e (fun x => bind (k x) f)
  end.

Definition call {E X} (e : E X) : prog E X := Vis e Ret.

(** [assert(b)]: [CONFIG_COMPILER_OPTIMIZATION_ASSERTIONS_ENABLE] is set, so a
    false argument aborts. *)
Definition assert_ {E} (b : bool) : prog E unit := if b then Ret tt else Halt Aborted.

Declare Scope fw_scope.
Delimit Scope fw_scope with fw.
Notation "'do' x <- c ; k" := (bind c (fun x => k))
  (at level 10, x name, c at level 100, k at level 200) : fw_scope.
Notation "'do' ' p <- c ; k" := (bind c (fun x => match x with p => k end))
  (at level 10, p pattern, c at level 100, k at level 200) : fw_scope.
Notation "c >> k" := (bind c (fun _ => k))
  (at level 199, right associativity) : fw_scope.
Global Open Scope fw_scope.

(** One call with its answer, and what a run ends with. *)
Inductive event (E : Type -> Type) :=
| Ev {X : Type} (e : E X) (x : X).
Arguments Ev {E X} e x.

Inductive outcome (A : Type) :=
| Done (a : A)
| Stopped (h : halt).
Arguments Done {A} a.
Arguments Stopped {A} h.

Definition env (E : Type -> Type) := list (event E) -> forall X, E X -> X.

(** The calls of a run in order, and its outcome.  [h] is what happened before. *)
Fixpoint exec {E A} (s : env E) (h : list (event E)) (p : prog E A)
  : list (event E) * outcome A :=
  match p with
  | Ret a => ([], Done a)
  | Halt x => ([], Stopped x)
  | Vis e k =>
      let x := s h _ e in
      let '(l, o) := exec s (h ++ [Ev e x]) (k x) in (Ev e x :: l, o)
  end.

(** [always p Q]: whatever the platform answers, the run satisfies [Q]. *)
Definition always {E A} (p : prog E A) (Q : list (event E) -> outcome A -> Prop) : Prop :=
  forall (s : env E) (h : list (event E)), let '(l, o) := exec s h p in Q l o.

(** The verification condition of [always]: quantify over each answer. *)
Fixpoint wp {E A} (p : prog E A) (Q : list (event E) -> outcome A -> Prop) : Prop :=
  match p with
  | Ret a => Q [] (Done a)
  | Halt h => Q [] (Stopped h)
  | Vis e k => forall x, wp (k x) (fun l o => Q (Ev e x :: l) o)
  end.

Section Runs.
Context {E : Type -> Type}.

Lemma wp_always {A} (p : prog E A) Q : wp p Q -> always p Q.
Proof.
  unfold always. intros Hw s h. revert Q h Hw.
  induction p as [a | x | X e k IH]; intros Q h Hw; cbn in *; auto.
  specialize (IH (s h X e) _ (h ++ [Ev e (s h X e)]) (Hw (s h X e))).
  destruct (exec _ _ _). exact IH.
Qed.

Lemma exec_bind {A B} (s : env E) h (q : prog E A) (f : A -> prog E B) :
  exec s h (bind q f) =
  let '(l, o) := exec s h q in
  match o with
  | Done a => let '(l', o') := exec s (h ++ l) (f a) in (l ++ l', o')
  | Stopped x => (l, Stopped x)
  end.
Proof.
  revert h. induction q as [a | x | X e k IH]; intros h; cbn.
  - rewrite app_nil_r. by destruct (exec s h (f a)).
  - done.
  - rewrite IH. destruct (exec s _ (k _)) as [l [a | x]]; [| done].
    rewrite <- app_assoc. cbn. by destruct (exec _ _ (f a)).
Qed.

(** Equal continuations, and nested sequences, run alike. *)
Lemma exec_bind_ext {A B} (s : env E) h (p : prog E A) (f g : A -> prog E B) :
  (forall h a, exec s h (f a) = exec s h (g a)) -> exec s h (bind p f) = exec s h (bind p g).
Proof. intros H. rewrite !exec_bind. destruct (exec s h p) as [l [a|]]; [by rewrite H|done]. Qed.

Lemma exec_bind_assoc {A B C} (s : env E) h (p : prog E A) (f : A -> prog E B) (g : B -> prog E C) :
  exec s h (bind (bind p f) g) = exec s h (bind p (fun a => bind (f a) g)).
Proof.
  rewrite !exec_bind. destruct (exec s h p) as [l [a|]]; [|done]. rewrite exec_bind.
  destruct (exec s (h ++ l) (f a)) as [l' [b|]]; [|done]. rewrite <- !app_assoc.
  destruct (exec s _ (g b)) as [? ?]. by rewrite <- app_assoc.
Qed.

Lemma wp_mono {A} (p : prog E A) (Q R : list (event E) -> outcome A -> Prop) :
  (forall l o, Q l o -> R l o) -> wp p Q -> wp p R.
Proof.
  revert Q R. induction p as [a | x | X e k IH]; intros Q R HQR; cbn; auto.
  intros Hw x. apply (IH x (fun l o => Q (Ev e x :: l) o)); auto.
Qed.

Lemma wp_bind {A B} (p : prog E A) (f : A -> prog E B) Q :
  wp p (fun l o =>
          match o with
          | Done a => wp (f a) (fun l' o' => Q (l ++ l') o')
          | Stopped h => Q l (Stopped h)
          end) ->
  wp (bind p f) Q.
Proof.
  revert Q. induction p as [a | x | X e k IH]; intros Q; cbn; auto.
Qed.

(** Using a specification of the first part of a program. *)
Lemma wp_call {A B} (p : prog E A) (f : A -> prog E B) (S Q : _ -> _ -> Prop) :
  wp p S ->
  (forall l a, S l (Done a) -> wp (f a) (fun l' o' => Q (l ++ l') o')) ->
  (forall l h, S l (Stopped h) -> Q l (Stopped h)) ->
  wp (bind p f) Q.
Proof.
  intros Hp Hd Hs. apply wp_bind. revert Hp. apply wp_mono. intros l [a | h]; auto.
Qed.

Lemma bind_bind {A B C} (p : prog E A) (f : A -> prog E B) (g : B -> prog E C) Q :
  wp (bind p (fun a => bind (f a) g)) Q -> wp (bind (bind p f) g) Q.
Proof.
  revert Q. induction p as [a | x | X e k IH]; intros Q; cbn; auto.
Qed.
End Runs.

(** ** Running a program on a model of the platform

    A handler answers each call from a state of its own; [None] means that the
    call does not return. *)
Fixpoint interp {E S A} (handle : forall X, E X -> S -> option (X * S)) (p : prog E A) (s : S)
  : option (A * S) :=
  match p with
  | Ret a => Some (a, s)
  | Halt _ => None
  | Vis e k => match handle _ e s with Some (x, s) => interp handle (k x) s | None => None end
  end.

Lemma interp_bind {E S A B} (h : forall X, E X -> S -> option (X * S)) (p : prog E A) (f : A -> prog E B) s :
  interp h (bind p f) s =
  match interp h p s with Some (a, s) => interp h (f a) s | None => None end.
Proof.
  revert s. induction p as [a | x | X e k IH]; intros s; cbn; auto.
  destruct (h X e s) as [[x s']|]; auto.
Qed.

(** A component built on another: each call of [E] becomes a program over [F],
    which may keep a state of its own. *)
Fixpoint translate {E F : Type -> Type} {T A} (impl : forall X, E X -> T -> prog F (X * T))
    (p : prog E A) (t : T) : prog F (A * T) :=
  match p with
  | Ret a => Ret (a, t)
  | Halt h => Halt h
  | Vis e k => bind (impl _ e t) (fun '(x, t) => translate impl (k x) t)
  end.

(** ** Power loss

    A run that is cut off leaves the state between two calls, or one that a call
    leaves when it is interrupted ([torn]). *)
Section Cut.
Context {E : Type -> Type} {S : Type}.
Variable handle : forall X, E X -> S -> option (X * S).
Variable torn : forall X, E X -> S -> S -> Prop.

Inductive cut {A} : prog E A -> S -> S -> Prop :=
| cut_here p s : cut p s s
| cut_during X (e : E X) k s s' : torn X e s s' -> cut (Vis e k) s s'
| cut_after X (e : E X) k s x s1 s' :
    handle X e s = Some (x, s1) -> cut (k x) s1 s' -> cut (Vis e k) s s'.

(** [safe I Q p s]: wherever the run of [p] from [s] is cut off the state is in
    [I], and [Q] holds where it returns. *)
Fixpoint safe {A} (I : S -> Prop) (Q : A -> S -> Prop) (p : prog E A) (s : S) : Prop :=
  I s /\
  match p with
  | Ret a => Q a s
  | Halt _ => True
  | Vis e k =>
      (forall s', torn _ e s s' -> I s') /\
      match handle _ e s with Some (x, s1) => safe I Q (k x) s1 | None => True end
  end.

Lemma safe_here {A} I Q (p : prog E A) s : safe I Q p s -> I s.
Proof. destruct p; simpl; tauto. Qed.

(** A property that every call and every torn call keeps. *)
Lemma cut_keeps {A} (I : S -> Prop) (p : prog E A) s s' :
  (forall X (e : E X) s x s', handle X e s = Some (x, s') -> I s -> I s') ->
  (forall X (e : E X) s s', torn X e s s' -> I s -> I s') -> cut p s s' -> I s -> I s'.
Proof. intros Hh Ht Hc. induction Hc; eauto. Qed.

Lemma safe_cut {A} I Q (p : prog E A) s s' : safe I Q p s -> cut p s s' -> I s'.
Proof.
  intros Hs Hc. revert Hs. induction Hc as [p s|X e k s s' Ht|X e k s x s1 s' Hh _ IH]; simpl.
  - apply safe_here.
  - intros (_ & H & _). auto.
  - intros (_ & _ & H). rewrite Hh in H. auto.
Qed.

Lemma safe_interp {A} I Q (p : prog E A) s a s' : safe I Q p s -> interp handle p s = Some (a, s') -> Q a s'.
Proof.
  revert s. induction p as [b|h|X e k IH]; intros s; simpl.
  - intros [_ H] [= <- <-]. done.
  - done.
  - intros (_ & _ & H). destruct (handle X e s) as [[x s1]|]; [|done]. eauto.
Qed.

Lemma safe_bind {A B} I Q (p : prog E A) (f : A -> prog E B) s :
  safe I (fun a s => safe I Q (f a) s) p s -> safe I Q (bind p f) s.
Proof.
  revert s. induction p as [a|h|X e k IH]; intros s; simpl.
  - tauto.
  - tauto.
  - intros (H1 & H2 & H3). split_and!; [done|done|]. destruct (handle X e s) as [[x s1]|]; auto.
Qed.

Lemma safe_bind_inv {A B} I Q (p : prog E A) (f : A -> prog E B) s :
  safe I Q (bind p f) s -> safe I (fun a s => safe I Q (f a) s) p s.
Proof.
  revert s. induction p as [a|h|X e k IH]; intros s; simpl.
  - intros H. split; [by eapply safe_here|done].
  - tauto.
  - intros (H1 & H2 & H3). split_and!; [done|done|]. destruct (handle X e s) as [[x s1]|]; auto.
Qed.

Lemma safe_mono {A} (I J : S -> Prop) (Q R : A -> S -> Prop) (p : prog E A) s :
  (forall s, I s -> J s) -> (forall a s, Q a s -> R a s) -> safe I Q p s -> safe J R p s.
Proof.
  intros HI HQ. revert s. induction p as [a|h|X e k IH]; intros s; simpl.
  - intuition.
  - intuition.
  - intros (H1 & H2 & H3). split_and!; [auto|auto|]. destruct (handle X e s) as [[x s1]|]; auto.
Qed.

Lemma safe_translate_bind {F : Type -> Type} {T A B} (impl : forall X, F X -> T -> prog E (X * T)) I Q
    (p : prog F A) (f : A -> prog F B) t s :
  safe I (fun '(a, t) s => safe I Q (translate impl (f a) t) s) (translate impl p t) s ->
  safe I Q (translate impl (bind p f) t) s.
Proof.
  revert t s. induction p as [a|h|X e k IH]; intros t s; simpl; [tauto|tauto|].
  intros H. apply safe_bind_inv in H. apply safe_bind. revert H. apply safe_mono; [done|].
  intros [x t'] s'. apply IH.
Qed.
End Cut.

Lemma interp_translate_bind {E F S T A B} (h : forall X, E X -> S -> option (X * S))
    (impl : forall X, F X -> T -> prog E (X * T)) (p : prog F A) (f : A -> prog F B) t s :
  interp h (translate impl (bind p f) t) s =
  match interp h (translate impl p t) s with
  | Some ((a, t), s) => interp h (translate impl (f a) t) s
  | None => None
  end.
Proof.
  revert t s. induction p as [a|x|X e k IH]; intros t s; simpl; [done|done|].
  rewrite !interp_bind. destruct (interp h (impl X e t) s) as [[[x t'] s']|]; [apply IH|done].
Qed.

(** ** Automation *)

Create HintDb fw.
#[export] Hint Resolve u8_range u16_range u32_range i32_range : fw.

(** Splits the [if]s, [match]es and boolean tests of a verification condition
    and introduces the platform's answers. *)
Ltac prog_step :=
  match goal with
  | |- wp (Vis _ _) _ => cbn [wp bind]; intro
  | |- wp (Ret _) _ => cbn [wp]
  | |- wp (Halt _) _ => cbn [wp]
  | |- wp (bind (call _) _) _ => cbn [bind call wp]; intro
  | |- wp (call _) _ => cbn [call wp]; intro
  | |- wp (bind (Ret _) _) _ => cbn [bind]
  | |- wp (bind (Halt _) _) _ => cbn [bind]
  | |- wp (bind (assert_ ?b) _) _ => unfold assert_; destruct b eqn:?
  | |- wp (bind (bind _ _) _) _ => apply bind_bind
  | |- wp (let '(_, _) := ?x in _) _ => destruct x eqn:?
  | |- wp (if ?b then _ else _) _ => destruct b eqn:?
  | |- wp (bind (if ?b then _ else _) _) _ => destruct b eqn:?
  | |- wp (match ?x with _ => _ end) _ => destruct x eqn:?
  | |- wp (bind (match ?x with _ => _ end) _) _ => destruct x eqn:?
  end.
Ltac prog_steps := repeat prog_step.

(** Turns boolean comparisons in the context into propositions. *)
Ltac bool_to_prop :=
  repeat match goal with
  | H : (_ =? _) = true |- _ => apply Z.eqb_eq in H
  | H : (_ =? _) = false |- _ => apply Z.eqb_neq in H
  | H : (_ <? _) = true |- _ => apply Z.ltb_lt in H
  | H : (_ <? _) = false |- _ => apply Z.ltb_ge in H
  | H : (_ <=? _) = true |- _ => apply Z.leb_le in H
  | H : (_ <=? _) = false |- _ => apply Z.leb_gt in H
  | H : (_ && _)%bool = true |- _ => apply andb_true_iff in H; destruct H
  | H : (_ || _)%bool = false |- _ => apply orb_false_iff in H; destruct H
  | H : negb _ = true |- _ => apply negb_true_iff in H
  | H : negb _ = false |- _ => apply negb_false_iff in H
  end.
