(* ===== verification/Oprt.v ===== *)
(** * Return codes and constants shared by the adapter

    The [OPERATE_RET] codes of [tuya_error_code.h] the modelled sources return,
    and the ESP-IDF success code they are compared with. *)
From stdpp Require Import base.
From Stdlib Require Import ZArith.
From S2P Require Import Prelude.
Local Open Scope Z_scope.

Definition OPRT_OK : Z := 0.
Definition OPRT_COM_ERROR : Z := -0x1.
Definition OPRT_INVALID_PARM : Z := -0x2.
Definition OPRT_MALLOC_FAILED : Z := -0x3.
Definition OPRT_NOT_SUPPORTED : Z := -0x4.

Definition OPRT_OS_ADAPTER_MUTEX_LOCK_FAILED : Z := -0x6501.
Definition OPRT_OS_ADAPTER_MUTEX_UNLOCK_FAILED : Z := -0x6502.
Definition OPRT_OS_ADAPTER_SEM_CREAT_FAILED : Z := -0x6600.
Definition OPRT_OS_ADAPTER_SEM_WAIT_FAILED : Z := -0x6601.
Definition OPRT_OS_ADAPTER_SEM_POST_FAILED : Z := -0x6602.
Definition OPRT_OS_ADAPTER_QUEUE_CREAT_FAILED : Z := -0x6700.
Definition OPRT_OS_ADAPTER_QUEUE_SEND_FAIL : Z := -0x6701.
Definition OPRT_OS_ADAPTER_QUEUE_RECV_FAIL : Z := -0x6702.
Definition OPRT_OS_ADAPTER_THRD_JUDGE_SELF_FAILED : Z := -0x6802.
Definition OPRT_OS_ADAPTER_INVALID_PARM : Z := -0x6901.

(** ESP-IDF's success code; any other value of an [esp_err_t] is an error. *)
Definition ESP_OK : Z := 0.
Definition esp_failed (err : Z) : bool := negb (err =? ESP_OK).

Lemma esp_failed_true err : esp_failed err = true <-> err <> ESP_OK.
Proof. unfold esp_failed. rewrite negb_true_iff, Z.eqb_neq. reflexivity. Qed.

Lemma esp_failed_false err : esp_failed err = false <-> err = ESP_OK.
Proof. unfold esp_failed. rewrite negb_false_iff, Z.eqb_eq. reflexivity. Qed.
