(* ===== verification/Ota.v ===== *)
(** * Firmware update: [tkl_ota.c]

    The update session of the TuyaOS adapter.  The state is the C global
    [tkl_ota_handle]; the calls are those of ESP-IDF's [esp_ota_ops]. *)
From stdpp Require Import base list.
From Stdlib Require Import ZArith Lia.
From S2P Require Import Prelude Oprt.
Local Open Scope Z_scope.

Module Ota.

Inductive TKL_OTA_STATE_T :=
| TKL_OTA_INIT
| TKL_OTA_BEGIN
| TKL_OTA_IN_PROGRESS
| TKL_OTA_SUCCESS.

#[export] Instance ota_state_eq_dec : EqDecision TKL_OTA_STATE_T.
Proof. solve_decision. Defined.

(** [partition] is the address of an [esp_partition_t], [None] for NULL. *)
Record TKL_OTA_HANDLE_S := mk_handle {
  state : TKL_OTA_STATE_T;
  handle : Z;
  partition : option Z;
  image_size : Z;
  offset_image_size : Z;
}.

Definition TKL_OTA_UPGRADE_HANDLE_INIT : TKL_OTA_HANDLE_S :=
  mk_handle TKL_OTA_INIT 0 None 0 0.

(** The initial value of the global. *)
Definition tkl_ota_handle : TKL_OTA_HANDLE_S := mk_handle TKL_OTA_INIT 0 None 0 0.

Definition IS_TKL_OTA_UPGRADE_IN_PROCESS (s : TKL_OTA_STATE_T) : bool :=
  negb (bool_decide (s = TKL_OTA_INIT)).

(** A packet: [data] is the memory behind the pointer, [len] the field. *)
Record TUYA_OTA_DATA_T := mk_pack {
  total_len : Z;
  offset : Z;
  data : list Z;
  len : Z;
}.

Inductive OtaE : Type -> Type :=
| esp_ota_get_next_update_partition : OtaE (option Z)
| esp_ota_begin (p : option Z) (image_size : Z) : OtaE (Z * Z)
| esp_ota_write (handle : Z) (data : list Z) (len : Z) : OtaE Z
| esp_ota_end (handle : Z) : OtaE Z
| esp_ota_set_boot_partition (p : option Z) : OtaE Z
| esp_restart : OtaE unit.

Definition tkl_ota_start_notify (h : TKL_OTA_HANDLE_S) (size type path : Z)
  : prog OtaE (TKL_OTA_HANDLE_S * Z) :=
  if size =? 0 then Ret (h, OPRT_INVALID_PARM)
  else if IS_TKL_OTA_UPGRADE_IN_PROCESS h.(state) then Ret (h, OPRT_COM_ERROR)
  else
    let h := TKL_OTA_UPGRADE_HANDLE_INIT in
    do next <- call esp_ota_get_next_update_partition;
    let h := mk_handle h.(state) h.(handle) next h.(image_size) h.(offset_image_size) in
    match h.(partition) with
    | None => Ret (h, OPRT_COM_ERROR)
    | Some _ =>
        do '(err, out) <- call (esp_ota_begin h.(partition) size);
        if esp_failed err then
          Ret (mk_handle h.(state) 0 None h.(image_size) h.(offset_image_size), OPRT_COM_ERROR)
        else
          Ret (mk_handle TKL_OTA_BEGIN out h.(partition) size h.(offset_image_size), OPRT_OK)
    end.

(** [remain_len]: [None] is NULL, [Some v] a pointer to a word holding [v]; the
    result carries the word after the call. *)
Definition tkl_ota_data_process (h : TKL_OTA_HANDLE_S)
    (pack : option TUYA_OTA_DATA_T) (remain_len : option Z)
  : prog OtaE (TKL_OTA_HANDLE_S * option Z * Z) :=
  match pack, remain_len with
  | None, _ | _, None => Ret (h, remain_len, OPRT_INVALID_PARM)
  | Some pack, Some _ =>
      if bool_decide (h.(state) = TKL_OTA_INIT) then Ret (h, remain_len, OPRT_COM_ERROR)
      else if bool_decide (h.(state) = TKL_OTA_SUCCESS) then Ret (h, Some 0, OPRT_OK)
      else
        do err <- call (esp_ota_write h.(handle) pack.(data) pack.(len));
        if esp_failed err then Ret (h, remain_len, OPRT_COM_ERROR)
        else
          let off := u32 (h.(offset_image_size) + pack.(len)) in
          let st := if bool_decide (h.(state) = TKL_OTA_BEGIN)
                    then TKL_OTA_IN_PROGRESS else h.(state) in
          let st := if bool_decide (st = TKL_OTA_IN_PROGRESS) && (off =? h.(image_size))
                    then TKL_OTA_SUCCESS else st in
          Ret (mk_handle st h.(handle) h.(partition) h.(image_size) off, remain_len, OPRT_OK)
  end.

Definition tkl_ota_end_notify (h : TKL_OTA_HANDLE_S) (reset : bool)
  : prog OtaE (TKL_OTA_HANDLE_S * Z) :=
  let err_exit := Ret (TKL_OTA_UPGRADE_HANDLE_INIT, OPRT_COM_ERROR) in
  if negb (bool_decide (h.(state) = TKL_OTA_SUCCESS)) then err_exit
  else
    do err <- call (esp_ota_end h.(handle));
    if esp_failed err then err_exit
    else
      do err <- call (esp_ota_set_boot_partition h.(partition));
      if esp_failed err then err_exit
      else if reset then call esp_restart >> Halt Restarted
      else Ret (TKL_OTA_UPGRADE_HANDLE_INIT, OPRT_OK).

Definition TUYA_OTA_FULL : Z := 1.

Definition tkl_ota_get_ability : Z * Z * Z := (0xFFFFFFFF, TUYA_OTA_FULL, OPRT_OK).

(** ** The contract

    An update session as its client sees it: nothing in progress, or a
    partition being filled with the bytes accepted so far. *)
Inductive session :=
| Idle
| Receiving (part : Z) (hd : Z) (size : Z) (bytes : list Z).

Definition packet_bytes (p : TUYA_OTA_DATA_T) : list Z := take (Z.to_nat p.(len)) p.(data).

(** A packet as callers build it: [len] bytes behind the pointer. *)
Definition packet_ok (p : TUYA_OTA_DATA_T) : Prop :=
  p.(len) = Z.of_nat (length p.(data)).

Inductive op :=
| Start (size type path : Z)
| Data (pack : option TUYA_OTA_DATA_T) (remain_len : option Z)
| End (reset : bool).

Definition op_ok (o : op) : Prop :=
  match o with
  | Start size _ _ => 0 <= size < 2 ^ 32
  | Data (Some p) _ => packet_ok p
  | _ => True
  end.

(** Running one entry point; the handle afterwards and the returned code. *)
Definition run_op (h : TKL_OTA_HANDLE_S) (o : op) : prog OtaE (TKL_OTA_HANDLE_S * Z) :=
  match o with
  | Start size type path => tkl_ota_start_notify h size type path
  | Data pack rem =>
      do '(h', _, r) <- tkl_ota_data_process h pack rem; Ret (h', r)
  | End reset => tkl_ota_end_notify h reset
  end.

(** All announced bytes have arrived (the count is a 32-bit word in the code). *)
Definition complete (s : session) : Prop :=
  match s with
  | Idle => False
  | Receiving _ _ size bs => u32 (Z.of_nat (length bs)) = size
  end.

(** Calls that are turned down without touching the platform, with their code. *)
Definition refusal (s : session) (o : op) : option Z :=
  match o, s with
  | Start size _ _, _ =>
      if size =? 0 then Some OPRT_INVALID_PARM
      else match s with Idle => None | Receiving _ _ _ _ => Some OPRT_COM_ERROR end
  | Data None _, _ | Data _ None, _ => Some OPRT_INVALID_PARM
  | Data _ _, Idle => Some OPRT_COM_ERROR
  | _, _ => None
  end.

(** What the session does when an entry point makes the calls [log] and
    returns [r]. *)
Inductive session_step : session -> op -> list (event OtaE) -> Z -> session -> Prop :=
| step_refused s o r :
    refusal s o = Some r -> session_step s o [] r s
| step_no_partition size ty path :
    size <> 0 ->
    session_step Idle (Start size ty path)
      [Ev esp_ota_get_next_update_partition None] OPRT_COM_ERROR Idle
| step_begin_failed size ty path part err hd :
    size <> 0 -> err <> ESP_OK ->
    session_step Idle (Start size ty path)
      [Ev esp_ota_get_next_update_partition (Some part);
       Ev (esp_ota_begin (Some part) size) (err, hd)] OPRT_COM_ERROR Idle
| step_started size ty path part hd :
    size <> 0 ->
    session_step Idle (Start size ty path)
      [Ev esp_ota_get_next_update_partition (Some part);
       Ev (esp_ota_begin (Some part) size) (ESP_OK, hd)]
      OPRT_OK (Receiving part hd size [])
| step_write_failed part hd size bs p rem err :
    ~ complete (Receiving part hd size bs) -> err <> ESP_OK ->
    session_step (Receiving part hd size bs) (Data (Some p) (Some rem))
      [Ev (esp_ota_write hd p.(data) p.(len)) err] OPRT_COM_ERROR (Receiving part hd size bs)
| step_written part hd size bs p rem :
    ~ complete (Receiving part hd size bs) ->
    session_step (Receiving part hd size bs) (Data (Some p) (Some rem))
      [Ev (esp_ota_write hd p.(data) p.(len)) ESP_OK]
      OPRT_OK (Receiving part hd size (bs ++ packet_bytes p))
| step_full part hd size bs p rem :
    complete (Receiving part hd size bs) ->
    session_step (Receiving part hd size bs) (Data (Some p) (Some rem))
      [] OPRT_OK (Receiving part hd size bs)
| step_dropped s reset :
    ~ complete s -> session_step s (End reset) [] OPRT_COM_ERROR Idle
| step_end_failed part hd size bs reset err :
    complete (Receiving part hd size bs) -> err <> ESP_OK ->
    session_step (Receiving part hd size bs) (End reset)
      [Ev (esp_ota_end hd) err] OPRT_COM_ERROR Idle
| step_boot_failed part hd size bs reset err :
    complete (Receiving part hd size bs) -> err <> ESP_OK ->
    session_step (Receiving part hd size bs) (End reset)
      [Ev (esp_ota_end hd) ESP_OK; Ev (esp_ota_set_boot_partition (Some part)) err]
      OPRT_COM_ERROR Idle
| step_booted part hd size bs :
    complete (Receiving part hd size bs) ->
    session_step (Receiving part hd size bs) (End false)
      [Ev (esp_ota_end hd) ESP_OK; Ev (esp_ota_set_boot_partition (Some part)) ESP_OK]
      OPRT_OK Idle.

(** The only way an entry point does not return: [End true] on a complete
    session restarts the chip after the boot partition was switched. *)
Definition restarts (s : session) (o : op) (log : list (event OtaE)) : Prop :=
  match s with
  | Idle => False
  | Receiving part hd _ _ =>
      complete s /\ o = End true /\
      log = [Ev (esp_ota_end hd) ESP_OK; Ev (esp_ota_set_boot_partition (Some part)) ESP_OK;
             Ev esp_restart tt]
  end.

(** The abstraction relation between the C global and the session. *)
Inductive represents : TKL_OTA_HANDLE_S -> session -> Prop :=
| repr_idle : represents TKL_OTA_UPGRADE_HANDLE_INIT Idle
| repr_begin part hd size :
    size <> 0 -> 0 <= size < 2 ^ 32 ->
    represents (mk_handle TKL_OTA_BEGIN hd (Some part) size 0) (Receiving part hd size [])
| repr_progress part hd size bs :
    size <> 0 -> 0 <= size < 2 ^ 32 -> u32 (Z.of_nat (length bs)) <> size ->
    represents (mk_handle TKL_OTA_IN_PROGRESS hd (Some part) size (u32 (Z.of_nat (length bs))))
      (Receiving part hd size bs)
| repr_success part hd size bs :
    size <> 0 -> 0 <= size < 2 ^ 32 -> u32 (Z.of_nat (length bs)) = size ->
    represents (mk_handle TKL_OTA_SUCCESS hd (Some part) size size) (Receiving part hd size bs).

#[local] Hint Constructors session_step represents : fw.

Lemma packet_bytes_ok p : packet_ok p -> packet_bytes p = p.(data).
Proof. unfold packet_ok, packet_bytes. intros ->. rewrite Nat2Z.id. apply firstn_all. Qed.

(** Accounting of the bytes: the counter in the handle stays the number of
    bytes accepted, modulo the width of [unsigned int]. *)
Lemma offset_advances bs p :
  packet_ok p ->
  u32 (u32 (Z.of_nat (length bs)) + p.(len)) = u32 (Z.of_nat (length (bs ++ packet_bytes p))).
Proof.
  intros Hp. rewrite packet_bytes_ok by done. unfold packet_ok in Hp.
  rewrite u32_add_l, length_app, Hp, Nat2Z.inj_add. reflexivity.
Qed.

Definition simulates (s : session) (o : op) (log : list (event OtaE))
    (out : outcome (TKL_OTA_HANDLE_S * Z)) : Prop :=
  match out with
  | Done (h', r) => exists s', session_step s o log r s' /\ represents h' s'
  | Stopped h => h = Restarted /\ restarts s o log
  end.

Lemma start_simulates h s size ty path :
  represents h s -> 0 <= size < 2 ^ 32 ->
  wp (tkl_ota_start_notify h size ty path) (simulates s (Start size ty path)).
Proof.
  intros Hr Hs. unfold tkl_ota_start_notify.
  destruct (size =? 0) eqn:Hz; bool_to_prop; subst; cbn.
  { exists s. split; [by constructor | done]. }
  assert (Hz' : (size =? 0) = false) by (by apply Z.eqb_neq).
  destruct Hr; cbn; [| eexists; (split; [apply step_refused; cbn; by rewrite Hz' | eauto with fw])..].
  intros [part |]; cbn; [| eauto with fw].
  intros [err hd]. destruct (esp_failed err) eqn:He; cbn.
  - apply esp_failed_true in He. eauto with fw.
  - apply esp_failed_false in He as ->. exists (Receiving part hd size []). auto with fw.
Qed.

(** A packet accepted before the image is complete, from either running state. *)
Lemma represents_written st part hd size bs :
  size <> 0 -> 0 <= size < 2 ^ 32 ->
  st = TKL_OTA_IN_PROGRESS ->
  represents
    (mk_handle (if bool_decide (st = TKL_OTA_IN_PROGRESS) && (u32 (Z.of_nat (length bs)) =? size)
                then TKL_OTA_SUCCESS else st)
       hd (Some part) size (u32 (Z.of_nat (length bs))))
    (Receiving part hd size bs).
Proof.
  intros Hz Hs ->. rewrite bool_decide_eq_true_2 by done. cbn [andb].
  destruct (_ =? size) eqn:Hf; bool_to_prop.
  - rewrite Hf. by constructor.
  - by constructor.
Qed.

Lemma data_simulates h s pack rem :
  represents h s -> op_ok (Data pack rem) ->
  wp (run_op h (Data pack rem)) (simulates s (Data pack rem)).
Proof.
  intros Hr Hok. unfold run_op, tkl_ota_data_process.
  destruct pack as [p |]; [| cbn; exists s; split; [by constructor | done]].
  destruct rem as [v |]; [| cbn; exists s; split; [by constructor | done]].
  destruct Hr as [| part hd size Hz Hs | part hd size bs Hz Hs Hn | part hd size bs Hz Hs Hc].
  - exists Idle. split; constructor. done.
  - cbn. intros err. destruct (esp_failed err) eqn:He; cbn.
    + apply esp_failed_true in He. eexists. split; [by apply step_write_failed | by constructor].
    + apply esp_failed_false in He as ->. exists (Receiving part hd size (packet_bytes p)).
      rewrite (offset_advances [] p Hok : u32 (0 + len p) = _).
      split; [by apply (step_written _ _ _ []) | by apply (represents_written TKL_OTA_IN_PROGRESS)].
  - cbn. intros err. destruct (esp_failed err) eqn:He; cbn.
    + apply esp_failed_true in He. eexists. split; [by apply step_write_failed | by constructor].
    + apply esp_failed_false in He as ->. exists (Receiving part hd size (bs ++ packet_bytes p)).
      rewrite offset_advances by done.
      split; [by apply step_written | by apply (represents_written TKL_OTA_IN_PROGRESS)].
  - exists (Receiving part hd size bs). split; [by apply step_full | by constructor].
Qed.

Lemma end_simulates h s reset :
  represents h s -> wp (tkl_ota_end_notify h reset) (simulates s (End reset)).
Proof.
  intros Hr. unfold tkl_ota_end_notify.
  destruct Hr; cbn; [eexists; split; [apply step_dropped; cbn; auto | constructor].. |].
  intros err. destruct (esp_failed err) eqn:He; cbn.
  { apply esp_failed_true in He. eexists. split; [by apply step_end_failed | constructor]. }
  apply esp_failed_false in He as ->. intros err.
  destruct (esp_failed err) eqn:He; cbn.
  { apply esp_failed_true in He. eexists. split; [by apply step_boot_failed | constructor]. }
  apply esp_failed_false in He as ->.
  destruct reset; cbn.
  - intros []. auto.
  - eexists. split; [by apply step_booted | constructor].
Qed.

Lemma run_op_simulates h s o :
  represents h s -> op_ok o -> wp (run_op h o) (simulates s o).
Proof.
  intros Hr Hok. destruct o as [size ty path | pack rem | reset].
  - by apply start_simulates.
  - by apply data_simulates.
  - by apply end_simulates.
Qed.

(** *** Sequences of calls *)

Fixpoint run_ops (h : TKL_OTA_HANDLE_S) (os : list op)
  : prog OtaE (TKL_OTA_HANDLE_S * list Z) :=
  match os with
  | [] => Ret (h, [])
  | o :: os =>
      do '(h, r) <- run_op h o;
      do '(h, rs) <- run_ops h os;
      Ret (h, r :: rs)
  end.

(** The last transfer a log has begun: partition, handle, announced size, the bytes
    accepted for that handle since, and whether [esp_ota_end] has accepted the image
    after them. *)
Definition transfer : Type := Z * Z * Z * list Z * bool.

Definition transfer_step (t : option transfer) (ev : event OtaE) : option transfer :=
  match ev with
  | Ev e x =>
      match e in OtaE X return X -> option transfer with
      | esp_ota_begin (Some p) size =>
          fun '(err, hd) => if err =? ESP_OK then Some (p, hd, size, [], false) else t
      | esp_ota_write hd bs n =>
          fun err =>
            match t with
            | Some (p, hd', size, acc, _) =>
                if (hd =? hd') && (err =? ESP_OK)
                then Some (p, hd', size, acc ++ take (Z.to_nat n) bs, false) else t
            | None => None
            end
      | esp_ota_end hd =>
          fun err =>
            match t with
            | Some (p, hd', size, acc, ended) => if hd =? hd' then Some (p, hd', size, acc, err =? ESP_OK) else t
            | None => None
            end
      | _ => fun _ => t
      end x
  end.

(** Every switch of the boot partition in the log selects the partition of the
    last transfer, and only when all its announced bytes were accepted and
    [esp_ota_end] has accepted the image. *)
Fixpoint boot_safe (t : option transfer) (log : list (event OtaE)) : Prop :=
  match log with
  | [] => True
  | Ev e x :: l =>
      match e with
      | esp_ota_set_boot_partition q =>
          exists p hd size bs,
            t = Some (p, hd, size, bs, true) /\ q = Some p /\ u32 (Z.of_nat (length bs)) = size
      | _ => True
      end /\ boot_safe (transfer_step t (Ev e x)) l
  end.

(** The log agrees with the session it drives. *)
Definition tracks (t : option transfer) (s : session) : Prop :=
  match s with
  | Idle => True
  | Receiving p hd size bs => t = Some (p, hd, size, bs, false)
  end.

Lemma boot_safe_app t l1 l2 :
  boot_safe t (l1 ++ l2) <-> boot_safe t l1 /\ boot_safe (foldl transfer_step t l1) l2.
Proof.
  revert t. induction l1 as [| [X e x] l1 IH]; intros t; cbn; [tauto |].
  rewrite IH. tauto.
Qed.

Lemma session_step_safe s o log r s' t :
  session_step s o log r s' -> tracks t s ->
  boot_safe t log /\ tracks (foldl transfer_step t log) s'.
Proof.
  destruct 1; cbn; intros Ht; rewrite ?Ht; cbn; rewrite ?Z.eqb_refl; cbn;
    rewrite ?(proj2 (Z.eqb_neq err ESP_OK)) by done; cbn; auto 6.
  all: split; [split; [| split; [| done]] | done]; [done | repeat eexists; auto].
Qed.

Lemma restarts_safe s o log t :
  restarts s o log -> tracks t s -> boot_safe t log.
Proof.
  destruct s as [| p hd size bs]; cbn; [tauto |].
  intros (Hc & -> & ->) ->. cbn. rewrite Z.eqb_refl. repeat split; auto. repeat eexists; auto.
Qed.

Lemma run_ops_boot_safe os h s t :
  represents h s -> tracks t s -> Forall op_ok os ->
  wp (run_ops h os) (fun log _ => boot_safe t log).
Proof.
  revert h s t. induction os as [| o os IH]; intros h s t Hr Ht Hok; [done |].
  apply Forall_cons in Hok as [Ho Hok]. cbn.
  apply (wp_call _ _ _ _ (run_op_simulates h s o Hr Ho)).
  - intros l [h' r] (s' & Hstep & Hr').
    destruct (session_step_safe _ _ _ _ _ t Hstep Ht) as [Hsafe Ht'].
    apply (wp_call _ _ _ _ (IH h' s' _ Hr' Ht' Hok)).
    + intros l' [h'' rs] Hl'. cbn. rewrite app_nil_r, boot_safe_app. done.
    + intros l' x Hl'. by rewrite boot_safe_app.
  - intros l x [_ Hrs]. by apply (restarts_safe s o).
Qed.

(** *** A complete update *)

(** A platform on which every call succeeds. *)
Definition good_env (p hd : Z) : env OtaE := fun _ X e =>
  match e in OtaE X return X with
  | esp_ota_get_next_update_partition => Some p
  | esp_ota_begin _ _ => (ESP_OK, hd)
  | esp_ota_write _ _ _ => ESP_OK
  | esp_ota_end _ => ESP_OK
  | esp_ota_set_boot_partition _ => ESP_OK
  | esp_restart => tt
  end.

Definition data_op (pk : TUYA_OTA_DATA_T) : op := Data (Some pk) (Some 0).

(** The calls and codes of a transfer that still has [packs] to come. *)
Definition finishes (p hd size : Z) (bs : list Z) (packs : list TUYA_OTA_DATA_T)
    (run : list (event OtaE) * outcome (TKL_OTA_HANDLE_S * list Z)) : Prop :=
  run.2 = Done (TKL_OTA_UPGRADE_HANDLE_INIT, replicate (S (length packs)) OPRT_OK) /\
  foldl transfer_step (Some (p, hd, size, bs, false)) run.1
    = Some (p, hd, size, bs ++ concat (map data packs), true) /\
  Ev (esp_ota_set_boot_partition (Some p)) ESP_OK ∈ run.1.

Lemma start_good p hd size ty path hist :
  size <> 0 ->
  exec (good_env p hd) hist (tkl_ota_start_notify tkl_ota_handle size ty path) =
  ([Ev esp_ota_get_next_update_partition (Some p); Ev (esp_ota_begin (Some p) size) (ESP_OK, hd)],
   Done (mk_handle TKL_OTA_BEGIN hd (Some p) size 0, OPRT_OK)).
Proof.
  intros Hz. unfold tkl_ota_start_notify. rewrite (proj2 (Z.eqb_neq size 0)) by done. reflexivity.
Qed.

Lemma data_op_good h p hd size bs pk hist :
  represents h (Receiving p hd size bs) -> packet_ok pk ->
  exists l h',
    exec (good_env p hd) hist (run_op h (data_op pk)) = (l, Done (h', OPRT_OK)) /\
    ((complete (Receiving p hd size bs) /\ l = [] /\ h' = h) \/
     (~ complete (Receiving p hd size bs) /\
      l = [Ev (esp_ota_write hd pk.(data) pk.(len)) ESP_OK] /\
      represents h' (Receiving p hd size (bs ++ pk.(data))))).
Proof.
  intros Hr Hp.
  pose proof (wp_always _ _ (run_op_simulates h _ (data_op pk) Hr Hp) (good_env p hd) hist) as Hsim.
  assert (He : exists l h', exec (good_env p hd) hist (run_op h (data_op pk)) = (l, Done (h', OPRT_OK)))
    by (inversion Hr; subst; cbn; eauto).
  destruct He as (l & h' & He). rewrite He in Hsim |- *. exists l, h'. split; [done |].
  destruct Hsim as (s' & Hstep & Hr'). inversion Hstep; subst; try done.
  - right. rewrite packet_bytes_ok in Hr' by done. auto.
  - left. inversion Hr; subst; cbn in *; try done; by inversion He.
Qed.

Lemma finish_from packs h p hd size bs hist :
  represents h (Receiving p hd size bs) -> Forall packet_ok packs ->
  Z.of_nat (length bs + length (concat (map data packs))) = size -> size < 2 ^ 32 ->
  finishes p hd size bs packs
    (exec (good_env p hd) hist (run_ops h (map data_op packs ++ [End false]))).
Proof.
  revert h bs hist. induction packs as [| pk packs IH]; intros h bs hist Hr Hok Hlen Hlt.
  - cbn in Hlen. assert (Hc : u32 (Z.of_nat (length bs)) = size) by (rewrite u32_small; lia).
    inversion Hr; subst; cbn in *; try done.
    repeat split; [| right; left].
    unfold tkl_ota_end_notify. rewrite bool_decide_true by done. cbn.
    by rewrite Z.eqb_refl, app_nil_r.
  - apply Forall_cons in Hok as [Hp Hok]. cbn [map concat] in Hlen. rewrite length_app in Hlen.
    destruct (data_op_good h p hd size bs pk hist Hr Hp) as (l & h' & He & Hcases).
    cbn [map app run_ops]. rewrite exec_bind, He. cbn [fst snd].
    assert (Hnext : represents h' (Receiving p hd size (bs ++ pk.(data)))).
    { destruct Hcases as [(Hc & _ & ->) | (_ & _ & Hr')]; [| done].
      cbn in Hc. rewrite u32_small in Hc by lia.
      destruct (data pk); [by rewrite app_nil_r | cbn in Hlen; lia]. }
    specialize (IH h' (bs ++ pk.(data)) (hist ++ l) Hnext Hok).
    rewrite length_app, <- Nat.add_assoc in IH. specialize (IH Hlen Hlt).
    destruct IH as (Ho & Ht & Hb). rewrite exec_bind.
    destruct (exec _ (hist ++ l) _) as [l' o]. cbn [fst snd] in *. subst o. cbn.
    rewrite app_nil_r. unfold finishes. cbn [fst snd]. repeat split.
    + rewrite foldl_app.
      replace (foldl transfer_step (Some (p, hd, size, bs, false)) l)
        with (Some (p, hd, size, bs ++ pk.(data), false)); [by rewrite <- app_assoc in Ht |].
      destruct Hcases as [(Hc & -> & _) | (_ & -> & _)]; cbn.
      * cbn in Hc. rewrite u32_small in Hc by lia.
        destruct (data pk); [by rewrite app_nil_r | cbn in Hlen; lia].
      * rewrite Z.eqb_refl. cbn. fold (packet_bytes pk). by rewrite packet_bytes_ok.
    + apply elem_of_app. by right.
Qed.

(** ** Properties *)

(** C9: whatever entry points are called in whatever order, and whatever
    ESP-IDF answers, the adapter switches the boot partition only to the
    partition of the transfer it began last, and only after exactly the
    announced number of image bytes (modulo the 32-bit counter) was accepted for it
    and [esp_ota_end] then accepted the image.  The packets have as many bytes as
    they say. *)
Theorem ota_boot_switch_safe os :
  Forall op_ok os ->
  always (run_ops tkl_ota_handle os) (fun log _ => boot_safe None log).
Proof. intros Hok. apply wp_always, (run_ops_boot_safe os _ Idle); [constructor | done | done]. Qed.

Definition example_pack (bs : list Z) : TUYA_OTA_DATA_T :=
  mk_pack 3 0 bs (Z.of_nat (length bs)).

Lemma ota_boot_switch_safe_witness :
  always (run_ops tkl_ota_handle
            [Start 3 1 0; data_op (example_pack [233; 1]); data_op (example_pack [2]); End true])
    (fun log _ => boot_safe None log).
Proof. apply ota_boot_switch_safe. repeat constructor; done. Defined.

(** C10: every entry point, from a handle that represents a session, makes the
    calls, returns the code and leaves the session that the contract
    [session_step] prescribes, on success and on every error path; it does not
    return only when it restarts the chip after a completed update. *)
Theorem ota_refines_session h s o :
  represents h s -> op_ok o -> always (run_op h o) (simulates s o).
Proof. intros Hr Hok. by apply wp_always, run_op_simulates. Qed.

Lemma ota_refines_session_witness :
  always (run_op (mk_handle TKL_OTA_IN_PROGRESS 7 (Some 1) 3 2) (data_op (example_pack [2])))
    (simulates (Receiving 1 7 3 [233; 1]) (data_op (example_pack [2]))).
Proof.
  apply ota_refines_session; [| done].
  by apply (repr_progress 1 7 3 [233; 1]).
Defined.

(** C11: when the platform accepts every call, an image split into packets in any
    way is accepted packet by packet, ends up in the partition byte for byte in
    order, is ended, becomes the boot image, and the handle is ready for another update. *)
Theorem ota_full_update p hd ty path packs :
  Forall packet_ok packs ->
  0 < Z.of_nat (length (concat (map data packs))) < 2 ^ 32 ->
  let size := Z.of_nat (length (concat (map data packs))) in
  let '(log, out) :=
    exec (good_env p hd) []
      (run_ops tkl_ota_handle (Start size ty path :: map data_op packs ++ [End false])) in
  out = Done (TKL_OTA_UPGRADE_HANDLE_INIT, replicate (2 + length packs) OPRT_OK) /\
  foldl transfer_step None log = Some (p, hd, size, concat (map data packs), true) /\
  Ev (esp_ota_set_boot_partition (Some p)) ESP_OK ∈ log.
Proof.
  intros Hok Hlen size. cbn [run_ops run_op].
  assert (Hr : represents (mk_handle TKL_OTA_BEGIN hd (Some p) size 0) (Receiving p hd size []))
    by (constructor; lia).
  rewrite exec_bind, start_good by lia. cbn [app]. rewrite exec_bind.
  pose proof (fun hist => finish_from packs _ p hd size [] hist Hr Hok eq_refl ltac:(lia)) as Hf.
  match goal with |- context [exec (good_env p hd) ?hist _] => specialize (Hf hist) end.
  destruct Hf as (Ho & Ht & Hb).
  destruct (exec _ _ _) as [l o]. cbn [fst snd] in *. subst o. cbn.
  rewrite app_nil_r. repeat split; [done |]. right. by right.
Qed.

Lemma ota_full_update_witness :
  let packs := [example_pack [233; 1]; example_pack []; example_pack [2]] in
  let '(log, out) :=
    exec (good_env 65536 1) []
      (run_ops tkl_ota_handle (Start 3 1 0 :: map data_op packs ++ [End false])) in
  out = Done (TKL_OTA_UPGRADE_HANDLE_INIT, replicate 5 OPRT_OK) /\
  foldl transfer_step None log = Some (65536, 1, 3, [233; 1; 2], true) /\
  Ev (esp_ota_set_boot_partition (Some 65536)) ESP_OK ∈ log.
Proof.
  apply (ota_full_update 65536 1 1 0 [example_pack [233; 1]; example_pack []; example_pack [2]]).
  - repeat constructor.
  - cbn. lia.
Defined.

End Ota.
