(* ===== verification/MjpegCodec.v ===== *)
(** * Frame extraction: [MjpegCodec::read_frame]

    The part of [MjpegCodec.cpp] that cuts a motion-JPEG file into frames, and
    the abstract stream it reads from. *)
From stdpp Require Import base list.
From Stdlib Require Import ZArith Lia.
From S2P Require Import Prelude.
Local Open Scope Z_scope.

(** ** The stream

    [Stream::readBytes] of the Arduino core: for a file it delivers the next
    bytes, as many as were asked for or as many as are left. *)
Class Stream (S : Type) := {
  contents : S -> list Z;
  readBytes : S -> nat -> list Z * S;
  readBytes_data s n : (readBytes s n).1 = take n (contents s);
  readBytes_rest s n : contents (readBytes s n).2 = drop n (contents s);
}.

(** A file as the list of the bytes still to be read. *)
#[refine] Instance file_stream : Stream (list Z) := {
  contents s := s;
  readBytes s n := (take n s, drop n s);
}.
Proof. all: done. Defined.

Definition READ_BUFFER_SIZE : nat := 1024.
Definition MJPEG_DECODER_BUF_SIZE : nat := 320 * 240 * 2 / 8.

Arguments READ_BUFFER_SIZE : simpl never.
Arguments MJPEG_DECODER_BUF_SIZE : simpl never.

(** The input state of the codec object.  [m_buf_read] is an [int32_t] and can
    go negative; the buffer always has [READ_BUFFER_SIZE] bytes. *)
Record input := mk_input {
  m_buf_read : Z;
  m_read_buf_offset : Z;
  m_input_index : Z;
  m_read_buf : list Z;
}.

Definition reset_input_status (c : input) : input := mk_input 0 0 0 c.(m_read_buf).

(** What a call returns: no buffer could be allocated, the buffer was freed and
    [nullptr] returned, or the buffer holding the frame. *)
Inductive frame :=
| NoBuffer
| FreedNull
| Frame (data : list Z).

Section Codec.
Context {S : Type} `{!Stream S}.

(** The bytes of the object behind [m_read_buf]: the scan looks one byte past
    what was read. *)
Variable beyond : nat -> Z.

(** The answers of the allocator. *)
Variable malloc_ok : bool.
Variable realloc_ok : nat -> bool.

Definition buf_at (buf : list Z) (j : nat) : Z :=
  match buf !! j with
  | Some b => b
  | None => beyond (j - length buf)
  end.

(** [len] bytes starting at [j], as [memcpy] reads them. *)
Definition buf_slice (buf : list Z) (j len : nat) : list Z :=
  map (buf_at buf) (seq j len).

(** Lines 49-56: look for FF D8; [i] is one past the match when found. *)
Fixpoint soi_scan (fuel : nat) (buf : list Z) (n i : nat) : nat * bool :=
  match fuel with
  | O => (i, false)
  | Datatypes.S fuel =>
      if (i <? n)%nat then
        if (buf_at buf i =? 0xFF) && (buf_at buf (i + 1) =? 0xD8)
        then ((i + 1)%nat, true)
        else soi_scan fuel buf n (i + 1)
      else (i, false)
  end.

(** Lines 47-62: refill until the marker is found or the stream ends. *)
Fixpoint soi_loop (fuel : nat) (buf : list Z) (s : S) (n i : nat)
  : option (list Z * S * nat * nat * bool) :=
  match fuel with
  | O => None
  | Datatypes.S fuel =>
      if (0 <? n)%nat then
        let '(i, found) := soi_scan n buf n 0 in
        if found then Some (buf, s, n, (i - 1)%nat, true)
        else
          let '(bs, s) := readBytes s READ_BUFFER_SIZE in
          soi_loop fuel (store_at buf 0 bs) s (length bs) i
      else Some (buf, s, n, i, false)
  end.

(** Lines 74-81: look for FF D9 from [_p = m_read_buf + base]; [i] is one past
    the trailer when found. *)
Fixpoint eoi_scan (fuel : nat) (buf : list Z) (base n i : nat) : nat * bool :=
  match fuel with
  | O => (i, false)
  | Datatypes.S fuel =>
      if (i <? n)%nat then
        if (buf_at buf (base + i) =? 0xFF) && (buf_at buf (base + i + 1) =? 0xD9)
        then ((i + 2)%nat, true)
        else eoi_scan fuel buf base n (i + 1)
      else (i, false)
  end.

(** Lines 97-109: [i] bytes are used up; the unread ones move to the front and
    the buffer is filled up.  [memcpy] inside [m_read_buf] is taken to move the
    bytes as [memmove] does. *)
Definition advance (buf : list Z) (s : S) (base n i : nat) (index : Z) : list Z * S * nat * Z :=
  if (i <? n)%nat then
    let o := (n - i)%nat in
    let buf := store_at buf 0 (buf_slice buf (base + i) o) in
    let '(bs, s) := readBytes s (READ_BUFFER_SIZE - o) in
    (store_at buf o bs, s, (length bs + o)%nat, u32 (index + Z.of_nat (length bs)))
  else
    let '(bs, s) := readBytes s READ_BUFFER_SIZE in
    (store_at buf 0 bs, s, length bs, u32 (index + Z.of_nat (length bs))).

(** Lines 68-112, the loop that copies the frame.  [data] holds the
    [m_read_buf_offset] bytes copied so far. *)
Fixpoint eoi_loop (fuel : nat) (buf : list Z) (s : S) (base n i : nat)
    (index : Z) (data : list Z) (data_size : nat)
  : option (input * S * frame) :=
  match fuel with
  | O => None
  | Datatypes.S fuel =>
      let off := length data in
      if (0 <? n)%nat then
        let '(i, found) :=
          if (0 <? off)%nat && (List.last data 0 =? 0xFF) && (buf_at buf base =? 0xD9)
          then (i, true)
          else eoi_scan n buf base n i in
        let grow := (data_size <? off + i)%nat in
        if grow && negb (realloc_ok (off + i)) then
          Some (mk_input (Z.of_nat n) (Z.of_nat off) index buf, s, FreedNull)
        else
          let data_size := if grow then (off + i)%nat else data_size in
          let data := data ++ buf_slice buf base i in
          let '(buf, s, n, index) := advance buf s base n i index in
          let c := mk_input (Z.of_nat n) (Z.of_nat (length data)) index buf in
          if found then
            if (data_size <? length data)%nat then Some (c, s, FreedNull)
            else Some (c, s, Frame data)
          else eoi_loop fuel buf s 0 n 0 index data data_size
      else
        Some (mk_input (Z.of_nat n) (Z.of_nat off) index buf, s, FreedNull)
  end.

(** Lines 39-42: a file not started yet is read from its beginning. *)
Definition loaded (c : input) (s : S) : input * S :=
  if c.(m_input_index) =? 0 then
    let '(bs, s) := readBytes s READ_BUFFER_SIZE in
    (mk_input (Z.of_nat (length bs)) c.(m_read_buf_offset)
       (u32 (c.(m_input_index) + Z.of_nat (length bs))) (store_at c.(m_read_buf) 0 bs), s)
  else (c, s).

(** [None] means out of fuel; [read_frame_returns] below shows how much suffices. *)
Definition read_frame (fuel : nat) (c : input) (s : S) : option (input * S * frame) :=
  if negb malloc_ok then Some (c, s, NoBuffer)
  else
    let data_size := MJPEG_DECODER_BUF_SIZE in
    let '(c, s) := loaded c s in
    match soi_loop fuel c.(m_read_buf) s (Z.to_nat c.(m_buf_read)) 0 with
    | None => None
    | Some (buf, s, n, i, found) =>
        let left := (if 0 <? c.(m_buf_read) then Z.of_nat n else c.(m_buf_read)) - Z.of_nat i in
        if 0 <? left then
          eoi_loop fuel buf s i (Z.to_nat left) 3 c.(m_input_index) [] data_size
        else Some (mk_input left 0 c.(m_input_index) buf, s, FreedNull)
    end.
(** [calls] calls in a row, with the answers they gave. *)
Fixpoint read_frames (calls fuel : nat) (c : input) (s : S) : option (list frame * input * S) :=
  match calls with
  | O => Some ([], c, s)
  | Datatypes.S calls =>
      match read_frame fuel c s with
      | None => None
      | Some (c, s, r) =>
          match read_frames calls fuel c s with
          | None => None
          | Some (rs, c, s) => Some (r :: rs, c, s)
          end
      end
  end.
End Codec.

(** ** Specification vocabulary *)

(** A marker FF [b] at position [j]. *)
Definition marker (l : list Z) (j : nat) (b : Z) : Prop :=
  l !! j = Some 0xFF /\ l !! (j + 1)%nat = Some b.

(** A JPEG image as the reader recognises one: it opens with FF D8, ends with
    FF D9, and has no other FF D9 from its fourth byte on (entropy-coded data
    escapes FF as FF 00). *)
Record is_frame (f : list Z) : Prop := {
  frame_long : (5 <= length f)%nat;
  frame_soi : marker f 0 0xD8;
  frame_eoi : marker f (length f - 2) 0xD9;
  frame_only j : (3 <= j < length f - 2)%nat -> ~ marker f j 0xD9;
}.

(** The frame starts [k] bytes into the read buffer: does a buffer end between
    the two bytes of its trailer? *)
Definition trailer_split (k : nat) (f : list Z) : bool :=
  ((k + length f - 1) mod READ_BUFFER_SIZE =? 0)%nat.

(** What is handed to the decoder, and what stays in front of the next frame. *)
Definition delivered (k : nat) (f : list Z) : list Z :=
  if trailer_split k f then removelast f else f.

Definition leftover (k : nat) (f : list Z) : list Z :=
  if trailer_split k f then [0xD9] else [].

(** The frames of a file, as they are handed out one after the other. *)
Fixpoint delivered_all (k : nat) (fs : list (list Z)) : list (list Z) :=
  match fs with
  | [] => []
  | f :: fs => delivered k f :: delivered_all (length (leftover k f)) fs
  end.

(** The read buffer from [base] holds the next [n] bytes of [bytes], the stream
    the others; the buffer is full unless the stream is exhausted. *)
Record window {S} `{!Stream S} (buf : list Z) (base n : nat) (s : S) (bytes : list Z) : Prop := {
  window_size : length buf = READ_BUFFER_SIZE;
  window_base : (base <= READ_BUFFER_SIZE)%nat;
  window_full : n = Nat.min (READ_BUFFER_SIZE - base) (length bytes);
  window_held j : (j < n)%nat -> buf !! (base + j)%nat = bytes !! j;
  window_rest : contents s = drop n bytes;
}.

(** Between two calls: [bytes] are what the file still has to offer. *)
Definition ready {S} `{!Stream S} (c : input) (s : S) (bytes : list Z) : Prop :=
  length c.(m_read_buf) = READ_BUFFER_SIZE /\
  0 <= c.(m_input_index) /\ c.(m_input_index) + Z.of_nat (length (contents s)) < 2 ^ 32 /\
  if c.(m_input_index) =? 0 then contents s = bytes
  else window c.(m_read_buf) 0 (Z.to_nat c.(m_buf_read)) s bytes /\ 0 <= c.(m_buf_read).

(** ** The read buffer *)

Section Window.
Context {S : Type} `{!Stream S} (beyond : nat -> Z).

Lemma buf_at_Some (buf : list Z) (j : nat) (b : Z) : buf !! j = Some b -> buf_at beyond buf j = b.
Proof. unfold buf_at. by intros ->. Qed.

Lemma buf_slice_window (buf : list Z) (base n i len : nat) (s : S) (bytes : list Z) :
  window buf base n s bytes -> (i + len <= n)%nat ->
  buf_slice beyond buf (base + i) len = take len (drop i bytes).
Proof.
  intros W Hle. apply list_eq. intros k. unfold buf_slice.
  rewrite list_lookup_fmap. destruct (decide (k < len)%nat) as [Hk|Hk].
  - rewrite lookup_seq_lt, lookup_take_lt, lookup_drop by done. simpl.
    pose proof (window_held _ _ _ _ _ W (i + k) ltac:(lia)) as Hh.
    pose proof (window_full _ _ _ _ _ W).
    destruct (lookup_lt_is_Some_2 bytes (i + k)) as [b Hb]; [lia|].
    rewrite Hb in Hh |- *. rewrite Nat.add_assoc in Hh. by rewrite (buf_at_Some _ _ _ Hh).
  - rewrite lookup_seq_ge, lookup_take_ge by lia. done.
Qed.

(** A fresh read of a whole buffer. *)
Lemma window_load (buf : list Z) (s : S) :
  length buf = READ_BUFFER_SIZE ->
  let '(bs, s') := readBytes s READ_BUFFER_SIZE in
  window (store_at buf 0 bs) 0 (length bs) s' (contents s).
Proof.
  intros Hbuf. pose proof (readBytes_data s READ_BUFFER_SIZE) as Hd.
  pose proof (readBytes_rest s READ_BUFFER_SIZE) as Hr.
  destruct (readBytes s READ_BUFFER_SIZE) as [bs s']; simpl in *.
  assert (Hlen : length bs = Nat.min READ_BUFFER_SIZE (length (contents s)))
    by (subst bs; apply length_take).
  constructor.
  - rewrite store_at_length; lia.
  - lia.
  - lia.
  - intros j Hj. rewrite store_at_hit by lia. subst bs.
    apply lookup_take_lt. rewrite length_take in Hj. lia.
  - rewrite Hr. rewrite Hlen. destruct (decide (READ_BUFFER_SIZE <= length (contents s)))%nat.
    + f_equal; lia.
    + rewrite !drop_ge by lia. done.
Qed.

(** Moving the unread bytes down and filling up behind them. *)
Lemma window_refill (buf : list Z) (base n i : nat) (s : S) (bytes : list Z) :
  window buf base n s bytes -> (i < n)%nat ->
  let o := (n - i)%nat in
  let '(bs, s') := readBytes s (READ_BUFFER_SIZE - o) in
  window (store_at (store_at buf 0 (buf_slice beyond buf (base + i) o)) o bs)
    0 (length bs + o) s' (drop i bytes).
Proof.
  intros W Hi o. rewrite (buf_slice_window _ _ _ _ _ _ _ W) by lia.
  destruct W as [Hsz Hb Hfull Hheld Hrest].
  pose proof (readBytes_data s (READ_BUFFER_SIZE - o)) as Hd.
  pose proof (readBytes_rest s (READ_BUFFER_SIZE - o)) as Hr.
  destruct (readBytes s (READ_BUFFER_SIZE - o)) as [bs s']; simpl in *.
  rewrite Hrest in Hd, Hr.
  assert (Hlen : length bs = Nat.min (READ_BUFFER_SIZE - o) (length bytes - n))
    by (subst bs; rewrite length_take, length_drop; done).
  assert (Ho : length (take o (drop i bytes)) = o) by (rewrite length_take, length_drop; lia).
  constructor.
  - rewrite !store_at_length; rewrite ?store_at_length; rewrite ?Ho; lia.
  - lia.
  - rewrite length_drop. lia.
  - intros j Hj. simpl. destruct (decide (j < o)%nat).
    + rewrite store_at_before by (rewrite ?store_at_length; rewrite ?Ho; lia).
      rewrite (store_at_hit buf 0 _ j) by lia.
      by rewrite lookup_take_lt by lia.
    + replace j with (o + (j - o))%nat at 1 by lia.
      rewrite store_at_hit by (rewrite ?store_at_length; rewrite ?Ho; lia).
      rewrite Hd, lookup_take_lt, !lookup_drop by lia. f_equal. lia.
  - rewrite Hr, !drop_drop, Hlen.
    destruct (decide (READ_BUFFER_SIZE - o <= length bytes - n))%nat.
    + f_equal. lia.
    + rewrite !drop_ge by lia. done.
Qed.
End Window.

(** ** The scans *)

Section Scan.
Context {S : Type} `{!Stream S} (beyond : nat -> Z).

Definition pair_at (buf : list Z) (j : nat) (b : Z) : bool :=
  (buf_at beyond buf j =? 0xFF) && (buf_at beyond buf (j + 1) =? b).

Lemma soi_scan_found (buf : list Z) (n m : nat) :
  (m < n)%nat -> pair_at buf m 0xD8 = true ->
  forall fuel i, (i <= m)%nat -> (m < fuel + i)%nat ->
  (forall j, (i <= j < m)%nat -> pair_at buf j 0xD8 = false) ->
  soi_scan beyond fuel buf n i = ((m + 1)%nat, true).
Proof.
  intros Hm Hp. induction fuel as [|fuel IH]; intros i Hi Hf Hno; [lia|]. simpl.
  rewrite (proj2 (Nat.ltb_lt i n)) by lia.
  change ((_ =? _) && (_ =? _)) with (pair_at buf i 0xD8).
  destruct (decide (i = m)) as [->|]; [by rewrite Hp|].
  rewrite Hno by lia. apply IH; [lia..|]. intros j ?. apply Hno. lia.
Qed.

Lemma soi_scan_none (buf : list Z) (n : nat) :
  forall fuel i, (i <= n)%nat -> (n <= fuel + i)%nat ->
  (forall j, (i <= j < n)%nat -> pair_at buf j 0xD8 = false) ->
  soi_scan beyond fuel buf n i = (n, false).
Proof.
  induction fuel as [|fuel IH]; intros i Hi Hf Hno; simpl.
  { f_equal. lia. }
  destruct (Nat.ltb_spec i n); [|f_equal; lia].
  change ((_ =? _) && (_ =? _)) with (pair_at buf i 0xD8).
  rewrite Hno by lia. apply IH; [lia..|]. intros j ?. apply Hno. lia.
Qed.

Lemma eoi_scan_found (buf : list Z) (base n m : nat) :
  (m < n)%nat -> pair_at buf (base + m) 0xD9 = true ->
  forall fuel i, (i <= m)%nat -> (m < fuel + i)%nat ->
  (forall j, (i <= j < m)%nat -> pair_at buf (base + j) 0xD9 = false) ->
  eoi_scan beyond fuel buf base n i = ((m + 2)%nat, true).
Proof.
  intros Hm Hp. induction fuel as [|fuel IH]; intros i Hi Hf Hno; [lia|]. simpl.
  rewrite (proj2 (Nat.ltb_lt i n)) by lia.
  change ((_ =? _) && (_ =? _)) with (pair_at buf (base + i) 0xD9).
  destruct (decide (i = m)) as [->|]; [by rewrite Hp|].
  rewrite Hno by lia. apply IH; [lia..|]. intros j ?. apply Hno. lia.
Qed.

Lemma eoi_scan_none (buf : list Z) (base n : nat) :
  forall fuel i, (i <= n)%nat -> (n <= fuel + i)%nat ->
  (forall j, (i <= j < n)%nat -> pair_at buf (base + j) 0xD9 = false) ->
  eoi_scan beyond fuel buf base n i = (n, false).
Proof.
  induction fuel as [|fuel IH]; intros i Hi Hf Hno; simpl.
  { f_equal. lia. }
  destruct (Nat.ltb_spec i n); [|f_equal; lia].
  change ((_ =? _) && (_ =? _)) with (pair_at buf (base + i) 0xD9).
  rewrite Hno by lia. apply IH; [lia..|]. intros j ?. apply Hno. lia.
Qed.

(** When the scan stops without a match it has passed every byte. *)
Lemma eoi_scan_miss (buf : list Z) (base n : nat) :
  forall fuel i j, (n <= fuel + i)%nat ->
  eoi_scan beyond fuel buf base n i = (j, false) -> (n <= j)%nat.
Proof.
  induction fuel as [|fuel IH]; intros i j Hf; simpl.
  - intros [= <-]. lia.
  - destruct (Nat.ltb_spec i n); [|intros [= <-]; lia].
    destruct (_ && _); [done|]. apply IH. lia.
Qed.

(** Inside the window the scans see the bytes of the file. *)
Lemma pair_at_window (buf : list Z) (base n j : nat) (s : S) (bytes : list Z) (b : Z) :
  window buf base n s bytes -> (j + 1 < n)%nat ->
  pair_at buf (base + j) b = true <-> marker bytes j b.
Proof.
  intros W Hj. pose proof (window_full _ _ _ _ _ W).
  pose proof (window_held _ _ _ _ _ W j ltac:(lia)) as H0.
  pose proof (window_held _ _ _ _ _ W (j + 1) ltac:(lia)) as H1.
  destruct (lookup_lt_is_Some_2 bytes j) as [x Hx]; [lia|].
  destruct (lookup_lt_is_Some_2 bytes (j + 1)) as [y Hy]; [lia|].
  unfold pair_at, marker. rewrite Hx in *. rewrite Hy in *. rewrite Nat.add_assoc in H1.
  rewrite (buf_at_Some _ _ _ _ H0), (buf_at_Some _ _ _ _ H1).
  rewrite andb_true_iff, !Z.eqb_eq. split.
  - by intros [-> ->].
  - by intros [[= ->] [= ->]].
Qed.

(** The look-ahead from the last byte of a full buffer leaves the buffer. *)
Lemma pair_at_end (buf : list Z) (base n : nat) (s : S) (bytes : list Z) (b : Z) :
  window buf base n s bytes -> (0 < n)%nat -> (READ_BUFFER_SIZE - base <= length bytes)%nat ->
  beyond 0 <> b -> pair_at buf (base + (n - 1)) b = false.
Proof.
  intros W Hn Hfull Hb. destruct W as [Hsz Hbase Hlen _ _].
  unfold pair_at. apply andb_false_iff. right. apply Z.eqb_neq.
  unfold buf_at. rewrite (proj2 (lookup_ge_None buf (base + (n - 1) + 1))) by lia.
  by replace (base + (n - 1) + 1 - length buf)%nat with 0%nat by lia.
Qed.

(** A full buffer without a trailer is passed over whole. *)
Lemma eoi_scan_passes (buf : list Z) (base n i : nat) (s : S) (bytes : list Z) :
  window buf base n s bytes -> (READ_BUFFER_SIZE - base <= length bytes)%nat ->
  beyond 0 <> 0xD9 -> (i <= n)%nat ->
  (forall j, (i <= j)%nat -> (j + 1 < n)%nat -> ~ marker bytes j 0xD9) ->
  eoi_scan beyond n buf base n i = (n, false).
Proof.
  intros W Hfull Hb Hi Hno. apply eoi_scan_none; [lia..|]. intros j Hj.
  destruct (decide (j + 1 < n)%nat).
  - apply not_true_iff_false. rewrite (pair_at_window _ _ _ _ _ _ _ W) by done. apply Hno; lia.
  - replace j with (n - 1)%nat by lia. apply (pair_at_end _ _ _ _ _ _ W); done || lia.
Qed.

(** A trailer inside the buffer ends the scan behind it. *)
Lemma eoi_scan_hits (buf : list Z) (base n i m : nat) (s : S) (bytes : list Z) :
  window buf base n s bytes -> (i <= m)%nat -> (m + 1 < n)%nat -> marker bytes m 0xD9 ->
  (forall j, (i <= j < m)%nat -> ~ marker bytes j 0xD9) ->
  eoi_scan beyond n buf base n i = ((m + 2)%nat, true).
Proof.
  intros W Hi Hm Hmark Hno. apply eoi_scan_found; [lia| |lia|lia|].
  - by rewrite (pair_at_window _ _ _ _ _ _ _ W).
  - intros j Hj. apply not_true_iff_false.
    rewrite (pair_at_window _ _ _ _ _ _ _ W) by lia. by apply Hno.
Qed.
End Scan.

(** ** Copying one frame *)

Section Copy.
Context {S : Type} `{!Stream S} (beyond : nat -> Z).

(** Using up [i] bytes leaves the buffer filled with the bytes behind them, and
    keeps the count of bytes read from the stream. *)
Lemma advance_window (buf : list Z) (s : S) (base n i : nat) (index : Z) (bytes : list Z) :
  window buf base n s bytes -> (i <= n)%nat -> (0 < index) ->
  index + Z.of_nat (length (contents s)) < 2 ^ 32 ->
  exists buf' s' n' index', advance beyond buf s base n i index = (buf', s', n', index') /\
    window buf' 0 n' s' (drop i bytes) /\ 0 < index' /\
    index' + Z.of_nat (length (contents s')) < 2 ^ 32 /\
    (n <= i -> length (contents s') = length (contents s) - n')%nat.
Proof.
  intros W Hi Hpos Hidx. unfold advance. destruct (Nat.ltb_spec i n).
  - pose proof (window_refill beyond _ _ _ _ _ _ W ltac:(eassumption)) as W'.
    pose proof (readBytes_rest s (READ_BUFFER_SIZE - (n - i))) as Hr.
    pose proof (readBytes_data s (READ_BUFFER_SIZE - (n - i))) as Hd. cbv zeta in W'.
    destruct (readBytes s _) as [bs s']; simpl in Hr, Hd. do 4 eexists. split; [done|].
    apply (f_equal length) in Hr, Hd. rewrite length_drop in Hr. rewrite length_take in Hd.
    rewrite u32_small by lia. split_and!; [done|lia|lia|lia].
  - assert (i = n) as -> by lia.
    pose proof (window_load buf s (window_size _ _ _ _ _ W)) as W'.
    pose proof (readBytes_rest s READ_BUFFER_SIZE) as Hr.
    pose proof (readBytes_data s READ_BUFFER_SIZE) as Hd.
    destruct (readBytes s _) as [bs s']; simpl in Hr, Hd. do 4 eexists. split; [done|].
    rewrite (window_rest _ _ _ _ _ W) in W'.
    apply (f_equal length) in Hr, Hd. rewrite length_drop in Hr. rewrite length_take in Hd.
    rewrite u32_small by lia. split_and!; [done|lia|lia|lia].
Qed.

Context (realloc_ok : nat -> bool) (Hrealloc : forall size, realloc_ok size = true).

(** One turn of the copying loop, whichever way its scan ends. *)
Lemma eoi_loop_turn (fuel : nat) (buf : list Z) (s : S) (base n i : nat) (index : Z)
    (data : list Z) (ds : nat) (bytes : list Z) (j : nat) (found : bool) :
  window buf base n s bytes -> (0 < n)%nat -> (j <= n)%nat -> 0 < index ->
  index + Z.of_nat (length (contents s)) < 2 ^ 32 ->
  (if (0 <? length data)%nat && (List.last data 0 =? 0xFF) && (buf_at beyond buf base =? 0xD9)
   then (i, true) else eoi_scan beyond n buf base n i) = (j, found) ->
  exists buf' s' n' index' ds',
    let data' := data ++ take j bytes in
    window buf' 0 n' s' (drop j bytes) /\ 0 < index' /\
    index' + Z.of_nat (length (contents s')) < 2 ^ 32 /\
    eoi_loop beyond realloc_ok (Datatypes.S fuel) buf s base n i index data ds =
      if found then Some (mk_input (Z.of_nat n') (Z.of_nat (length data')) index' buf', s', Frame data')
      else eoi_loop beyond realloc_ok fuel buf' s' 0 n' 0 index' data' ds'.
Proof.
  intros W Hn Hj Hpos Hidx Hscan.
  destruct (advance_window _ _ _ _ _ _ _ W Hj Hpos Hidx)
    as (buf' & s' & n' & index' & Hadv & W' & Hpos' & Hidx' & _).
  exists buf', s', n', index', (if (ds <? length data + j)%nat then (length data + j)%nat else ds).
  split_and!; [done..|].
  assert (Hlen : length (data ++ take j bytes) = (length data + j)%nat).
  { rewrite length_app, length_take. pose proof (window_full _ _ _ _ _ W). lia. }
  cbn [eoi_loop]. rewrite (proj2 (Nat.ltb_lt 0 n)) by done. rewrite Hscan, Hrealloc.
  rewrite andb_false_r, Hadv.
  replace (buf_slice beyond buf base j) with (take j bytes)
    by (rewrite <- (Nat.add_0_r base), (buf_slice_window _ _ _ _ _ _ _ _ W) by lia; done).
  destruct found; [|done].
  rewrite Hlen, (proj2 (Nat.ltb_ge _ _)); [done|].
  destruct (Nat.ltb_spec ds (length data + j)); lia.
Qed.

(** A marker seen in what is left of the frame is a marker of the frame. *)
Lemma marker_shift (data r rest : list Z) (j : nat) (b : Z) :
  (j + 1 < length r)%nat -> marker (r ++ rest) j b <-> marker (data ++ r) (length data + j) b.
Proof.
  intros Hj. unfold marker. rewrite !lookup_app_l by lia.
  rewrite (lookup_app_r data r), (lookup_app_r data r (length data + j + 1)) by lia.
  by replace (length data + j - length data)%nat with j by lia;
     replace (length data + j + 1 - length data)%nat with (j + 1)%nat by lia.
Qed.

Lemma list_last_lookup (l : list Z) (x : Z) :
  l !! (length l - 1)%nat = Some x -> List.last l 0 = x.
Proof.
  induction l as [|a [|b l] IH]; intros H; [done|by injection H|].
  apply IH. simpl in *. by rewrite Nat.sub_0_r in *.
Qed.

Context (Hbeyond : beyond 0 <> 0xD9).

(** Where the loop stands in frame [data ++ r]: at its start, [base] bytes into
    the buffer, or further on with a freshly filled buffer. *)
Definition position (data : list Z) (base i : nat) : Prop :=
  (data = [] /\ i = 3%nat /\ (base + 4 <= READ_BUFFER_SIZE)%nat) \/
  ((3 < length data)%nat /\ i = 0%nat /\ base = 0%nat).

(** The look-behind test answers only for a trailer cut in two. *)
Lemma look_behind (buf : list Z) (s : S) (base n i : nat) (data r rest : list Z) :
  is_frame (data ++ r) -> position data base i -> (0 < n)%nat -> (0 < length r)%nat ->
  window buf base n s (r ++ rest) ->
  (0 <? length data)%nat && (List.last data 0 =? 0xFF) && (buf_at beyond buf base =? 0xD9)
  = (length r =? 1)%nat.
Proof.
  intros Hf Hpos Hn Hr W. pose proof (frame_long _ Hf) as Hlong. rewrite length_app in Hlong.
  destruct Hpos as [(-> & -> & _)|(Hd & -> & ->)].
  { simpl in *. destruct (Nat.eqb_spec (length r) 1); lia || done. }
  rewrite (proj2 (Nat.ltb_lt 0 _)) by lia.
  destruct (lookup_lt_is_Some_2 data (length data - 1)) as [x Hx]; [lia|].
  destruct r as [|y r]; simpl in Hr; [lia|].
  rewrite (list_last_lookup _ _ Hx), (buf_at_Some _ _ _ y)
    by exact (window_held _ _ _ _ _ W 0 Hn).
  assert (Hm : marker (data ++ y :: r) (length data - 1) 0xD9 <-> x = 0xFF /\ y = 0xD9).
  { unfold marker. rewrite lookup_app_l, lookup_app_r by lia.
    replace (length data - 1 + 1 - length data)%nat with 0%nat by lia. rewrite Hx. simpl.
    split; [by intros [[= ->] [= ->]]|by intros [-> ->]]. }
  apply eq_bool_prop_intro. rewrite !Is_true_true, andb_true_l, andb_true_iff, !Z.eqb_eq, <- Hm.
  rewrite Nat.eqb_eq. split.
  - intros Hmk. destruct (decide (length (y :: r) = 1%nat)) as [|Hne]; [done|]. simpl in Hne.
    exfalso. apply (frame_only _ Hf (length data - 1)); [|done].
    rewrite length_app. simpl. lia.
  - intros Hl. pose proof (frame_eoi _ Hf) as He. rewrite length_app, Hl in He.
    by replace (length data + 1 - 2)%nat with (length data - 1)%nat in He by lia.
Qed.

(** The test and the scan of one turn, on the rest [r] of a frame. *)
Lemma turn_scan (buf : list Z) (s : S) (base n i : nat) (data r rest : list Z) :
  is_frame (data ++ r) -> position data base i -> (0 < length r)%nat ->
  window buf base n s (r ++ rest) ->
  (if (0 <? length data)%nat && (List.last data 0 =? 0xFF) && (buf_at beyond buf base =? 0xD9)
   then (i, true) else eoi_scan beyond n buf base n i) =
  if (length r =? 1)%nat then (0%nat, true)
  else if (length r <=? n)%nat then (length r, true) else (n, false).
Proof.
  intros Hf Hp Hr W. pose proof (window_full _ _ _ _ _ W) as Hn. rewrite length_app in Hn.
  pose proof (frame_long _ Hf) as Hlong. rewrite length_app in Hlong.
  assert (Hn4 : (4 <= n \/ n = length r + length rest)%nat)
    by (destruct Hp as [(_ & _ & ?)|(_ & _ & ->)]; unfold READ_BUFFER_SIZE in *; lia).
  assert (Hn0 : (0 < n)%nat) by lia.
  rewrite (look_behind _ _ _ _ _ _ _ _ Hf Hp Hn0 Hr W).
  destruct (Nat.eqb_spec (length r) 1) as [H1|H1].
  { destruct Hp as [(-> & _ & _)|(_ & -> & _)]; [simpl in *; lia|done]. }
  assert (Hno : forall j, (i <= j)%nat -> (j + 2 < length r)%nat -> ~ marker (r ++ rest) j 0xD9).
  { intros j Hij Hj. rewrite (marker_shift data) by lia. apply (frame_only _ Hf).
    rewrite length_app. destruct Hp as [(-> & -> & _)|(? & -> & _)]; simpl in *; lia. }
  assert (Hi : (i <= length r - 2 /\ i <= 3)%nat)
    by (destruct Hp as [(-> & -> & _)|(? & -> & _)]; simpl in *; lia).
  destruct (Nat.leb_spec (length r) n) as [Hin|Hout].
  - rewrite (eoi_scan_hits _ _ _ _ _ (length r - 2) _ _ W); [f_equal; lia|lia|lia| |].
    + rewrite (marker_shift data) by lia. pose proof (frame_eoi _ Hf) as He.
      rewrite length_app in He. by replace (length data + (length r - 2))%nat
        with (length data + length r - 2)%nat by lia.
    + intros j Hj. apply Hno; lia.
  - apply (eoi_scan_passes _ _ _ _ _ _ _ W); [rewrite length_app; lia|done|lia|].
    intros j Hij Hj. apply Hno; lia.
Qed.

Lemma trailer_split_here (base : nat) (r : list Z) :
  (2 <= length r)%nat -> (base + length r <= READ_BUFFER_SIZE)%nat -> trailer_split base r = false.
Proof.
  intros H1 H2. unfold trailer_split. apply Nat.eqb_neq. rewrite Nat.mod_small; lia.
Qed.

Lemma trailer_split_next (base n : nat) (r : list Z) :
  n = (READ_BUFFER_SIZE - base)%nat -> (base <= READ_BUFFER_SIZE)%nat -> (n < length r)%nat ->
  trailer_split 0 (drop n r) = trailer_split base r.
Proof.
  intros -> Hb Hlt. unfold trailer_split. rewrite length_drop. f_equal.
  replace (base + length r - 1)%nat
    with (0 + (length r - (READ_BUFFER_SIZE - base)) - 1 + 1 * READ_BUFFER_SIZE)%nat by lia.
  by rewrite Nat.Div0.mod_add.
Qed.

(** After the last turn the buffer is ready for the next frame. *)
Lemma ready_window (buf : list Z) (n : nat) (s : S) (bytes : list Z) (off index : Z) :
  window buf 0 n s bytes -> 0 < index -> index + Z.of_nat (length (contents s)) < 2 ^ 32 ->
  ready (mk_input (Z.of_nat n) off index buf) s bytes.
Proof.
  intros W ??. unfold ready; simpl. rewrite Nat2Z.id, (proj2 (Z.eqb_neq index 0)) by lia.
  split_and!; [apply W|lia|lia|done|lia].
Qed.

(** From any position in a frame the loop runs to its end. *)
Lemma eoi_loop_frame (rest : list Z) :
  forall fuel r data buf s base n i index ds,
  (length r < fuel)%nat -> (0 < length r)%nat -> is_frame (data ++ r) -> position data base i ->
  window buf base n s (r ++ rest) -> 0 < index ->
  index + Z.of_nat (length (contents s)) < 2 ^ 32 ->
  let out := if trailer_split base r then removelast (data ++ r) else data ++ r in
  exists c' s', eoi_loop beyond realloc_ok fuel buf s base n i index data ds = Some (c', s', Frame out) /\
    ready c' s' (leftover base r ++ rest) /\ 0 < c'.(m_input_index) /\
    c'.(m_read_buf_offset) = Z.of_nat (length out).
Proof.
  induction fuel as [|fuel IH]; intros r data buf s base n i index ds Hfuel Hr Hf Hp W Hpos Hidx; [lia|].
  pose proof (window_full _ _ _ _ _ W) as Hn. rewrite length_app in Hn.
  assert (Hbase : (base + 4 <= READ_BUFFER_SIZE)%nat)
    by (destruct Hp as [(_ & _ & ?)|(_ & _ & ->)]; unfold READ_BUFFER_SIZE in *; lia).
  pose proof (turn_scan _ _ _ _ _ _ _ _ Hf Hp Hr W) as Hscan.
  edestruct (eoi_loop_turn fuel buf s base n i index data ds (r ++ rest)) as
    (buf' & s' & n' & index' & ds' & W' & Hpos' & Hidx' & ->);
    [done|lia| |done|done| |].
  2: rewrite Hscan; apply surjective_pairing.
  { destruct (Nat.eqb_spec (length r) 1); [|destruct (Nat.leb_spec (length r) n)]; simpl; lia. }
  destruct (Nat.eqb_spec (length r) 1) as [H1|H1]; [|destruct (Nat.leb_spec (length r) n)]; simpl in *.
  - assert (r = [0xD9]) as ->.
    { destruct r as [|y [|]]; try done. f_equal. pose proof (frame_eoi _ Hf) as [_ He].
      rewrite length_app in He. simpl in He. destruct Hp as [(-> & _)|(? & _)].
      { pose proof (frame_long _ Hf) as Hl. simpl in Hl. lia. }
      rewrite lookup_app_r in He by lia.
      replace (length data + 1 - 2 + 1 - length data)%nat with 0%nat in He by lia. by injection He. }
    destruct Hp as [(-> & _)|(? & -> & ->)]; [apply frame_long in Hf; simpl in Hf; lia|].
    unfold leftover, trailer_split; simpl. rewrite removelast_last, app_nil_r.
    do 2 eexists. split_and!; [done|by apply ready_window|done|done].
  - unfold leftover. rewrite trailer_split_here, take_app_length by lia.
    rewrite drop_app_length in W'.
    do 2 eexists. split_and!; [done|by apply ready_window|done|done].
  - rewrite take_app_le by lia. rewrite drop_app_le in W' by lia.
    assert (Heq : (data ++ take n r) ++ drop n r = data ++ r)
      by (by rewrite <- app_assoc, take_drop).
    assert (Hsp : trailer_split 0 (drop n r) = trailer_split base r)
      by (apply trailer_split_next; lia).
    unfold leftover. rewrite <- Hsp, <- Heq.
    apply (IH (drop n r) (data ++ take n r)); rewrite ?length_drop; [lia|lia|by rewrite Heq| |done..].
    right. rewrite length_app, length_take. destruct Hp as [(-> & -> & ?)|(? & -> & ->)]; lia.
Qed.
End Copy.

(** ** Whole calls *)

Section Calls.
Context {S : Type} `{!Stream S} (beyond : nat -> Z).

(** A buffer's worth of reading shortens the stream by what was delivered. *)
Lemma read_length (s : S) (n : nat) :
  length (readBytes s n).1 = Nat.min n (length (contents s)) /\
  length (contents (readBytes s n).2) = (length (contents s) - n)%nat.
Proof. by rewrite readBytes_data, readBytes_rest, length_take, length_drop. Qed.

Definition enough (fuel n : nat) (s : S) : Prop :=
  (0 < fuel)%nat /\ ((0 < n)%nat -> (length (contents s) + 2 <= fuel)%nat).

Lemma enough_read (fuel n : nat) (s : S) :
  (0 < n)%nat -> enough (Datatypes.S fuel) n s ->
  let '(bs, s') := readBytes s READ_BUFFER_SIZE in enough fuel (length bs) s'.
Proof.
  intros Hn [_ Hf]. specialize (Hf Hn). pose proof (read_length s READ_BUFFER_SIZE) as [H1 H2].
  destruct (readBytes s _) as [bs s']; cbn [fst snd] in *. unfold enough, READ_BUFFER_SIZE in *. lia.
Qed.

Lemma soi_loop_ends (fuel : nat) (buf : list Z) (s : S) (n i : nat) :
  enough fuel n s -> is_Some (soi_loop beyond fuel buf s n i) /\
  (length buf = READ_BUFFER_SIZE -> forall buf' s' n' i' found,
     soi_loop beyond fuel buf s n i = Some (buf', s', n', i', found) ->
     (length (contents s') <= length (contents s))%nat).
Proof.
  revert buf s n i. induction fuel as [|fuel IH]; intros buf s n i Hf; [destruct Hf; lia|].
  simpl. destruct (Nat.ltb_spec 0 n) as [Hn|]; [|by split; [|intros ? * [= <- <- <- <- <-]]].
  destruct (soi_scan _ _ _ _ _) as [j [|]]; [by split; [|intros ? * [= <- <- <- <- <-]]|].
  pose proof (enough_read _ _ _ Hn Hf) as He. pose proof (read_length s READ_BUFFER_SIZE) as [H1 H2].
  destruct (readBytes s _) as [bs s']; cbn [fst snd] in *.
  destruct (IH (store_at buf 0 bs) s' (length bs) j He) as [HS Hle]. split; [done|].
  intros Hb * Heq. apply Hle in Heq; [lia|]. rewrite store_at_length; simpl; lia.
Qed.

Lemma eoi_loop_ends (realloc_ok : nat -> bool) (fuel : nat) :
  forall buf (s : S) base n i index data ds,
  enough fuel n s -> is_Some (eoi_loop beyond realloc_ok fuel buf s base n i index data ds).
Proof.
  induction fuel as [|fuel IH]; intros buf s base n i index data ds Hf; [destruct Hf; lia|].
  simpl. destruct (Nat.ltb_spec 0 n) as [Hn|]; [|done].
  destruct (_ && (buf_at _ _ _ =? _)).
  - destruct (_ && negb _); [done|]. destruct (advance _ _ _ _ _ _ _) as [[[? ?] ?] ?].
    by destruct (Nat.ltb _ _).
  - destruct (eoi_scan _ _ _ _ _ _) as [j found] eqn:Hscan.
    destruct (_ && negb _); [done|]. destruct found.
    { destruct (advance _ _ _ _ _ _ _) as [[[? ?] ?] ?]. by destruct (Nat.ltb _ _). }
    apply eoi_scan_miss in Hscan; [|lia]. unfold advance. rewrite (proj2 (Nat.ltb_ge j n)) by done.
    pose proof (enough_read _ _ _ Hn Hf) as He. destruct (readBytes s _). by apply IH.
Qed.

(** The marker search stops at the first FF D8 of a full window. *)
Lemma soi_loop_hit (fuel : nat) (buf : list Z) (s : S) (n : nat) (bytes : list Z) (k : nat) :
  window buf 0 n s bytes -> (0 < fuel)%nat -> (k + 1 < n)%nat -> marker bytes k 0xD8 ->
  (forall j, (j < k)%nat -> ~ marker bytes j 0xD8) ->
  soi_loop beyond fuel buf s n 0 = Some (buf, s, n, k, true).
Proof.
  intros W Hfuel Hk Hm Hno. destruct fuel as [|fuel]; [lia|]. simpl.
  rewrite (proj2 (Nat.ltb_lt 0 n)) by lia.
  rewrite (soi_scan_found _ _ _ k); [|lia| |lia|lia|].
  - do 2 f_equal. f_equal. lia.
  - by apply (pair_at_window beyond _ _ _ k _ _ _ W).
  - intros j Hj. apply not_true_iff_false. intros Hp.
    apply (Hno j); [lia|]. apply (pair_at_window beyond _ _ _ j _ _ _ W); done || lia.
Qed.

Lemma loaded_ready (c : input) (s : S) (bytes : list Z) :
  ready c s bytes -> exists c' s' n, loaded c s = (c', s') /\
    c'.(m_buf_read) = Z.of_nat n /\ window c'.(m_read_buf) 0 n s' bytes /\
    (bytes <> [] -> 0 < c'.(m_input_index)) /\ 0 <= c'.(m_input_index) /\
    c'.(m_input_index) + Z.of_nat (length (contents s')) < 2 ^ 32 /\
    (length (contents s') <= length (contents s))%nat.
Proof.
  intros (Hlen & Hi & Hb & Hr). unfold loaded. destruct (Z.eqb_spec c.(m_input_index) 0) as [H0|H0].
  - pose proof (window_load c.(m_read_buf) s Hlen) as W.
    pose proof (read_length s READ_BUFFER_SIZE) as [H1 H2].
    destruct (readBytes s _) as [bs s']; cbn [fst snd] in *. subst bytes.
    do 3 eexists. split; [done|]. simpl. rewrite u32_small by lia. split_and!; [done|done| |lia..].
    destruct (contents s); [done|]. intros _. cbn [length] in *. unfold READ_BUFFER_SIZE in *. lia.
  - destruct Hr as [W Hm]. exists c, s, (Z.to_nat c.(m_buf_read)).
    split_and!; [done|lia|done|lia..].
Qed.

(** A call that stands before a frame, [junk] bytes in front of it. *)
Lemma read_frame_frame (realloc_ok : nat -> bool) (fuel : nat) (c : input) (s : S)
    (junk f rest : list Z) :
  (forall size, realloc_ok size = true) -> beyond 0 <> 0xD9 ->
  is_frame f -> ready c s (junk ++ f ++ rest) -> (length junk + 4 <= READ_BUFFER_SIZE)%nat ->
  (forall j, (j < length junk)%nat -> ~ marker (junk ++ f ++ rest) j 0xD8) ->
  (length f < fuel)%nat ->
  exists c' s', read_frame beyond true realloc_ok fuel c s =
      Some (c', s', Frame (delivered (length junk) f)) /\
    ready c' s' (leftover (length junk) f ++ rest) /\
    c'.(m_read_buf_offset) = Z.of_nat (length (delivered (length junk) f)) /\ 0 < c'.(m_input_index).
Proof.
  intros Hre Hbe Hf Hr Hjunk Hno Hfuel.
  pose proof (frame_long _ Hf) as Hlong.
  destruct (loaded_ready _ _ _ Hr) as (c1 & s1 & n & Hl & Hn & W & Hp & _ & Hidx & _).
  pose proof (window_full _ _ _ _ _ W) as Hfull. rewrite !length_app in Hfull.
  assert (Hk : (length junk + 4 <= n)%nat) by lia.
  unfold read_frame. cbn [negb]. rewrite Hl, Hn, Nat2Z.id.
  rewrite (soi_loop_hit _ _ _ _ _ (length junk) W); [|lia|lia| |done].
  2: { destruct (frame_soi _ Hf). split; rewrite lookup_app_r, lookup_app_l by lia;
       [by rewrite Nat.sub_diag|by rewrite Nat.add_comm, Nat.add_sub]. }
  rewrite (proj2 (Z.ltb_lt 0 (Z.of_nat n))), (proj2 (Z.ltb_lt 0 _)) by lia.
  replace (Z.to_nat (Z.of_nat n - Z.of_nat (length junk))) with (n - length junk)%nat by lia.
  assert (W2 : window c1.(m_read_buf) (length junk) (n - length junk) s1 (f ++ rest)).
  { destruct W as [H1 H2 _ H4 H5]. constructor; [done|lia|rewrite length_app; lia| |].
    - intros j Hj. specialize (H4 (length junk + j)%nat ltac:(lia)). simpl in H4. rewrite H4.
      rewrite lookup_app_r by lia. f_equal. lia.
    - rewrite H5, drop_app_ge by lia. done. }
  assert (Hne : junk ++ f ++ rest <> [])
    by (intros Hnil; apply (f_equal length) in Hnil; rewrite !length_app in Hnil; simpl in Hnil; lia).
  destruct (eoi_loop_frame beyond realloc_ok Hre Hbe rest fuel f [] _ _ _ _ 3 _ MJPEG_DECODER_BUF_SIZE
              Hfuel ltac:(lia) Hf ltac:(left; done) W2 (Hp Hne) Hidx)
    as (c' & s' & -> & Hr' & Hpos & Hoff).
  exists c', s'. done.
Qed.

(** A call with nothing but a cut-off trailer byte left. *)
Lemma read_frame_end (realloc_ok : nat -> bool) (fuel : nat) (c : input) (s : S) (junk : list Z) :
  (junk = [] \/ junk = [0xD9]) -> ready c s junk -> (2 < fuel)%nat ->
  exists c' s', read_frame beyond true realloc_ok fuel c s = Some (c', s', FreedNull).
Proof.
  intros Hj Hr Hfuel. destruct (loaded_ready _ _ _ Hr) as (c1 & s1 & n & Hl & Hn & W & _).
  unfold read_frame. cbn [negb]. rewrite Hl, Hn, Nat2Z.id.
  destruct fuel as [|[|fuel]]; [lia..|].
  destruct W as [Hlen _ Hfull Hheld Hrest]. destruct Hj as [->| ->].
  - assert (n = 0%nat) as -> by (cbn [length] in Hfull; lia). simpl. eauto.
  - assert (n = 1%nat) as -> by (cbn [length] in Hfull; unfold READ_BUFFER_SIZE in Hfull; lia). simpl.
    rewrite (buf_at_Some _ _ _ _ (Hheld 0%nat ltac:(lia))). simpl.
    pose proof (readBytes_data s1 READ_BUFFER_SIZE) as Hd. rewrite Hrest in Hd.
    destruct (readBytes s1 READ_BUFFER_SIZE) as [bs s2].
    assert (bs = []) as -> by (by rewrite drop_ge, take_nil in Hd by done). simpl. eauto.
Qed.
End Calls.

(** ** Deciding whether a byte string is a frame *)

#[global] Instance marker_dec (l : list Z) (j : nat) (b : Z) : Decision (marker l j b).
Proof. unfold marker. apply _. Defined.

Definition is_frame_b (f : list Z) : bool :=
  bool_decide (5 <= length f)%nat && bool_decide (marker f 0 0xD8) &&
  bool_decide (marker f (length f - 2) 0xD9) &&
  forallb (fun j => negb (bool_decide (marker f j 0xD9))) (seq 3 (length f - 5)).

Lemma is_frame_spec (f : list Z) : is_frame_b f = true -> is_frame f.
Proof.
  unfold is_frame_b. rewrite !andb_true_iff, forallb_forall. intros [[[H1 H2] H3] H4].
  apply bool_decide_eq_true in H1, H2, H3. constructor; [done..|].
  intros j Hj Hm. specialize (H4 j). rewrite in_seq in H4. specialize (H4 ltac:(lia)).
  by rewrite bool_decide_eq_true_2 in H4.
Qed.

(** ** Size and termination of arbitrary calls *)

Section Returns.
Context {S : Type} `{!Stream S} (beyond : nat -> Z).

Lemma eoi_loop_size (realloc_ok : nat -> bool) (fuel : nat) :
  forall buf (s : S) base n i index data ds c' s' d,
  eoi_loop beyond realloc_ok fuel buf s base n i index data ds = Some (c', s', Frame d) ->
  c'.(m_read_buf_offset) = Z.of_nat (length d).
Proof.
  induction fuel as [|fuel IH]; intros * Heq; [done|]. cbn [eoi_loop] in Heq.
  destruct (Nat.ltb _ _); [|done].
  destruct (if _ && _ then _ else _) as [j found].
  destruct (_ && negb _); [done|].
  destruct (advance _ _ _ _ _ _ _) as [[[buf' s1] n'] index'].
  destruct found; [|by apply IH in Heq].
  destruct (Nat.ltb _ _); [done|]. by injection Heq as <- _ <-.
Qed.

Lemma read_frame_size (malloc_ok : bool) (realloc_ok : nat -> bool) (fuel : nat) (c : input) (s : S) c' s' d :
  read_frame beyond malloc_ok realloc_ok fuel c s = Some (c', s', Frame d) ->
  c'.(m_read_buf_offset) = Z.of_nat (length d).
Proof.
  unfold read_frame. destruct malloc_ok; [|done]. cbn [negb].
  destruct (loaded c s) as [c1 s1].
  destruct (soi_loop _ _ _ _ _ _) as [[[[[buf s2] n] i] found]|]; [|done].
  cbv zeta. destruct (0 <? (_ - _)); [|done]. apply eoi_loop_size.
Qed.

Lemma loaded_shrinks (c c' : input) (s s' : S) :
  length c.(m_read_buf) = READ_BUFFER_SIZE -> loaded c s = (c', s') ->
  length c'.(m_read_buf) = READ_BUFFER_SIZE /\
  (length (contents s') <= length (contents s))%nat.
Proof.
  intros Hb. unfold loaded. destruct (_ =? _).
  - pose proof (read_length s READ_BUFFER_SIZE) as [H1 H2].
    destruct (readBytes s _) as [bs s1]; cbn [fst snd] in *. intros [= <- <-]. simpl.
    rewrite store_at_length by (simpl; lia). lia.
  - by intros [= <- <-].
Qed.
End Returns.

(** The frames of a file behind a last byte that may have been left. *)
Lemma read_frames_rest {S : Type} `{!Stream S} (beyond : nat -> Z) (realloc_ok : nat -> bool) (fs : list (list Z)) (fuel : nat) :
  (forall size, realloc_ok size = true) -> beyond 0%nat <> 0xD9 -> Forall is_frame fs ->
  forall junk c (s : S), (length (concat fs) + 3 <= fuel)%nat -> (junk = [] \/ junk = [0xD9]) -> ready c s (junk ++ concat fs) ->
  exists c' s', read_frames beyond true realloc_ok (length fs + 1) fuel c s =
    Some (map Frame (delivered_all (length junk) fs) ++ [FreedNull], c', s').
Proof.
  intros Hre Hbe Hfs. induction Hfs as [|f fs Hf Hfs IH]; intros junk c s Hfuel Hj Hr.
  { simpl in Hr |- *. rewrite app_nil_r in Hr.
    destruct (read_frame_end beyond realloc_ok fuel _ _ _ Hj Hr) as (c' & s' & ->); [lia|]. eauto. }
  cbn [length concat] in *. rewrite length_app in Hfuel.
  destruct (read_frame_frame beyond realloc_ok fuel c s junk f (concat fs) Hre Hbe Hf Hr)
    as (c1 & s1 & H1 & Hr1 & _).
  - destruct Hj as [->| ->]; simpl; unfold READ_BUFFER_SIZE; lia.
  - destruct Hj as [->| ->]; simpl; intros j ?; [lia|]. by assert (j = 0%nat) as -> by lia; intros [].
  - lia.
  - destruct (IH (leftover (length junk) f) c1 s1) as (c' & s' & H2); [lia| |done|].
    { unfold leftover. destruct (trailer_split _ _); auto. }
    exists c', s'. simpl. rewrite H1, H2. done.
Qed.

(** On a motion-JPEG file every call of [read_frame] hands out the next frame
    of the file, in order and none skipped, and the call after the last frame
    returns [nullptr].  A frame is handed out byte for byte except when a read
    buffer ends between the two bytes of its FF D9 trailer: then its last byte is
    left behind, in front of the next frame, and is skipped by the next call. *)
Theorem read_frames_file {S : Type} `{!Stream S} (beyond : nat -> Z) (realloc_ok : nat -> bool)
    (c : input) (s : S) (fs : list (list Z)) :
  (forall size, realloc_ok size = true) ->
  beyond 0%nat <> 0xD9 ->
  Forall is_frame fs ->
  ready c s (concat fs) ->
  exists c' s',
    read_frames beyond true realloc_ok (length fs + 1) (length (concat fs) + 3) c s =
      Some (map Frame (delivered_all 0 fs) ++ [FreedNull], c', s').
Proof. intros Hre Hbe Hfs Hr. apply (read_frames_rest beyond realloc_ok fs _ Hre Hbe Hfs []); auto. Qed.

(** A file of two frames, the first of which puts its trailer across the end of
    the read buffer. *)
Lemma read_frames_file_witness :
  let f1 := [0xFF; 0xD8] ++ repeat 0 1021 ++ [0xFF; 0xD9] in
  let f2 := [0xFF; 0xD8; 1; 2; 3; 0xFF; 0xD9] in
  exists c' s',
    read_frames (fun _ => 0) true (fun _ => true) 3 (length (concat [f1; f2]) + 3)
      (mk_input 0 0 0 (repeat 0 READ_BUFFER_SIZE)) (concat [f1; f2]) =
    Some ([Frame (removelast f1); Frame f2; FreedNull], c', s').
Proof.
  intros f1 f2.
  apply (read_frames_file (fun _ => 0) (fun _ => true) (mk_input 0 0 0 (repeat 0 READ_BUFFER_SIZE))
           (concat [f1; f2]) [f1; f2]); [done|done| |].
  - repeat constructor; apply is_frame_spec; vm_compute; reflexivity.
  - split_and!; done.
Defined.

(** C13: whatever the file holds and whatever the allocator answers, a call of
    [read_frame] returns (its loops consume the stream), and when it returns a
    buffer, [m_read_buf_offset], the size the decoder is given, is the number of
    bytes copied into it. *)
Theorem read_frame_returns {S : Type} `{!Stream S} (beyond : nat -> Z) (malloc_ok : bool)
    (realloc_ok : nat -> bool) (fuel : nat) (c : input) (s : S) :
  length c.(m_read_buf) = READ_BUFFER_SIZE ->
  (length (contents s) + 3 <= fuel)%nat ->
  exists c' s' r, read_frame beyond malloc_ok realloc_ok fuel c s = Some (c', s', r) /\
    forall d, r = Frame d -> c'.(m_read_buf_offset) = Z.of_nat (length d).
Proof.
  intros Hbuf Hfuel.
  enough (His : is_Some (read_frame beyond malloc_ok realloc_ok fuel c s)).
  { destruct His as [[[c' s'] r] Heq]. exists c', s', r. split; [done|].
    intros d ->. by apply read_frame_size in Heq. }
  unfold read_frame. destruct malloc_ok; [|done]. cbn [negb].
  destruct (loaded c s) as [c1 s1] eqn:Hl.
  destruct (loaded_shrinks _ _ _ _ Hbuf Hl) as [Hbuf1 Hs1].
  destruct (soi_loop_ends beyond fuel c1.(m_read_buf) s1 (Z.to_nat c1.(m_buf_read)) 0) as [[[[[[buf s2] n] i] found] Heq] Hs2];
    [unfold MjpegCodec.enough; lia|]. specialize (Hs2 Hbuf1 _ _ _ _ _ Heq). rewrite Heq.
  destruct (0 <? c1.(m_buf_read)); destruct (0 <? _); try done; apply eoi_loop_ends; split; lia.
Qed.

(** Garbage instead of a file, and an allocator that refuses to grow. *)
Lemma read_frame_returns_witness :
  exists c' s' r, read_frame (fun _ => 0) true (fun _ => false) 5
      (mk_input 0 0 0 (repeat 0 READ_BUFFER_SIZE)) [1; 2] = Some (c', s', r) /\
    forall d, r = Frame d -> c'.(m_read_buf_offset) = Z.of_nat (length d).
Proof.
  apply (read_frame_returns (fun _ => 0) true (fun _ => false) 5
           (mk_input 0 0 0 (repeat 0 READ_BUFFER_SIZE)) [1; 2]); vm_compute; reflexivity || lia.
Defined.
