(* ===== verification/Queue.v ===== *)
(** * FreeRTOS queues, semaphores and mutexes: [queue.c]

    The kernel object behind every queue, counting semaphore and recursive mutex
    of the firmware: its ring buffer, its lists of waiting tasks, and the critical
    sections of the calls that use it.  A call is split at the points where it
    leaves its critical section, because other tasks run there. *)
From stdpp Require Import base list.
From Stdlib Require Import ZArith Lia.
From S2P Require Import Prelude.

Module Queue.

(** Handles of tasks. *)
Abbreviation task := nat (only parsing).

Definition queueUNLOCKED : Z := -1.
Definition queueLOCKED_UNMODIFIED : Z := 0.
Definition pdPASS : Z := 1.
Definition pdFAIL : Z := 0.
Definition errQUEUE_FULL : Z := 0.
Definition errQUEUE_EMPTY : Z := 0.

Inductive position := queueSEND_TO_BACK | queueSEND_TO_FRONT | queueOVERWRITE.

#[global] Instance position_eq_dec : EqDecision position.
Proof. solve_decision. Defined.

(** The union [u]: pointers of a queue (as offsets from [pcHead]), or holder and
    recursion count of a mutex. *)
Inductive union_u :=
| xQueue (pcTail pcReadFrom : nat)
| xSemaphore (xMutexHolder : option task) (uxRecursiveCallCount : Z).

(** [is_mutex] is [pcHead == NULL]; [storage] is the memory from [pcHead] on.
    Waiting tasks are in the order in which they will be woken.  The queue is
    not a member of a queue set ([pxQueueSetContainer == NULL]). *)
Record Queue_t := mk_queue {
  is_mutex : bool;
  storage : list Z;
  pcWriteTo : nat;
  u : union_u;
  xTasksWaitingToSend : list task;
  xTasksWaitingToReceive : list task;
  uxMessagesWaiting : nat;
  uxLength : nat;
  uxItemSize : nat;
  cRxLock : Z;
  cTxLock : Z;
}.

Definition set_messages (q : Queue_t) (n : nat) : Queue_t :=
  mk_queue q.(is_mutex) q.(storage) q.(pcWriteTo) q.(u) q.(xTasksWaitingToSend)
    q.(xTasksWaitingToReceive) n q.(uxLength) q.(uxItemSize) q.(cRxLock) q.(cTxLock).

Definition set_storage (q : Queue_t) (m : list Z) (w : nat) (p : union_u) : Queue_t :=
  mk_queue q.(is_mutex) m w p q.(xTasksWaitingToSend) q.(xTasksWaitingToReceive)
    q.(uxMessagesWaiting) q.(uxLength) q.(uxItemSize) q.(cRxLock) q.(cTxLock).

Definition set_waiting (q : Queue_t) (snd rcv : list task) : Queue_t :=
  mk_queue q.(is_mutex) q.(storage) q.(pcWriteTo) q.(u) snd rcv
    q.(uxMessagesWaiting) q.(uxLength) q.(uxItemSize) q.(cRxLock) q.(cTxLock).

Definition set_locks (q : Queue_t) (rx tx : Z) : Queue_t :=
  mk_queue q.(is_mutex) q.(storage) q.(pcWriteTo) q.(u) q.(xTasksWaitingToSend)
    q.(xTasksWaitingToReceive) q.(uxMessagesWaiting) q.(uxLength) q.(uxItemSize) rx tx.

Definition set_u (q : Queue_t) (p : union_u) : Queue_t :=
  set_storage q q.(storage) q.(pcWriteTo) p.

(** The pointers as the union gives them (a mutex has none). *)
Definition pcTail (q : Queue_t) : nat := match q.(u) with xQueue t _ => t | _ => 0 end.
Definition pcReadFrom (q : Queue_t) : nat := match q.(u) with xQueue _ r => r | _ => 0 end.

(** Read through [u.xSemaphore]; on a queue the word is a pointer into its
    storage, which is no task's handle. *)
Definition xMutexHolder (q : Queue_t) : option task :=
  match q.(u) with xSemaphore h _ => h | _ => None end.
Definition uxRecursiveCallCount (q : Queue_t) : Z :=
  match q.(u) with xSemaphore _ n => n | _ => 0%Z end.

(** [xTaskRemoveFromEventList] on a list that is not empty: the head is woken. *)
Definition wake_head (l : list task) : list task * list task :=
  match l with
  | [] => ([], [])
  | t :: l => (l, [t])
  end.

Definition wake_receiver (q : Queue_t) : Queue_t * list task :=
  let '(l, w) := wake_head q.(xTasksWaitingToReceive) in
  (set_waiting q q.(xTasksWaitingToSend) l, w).

Definition wake_sender (q : Queue_t) : Queue_t * list task :=
  let '(l, w) := wake_head q.(xTasksWaitingToSend) in
  (set_waiting q l q.(xTasksWaitingToReceive), w).

(** [vListInsert] ([list.c]): behind the entries of the same or a smaller value.
    [xItemValue t] is the value of task [t]'s event item, which decreases with
    its priority and is below [portMAX_DELAY]. *)
Fixpoint vListInsert (xItemValue : task -> Z) (t : task) (l : list task) : list task :=
  match l with
  | [] => [t]
  | x :: l => if (xItemValue x <=? xItemValue t)%Z then x :: vListInsert xItemValue t l else t :: x :: l
  end.

(** [xTaskCheckForTimeOut] ([tasks.c]): the tick counter and the count of its
    overflows now and on entry.  The result tells whether the time is up, and
    the ticks left. *)
Definition portMAX_DELAY : Z := 0xFFFFFFFF.

Definition xTaskCheckForTimeOut (xTickCount xNumOfOverflows xTimeOnEntering xOverflowCount ticks : Z)
  : bool * Z :=
  let elapsed := u32 (xTickCount - xTimeOnEntering) in
  if (ticks =? portMAX_DELAY)%Z then (false, ticks)
  else if negb (xNumOfOverflows =? xOverflowCount)%Z && (xTimeOnEntering <=? xTickCount)%Z then (true, ticks)
  else if (elapsed <? ticks)%Z then (false, u32 (ticks - elapsed))
  else (true, 0%Z).

(** With [xNewQueue == pdTRUE] the lists are initialised, otherwise one waiting
    sender is woken. *)
Definition xQueueGenericReset (q : Queue_t) (xNewQueue : bool) : Queue_t * list task * Z :=
  let q := mk_queue q.(is_mutex) q.(storage) 0
             (xQueue (q.(uxLength) * q.(uxItemSize)) ((q.(uxLength) - 1) * q.(uxItemSize)))
             q.(xTasksWaitingToSend) q.(xTasksWaitingToReceive) 0
             q.(uxLength) q.(uxItemSize) queueUNLOCKED queueUNLOCKED in
  if xNewQueue then (set_waiting q [] [], [], pdPASS)
  else let '(q, w) := wake_sender q in (q, w, pdPASS).

(** [garbage] is what the allocated memory holds. *)
Definition prvInitialiseNewQueue (uxQueueLength uxItemSize : nat) (garbage : list Z) : Queue_t :=
  let q := mk_queue false garbage 0 (xQueue 0 0) [] [] 0 uxQueueLength uxItemSize 0 0 in
  (xQueueGenericReset q true).1.1.

(** [None] stands for a failed [configASSERT], [Some None] for a NULL result.
    [mem] is the memory [pvPortMalloc] returned behind the structure. *)
Definition xQueueGenericCreate (sizeof_Queue_t : Z) (uxQueueLength uxItemSize : Z)
    (mem : option (list Z)) : option (option Queue_t) :=
  if negb (0 <? uxQueueLength)%Z then None
  else
    let xQueueSizeInBytes := if (uxItemSize =? 0)%Z then 0%Z else u32 (uxQueueLength * uxItemSize) in
    if negb ((uxItemSize =? 0)%Z || (uxQueueLength =? xQueueSizeInBytes / uxItemSize)%Z) then None
    else if negb (xQueueSizeInBytes <? u32 (sizeof_Queue_t + xQueueSizeInBytes))%Z then None
    else
      match mem with
      | None => Some None
      | Some m =>
          Some (Some (prvInitialiseNewQueue (Z.to_nat uxQueueLength) (Z.to_nat uxItemSize)
                        (take (Z.to_nat xQueueSizeInBytes) m)))
      end.

Definition prvIsQueueEmpty (q : Queue_t) : bool := q.(uxMessagesWaiting) =? 0.
Definition prvIsQueueFull (q : Queue_t) : bool := q.(uxMessagesWaiting) =? q.(uxLength).

(** A read pointer below [pcHead] is [pcReadFrom < uxItemSize] before the
    subtraction.  The result of [xTaskPriorityDisinherit] only asks for a yield
    and is not kept. *)
Definition prvCopyDataToQueue (q : Queue_t) (item : list Z) (xPosition : position) : Queue_t :=
  let n := q.(uxMessagesWaiting) in
  if q.(uxItemSize) =? 0 then
    let q := if q.(is_mutex) then set_u q (xSemaphore None (uxRecursiveCallCount q)) else q in
    set_messages q (n + 1)
  else if bool_decide (xPosition = queueSEND_TO_BACK) then
    let m := store_at q.(storage) q.(pcWriteTo) item in
    let w := q.(pcWriteTo) + q.(uxItemSize) in
    let w := if pcTail q <=? w then 0 else w in
    set_messages (set_storage q m w q.(u)) (n + 1)
  else
    let m := store_at q.(storage) (pcReadFrom q) item in
    let r := if pcReadFrom q <? q.(uxItemSize) then pcTail q - q.(uxItemSize)
             else pcReadFrom q - q.(uxItemSize) in
    let n := if bool_decide (xPosition = queueOVERWRITE) && (0 <? n) then n - 1 else n in
    set_messages (set_storage q m q.(pcWriteTo) (xQueue (pcTail q) r)) (n + 1).

(** The item copied to [pvBuffer] and the queue with its read pointer moved. *)
Definition prvCopyDataFromQueue (q : Queue_t) : Queue_t * list Z :=
  if q.(uxItemSize) =? 0 then (q, [])
  else
    let r := pcReadFrom q + q.(uxItemSize) in
    let r := if pcTail q <=? r then 0 else r in
    (set_u q (xQueue (pcTail q) r), take q.(uxItemSize) (drop r q.(storage))).

(** [prvLockQueue] and [prvUnlockQueue]; the second wakes a task per item that
    was added or removed while the queue was locked. *)
Definition prvLockQueue (q : Queue_t) : Queue_t :=
  set_locks q (if (q.(cRxLock) =? queueUNLOCKED)%Z then queueLOCKED_UNMODIFIED else q.(cRxLock))
    (if (q.(cTxLock) =? queueUNLOCKED)%Z then queueLOCKED_UNMODIFIED else q.(cTxLock)).

Fixpoint unlock_wakes (n : nat) (l : list task) : list task * list task :=
  match n, l with
  | S n, t :: l => let '(l', w) := unlock_wakes n l in (l', t :: w)
  | _, _ => (l, [])
  end.

Definition prvUnlockQueue (q : Queue_t) : Queue_t * list task :=
  let '(rcv, w1) := unlock_wakes (Z.to_nat q.(cTxLock)) q.(xTasksWaitingToReceive) in
  let '(snd, w2) := unlock_wakes (Z.to_nat q.(cRxLock)) q.(xTasksWaitingToSend) in
  (set_locks (set_waiting q snd rcv) queueUNLOCKED queueUNLOCKED, w1 ++ w2).

(** How a critical section of a blocking call ends. *)
Inductive verdict :=
| Return (code : Z) (item : list Z)
| Wait
| Retry
| Blocks
| Expired.

(** [xQueueGenericSend], first critical section. *)
Definition send_try (q : Queue_t) (item : list Z) (ticks : Z) (pos : position)
  : Queue_t * list task * verdict :=
  if (q.(uxMessagesWaiting) <? q.(uxLength)) || bool_decide (pos = queueOVERWRITE) then
    let '(q, w) := wake_receiver (prvCopyDataToQueue q item pos) in (q, w, Return pdPASS [])
  else if (ticks =? 0)%Z then (q, [], Return errQUEUE_FULL [])
  else (q, [], Wait).

(** Second critical section; [expired] is what [xTaskCheckForTimeOut] says. *)
Definition send_wait (xItemValue : task -> Z) (q : Queue_t) (me : task) (expired : bool)
  : Queue_t * list task * verdict :=
  let q := prvLockQueue q in
  if negb expired then
    if prvIsQueueFull q then
      let q := set_waiting q (vListInsert xItemValue me q.(xTasksWaitingToSend)) q.(xTasksWaitingToReceive) in
      let '(q, w) := prvUnlockQueue q in (q, w, Blocks)
    else let '(q, w) := prvUnlockQueue q in (q, w, Retry)
  else let '(q, w) := prvUnlockQueue q in (q, w, Return errQUEUE_FULL []).

(** [xQueueReceive]: the two sections, and the last look at the queue when the
    time is up. *)
Definition receive_try (q : Queue_t) (ticks : Z) : Queue_t * list task * verdict :=
  if 0 <? q.(uxMessagesWaiting) then
    let n := q.(uxMessagesWaiting) in
    let '(q, item) := prvCopyDataFromQueue q in
    let q := set_messages q (n - 1) in
    let '(q, w) := wake_sender q in (q, w, Return pdPASS item)
  else if (ticks =? 0)%Z then (q, [], Return errQUEUE_EMPTY [])
  else (q, [], Wait).

Definition receive_wait (xItemValue : task -> Z) (q : Queue_t) (me : task) (expired : bool)
  : Queue_t * list task * verdict :=
  let q := prvLockQueue q in
  if negb expired then
    if prvIsQueueEmpty q then
      let q := set_waiting q q.(xTasksWaitingToSend) (vListInsert xItemValue me q.(xTasksWaitingToReceive)) in
      let '(q, w) := prvUnlockQueue q in (q, w, Blocks)
    else let '(q, w) := prvUnlockQueue q in (q, w, Retry)
  else let '(q, w) := prvUnlockQueue q in (q, w, Expired).

Definition receive_expired (q : Queue_t) : verdict :=
  if prvIsQueueEmpty q then Return errQUEUE_EMPTY [] else Retry.

(** The calls for interrupt handlers; the flag tells whether a task was woken. *)
Definition xQueueGenericSendFromISR (q : Queue_t) (item : list Z) (pos : position)
  : Queue_t * list task * Z :=
  if (q.(uxMessagesWaiting) <? q.(uxLength)) || bool_decide (pos = queueOVERWRITE) then
    let cTx := q.(cTxLock) in
    let q := prvCopyDataToQueue q item pos in
    if (cTx =? queueUNLOCKED)%Z then let '(q, w) := wake_receiver q in (q, w, pdPASS)
    else (set_locks q q.(cRxLock) (cTx + 1), [], pdPASS)
  else (q, [], errQUEUE_FULL).

Definition xQueueReceiveFromISR (q : Queue_t) : Queue_t * list task * Z * list Z :=
  if 0 <? q.(uxMessagesWaiting) then
    let n := q.(uxMessagesWaiting) in
    let cRx := q.(cRxLock) in
    let '(q, item) := prvCopyDataFromQueue q in
    let q := set_messages q (n - 1) in
    if (cRx =? queueUNLOCKED)%Z then let '(q, w) := wake_sender q in (q, w, pdPASS, item)
    else (set_locks q (cRx + 1) q.(cTxLock), [], pdPASS, item)
  else (q, [], pdFAIL, []).

(** [xQueueGiveFromISR]; [None] for a failed [configASSERT]. *)
Definition xQueueGiveFromISR (q : Queue_t) : option (Queue_t * list task * Z) :=
  if negb (q.(uxItemSize) =? 0) then None
  else if q.(is_mutex) && bool_decide (is_Some (xMutexHolder q)) then None
  else if q.(uxMessagesWaiting) <? q.(uxLength) then
    let cTx := q.(cTxLock) in
    let q := set_messages q (q.(uxMessagesWaiting) + 1) in
    if (cTx =? queueUNLOCKED)%Z then
      let '(q, w) := wake_receiver q in Some (q, w, pdPASS)
    else Some (set_locks q q.(cRxLock) (cTx + 1), [], pdPASS)
  else Some (q, [], errQUEUE_FULL).

(** [xQueuePeek], its section that finds an item: the read pointer is put back,
    and another waiting reader is woken. *)
Definition peek_try (q : Queue_t) (ticks : Z) : Queue_t * list task * verdict :=
  if 0 <? q.(uxMessagesWaiting) then
    let original := q.(u) in
    let '(q, item) := prvCopyDataFromQueue q in
    let q := set_u q original in
    let '(q, w) := wake_receiver q in (q, w, Return pdPASS item)
  else if (ticks =? 0)%Z then (q, [], Return errQUEUE_EMPTY [])
  else (q, [], Wait).

Definition uxQueueSpacesAvailable (q : Queue_t) : nat := q.(uxLength) - q.(uxMessagesWaiting).

(** ** Semaphores and mutexes *)

(** [xQueueSemaphoreTake], first section, run by task [me]. *)
Definition take_try (q : Queue_t) (me : task) (ticks : Z) : Queue_t * list task * verdict :=
  if 0 <? q.(uxMessagesWaiting) then
    let q := set_messages q (q.(uxMessagesWaiting) - 1) in
    let q := if q.(is_mutex) then set_u q (xSemaphore (Some me) (uxRecursiveCallCount q)) else q in
    let '(q, w) := wake_sender q in (q, w, Return pdPASS [])
  else if (ticks =? 0)%Z then (q, [], Return errQUEUE_EMPTY [])
  else (q, [], Wait).

(** A mutex starts given; [xQueueGenericSend] with no item and no waiting. *)
Definition prvInitialiseMutex (q : Queue_t) : Queue_t :=
  let q := mk_queue true q.(storage) q.(pcWriteTo) (xSemaphore None 0) q.(xTasksWaitingToSend)
             q.(xTasksWaitingToReceive) q.(uxMessagesWaiting) q.(uxLength) q.(uxItemSize)
             q.(cRxLock) q.(cTxLock) in
  (send_try q [] 0 queueSEND_TO_BACK).1.1.

Definition xQueueCreateMutex (sizeof_Queue_t : Z) (mem : option (list Z)) : option (option Queue_t) :=
  match xQueueGenericCreate sizeof_Queue_t 1 0 mem with
  | Some (Some q) => Some (Some (prvInitialiseMutex q))
  | r => r
  end.

Definition xQueueCreateCountingSemaphore (sizeof_Queue_t uxMaxCount uxInitialCount : Z)
    (mem : option (list Z)) : option (option Queue_t) :=
  if (uxMaxCount =? 0)%Z then None
  else if negb (uxInitialCount <=? uxMaxCount)%Z then None
  else
    match xQueueGenericCreate sizeof_Queue_t uxMaxCount 0 mem with
    | Some (Some q) => Some (Some (set_messages q (Z.to_nat uxInitialCount)))
    | r => r
    end.

(** [xQueueGiveMutexRecursive] by task [me]: only the holder gives. *)
Definition xQueueGiveMutexRecursive (q : Queue_t) (me : task) : Queue_t * list task * Z :=
  if bool_decide (xMutexHolder q = Some me) then
    let n := u32 (uxRecursiveCallCount q - 1) in
    let q := set_u q (xSemaphore (xMutexHolder q) n) in
    if (n =? 0)%Z then let '(q, w, _) := send_try q [] 0 queueSEND_TO_BACK in (q, w, pdPASS)
    else (q, [], pdPASS)
  else (q, [], pdFAIL).

(** [xQueueTakeMutexRecursive]: the holder's fast path; [None] means that the
    call goes on to [xQueueSemaphoreTake]. *)
Definition take_recursive_fast (q : Queue_t) (me : task) : option (Queue_t * Z) :=
  if bool_decide (xMutexHolder q = Some me) then
    Some (set_u q (xSemaphore (xMutexHolder q) (u32 (uxRecursiveCallCount q + 1))), pdPASS)
  else None.

(** What it does after [xQueueSemaphoreTake] returned [code]. *)
Definition take_recursive_after (q : Queue_t) (code : Z) : Queue_t :=
  if negb (code =? pdFAIL)%Z
  then set_u q (xSemaphore (xMutexHolder q) (u32 (uxRecursiveCallCount q + 1))) else q.

(** ** The contract of a queue

    A queue of items of [uxItemSize] bytes is a bounded list.  Item [k] of the
    list lies [k + 1] slots behind the read pointer. *)
Definition slot (q : Queue_t) (j : nat) : list Z :=
  take q.(uxItemSize) (drop (j * q.(uxItemSize)) q.(storage)).

Record ring (q : Queue_t) (r : nat) (items : list (list Z)) : Prop := {
  ring_item : 0 < q.(uxItemSize);
  ring_mutex : q.(is_mutex) = false;
  ring_size : length q.(storage) = q.(uxLength) * q.(uxItemSize);
  ring_read : r < q.(uxLength);
  ring_u : q.(u) = xQueue (q.(uxLength) * q.(uxItemSize)) (r * q.(uxItemSize));
  ring_write : q.(pcWriteTo) = (r + 1 + length items) mod q.(uxLength) * q.(uxItemSize);
  ring_count : q.(uxMessagesWaiting) = length items;
  ring_bound : length items <= q.(uxLength);
  ring_slot k x : items !! k = Some x -> slot q ((r + 1 + k) mod q.(uxLength)) = x;
}.

Definition holds (q : Queue_t) (items : list (list Z)) : Prop := exists r, ring q r items.

(** ** Slots *)

Lemma slot_length (q : Queue_t) (j : nat) :
  length q.(storage) = q.(uxLength) * q.(uxItemSize) -> j < q.(uxLength) ->
  length (slot q j) = q.(uxItemSize).
Proof.
  intros Hs Hj. unfold slot. rewrite length_take, length_drop, Hs.
  assert (j * q.(uxItemSize) + q.(uxItemSize) <= q.(uxLength) * q.(uxItemSize)) by nia. lia.
Qed.

Lemma slot_store (m item : list Z) (sz len j k : nat) :
  length m = len * sz -> length item = sz -> j < len -> k < len ->
  take sz (drop (j * sz) (store_at m (k * sz) item)) =
  if j =? k then item else take sz (drop (j * sz) m).
Proof.
  intros Hm Hi Hj Hk. apply list_eq. intros i.
  assert (Hkb : k * sz + sz <= len * sz) by nia.
  destruct (decide (i < sz)) as [Hlt|Hge].
  2: { rewrite lookup_take_ge by lia. destruct (Nat.eqb_spec j k).
       - symmetry. apply lookup_ge_None. lia.
       - by rewrite lookup_take_ge by lia. }
  rewrite lookup_take_lt, lookup_drop by done. destruct (Nat.eqb_spec j k) as [->|Hne].
  - apply store_at_hit; lia.
  - rewrite lookup_take_lt, lookup_drop by done. destruct (decide (j < k)).
    + apply store_at_before; nia.
    + apply store_at_after; nia.
Qed.

Lemma slots_distinct (c len k1 k2 : nat) :
  k1 < k2 -> k2 < k1 + len -> (c + k1) mod len <> (c + k2) mod len.
Proof.
  intros H1 H2 Heq. assert (len <> 0) by lia.
  pose proof (Nat.div_mod_eq (c + k1) len). pose proof (Nat.div_mod_eq (c + k2) len).
  rewrite Heq in *. set (a := (c + k1) / len) in *. set (b := (c + k2) / len) in *.
  destruct (decide (b <= a)); nia.
Qed.

(** Advancing a pointer by one item, with the wrap at [pcTail]. *)
Lemma advance_pointer (s len sz : nat) :
  s < len -> 0 < sz ->
  (if len * sz <=? s * sz + sz then 0 else s * sz + sz) = (s + 1) mod len * sz.
Proof.
  intros Hs Hz. destruct (Nat.leb_spec (len * sz) (s * sz + sz)).
  - assert (s + 1 = len) as -> by nia. by rewrite Nat.Div0.mod_same.
  - rewrite Nat.mod_small by nia. nia.
Qed.

Lemma mod_bound (a len r : nat) : r < len -> a mod len < len.
Proof. intros. apply Nat.mod_upper_bound. lia. Qed.
#[local] Hint Resolve mod_bound : fw.

(** ** The operations on the ring *)

Lemma copy_to_back (q : Queue_t) (items : list (list Z)) (item : list Z) :
  holds q items -> length item = q.(uxItemSize) -> length items < q.(uxLength) ->
  holds (prvCopyDataToQueue q item queueSEND_TO_BACK) (items ++ [item]).
Proof.
  intros [r [Hz Hm Hs Hr Hu Hw Hc Hb Hsl]] Hi Hroom. exists r.
  unfold prvCopyDataToQueue. rewrite (proj2 (Nat.eqb_neq _ 0)) by lia.
  rewrite bool_decide_eq_true_2 by done. unfold pcTail. rewrite Hu, Hw.
  rewrite advance_pointer by eauto with fw.
  pose proof (mod_bound (r + 1 + length items) _ _ Hr) as Hmod.
  constructor; simpl; try done; rewrite ?length_app; simpl.
  - rewrite store_at_length, Hs; [done|nia].
  - by rewrite Nat.Div0.add_mod_idemp_l, Nat.add_assoc.
  - lia.
  - lia.
  - intros k x Hk. unfold slot; simpl. rewrite (slot_store _ _ _ q.(uxLength)) by (try done; by eapply mod_bound).
    destruct (decide (k < length items)) as [Hlt|Hge].
    + rewrite lookup_app_l in Hk by done. rewrite (proj2 (Nat.eqb_neq _ _)); [by apply Hsl|].
      apply slots_distinct; lia.
    + assert (k = length items) as -> by (apply lookup_lt_Some in Hk; rewrite length_app in Hk; simpl in Hk; lia).
      rewrite Nat.eqb_refl. rewrite lookup_app_r, Nat.sub_diag in Hk by done. by injection Hk.
Qed.

Lemma copy_from (q : Queue_t) (item : list Z) (items : list (list Z)) :
  holds q (item :: items) ->
  let '(q', x) := prvCopyDataFromQueue q in
  x = item /\ holds (set_messages q' (q.(uxMessagesWaiting) - 1)) items.
Proof.
  intros [r [Hz Hm Hs Hr Hu Hw Hc Hb Hsl]]. unfold prvCopyDataFromQueue.
  rewrite (proj2 (Nat.eqb_neq _ 0)) by lia. unfold pcTail, pcReadFrom. rewrite Hu.
  rewrite advance_pointer by done. split.
  { specialize (Hsl 0 item eq_refl). by rewrite Nat.add_0_r in Hsl. }
  exists ((r + 1) mod q.(uxLength)). simpl in *. constructor; simpl; try done.
  - by eapply mod_bound.
  - rewrite Hw. f_equal. rewrite <- (Nat.add_assoc (_ mod _)), Nat.Div0.add_mod_idemp_l. f_equal; lia.
  - lia.
  - lia.
  - intros k x Hk. specialize (Hsl (S k) x Hk). rewrite <- Hsl. unfold slot; simpl.
    rewrite <- (Nat.add_assoc (_ mod _)), Nat.Div0.add_mod_idemp_l. do 4 f_equal; lia.
Qed.

Lemma copy_to_front (q : Queue_t) (items : list (list Z)) (item : list Z) :
  holds q items -> length item = q.(uxItemSize) -> length items < q.(uxLength) ->
  holds (prvCopyDataToQueue q item queueSEND_TO_FRONT) (item :: items).
Proof.
  intros [r [Hz Hm Hs Hr Hu Hw Hc Hb Hsl]] Hi Hroom.
  set (r' := (r + (q.(uxLength) - 1)) mod q.(uxLength)).
  assert (Hr' : forall n, (r' + 1 + n) mod q.(uxLength) = (r + n) mod q.(uxLength)).
  { intros n. unfold r'. rewrite <- Nat.add_assoc, Nat.Div0.add_mod_idemp_l.
    replace (r + (q.(uxLength) - 1) + (1 + n)) with (r + n + 1 * q.(uxLength)) by lia.
    by rewrite Nat.Div0.mod_add. }
  exists r'. unfold prvCopyDataToQueue. rewrite (proj2 (Nat.eqb_neq _ 0)) by lia.
  rewrite (bool_decide_eq_false_2 (queueSEND_TO_FRONT = queueSEND_TO_BACK)) by done.
  rewrite (bool_decide_eq_false_2 (queueSEND_TO_FRONT = queueOVERWRITE)) by done.
  unfold pcTail, pcReadFrom. rewrite Hu. simpl.
  constructor; simpl; try done.
  - rewrite store_at_length, Hs; [done|nia].
  - by eapply mod_bound.
  - f_equal. unfold r'. destruct (Nat.ltb_spec (r * q.(uxItemSize)) q.(uxItemSize)).
    + assert (r = 0) as -> by nia. rewrite Nat.mod_small by lia. nia.
    + assert (1 <= r) by nia. replace (r + (q.(uxLength) - 1)) with (r - 1 + 1 * q.(uxLength)) by lia.
      rewrite Nat.Div0.mod_add, Nat.mod_small by lia. nia.
  - rewrite Hw, Hr'. do 2 f_equal. lia.
  - lia.
  - intros k x Hk. unfold slot; simpl. rewrite Hr'.
    rewrite (slot_store _ _ _ q.(uxLength)) by (try done; by eapply mod_bound).
    destruct k as [|k]; simpl in Hk.
    + injection Hk as <-. by rewrite Nat.add_0_r, Nat.mod_small, Nat.eqb_refl by done.
    + pose proof (lookup_lt_Some _ _ _ Hk). rewrite (proj2 (Nat.eqb_neq _ _)).
      * specialize (Hsl k x Hk). rewrite <- Hsl. unfold slot. do 4 f_equal. lia.
      * rewrite <- (Nat.mod_small r q.(uxLength)) at 2 by done.
        rewrite <- (Nat.add_0_r r) at 2. apply not_eq_sym, slots_distinct; lia.
Qed.

(** The overflow checks of the creation let only sizes through that fit. *)
Lemma create_size (len isz : Z) :
  (0 < len -> 0 < isz -> len = u32 (len * isz) / isz -> u32 (len * isz) = len * isz)%Z.
Proof.
  intros Hl Hi Heq. pose proof (u32_range (len * isz)).
  assert (u32 (len * isz) <= len * isz)%Z by (apply Z.mod_le; lia).
  pose proof (Z.mul_div_le (u32 (len * isz)) isz Hi). nia.
Qed.

(** A created queue is empty, unlocked, and nobody waits for it. *)
Lemma create_holds (sizeof len isz : Z) (mem : list Z) (q : Queue_t) :
  (0 < isz)%Z -> (u32 (len * isz) <= Z.of_nat (length mem))%Z ->
  xQueueGenericCreate sizeof len isz (Some mem) = Some (Some q) ->
  holds q [] /\ q.(uxLength) = Z.to_nat len /\ q.(uxItemSize) = Z.to_nat isz /\
  q.(xTasksWaitingToSend) = [] /\ q.(xTasksWaitingToReceive) = [] /\
  q.(cRxLock) = queueUNLOCKED /\ q.(cTxLock) = queueUNLOCKED.
Proof.
  intros Hi Hmem. unfold xQueueGenericCreate.
  destruct (0 <? len)%Z eqn:Hl; [|done]. apply Z.ltb_lt in Hl. cbn [negb].
  rewrite (proj2 (Z.eqb_neq isz 0)) by lia. cbn [orb].
  destruct (len =? _)%Z eqn:Hd; [|done]. apply Z.eqb_eq in Hd. cbn [negb].
  apply create_size in Hd; [|done..].
  destruct (_ <? _)%Z; [|done]. cbn [negb]. intros [= <-]. split; [|done].
  exists (Z.to_nat len - 1). constructor; simpl; try done; try lia.
  - rewrite length_take. lia.
  - replace (Z.to_nat len - 1 + 1 + 0) with (Z.to_nat len) by lia. by rewrite Nat.Div0.mod_same.
Qed.

End Queue.
