(* ===== verification/QueueSystem.v ===== *)
(** * Tasks sharing a queue

    Any number of tasks and interrupt handlers send to and receive from one
    FreeRTOS queue.  A step is one critical section of one call ([Queue.v]), a
    tick that ends a task's waiting time, or an interrupt. *)
From stdpp Require Import base list.
From Stdlib Require Import ZArith Lia.
From S2P Require Import Prelude Queue.
Import Queue.

Module QueueSystem.

(** Where a task is: outside the queue calls, before one of the critical
    sections of a call, or blocked on the queue.  [ticks] is what is left of
    [xTicksToWait]. *)
Inductive tstate :=
| Running
| Sending (item : list Z) (ticks : Z)
| SendWaiting (item : list Z) (ticks : Z)
| SendBlocked (item : list Z) (ticks : Z)
| Receiving (ticks : Z)
| RecvWaiting (ticks : Z)
| RecvBlocked (ticks : Z)
| RecvExpired (ticks : Z).

(** [sent] and [received] are the items of the calls that returned [pdPASS]. *)
Record config := mk_config {
  queue : Queue_t;
  tasks : list tstate;
  sent : list (list Z);
  received : list (list Z);
}.

(** A task taken from an event list goes back to the top of the loop. *)
Definition unblock (t : tstate) : tstate :=
  match t with
  | SendBlocked item k => Sending item k
  | RecvBlocked k => Receiving k
  | t => t
  end.

Definition wake (ws : list task) (ts : list tstate) : list tstate :=
  foldr (fun h ts => match ts !! h with Some t => <[h := unblock t]> ts | None => ts end) ts ws.

(** One critical section of task [me]; [expired] and [ticks'] are the answer of
    [xTaskCheckForTimeOut].  The lists are what the call sent and received. *)
Definition task_section (xItemValue : task -> Z) (q : Queue_t) (me : task) (t : tstate)
    (expired : bool) (ticks' : Z)
  : option (Queue_t * list task * tstate * list (list Z) * list (list Z)) :=
  match t with
  | Sending item k =>
      let '(q, w, v) := send_try q item k queueSEND_TO_BACK in
      match v with
      | Return code _ => Some (q, w, Running, if (code =? pdPASS)%Z then [item] else [], [])
      | _ => Some (q, w, SendWaiting item k, [], [])
      end
  | SendWaiting item k =>
      let '(q, w, v) := send_wait xItemValue q me expired in
      match v with
      | Return _ _ => Some (q, w, Running, [], [])
      | Blocks => Some (q, w, SendBlocked item ticks', [], [])
      | _ => Some (q, w, Sending item ticks', [], [])
      end
  | Receiving k =>
      let '(q, w, v) := receive_try q k in
      match v with
      | Return code x => Some (q, w, Running, [], if (code =? pdPASS)%Z then [x] else [])
      | _ => Some (q, w, RecvWaiting k, [], [])
      end
  | RecvWaiting k =>
      let '(q, w, v) := receive_wait xItemValue q me expired in
      match v with
      | Expired => Some (q, w, RecvExpired ticks', [], [])
      | Blocks => Some (q, w, RecvBlocked ticks', [], [])
      | _ => Some (q, w, Receiving ticks', [], [])
      end
  | RecvExpired k =>
      match receive_expired q with
      | Return _ _ => Some (q, [], Running, [], [])
      | _ => Some (q, [], Receiving k, [], [])
      end
  | Running | SendBlocked _ _ | RecvBlocked _ => None
  end.

Definition ticks_of (t : tstate) : Z :=
  match t with
  | Running => 0
  | Sending _ k | SendWaiting _ k | SendBlocked _ k
  | Receiving k | RecvWaiting k | RecvBlocked k | RecvExpired k => k
  end.

Fixpoint remove (i : task) (l : list task) : list task :=
  match l with
  | [] => []
  | j :: l => if i =? j then remove i l else j :: remove i l
  end.

Section System.
Variable xItemValue : task -> Z.

Inductive step : config -> config -> Prop :=
| step_call_send q ts s r i item ticks :
    ts !! i = Some Running -> length item = q.(uxItemSize) ->
    step (mk_config q ts s r) (mk_config q (<[i := Sending item ticks]> ts) s r)
| step_call_receive q ts s r i ticks :
    ts !! i = Some Running ->
    step (mk_config q ts s r) (mk_config q (<[i := Receiving ticks]> ts) s r)
| step_section q ts s r i t now ovf t0 ovf0 q' w t' ss rr :
    ts !! i = Some t ->
    (let '(expired, ticks') := xTaskCheckForTimeOut now ovf t0 ovf0 (ticks_of t) in
     task_section xItemValue q i t expired ticks') = Some (q', w, t', ss, rr) ->
    step (mk_config q ts s r) (mk_config q' (<[i := t']> (wake w ts)) (s ++ ss) (r ++ rr))
| step_tick q ts s r i t :
    ts !! i = Some t ->
    step (mk_config q ts s r)
      (mk_config (set_waiting q (remove i q.(xTasksWaitingToSend)) (remove i q.(xTasksWaitingToReceive)))
         (<[i := unblock t]> ts) s r)
| step_isr_send q ts s r item q' w code :
    length item = q.(uxItemSize) ->
    xQueueGenericSendFromISR q item queueSEND_TO_BACK = (q', w, code) ->
    step (mk_config q ts s r) (mk_config q' (wake w ts) (s ++ if (code =? pdPASS)%Z then [item] else []) r)
| step_isr_receive q ts s r q' w code item :
    xQueueReceiveFromISR q = (q', w, code, item) ->
    step (mk_config q ts s r) (mk_config q' (wake w ts) s (r ++ if (code =? pdPASS)%Z then [item] else [])).

Inductive reachable : config -> Prop :=
| reach_init sizeof len isz mem q n :
    (0 < isz)%Z -> (u32 (len * isz) <= Z.of_nat (length mem))%Z ->
    xQueueGenericCreate sizeof len isz (Some mem) = Some (Some q) ->
    reachable (mk_config q (replicate n Running) [] [])
| reach_step c c' : reachable c -> step c c' -> reachable c'.
End System.

(** ** Counting tasks and tracking who is on which list *)

Definition is_sending (t : tstate) : bool := match t with Sending _ _ => true | _ => false end.
Definition is_receiving (t : tstate) : bool := match t with Receiving _ => true | _ => false end.
Definition send_blocked (t : tstate) : bool := match t with SendBlocked _ _ => true | _ => false end.
Definition recv_blocked (t : tstate) : bool := match t with RecvBlocked _ => true | _ => false end.

Definition count (P : tstate -> bool) (ts : list tstate) : nat := length (List.filter P ts).

Definition listed (P : tstate -> bool) (ts : list tstate) (l : list task) : Prop :=
  NoDup l /\ forall i, i ∈ l <-> exists t, ts !! i = Some t /\ P t = true.

Lemma count_insert (P : tstate -> bool) (ts : list tstate) (i : nat) (t t' : tstate) :
  ts !! i = Some t ->
  count P (<[i := t']> ts) + Nat.b2n (P t) = count P ts + Nat.b2n (P t').
Proof.
  revert i. induction ts as [|x ts IH]; intros [|i] H; simplify_eq/=.
  - unfold count; simpl. destruct (P t), (P t'); simpl; lia.
  - specialize (IH i H). unfold count in *; simpl. destruct (P x); simpl; lia.
Qed.

Lemma listed_keep (P : tstate -> bool) (ts : list tstate) (l : list task) (i : nat) (t t' : tstate) :
  listed P ts l -> ts !! i = Some t -> P t = P t' -> listed P (<[i := t']> ts) l.
Proof.
  intros [Hd Hl] Hi HP. split; [done|]. intros j. rewrite Hl.
  destruct (decide (i = j)) as [->|Hne].
  - rewrite list_lookup_insert_eq by (by eapply lookup_lt_Some). rewrite Hi. split.
    + intros (x & [= ->] & HPx). exists t'. split; [done|congruence].
    + intros (x & [= ->] & HPx). exists t. split; [done|congruence].
  - by rewrite list_lookup_insert_ne.
Qed.

Lemma listed_add (P : tstate -> bool) (ts : list tstate) (l l' : list task) (i : nat) (t t' : tstate) :
  listed P ts l -> ts !! i = Some t -> P t = false -> P t' = true -> l' ≡ₚ i :: l ->
  listed P (<[i := t']> ts) l'.
Proof.
  intros [Hd Hl] Hi HP HP' Hperm. split.
  - rewrite Hperm. constructor; [|done]. rewrite Hl. intros (x & Hx & HPx). congruence.
  - intros j. rewrite Hperm, elem_of_cons, Hl. destruct (decide (i = j)) as [->|Hne].
    + rewrite list_lookup_insert_eq by (by eapply lookup_lt_Some). split; [eauto|by left].
    + rewrite list_lookup_insert_ne by done. split; [by intros [->|]|by right].
Qed.

Lemma listed_remove (P : tstate -> bool) (ts : list tstate) (l l' : list task) (i : nat) (t t' : tstate) :
  listed P ts l -> ts !! i = Some t -> P t' = false -> l ≡ₚ i :: l' ->
  listed P (<[i := t']> ts) l'.
Proof.
  intros [Hd Hl] Hi HP' Hperm. rewrite Hperm in Hd. inversion Hd as [|?? Hni Hd']; subst. split; [done|].
  intros j. destruct (decide (i = j)) as [->|Hne].
  - rewrite list_lookup_insert_eq by (by eapply lookup_lt_Some).
    split; [done|intros (x & [= ->] & ?); congruence].
  - rewrite list_lookup_insert_ne by done. rewrite <- Hl, Hperm, elem_of_cons.
    split; [by right|by intros [->|]].
Qed.

Lemma listed_head (P : tstate -> bool) (ts : list tstate) (h : task) (l : list task) :
  listed P ts (h :: l) -> exists t, ts !! h = Some t /\ P t = true.
Proof. intros [_ Hl]. apply Hl. left. Qed.

(** ** Wake-ups

    [a] items can be taken and [b] items be added.  While a receiver is blocked,
    every item has a runnable receiver coming for it; the same for senders and
    free slots. *)
Record sched (a b : nat) (ts : list tstate) (snd rcv : list task) : Prop := {
  sched_rcv : listed recv_blocked ts rcv;
  sched_snd : listed send_blocked ts snd;
  sched_items : rcv <> [] -> a <= count is_receiving ts;
  sched_slots : snd <> [] -> b <= count is_sending ts;
}.

Lemma wake_runnable (w : list task) (ts : list tstate) (i : nat) (t : tstate) :
  ts !! i = Some t -> unblock t = t -> wake w ts !! i = Some t.
Proof.
  intros Hi Ht. induction w as [|h w IH]; simpl; [done|].
  destruct (wake w ts !! h) as [x|] eqn:Hh; [|done].
  destruct (decide (h = i)) as [->|].
  - rewrite list_lookup_insert_eq by (by eapply lookup_lt_Some). congruence.
  - by rewrite list_lookup_insert_ne.
Qed.

Lemma sched_weaken (a b a' b' : nat) (ts : list tstate) (snd rcv : list task) :
  sched a b ts snd rcv -> a' <= a -> b' <= b -> sched a' b' ts snd rcv.
Proof.
  intros [H1 H2 H3 H4] ??. constructor; [done|done| |].
  - intros Hne. specialize (H3 Hne). lia.
  - intros Hne. specialize (H4 Hne). lia.
Qed.

(** A blocked task taken off its list comes for one more item or slot. *)
Lemma sched_release_rcv (a b : nat) (ts : list tstate) (snd rcv rcv' : list task) (i : nat) (k : Z) :
  sched a b ts snd rcv -> ts !! i = Some (RecvBlocked k) -> rcv ≡ₚ i :: rcv' ->
  sched (a + 1) b (<[i := Receiving k]> ts) snd rcv'.
Proof.
  intros [H1 H2 H3 H4] Hi Hp. constructor.
  - by eapply listed_remove.
  - by eapply listed_keep.
  - intros _. pose proof (count_insert is_receiving _ _ _ (Receiving k) Hi) as Hc. simpl in Hc.
    assert (Hne : rcv <> []) by (by intros ->; apply Permutation_nil_cons in Hp).
    specialize (H3 Hne). lia.
  - intros Hs. pose proof (count_insert is_sending _ _ _ (Receiving k) Hi) as Hc.
    simpl in *. specialize (H4 Hs). lia.
Qed.

Lemma sched_release_snd (a b : nat) (ts : list tstate) (snd snd' rcv : list task) (i : nat) x (k : Z) :
  sched a b ts snd rcv -> ts !! i = Some (SendBlocked x k) -> snd ≡ₚ i :: snd' ->
  sched a (b + 1) (<[i := Sending x k]> ts) snd' rcv.
Proof.
  intros [H1 H2 H3 H4] Hi Hp. constructor.
  - by eapply listed_keep.
  - by eapply listed_remove.
  - intros Hs. pose proof (count_insert is_receiving _ _ _ (Sending x k) Hi) as Hc.
    simpl in *. specialize (H3 Hs). lia.
  - intros _. pose proof (count_insert is_sending _ _ _ (Sending x k) Hi) as Hc. simpl in Hc.
    assert (Hne : snd <> []) by (by intros ->; apply Permutation_nil_cons in Hp).
    specialize (H4 Hne). lia.
Qed.

Lemma sched_wake_rcv (a b : nat) (ts : list tstate) (snd rcv rcv' w : list task) :
  sched a b ts snd rcv -> wake_head rcv = (rcv', w) -> sched (a + 1) b (wake w ts) snd rcv'.
Proof.
  intros Hsch Hw. destruct rcv as [|h rcv]; simplify_eq/=; [by destruct Hsch; constructor|].
  destruct (listed_head _ _ _ _ (sched_rcv _ _ _ _ _ Hsch)) as (t & Ht & HP). rewrite Ht.
  destruct t; try done. by eapply sched_release_rcv.
Qed.

Lemma sched_wake_snd (a b : nat) (ts : list tstate) (snd snd' rcv w : list task) :
  sched a b ts snd rcv -> wake_head snd = (snd', w) -> sched a (b + 1) (wake w ts) snd' rcv.
Proof.
  intros Hsch Hw. destruct snd as [|h snd]; simplify_eq/=; [by destruct Hsch; constructor|].
  destruct (listed_head _ _ _ _ (sched_snd _ _ _ _ _ Hsch)) as (t & Ht & HP). rewrite Ht.
  destruct t; try done. by eapply sched_release_snd.
Qed.

(** A task moves between points where it is not blocked. *)
Lemma sched_move (a b a' b' : nat) (ts : list tstate) (snd rcv : list task) (i : nat) (t t' : tstate) :
  sched a b ts snd rcv -> ts !! i = Some t -> unblock t = t -> unblock t' = t' ->
  (a' = 0 \/ a' + Nat.b2n (is_receiving t) <= a + Nat.b2n (is_receiving t')) ->
  (b' = 0 \/ b' + Nat.b2n (is_sending t) <= b + Nat.b2n (is_sending t')) ->
  sched a' b' (<[i := t']> ts) snd rcv.
Proof.
  intros [H1 H2 H3 H4] Hi Ht Ht' Ha Hb. constructor.
  - eapply listed_keep; [done..|]. by destruct t, t'.
  - eapply listed_keep; [done..|]. by destruct t, t'.
  - intros Hne. specialize (H3 Hne). pose proof (count_insert is_receiving _ _ _ t' Hi). lia.
  - intros Hne. specialize (H4 Hne). pose proof (count_insert is_sending _ _ _ t' Hi). lia.
Qed.

Lemma sched_block_rcv (b : nat) (z z' : Z) (ts : list tstate) (snd rcv rcv' : list task) (i : nat) :
  sched 0 b ts snd rcv -> ts !! i = Some (RecvWaiting z) -> rcv' ≡ₚ i :: rcv ->
  sched 0 b (<[i := RecvBlocked z']> ts) snd rcv'.
Proof.
  intros [H1 H2 H3 H4] Hi Hp. constructor.
  - by eapply listed_add.
  - by eapply listed_keep.
  - lia.
  - intros Hne. specialize (H4 Hne). pose proof (count_insert is_sending _ _ _ (RecvBlocked z') Hi).
    simpl in *. lia.
Qed.

Lemma sched_block_snd (a : nat) (z z' : Z) (x : list Z) (ts : list tstate) (snd snd' rcv : list task) (i : nat) :
  sched a 0 ts snd rcv -> ts !! i = Some (SendWaiting x z) -> snd' ≡ₚ i :: snd ->
  sched a 0 (<[i := SendBlocked x z']> ts) snd' rcv.
Proof.
  intros [H1 H2 H3 H4] Hi Hp. constructor.
  - by eapply listed_keep.
  - by eapply listed_add.
  - intros Hne. specialize (H3 Hne). pose proof (count_insert is_receiving _ _ _ (SendBlocked x z') Hi).
    simpl in *. lia.
  - lia.
Qed.

Lemma remove_absent (i : task) (l : list task) : i ∉ l -> remove i l = l.
Proof.
  induction l as [|j l IH]; intros Hi; simpl; [done|].
  rewrite not_elem_of_cons in Hi. destruct Hi. rewrite (proj2 (Nat.eqb_neq i j)) by done. by rewrite IH.
Qed.

Lemma remove_present (i : task) (l : list task) : NoDup l -> i ∈ l -> l ≡ₚ i :: remove i l.
Proof.
  induction 1 as [|j l Hj Hd IH]; intros Hi; simpl; [by apply elem_of_nil in Hi|].
  destruct (Nat.eqb_spec i j) as [->|Hne]; [by rewrite remove_absent|].
  rewrite elem_of_cons in Hi. destruct Hi as [->|Hi]; [done|].
  rewrite Permutation_swap. by rewrite <- IH.
Qed.

(** ** The queue's own side of a step *)

Definition qinv (q : Queue_t) (items : list (list Z)) : Prop :=
  holds q items /\ q.(cRxLock) = queueUNLOCKED /\ q.(cTxLock) = queueUNLOCKED.

Definition same_shape (q q' : Queue_t) : Prop :=
  q'.(uxLength) = q.(uxLength) /\ q'.(uxItemSize) = q.(uxItemSize).

Lemma holds_set_waiting (q : Queue_t) (items : list (list Z)) (snd rcv : list task) :
  holds q items -> holds (set_waiting q snd rcv) items.
Proof. intros [r H]. exists r. destruct H. by constructor. Qed.

Lemma qinv_messages (q : Queue_t) (items : list (list Z)) :
  qinv q items -> q.(uxMessagesWaiting) = length items /\ length items <= q.(uxLength).
Proof. intros [[r H] _]. destruct H. done. Qed.

Lemma put_item (q : Queue_t) (items : list (list Z)) (item : list Z) :
  qinv q items -> length item = q.(uxItemSize) -> length items < q.(uxLength) ->
  let '(q', w) := wake_receiver (prvCopyDataToQueue q item queueSEND_TO_BACK) in
  qinv q' (items ++ [item]) /\ same_shape q q' /\
  q'.(xTasksWaitingToSend) = q.(xTasksWaitingToSend) /\
  wake_head q.(xTasksWaitingToReceive) = (q'.(xTasksWaitingToReceive), w).
Proof.
  intros (Hh & Hl) Hi Hroom. pose proof (copy_to_back q items item Hh Hi Hroom) as Hc.
  assert (Hq : forall q', q' = prvCopyDataToQueue q item queueSEND_TO_BACK ->
    same_shape q q' /\ q'.(xTasksWaitingToSend) = q.(xTasksWaitingToSend) /\
    q'.(xTasksWaitingToReceive) = q.(xTasksWaitingToReceive) /\
    q'.(cRxLock) = q.(cRxLock) /\ q'.(cTxLock) = q.(cTxLock)).
  { intros q' ->. unfold prvCopyDataToQueue.
    by destruct (q.(uxItemSize) =? 0), q.(is_mutex). }
  destruct (Hq _ eq_refl) as (Hs & H1 & H2 & H3 & H4). unfold wake_receiver. rewrite H2.
  destruct (wake_head _) as [l w]. split_and!; try done.
  split; [by apply holds_set_waiting|]. simpl. by rewrite H3, H4.
Qed.

Lemma take_item (q : Queue_t) (item : list Z) (items : list (list Z)) :
  qinv q (item :: items) ->
  let '(q1, x) := prvCopyDataFromQueue q in
  let '(q', w) := wake_sender (set_messages q1 (q.(uxMessagesWaiting) - 1)) in
  x = item /\ qinv q' items /\ same_shape q q' /\
  q'.(xTasksWaitingToReceive) = q.(xTasksWaitingToReceive) /\
  wake_head q.(xTasksWaitingToSend) = (q'.(xTasksWaitingToSend), w) /\ q1.(cRxLock) = q.(cRxLock).
Proof.
  intros (Hh & Hl). pose proof (copy_from q item items Hh) as Hc.
  unfold prvCopyDataFromQueue in *. destruct (q.(uxItemSize) =? 0);
    unfold wake_sender; simpl in *; destruct (wake_head _) as [l w];
    destruct Hc as [-> Hc]; split_and!; try done; (split; [by apply holds_set_waiting|done]).
Qed.

(** A locked section in which nothing else happened. *)
Lemma unlock_lock (q : Queue_t) (snd rcv : list task) :
  q.(cRxLock) = queueUNLOCKED -> q.(cTxLock) = queueUNLOCKED ->
  prvUnlockQueue (set_waiting (prvLockQueue q) snd rcv) = (set_waiting q snd rcv, []).
Proof.
  intros H1 H2. unfold prvUnlockQueue, prvLockQueue. simpl. rewrite H1, H2. simpl.
  by destruct snd, rcv; destruct q; simplify_eq/=.
Qed.

Lemma unlock_lock_id (q : Queue_t) :
  q.(cRxLock) = queueUNLOCKED -> q.(cTxLock) = queueUNLOCKED ->
  prvUnlockQueue (prvLockQueue q) = (q, []).
Proof.
  intros H1 H2. pose proof (unlock_lock q q.(xTasksWaitingToSend) q.(xTasksWaitingToReceive) H1 H2) as H.
  by destruct q.
Qed.

Lemma vListInsert_perm (v : task -> Z) (t : task) (l : list task) : vListInsert v t l ≡ₚ t :: l.
Proof.
  induction l as [|x l IH]; simpl; [done|]. destruct (_ <=? _)%Z; [|done].
  by rewrite IH, Permutation_swap.
Qed.

(** ** The invariant *)

Definition item_ok (size : nat) (t : tstate) : Prop :=
  match t with
  | Sending x _ | SendWaiting x _ | SendBlocked x _ => length x = size
  | _ => True
  end.

Definition inv_with (q : Queue_t) (ts : list tstate) (s r items : list (list Z)) : Prop :=
  qinv q items /\ s = r ++ items /\ Forall (item_ok q.(uxItemSize)) ts /\
  sched (length items) (q.(uxLength) - length items) ts q.(xTasksWaitingToSend) q.(xTasksWaitingToReceive).

Definition inv (c : config) : Prop :=
  exists items, inv_with c.(queue) c.(tasks) c.(sent) c.(received) items.

Lemma wake_ok (size : nat) (w : list task) (ts : list tstate) :
  Forall (item_ok size) ts -> Forall (item_ok size) (wake w ts).
Proof.
  intros H. induction w as [|h w IH]; simpl; [done|].
  destruct (wake w ts !! h) as [t|] eqn:Ht; [|done].
  apply Forall_insert; [done|]. pose proof (Forall_lookup_1 _ _ _ _ IH Ht). by destruct t.
Qed.

(** A task that only moves, the queue being as before. *)
Lemma inv_move (q : Queue_t) (ts : list tstate) (s r items : list (list Z)) (i : nat) (t t' : tstate) :
  inv_with q ts s r items -> ts !! i = Some t -> unblock t = t -> unblock t' = t' ->
  item_ok q.(uxItemSize) t' ->
  (is_receiving t = true -> is_receiving t' = false -> items = []) ->
  (is_sending t = true -> is_sending t' = false -> length items = q.(uxLength)) ->
  inv (mk_config q (<[i := t']> ts) s r).
Proof.
  intros (Hq & Hs & Hok & Hsch) Hi Ht Ht' Hx Hr Hsn. exists items. split_and!; [done|done| |].
  - by apply Forall_insert.
  - eapply sched_move; [done..| |]; simpl.
    + destruct (is_receiving t), (is_receiving t'); simpl; try lia; rewrite Hr by done; by left.
    + destruct (is_sending t), (is_sending t'); simpl; try lia; rewrite Hsn by done; left; lia.
Qed.

(** An item added by task [i] or by an interrupt. *)
Lemma inv_put (q : Queue_t) (ts : list tstate) (s r items : list (list Z)) (item : list Z) :
  inv_with q ts s r items -> length item = q.(uxItemSize) -> length items < q.(uxLength) ->
  let '(q', w) := wake_receiver (prvCopyDataToQueue q item queueSEND_TO_BACK) in
  inv (mk_config q' (wake w ts) (s ++ [item]) r) /\
  forall i k, ts !! i = Some (Sending item k) ->
    inv (mk_config q' (<[i := Running]> (wake w ts)) (s ++ [item]) r).
Proof.
  intros (Hq & Hs & Hok & Hsch) Hlen Hroom.
  pose proof (put_item q items item Hq Hlen Hroom) as Hput.
  destruct (wake_receiver _) as [q' w]. destruct Hput as (Hq' & (HL & HZ) & Hsnd & Hw).
  pose proof (sched_wake_rcv _ _ _ _ _ _ _ Hsch Hw) as Hsch'.
  split; [|intros i k Hi]; exists (items ++ [item]);
    (split_and!; [done|simpl; by rewrite Hs, app_assoc| |]); simpl; rewrite ?HL, ?HZ, ?Hsnd, ?length_app; simpl.
  - by apply wake_ok.
  - eapply sched_weaken; [done|lia|lia].
  - apply Forall_insert; [by apply wake_ok|done].
  - eapply sched_move; [done|by eapply wake_runnable|done|done|simpl; lia|simpl; lia].
Qed.

(** An item removed by task [i] or by an interrupt. *)
Lemma inv_take (q : Queue_t) (ts : list tstate) (s r items : list (list Z)) (item : list Z) :
  inv_with q ts s r (item :: items) ->
  let '(q1, x) := prvCopyDataFromQueue q in
  let '(q', w) := wake_sender (set_messages q1 (q.(uxMessagesWaiting) - 1)) in
  x = item /\ inv (mk_config q' (wake w ts) s (r ++ [item])) /\
  forall i k, ts !! i = Some (Receiving k) ->
    inv (mk_config q' (<[i := Running]> (wake w ts)) s (r ++ [item])).
Proof.
  intros (Hq & Hs & Hok & Hsch). pose proof (take_item q item items Hq) as Htake.
  destruct (qinv_messages _ _ Hq) as [_ Hb].
  destruct (prvCopyDataFromQueue q) as [q1 x], (wake_sender _) as [q' w].
  destruct Htake as (-> & Hq' & (HL & HZ) & Hrcv & Hw & _).
  pose proof (sched_wake_snd _ _ _ _ _ _ _ Hsch Hw) as Hsch'. simpl in Hsch', Hb.
  split; [done|]; split; [|intros i k Hi]; exists items;
    (split_and!; [done|simpl; by rewrite Hs, <- app_assoc| |]); simpl; rewrite ?HL, ?HZ, ?Hrcv.
  - by apply wake_ok.
  - eapply sched_weaken; [done|lia|lia].
  - apply Forall_insert; [by apply wake_ok|done].
  - eapply sched_move; [done|by eapply wake_runnable|done|done|simpl; lia|simpl; lia].
Qed.

Ltac same_sections :=
  intros; simplify_eq/=; rewrite ?app_nil_r.

Lemma sending_inv (v : task -> Z) (q : Queue_t) ts s r items i item k ex k' q' w t' ss rr :
  inv_with q ts s r items -> ts !! i = Some (Sending item k) ->
  task_section v q i (Sending item k) ex k' = Some (q', w, t', ss, rr) ->
  inv (mk_config q' (<[i := t']> (wake w ts)) (s ++ ss) (r ++ rr)).
Proof.
  intros Hinv Hi. pose proof Hinv as (Hq & _ & Hok & _).
  pose proof (Forall_lookup_1 _ _ _ _ Hok Hi) as Hlen. simpl in Hlen.
  destruct (qinv_messages _ _ Hq) as [Hm Hb].
  unfold task_section, send_try. rewrite Hm, orb_false_r.
  destruct (Nat.ltb_spec (length items) q.(uxLength)) as [Hroom|Hfull].
  - pose proof (inv_put _ _ _ _ _ item Hinv Hlen Hroom) as Hput.
    destruct (wake_receiver _) as [q1 w1]. same_sections. destruct Hput as [_ Hput]. by eapply Hput.
  - destruct (k =? 0)%Z; same_sections; (eapply inv_move; [done..|lia]).
Qed.

Lemma receiving_inv (v : task -> Z) (q : Queue_t) ts s r items i k ex k' q' w t' ss rr :
  inv_with q ts s r items -> ts !! i = Some (Receiving k) ->
  task_section v q i (Receiving k) ex k' = Some (q', w, t', ss, rr) ->
  inv (mk_config q' (<[i := t']> (wake w ts)) (s ++ ss) (r ++ rr)).
Proof.
  intros Hinv Hi. pose proof Hinv as (Hq & _ & _ & _).
  destruct (qinv_messages _ _ Hq) as [Hm Hb]. unfold task_section, receive_try.
  destruct items as [|x items]; rewrite Hm; simpl.
  - destruct (k =? 0)%Z; same_sections; (eapply inv_move; done).
  - pose proof (inv_take _ _ _ _ _ _ Hinv) as Htake. rewrite Hm in Htake. simpl in Htake.
    destruct (prvCopyDataFromQueue q) as [q1 y], (wake_sender _) as [q2 w2].
    destruct Htake as (-> & _ & Htake). same_sections. by eapply Htake.
Qed.

Lemma waiting_inv (v : task -> Z) (q : Queue_t) ts s r items i t ex k' q' w t' ss rr :
  inv_with q ts s r items -> ts !! i = Some t ->
  match t with SendWaiting _ _ | RecvWaiting _ | RecvExpired _ => True | _ => False end ->
  task_section v q i t ex k' = Some (q', w, t', ss, rr) ->
  inv (mk_config q' (<[i := t']> (wake w ts)) (s ++ ss) (r ++ rr)).
Proof.
  intros Hinv Hi Ht. pose proof Hinv as (Hq & Hs & Hok & Hsch).
  pose proof (Forall_lookup_1 _ _ _ _ Hok Hi) as Hlen.
  pose proof Hq as (Hh & Hrx & Htx). destruct (qinv_messages _ _ Hq) as [Hm Hb].
  destruct t as [| |item k| | |k| |k]; try done; simpl in Hlen.
  - unfold task_section, send_wait, prvIsQueueFull. destruct ex; simpl.
    { rewrite unlock_lock_id by done. same_sections. by eapply inv_move. }
    destruct (Nat.eqb_spec q.(uxMessagesWaiting) q.(uxLength)) as [Hfull|Hroom].
    2: { rewrite unlock_lock_id by done. same_sections. by eapply inv_move. }
    rewrite unlock_lock by done. same_sections. exists items.
    split_and!; [split; [by apply holds_set_waiting|done]|done|by apply Forall_insert|]. simpl.
    replace (q.(uxLength) - length items) with 0 in * by lia.
    eapply sched_block_snd; [done..|]. apply vListInsert_perm.
  - unfold task_section, receive_wait, prvIsQueueEmpty. destruct ex; simpl.
    { rewrite unlock_lock_id by done. same_sections. by eapply inv_move. }
    destruct (Nat.eqb_spec q.(uxMessagesWaiting) 0) as [Hempty|Hsome].
    2: { rewrite unlock_lock_id by done. same_sections. by eapply inv_move. }
    rewrite unlock_lock by done. same_sections. destruct items; [|simpl in *; lia]. exists [].
    split_and!; [split; [by apply holds_set_waiting|done]|done|by apply Forall_insert|]. simpl.
    eapply sched_block_rcv; [done..|]. apply vListInsert_perm.
  - unfold task_section, receive_expired. destruct (prvIsQueueEmpty q); same_sections; by eapply inv_move.
Qed.

(** A tick takes a blocked task off its list. *)
Lemma tick_inv (q : Queue_t) ts s r items i t :
  inv_with q ts s r items -> ts !! i = Some t ->
  inv (mk_config (set_waiting q (remove i q.(xTasksWaitingToSend)) (remove i q.(xTasksWaitingToReceive)))
         (<[i := unblock t]> ts) s r).
Proof.
  intros (Hq & Hs & Hok & Hsch) Hi. exists items.
  pose proof (Forall_lookup_1 _ _ _ _ Hok Hi) as Hlen. destruct Hq as [Hh Hl].
  split_and!; [split; [by apply holds_set_waiting|done]|done|apply Forall_insert; [done|by destruct t]|].
  pose proof (sched_rcv _ _ _ _ _ Hsch) as H1. pose proof (sched_snd _ _ _ _ _ Hsch) as H2. simpl.
  assert (Hr : recv_blocked t = false -> remove i q.(xTasksWaitingToReceive) = q.(xTasksWaitingToReceive)).
  { intros Ht. apply remove_absent. rewrite (proj2 H1). intros (x & Hx & Hb). congruence. }
  assert (Hsn : send_blocked t = false -> remove i q.(xTasksWaitingToSend) = q.(xTasksWaitingToSend)).
  { intros Ht. apply remove_absent. rewrite (proj2 H2). intros (x & Hx & Hb). congruence. }
  destruct t as [| | |item k| | |k|]; try (rewrite Hr, Hsn by done; eapply sched_move; [done..|simpl; lia|simpl; lia]).
  - rewrite Hr by done. eapply sched_weaken; [eapply sched_release_snd; [done..|]|lia|lia].
    apply remove_present; [apply H2|]. apply (proj2 H2). eauto.
  - rewrite Hsn by done. eapply sched_weaken; [eapply sched_release_rcv; [done..|]|lia|lia].
    apply remove_present; [apply H1|]. apply (proj2 H1). eauto.
Qed.

(** ** Every reachable configuration *)

Lemma step_inv (v : task -> Z) (c c' : config) : inv c -> step v c c' -> inv c'.
Proof.
  intros [items Hinv] Hstep. pose proof Hinv as (Hq & Hs & Hok & Hsch).
  destruct (qinv_messages _ _ Hq) as [Hm Hb].
  destruct Hstep as [q ts s r i item ticks Hi Hlen|q ts s r i ticks Hi
    |q ts s r i t now ovf t0 ovf0 q' w t' ss rr Hi Hsec|q ts s r i t Hi
    |q ts s r item q' w code Hlen Hisr|q ts s r q' w code item Hisr]; simpl in *.
  - by eapply inv_move.
  - by eapply inv_move.
  - destruct (xTaskCheckForTimeOut _ _ _ _ _) as [ex k'].
    destruct t; try done; first [by eapply sending_inv|by eapply receiving_inv|by eapply waiting_inv].
  - by eapply tick_inv.
  - unfold xQueueGenericSendFromISR in Hisr. rewrite orb_false_r, Hm in Hisr.
    destruct Hq as (Hh & Hrx & Htx).
    destruct (Nat.ltb_spec (length items) q.(uxLength)) as [Hroom|_].
    + pose proof (inv_put _ _ _ _ _ item Hinv Hlen Hroom) as Hput. rewrite Htx in Hisr. simpl in Hisr.
      destruct (wake_receiver _) as [q1 w1]. simplify_eq/=. apply Hput.
    + simplify_eq/=. rewrite app_nil_r. exists items. exact Hinv.
  - unfold xQueueReceiveFromISR in Hisr. destruct items as [|x items]; rewrite Hm in Hisr; simpl in Hisr.
    + simplify_eq/=. rewrite app_nil_r in *. exists []. exact Hinv.
    + pose proof (inv_take _ _ _ _ _ _ Hinv) as Htake. rewrite Hm in Htake. simpl in Htake.
      destruct Hq as (Hh & Hrx & Htx). rewrite Hrx in Hisr. simpl in Hisr.
      destruct (prvCopyDataFromQueue q) as [q1 y], (wake_sender _) as [q2 w2].
      destruct Htake as (-> & Htake & _). simplify_eq/=. done.
Qed.

Lemma reachable_inv (v : task -> Z) (c : config) : reachable v c -> inv c.
Proof.
  induction 1 as [sizeof len isz mem q n Hpos Hmem Hc|c c' _ IH Hstep]; [|by eapply step_inv].
  destruct (create_holds _ _ _ _ _ Hpos Hmem Hc) as (Hh & _ & _ & H1 & H2 & H3 & H4).
  exists []. split_and!; [done|done|apply Forall_replicate; done|]. simpl. rewrite H1, H2.
  assert (Hl : forall P, P Running = false -> listed P (replicate n Running) []).
  { intros P HP. split; [constructor|]. intros i. split; [intros Hi; by apply elem_of_nil in Hi|].
    intros (t & Ht & HPt). apply lookup_replicate in Ht as [-> _]. congruence. }
  constructor; try done; by apply Hl.
Qed.

(** C14: a queue shared by any number of tasks and interrupt handlers is a FIFO
    channel: in every reachable configuration the items received, in the order
    of the receiving calls, followed by the items the ring buffer holds, are
    exactly the items sent, in the order of the sending calls, and the buffer
    never holds more than its length. *)
Theorem queue_fifo (xItemValue : task -> Z) (c : config) :
  reachable xItemValue c ->
  exists items, holds c.(queue) items /\ c.(sent) = c.(received) ++ items /\
    c.(queue).(uxMessagesWaiting) = length items /\ length items <= c.(queue).(uxLength).
Proof.
  intros Hr. destruct (reachable_inv _ _ Hr) as (items & Hq & Hs & _).
  exists items. pose proof (qinv_messages _ _ Hq). destruct Hq. done.
Qed.

(** One task has sent a byte through a queue of two. *)
Lemma queue_fifo_witness :
  let q := prvCopyDataToQueue (prvInitialiseNewQueue 2 1 [0; 0]%Z) [7%Z] queueSEND_TO_BACK in
  exists items, holds q items /\ [[7%Z]] = [] ++ items /\ q.(uxMessagesWaiting) = length items /\
    length items <= q.(uxLength).
Proof.
  intros q. apply (queue_fifo (fun _ => 0%Z) (mk_config q [Running] [[7%Z]] [])).
  eapply reach_step; [eapply reach_step; [apply (reach_init _ 80 2 1 [0; 0]%Z (prvInitialiseNewQueue 2 1 [0; 0]%Z) 1)|]|].
  4: apply (step_call_send _ _ _ _ _ 0 [7%Z] 0); reflexivity.
  1: lia.
  1: vm_compute; discriminate.
  1: vm_compute; reflexivity.
  apply (step_section (fun _ => 0%Z) (prvInitialiseNewQueue 2 1 [0; 0]%Z) [Sending [7%Z] 0] [] [] 0
           (Sending [7%Z] 0) 0 0 0 0 q [] Running [[7%Z]] []); reflexivity.
Defined.

(** C15: no wake-up is lost.  In every reachable configuration, while a task is
    blocked receiving, each item in the queue has a runnable task about to take
    an item; while a task is blocked sending, each free slot has a runnable task
    about to fill one.  The event lists hold exactly the blocked tasks. *)
Theorem queue_no_lost_wakeup (xItemValue : task -> Z) (c : config) :
  reachable xItemValue c ->
  listed recv_blocked c.(tasks) c.(queue).(xTasksWaitingToReceive) /\
  listed send_blocked c.(tasks) c.(queue).(xTasksWaitingToSend) /\
  (c.(queue).(xTasksWaitingToReceive) <> [] ->
     c.(queue).(uxMessagesWaiting) <= count is_receiving c.(tasks)) /\
  (c.(queue).(xTasksWaitingToSend) <> [] ->
     uxQueueSpacesAvailable c.(queue) <= count is_sending c.(tasks)).
Proof.
  intros Hr. destruct (reachable_inv _ _ Hr) as (items & Hq & _ & _ & [H1 H2 H3 H4]).
  destruct (qinv_messages _ _ Hq) as [Hm _]. unfold uxQueueSpacesAvailable. by rewrite Hm.
Qed.

(** A task is blocked on an empty queue. *)
Lemma queue_no_lost_wakeup_witness :
  let q := set_waiting (prvInitialiseNewQueue 2 1 [0; 0]%Z) [] [0] in
  let ts := [RecvBlocked portMAX_DELAY] in
  listed recv_blocked ts [0] /\ listed send_blocked ts [] /\
  ([0] <> [] -> q.(uxMessagesWaiting) <= count is_receiving ts) /\
  (@nil nat <> [] -> uxQueueSpacesAvailable q <= count is_sending ts).
Proof.
  intros q ts. apply (queue_no_lost_wakeup (fun _ => 0%Z) (mk_config q ts [] [])).
  set (q0 := prvInitialiseNewQueue 2 1 [0; 0]%Z).
  eapply reach_step; [eapply reach_step; [eapply reach_step; [apply (reach_init _ 80 2 1 [0; 0]%Z q0 1)|]|]|].
  4: apply (step_call_receive _ _ _ _ _ 0 portMAX_DELAY); reflexivity.
  1: lia.
  1: vm_compute; discriminate.
  1: vm_compute; reflexivity.
  - apply (step_section (fun _ => 0%Z) q0 [Receiving portMAX_DELAY] [] [] 0
             (Receiving portMAX_DELAY) 0 0 0 0 q0 [] (RecvWaiting portMAX_DELAY) [] []); reflexivity.
  - apply (step_section (fun _ => 0%Z) q0 [RecvWaiting portMAX_DELAY] [] [] 0
             (RecvWaiting portMAX_DELAY) 0 0 0 0 q [] (RecvBlocked portMAX_DELAY) [] []); reflexivity.
Defined.
End QueueSystem.
