(* ===== verification/MutexSystem.v ===== *)
(** * Tasks sharing a recursive mutex

    The lock behind [tkl_mutex] and the recursive FreeRTOS mutexes: any number
    of tasks take and give one mutex, interleaved at the boundaries of the
    critical sections of [Queue.v]. *)
From stdpp Require Import base list.
From Stdlib Require Import ZArith Lia.
From S2P Require Import Prelude Queue.
Import Queue.

Module MutexSystem.

(** Where a task is.  [depth] is the number of its takes that returned [pdPASS]
    and that it has not given back. *)
Inductive mstate :=
| Outside (depth : nat)
| Taking (depth : nat) (ticks : Z)
| TakeTry (ticks : Z)
| TakeWait (ticks : Z)
| TakeBlocked (ticks : Z)
| TakeExpired (ticks : Z)
| Taken.

Definition depth (t : mstate) : nat :=
  match t with Outside d | Taking d _ => d | _ => 0 end.

Definition unblock (t : mstate) : mstate :=
  match t with TakeBlocked k => TakeTry k | t => t end.

Definition wake (ws : list task) (ts : list mstate) : list mstate :=
  foldr (fun h ts => match ts !! h with Some t => <[h := unblock t]> ts | None => ts end) ts ws.

(** One section of [xQueueTakeMutexRecursive] by task [me]. *)
Definition take_section (xItemValue : task -> Z) (q : Queue_t) (me : task) (t : mstate)
    (expired : bool) (ticks' : Z) : option (Queue_t * list task * mstate) :=
  match t with
  | Taking d k =>
      match take_recursive_fast q me with
      | Some (q, _) => Some (q, [], Outside (d + 1))
      | None => Some (q, [], TakeTry k)
      end
  | TakeTry k =>
      let '(q, w, v) := take_try q me k in
      match v with
      | Return code _ => Some (q, w, if (code =? pdPASS)%Z then Taken else Outside 0)
      | _ => Some (q, w, TakeWait k)
      end
  | TakeWait k =>
      let '(q, w, v) := receive_wait xItemValue q me expired in
      match v with
      | Expired => Some (q, w, TakeExpired ticks')
      | Blocks => Some (q, w, TakeBlocked ticks')
      | _ => Some (q, w, TakeTry ticks')
      end
  | TakeExpired k =>
      match receive_expired q with
      | Return _ _ => Some (q, [], Outside 0)
      | _ => Some (q, [], TakeTry k)
      end
  | Taken => Some (take_recursive_after q pdPASS, [], Outside 1)
  | Outside _ | TakeBlocked _ => None
  end.

Section System.
Variable xItemValue : task -> Z.

(** A task nests its takes less than 2^32 deep; it may give at any time, also
    when it does not hold the mutex.  A tick may change the event lists. *)
Inductive step : Queue_t * list mstate -> Queue_t * list mstate -> Prop :=
| step_take q ts i d ticks :
    ts !! i = Some (Outside d) -> (Z.of_nat d + 1 < 2 ^ 32)%Z ->
    step (q, ts) (q, <[i := Taking d ticks]> ts)
| step_section q ts i t expired ticks' q' w t' :
    ts !! i = Some t -> take_section xItemValue q i t expired ticks' = Some (q', w, t') ->
    step (q, ts) (q', <[i := t']> (wake w ts))
| step_give q ts i d q' w code :
    ts !! i = Some (Outside d) -> xQueueGiveMutexRecursive q i = (q', w, code) ->
    step (q, ts) (q', <[i := Outside (if (code =? pdPASS)%Z then d - 1 else d)]> (wake w ts))
| step_tick q ts i t snd rcv :
    ts !! i = Some t ->
    step (q, ts) (set_waiting q snd rcv, <[i := unblock t]> ts).

Inductive reachable : Queue_t * list mstate -> Prop :=
| reach_init sizeof mem q n :
    xQueueCreateMutex sizeof (Some mem) = Some (Some q) ->
    reachable (q, replicate n (Outside 0))
| reach_step c c' : reachable c -> step c c' -> reachable c'.
End System.

(** ** The invariant *)

(** Tasks other than the holder have nothing. *)
Definition free (t : mstate) : Prop := depth t = 0 /\ t <> Taken.

Definition owns (n : Z) (t : mstate) : Prop :=
  (t = Taken /\ n = 0%Z) \/
  ((0 < depth t) /\ n = Z.of_nat (depth t) /\ (n < 2 ^ 32)%Z).

Record inv (q : Queue_t) (ts : list mstate) : Prop := {
  inv_mutex : q.(is_mutex) = true;
  inv_size : q.(uxItemSize) = 0;
  inv_length : q.(uxLength) = 1;
  inv_holder :
    match xMutexHolder q with
    | None => q.(uxMessagesWaiting) = 1 /\ uxRecursiveCallCount q = 0%Z /\ Forall free ts
    | Some h => q.(uxMessagesWaiting) = 0 /\
        (exists t, ts !! h = Some t /\ owns (uxRecursiveCallCount q) t) /\
        (forall i t, ts !! i = Some t -> i <> h -> free t)
    end;
  inv_nesting : Forall (fun t => match t with Taking d _ => (Z.of_nat d + 1 < 2 ^ 32)%Z | _ => True end) ts;
}.

(** The invariant looks at the mutex proper, not at the event lists. *)
Definition core (q q' : Queue_t) : Prop :=
  q'.(is_mutex) = q.(is_mutex) /\ q'.(u) = q.(u) /\ q'.(uxMessagesWaiting) = q.(uxMessagesWaiting) /\
  q'.(uxLength) = q.(uxLength) /\ q'.(uxItemSize) = q.(uxItemSize).

Lemma inv_core (q q' : Queue_t) (ts : list mstate) : core q q' -> inv q ts -> inv q' ts.
Proof.
  intros (H1 & H2 & H3 & H4 & H5) [I1 I2 I3 I4 I5].
  constructor; unfold xMutexHolder, uxRecursiveCallCount in *; rewrite ?H1, ?H2, ?H3, ?H4, ?H5; done.
Qed.

(** A task that moves without gaining or losing anything. *)
Lemma inv_same (q : Queue_t) (ts : list mstate) (i : nat) (t t' : mstate) :
  inv q ts -> ts !! i = Some t -> depth t' = depth t -> t <> Taken -> t' <> Taken ->
  match t' with Taking d _ => (Z.of_nat d + 1 < 2 ^ 32)%Z | _ => True end ->
  inv q (<[i := t']> ts).
Proof.
  intros [I1 I2 I3 I4 I5] Hi Hd Ht Ht' Hn. constructor; [done..| |by apply Forall_insert].
  destruct (xMutexHolder q) as [h|].
  - destruct I4 as (Hm & (x & Hx & Hown) & Hfree). split; [done|]. split.
    + destruct (decide (i = h)) as [->|Hne].
      * exists t'. rewrite list_lookup_insert_eq by (by eapply lookup_lt_Some). split; [done|].
        simplify_eq. destruct Hown as [[-> _]|Hown]; [done|]. right. by rewrite Hd.
      * exists x. by rewrite list_lookup_insert_ne.
    + intros j y Hy Hj. destruct (decide (i = j)) as [->|Hne].
      * rewrite list_lookup_insert_eq in Hy by (by eapply lookup_lt_Some). simplify_eq.
        destruct (Hfree _ _ Hi Hj). split; congruence.
      * rewrite list_lookup_insert_ne in Hy by done. by eapply Hfree.
  - destruct I4 as (Hm & Hc & Hf). split_and!; [done..|]. apply Forall_insert; [done|].
    destruct (Forall_lookup_1 _ _ _ _ Hf Hi). split; congruence.
Qed.

Lemma inv_wake (q : Queue_t) (w : list task) (ts : list mstate) : inv q ts -> inv q (wake w ts).
Proof.
  intros Hinv. induction w as [|h w IH]; simpl; [done|].
  destruct (wake w ts !! h) as [t|] eqn:Ht; [|done].
  destruct t; simpl; try (by rewrite list_insert_id); by eapply inv_same.
Qed.

Lemma mutex_wake_runnable (w : list task) (ts : list mstate) (i : nat) (t : mstate) :
  ts !! i = Some t -> unblock t = t -> wake w ts !! i = Some t.
Proof.
  intros Hi Ht. induction w as [|h w IH]; simpl; [done|].
  destruct (wake w ts !! h) as [x|] eqn:Hh; [|done].
  destruct (decide (h = i)) as [->|].
  - rewrite list_lookup_insert_eq by (by eapply lookup_lt_Some). congruence.
  - by rewrite list_lookup_insert_ne.
Qed.

(** What a task that is not free knows: it is the holder. *)
Lemma holder_is (q : Queue_t) (ts : list mstate) (i : nat) (t : mstate) :
  inv q ts -> ts !! i = Some t -> ~ free t ->
  xMutexHolder q = Some i /\ owns (uxRecursiveCallCount q) t.
Proof.
  intros [_ _ _ I4 _] Hi Hnf. destruct (xMutexHolder q) as [h|].
  - destruct I4 as (_ & (x & Hx & Hown) & Hfree). destruct (decide (i = h)) as [->|Hne].
    + by simplify_eq.
    + by destruct Hnf; eapply Hfree.
  - destruct I4 as (_ & _ & Hf). by destruct Hnf; apply (Forall_lookup_1 _ _ _ _ Hf Hi).
Qed.

(** Setting the holder's count together with its state. *)
Lemma inv_holder_set (q q' : Queue_t) (ts : list mstate) (i : nat) (n : Z) (t' : mstate) :
  inv q ts -> i < length ts ->
  (forall j t, ts !! j = Some t -> j <> i -> free t) ->
  q'.(is_mutex) = true -> q'.(uxItemSize) = 0 -> q'.(uxLength) = 1 ->
  q'.(u) = xSemaphore (Some i) n -> q'.(uxMessagesWaiting) = 0 -> owns n t' ->
  match t' with Taking _ _ => False | _ => True end ->
  inv q' (<[i := t']> ts).
Proof.
  intros [_ _ _ _ I5] Hi Hfree H1 H2 H3 Hu Hm Hown Ht'. constructor; [done..| |].
  - unfold xMutexHolder, uxRecursiveCallCount. rewrite Hu. split_and!; [done| |].
    + exists t'. by rewrite list_lookup_insert_eq.
    + intros j t Ht Hj. rewrite list_lookup_insert_ne in Ht by done. by eapply Hfree.
  - apply Forall_insert; [done|]. by destruct t'.
Qed.

(** Giving the mutex up. *)
Lemma inv_release (q q' : Queue_t) (ts : list mstate) (i : nat) :
  inv q ts -> i < length ts ->
  (forall j t, ts !! j = Some t -> j <> i -> free t) ->
  q'.(is_mutex) = true -> q'.(uxItemSize) = 0 -> q'.(uxLength) = 1 ->
  q'.(u) = xSemaphore None 0 -> q'.(uxMessagesWaiting) = 1 ->
  inv q' (<[i := Outside 0]> ts).
Proof.
  intros [_ _ _ _ I5] Hi Hfree H1 H2 H3 Hu Hm. constructor; [done..| |by apply Forall_insert].
  unfold xMutexHolder, uxRecursiveCallCount. rewrite Hu. split_and!; [done|done|].
  apply Forall_lookup_2. intros j t Ht. destruct (decide (i = j)) as [->|Hne].
  - rewrite list_lookup_insert_eq in Ht by done. by simplify_eq.
  - rewrite list_lookup_insert_ne in Ht by done. by eapply Hfree.
Qed.

Lemma others_free (q : Queue_t) (ts : list mstate) (i : nat) :
  inv q ts -> (xMutexHolder q = Some i \/ xMutexHolder q = None) ->
  forall j t, ts !! j = Some t -> j <> i -> free t.
Proof.
  intros [_ _ _ I4 _] Hh j t Ht Hj. destruct Hh as [Hh|Hh]; rewrite Hh in I4.
  - destruct I4 as (_ & _ & Hf). by eapply Hf.
  - destruct I4 as (_ & _ & Hf). by apply (Forall_lookup_1 _ _ _ _ Hf Ht).
Qed.

Lemma taking_inv (q : Queue_t) (ts : list mstate) (i d : nat) (k : Z) :
  inv q ts -> ts !! i = Some (Taking d k) ->
  match take_recursive_fast q i with
  | Some (q', _) => inv q' (<[i := Outside (d + 1)]> ts)
  | None => inv q (<[i := TakeTry k]> ts)
  end.
Proof.
  intros Hinv Hi. unfold take_recursive_fast.
  destruct (bool_decide _) eqn:Hb; [apply bool_decide_eq_true in Hb|apply bool_decide_eq_false in Hb].
  - pose proof (inv_holder _ _ Hinv) as I4. rewrite Hb in I4. destruct I4 as (Hm & (t & Ht & Hown) & _).
    simplify_eq. destruct Hown as [[? _]|(Hd & Hn & Hlt)]; [done|]. simpl in Hd, Hn.
    pose proof (Forall_lookup_1 _ _ _ _ (inv_nesting _ _ Hinv) Hi) as Hnest. simpl in Hnest.
    eapply (inv_holder_set q); [done|by eapply lookup_lt_Some|eapply others_free; eauto|apply Hinv..| | | |]; simpl.
    + by rewrite Hb.
    + done.
    + right. simpl. rewrite Hn, u32_small by lia. lia.
    + done.
  - destruct (decide (d = 0)) as [->|Hd]; [by eapply inv_same|].
    destruct (holder_is q ts i (Taking d k)) as [Hh _]; [done|done| |congruence].
    intros [Hz _]. simpl in Hz. lia.
Qed.

Lemma take_try_inv (q : Queue_t) (ts : list mstate) (i : nat) (k : Z) q' w v :
  inv q ts -> ts !! i = Some (TakeTry k) -> take_try q i k = (q', w, v) ->
  inv q' (<[i := match v with
                 | Return code _ => if (code =? pdPASS)%Z then Taken else Outside 0
                 | _ => TakeWait k
                 end]> (wake w ts)).
Proof.
  intros Hinv Hi. unfold take_try. pose proof (inv_holder _ _ Hinv) as I4.
  destruct (Nat.ltb_spec 0 q.(uxMessagesWaiting)) as [Hm|Hm].
  - destruct (xMutexHolder q) as [h|] eqn:Hh; [lia|]. destruct I4 as (Hm1 & Hc & _).
    simpl. rewrite (inv_mutex _ _ Hinv). unfold wake_sender. destruct (wake_head _) as [l w0].
    intros [= <- <- <-]. simpl.
    eapply (inv_holder_set q); [by apply inv_wake| | |apply Hinv..| | | |]; simpl; try done.
    + eapply lookup_lt_Some. by eapply mutex_wake_runnable.
    + eapply others_free; [by apply inv_wake|auto].
    + rewrite Hm1. lia.
    + left. done.
  - destruct (k =? 0)%Z; intros [= <- <- <-]; simpl; by eapply inv_same.
Qed.

(** The waiting sections only touch the lists and the locks. *)
Lemma receive_wait_core (v : task -> Z) (q : Queue_t) (me : task) (ex : bool) q' w r :
  receive_wait v q me ex = (q', w, r) -> core q q'.
Proof.
  unfold receive_wait, prvUnlockQueue. intros H.
  repeat (case_match; simplify_eq/=); done.
Qed.

Lemma give_inv (q : Queue_t) (ts : list mstate) (i d : nat) q' w code :
  inv q ts -> ts !! i = Some (Outside d) -> xQueueGiveMutexRecursive q i = (q', w, code) ->
  inv q' (<[i := Outside (if (code =? pdPASS)%Z then d - 1 else d)]> (wake w ts)).
Proof.
  intros Hinv Hi. unfold xQueueGiveMutexRecursive.
  destruct (bool_decide _) eqn:Hb; [apply bool_decide_eq_true in Hb|].
  2: { intros [= <- <- <-]. simpl. by rewrite list_insert_id. }
  pose proof (inv_holder _ _ Hinv) as I4. rewrite Hb in I4. destruct I4 as (Hm & (t & Ht & Hown) & _).
  simplify_eq. destruct Hown as [[? _]|(Hd & Hn & Hlt)]; [done|]. simpl in Hd, Hn.
  rewrite Hn, u32_small by lia. destruct (Z.eqb_spec (Z.of_nat d - 1) 0) as [H0|H0].
  - unfold send_try, wake_receiver, prvCopyDataToQueue. simpl.
    rewrite Hm, (inv_length _ _ Hinv), (inv_size _ _ Hinv), (inv_mutex _ _ Hinv). simpl.
    destruct (wake_head _) as [l w0]. intros [= <- <- <-]. simpl.
    replace (d - 1) with 0 by lia.
    eapply (inv_release q); [by apply inv_wake| | |apply Hinv..| |]; simpl; try done.
    + eapply lookup_lt_Some. by eapply mutex_wake_runnable.
    + eapply others_free; [by apply inv_wake|auto].
    + by rewrite H0.
  - intros [= <- <- <-]. simpl.
    eapply (inv_holder_set q); [done|by eapply lookup_lt_Some|eapply others_free; eauto|apply Hinv..| | | |];
      simpl; rewrite ?Hb; try done.
    right. simpl. lia.
Qed.

Lemma mutex_step_inv (v : task -> Z) (c c' : Queue_t * list mstate) :
  inv c.1 c.2 -> step v c c' -> inv c'.1 c'.2.
Proof.
  intros Hinv Hstep.
  destruct Hstep as [q ts i d ticks Hi Hn|q ts i t ex k' q' w t' Hi Hsec|q ts i d q' w code Hi Hg|q ts i t snd rcv Hi];
    simpl in *.
  - by eapply inv_same.
  - destruct t as [d|d k|k|k|k|k|]; try done; simpl in Hsec.
    + pose proof (taking_inv _ _ _ _ _ Hinv Hi) as Ht.
      destruct (take_recursive_fast q i) as [[q1 c]|]; simplify_eq/=; done.
    + destruct (take_try q i k) as [[q1 w1] r] eqn:Htry.
      pose proof (take_try_inv _ _ _ _ _ _ _ Hinv Hi Htry) as Ht. destruct r; simplify_eq/=; done.
    + destruct (receive_wait v q i ex) as [[q1 w1] r] eqn:Hw. apply receive_wait_core in Hw.
      pose proof (inv_core _ _ _ Hw (inv_wake _ w1 _ Hinv)) as Hi1.
      assert (Hl : wake w1 ts !! i = Some (TakeWait k)) by (by apply mutex_wake_runnable).
      destruct r; simplify_eq/=; by eapply inv_same.
    + destruct (receive_expired q); simplify_eq/=; by eapply inv_same.
    + simplify_eq/=. destruct (holder_is _ _ _ _ Hinv Hi) as [Hh Hown]; [by intros []|].
      destruct Hown as [[_ Hn]|[Hd _]]; [|simpl in Hd; lia].
      pose proof (inv_holder _ _ Hinv) as I4. rewrite Hh in I4. destruct I4 as (Hm & _).
      eapply (inv_holder_set q); [done|by eapply lookup_lt_Some|eapply others_free; eauto|apply Hinv..| | | |];
        simpl; rewrite ?Hh, ?Hn; try done.
      right. rewrite u32_small by lia. simpl. lia.
  - by eapply give_inv.
  - apply (inv_core q); [done|]. destruct t; simpl; try (by rewrite list_insert_id); by eapply inv_same.
Qed.

Lemma mutex_reachable_inv (v : task -> Z) (c : Queue_t * list mstate) : reachable v c -> inv c.1 c.2.
Proof.
  induction 1 as [sizeof mem q n Hc|c c' _ IH Hstep]; [|by eapply mutex_step_inv].
  unfold xQueueCreateMutex, xQueueGenericCreate in Hc. simpl in Hc.
  destruct (negb _); simplify_eq/=. constructor; try done.
  - simpl. split_and!; [done..|]. apply Forall_replicate. done.
  - apply Forall_replicate. done.
Qed.

(** C16: mutual exclusion and nesting of recursive mutexes.  In every reachable
    configuration at most one task holds the mutex: if a task has takes
    outstanding then the mutex names it as holder, counts exactly its nesting,
    is not available, and every other task has none outstanding; if nobody has,
    then, unless a take is just completing, the mutex is available. *)
Theorem mutex_exclusion (xItemValue : task -> Z) (q : Queue_t) (ts : list mstate) :
  reachable xItemValue (q, ts) ->
  (forall i t, ts !! i = Some t -> 0 < depth t ->
     xMutexHolder q = Some i /\ uxRecursiveCallCount q = Z.of_nat (depth t) /\
     q.(uxMessagesWaiting) = 0 /\ forall j t', ts !! j = Some t' -> 0 < depth t' -> j = i) /\
  (Forall free ts -> q.(uxMessagesWaiting) = 1 /\ xMutexHolder q = None).
Proof.
  intros Hr. pose proof (mutex_reachable_inv _ _ Hr) as Hinv. simpl in Hinv. split.
  - intros i t Hi Hd. destruct (holder_is _ _ _ _ Hinv Hi) as [Hh Hown]; [intros [? _]; lia|].
    pose proof (inv_holder _ _ Hinv) as I4. rewrite Hh in I4. destruct I4 as (Hm & _ & _).
    split_and!; [done| |done|].
    + destruct Hown as [[-> _]|(_ & Hn & _)]; [simpl in Hd; lia|done].
    + intros j t' Hj Hd'. destruct (holder_is _ _ _ _ Hinv Hj) as [Hh' _]; [intros [? _]; lia|congruence].
  - intros Hf. pose proof (inv_holder _ _ Hinv) as I4. destruct (xMutexHolder q) as [h|]; [|by destruct I4].
    destruct I4 as (_ & (t & Ht & Hown) & _). destruct (Forall_lookup_1 _ _ _ _ Hf Ht) as [H1 H2].
    destruct Hown as [[-> _]|[Hd _]]; [done|lia].
Qed.

(** The first of two tasks has taken the mutex. *)
Lemma mutex_exclusion_witness :
  let q0 := prvInitialiseMutex (prvInitialiseNewQueue 1 0 []) in
  let q := take_recursive_after (take_try q0 0 portMAX_DELAY).1.1 pdPASS in
  let ts := [Outside 1; Outside 0] in
  (forall i t, ts !! i = Some t -> 0 < depth t ->
     xMutexHolder q = Some i /\ uxRecursiveCallCount q = Z.of_nat (depth t) /\
     q.(uxMessagesWaiting) = 0 /\ forall j t', ts !! j = Some t' -> 0 < depth t' -> j = i) /\
  (Forall free ts -> q.(uxMessagesWaiting) = 1 /\ xMutexHolder q = None).
Proof.
  intros q0 q ts. apply (mutex_exclusion (fun _ => 0%Z) q ts).
  set (q1 := (take_try q0 0 portMAX_DELAY).1.1).
  eapply (reach_step _ (q1, [Taken; Outside 0])).
  2: apply (step_section (fun _ => 0%Z) q1 [Taken; Outside 0] 0 Taken false 0 q [] (Outside 1)); reflexivity.
  eapply (reach_step _ (q0, [TakeTry portMAX_DELAY; Outside 0])).
  2: apply (step_section (fun _ => 0%Z) q0 [TakeTry portMAX_DELAY; Outside 0] 0 (TakeTry portMAX_DELAY)
              false 0 q1 [] Taken); reflexivity.
  eapply (reach_step _ (q0, [Taking 0 portMAX_DELAY; Outside 0])).
  2: apply (step_section (fun _ => 0%Z) q0 [Taking 0 portMAX_DELAY; Outside 0] 0 (Taking 0 portMAX_DELAY)
              false 0 q0 [] (TakeTry portMAX_DELAY)); reflexivity.
  eapply (reach_step _ (q0, [Outside 0; Outside 0])).
  2: apply (step_take (fun _ => 0%Z) q0 [Outside 0; Outside 0] 0 0 portMAX_DELAY); [reflexivity|lia].
  apply (reach_init (fun _ => 0%Z) 80 [] q0 2). vm_compute. reflexivity.
Defined.
End MutexSystem.
