(* ===== verification/Rtos.v ===== *)
(** * The operating-system adapter: [tkl_mutex.c], [tkl_semaphore.c],
      [tkl_queue.c], [tkl_thread.c], [tkl_system.c], [tkl_sleep.c], [tkl_output.c]

    Thin wrappers over FreeRTOS.  A handle is an address, NULL is [None]; an
    output parameter is [true] when the pointer is not NULL, and the result
    carries what was stored through it. *)
From stdpp Require Import base list.
From Stdlib Require Import ZArith Lia.
From S2P Require Import Prelude Oprt Queue QueueSystem.
Local Open Scope Z_scope.

Module Rtos.

Definition configTICK_RATE_HZ : Z := 1000.
Definition pdMS_TO_TICKS (ms : Z) : Z := u32 (u32 (u32 ms * configTICK_RATE_HZ) / 1000).
Definition pdTICKS_TO_MS (ticks : Z) : Z := u32 (ticks * 1000 / configTICK_RATE_HZ).
Definition TKL_SEM_WAIT_FOREVER : Z := 0xFFFFFFFF.
Definition TKL_QUEUE_WAIT_FROEVER : Z := 0xFFFFFFFF.
Definition portMAX_DELAY : Z := 0xFFFFFFFF.
Definition pdTRUE : Z := 1.

(** The FreeRTOS calls.  [FromISR] calls answer with their result and the flag
    [xHigherPriorityTaskWoken]. *)
Inductive RtosE : Type -> Type :=
| xPortInIsrContext : RtosE Z
| portYIELD_FROM_ISR : RtosE unit
| xSemaphoreCreateRecursiveMutex : RtosE (option Z)
| xSemaphoreTakeRecursive (h ticks : Z) : RtosE Z
| xSemaphoreGiveRecursive (h : Z) : RtosE Z
| xSemaphoreGiveFromISR (h : Z) : RtosE (Z * Z)
| vSemaphoreDelete (h : Z) : RtosE unit
| xSemaphoreCreateCounting (max init : Z) : RtosE (option Z)
| xSemaphoreTake (h ticks : Z) : RtosE Z
| xSemaphoreTakeFromISR (h : Z) : RtosE (Z * Z)
| xSemaphoreGive (h : Z) : RtosE Z
| xQueueCreate (count size : Z) : RtosE (option Z)
| vQueueDelete (h : Z) : RtosE unit
| xQueueSend (h : Z) (item : list Z) (ticks : Z) : RtosE Z
| xQueueSendFromISR (h : Z) (item : list Z) : RtosE (Z * Z)
| xQueueReceive (h ticks : Z) : RtosE (Z * list Z)
| xQueueReceiveFromISR (h : Z) : RtosE (Z * list Z * Z).

(** The idiom of the FromISR calls: yield when a task was woken. *)
Definition yield_if (ret woken : Z) : prog RtosE unit :=
  if (ret =? pdTRUE) && (woken =? pdTRUE) then call portYIELD_FROM_ISR else Ret tt.

Definition in_isr : prog RtosE bool := do r <- call xPortInIsrContext; Ret (r =? pdTRUE).

(** ** [tkl_mutex.c] *)

(** The stored handle and the code. *)
Definition tkl_mutex_create_init (pMutexHandle : bool) : prog RtosE (option (option Z) * Z) :=
  if negb pMutexHandle then Ret (None, OPRT_INVALID_PARM)
  else
    do h <- call xSemaphoreCreateRecursiveMutex;
    Ret (Some h, match h with None => OPRT_MALLOC_FAILED | Some _ => OPRT_OK end).

Definition tkl_mutex_lock (mutexHandle : option Z) : prog RtosE Z :=
  match mutexHandle with
  | None => Ret OPRT_INVALID_PARM
  | Some h =>
      do ret <- call (xSemaphoreTakeRecursive h portMAX_DELAY);
      Ret (if ret =? pdTRUE then OPRT_OK else OPRT_OS_ADAPTER_MUTEX_LOCK_FAILED)
  end.

Definition tkl_mutex_unlock (mutexHandle : option Z) : prog RtosE Z :=
  match mutexHandle with
  | None => Ret OPRT_INVALID_PARM
  | Some h =>
      do isr <- in_isr;
      do ret <- (if isr : bool then
                   do '(ret, woken) <- call (xSemaphoreGiveFromISR h);
                   yield_if ret woken >> Ret ret
                 else call (xSemaphoreGiveRecursive h));
      Ret (if ret =? pdTRUE then OPRT_OK else OPRT_OS_ADAPTER_MUTEX_UNLOCK_FAILED)
  end.

Definition tkl_mutex_release (mutexHandle : option Z) : prog RtosE Z :=
  match mutexHandle with
  | None => Ret OPRT_INVALID_PARM
  | Some h => call (vSemaphoreDelete h) >> Ret OPRT_OK
  end.

Definition tkl_mutex_trylock (mutexHandle : option Z) : prog RtosE Z :=
  match mutexHandle with
  | None => Ret OPRT_INVALID_PARM
  | Some h =>
      do ret <- call (xSemaphoreTakeRecursive h 0);
      Ret (if ret =? pdTRUE then OPRT_OK else OPRT_OS_ADAPTER_MUTEX_LOCK_FAILED)
  end.

(** ** [tkl_semaphore.c] *)

Definition tkl_semaphore_create_init (pHandle : bool) (semCnt sem_max : Z)
  : prog RtosE (option (option Z) * Z) :=
  if negb pHandle then Ret (None, OPRT_OS_ADAPTER_INVALID_PARM)
  else
    do h <- call (xSemaphoreCreateCounting sem_max semCnt);
    Ret (Some h, match h with None => OPRT_OS_ADAPTER_SEM_CREAT_FAILED | Some _ => OPRT_OK end).

Definition tkl_semaphore_wait (handle : option Z) (timeout : Z) : prog RtosE Z :=
  match handle with
  | None => Ret OPRT_OS_ADAPTER_INVALID_PARM
  | Some h =>
      do isr <- in_isr;
      do ret <- (if isr : bool then
                   do '(ret, woken) <- call (xSemaphoreTakeFromISR h);
                   yield_if ret woken >> Ret ret
                 else
                   let xTicksToWait :=
                     if timeout <? TKL_SEM_WAIT_FOREVER then pdMS_TO_TICKS timeout else portMAX_DELAY in
                   call (xSemaphoreTake h xTicksToWait));
      Ret (if ret =? pdTRUE then OPRT_OK else OPRT_OS_ADAPTER_SEM_WAIT_FAILED)
  end.

Definition tkl_semaphore_post (handle : option Z) : prog RtosE Z :=
  match handle with
  | None => Ret OPRT_OS_ADAPTER_INVALID_PARM
  | Some h =>
      do isr <- in_isr;
      do ret <- (if isr : bool then
                   do '(ret, woken) <- call (xSemaphoreGiveFromISR h);
                   yield_if ret woken >> Ret ret
                 else call (xSemaphoreGive h));
      Ret (if ret =? pdTRUE then OPRT_OK else OPRT_OS_ADAPTER_SEM_POST_FAILED)
  end.

Definition tkl_semaphore_release (handle : option Z) : prog RtosE Z :=
  match handle with
  | None => Ret OPRT_OS_ADAPTER_INVALID_PARM
  | Some h => call (vSemaphoreDelete h) >> Ret OPRT_OK
  end.

(** ** [tkl_queue.c] *)

Definition tkl_queue_create_init (queue : bool) (msgsize msgcount : Z)
  : prog RtosE (option (option Z) * Z) :=
  if negb queue then Ret (None, OPRT_OS_ADAPTER_INVALID_PARM)
  else
    do h <- call (xQueueCreate (u32 msgcount) (u32 msgsize));
    Ret (Some h, match h with None => OPRT_OS_ADAPTER_QUEUE_CREAT_FAILED | Some _ => OPRT_OK end).

Definition tkl_queue_free (queue : option Z) : prog RtosE unit :=
  match queue with None => Ret tt | Some h => call (vQueueDelete h) end.

Definition tkl_queue_post (queue : option Z) (data : list Z) (timeout : Z) : prog RtosE Z :=
  match queue with
  | None => Ret OPRT_OS_ADAPTER_INVALID_PARM
  | Some h =>
      do isr <- in_isr;
      do ret <- (if isr : bool then
                   do '(ret, woken) <- call (xQueueSendFromISR h data);
                   yield_if ret woken >> Ret ret
                 else
                   let xTicksToWait :=
                     if timeout <? TKL_QUEUE_WAIT_FROEVER then pdMS_TO_TICKS timeout else portMAX_DELAY in
                   call (xQueueSend h data xTicksToWait));
      Ret (if ret =? pdTRUE then OPRT_OK else OPRT_OS_ADAPTER_QUEUE_SEND_FAIL)
  end.

(** The code, and the bytes copied to [msg]. *)
Definition tkl_queue_fetch (queue : option Z) (timeout : Z) : prog RtosE (Z * list Z) :=
  match queue with
  | None => Ret (OPRT_OS_ADAPTER_INVALID_PARM, [])
  | Some h =>
      do isr <- in_isr;
      do '(ret, item) <- (if isr : bool then
                   do '(ret, item, woken) <- call (xQueueReceiveFromISR h);
                   yield_if ret woken >> Ret (ret, item)
                 else
                   let xTicksToWait :=
                     if timeout <? TKL_QUEUE_WAIT_FROEVER then pdMS_TO_TICKS timeout else portMAX_DELAY in
                   call (xQueueReceive h xTicksToWait));
      Ret (if ret =? pdTRUE then OPRT_OK else OPRT_OS_ADAPTER_QUEUE_RECV_FAIL, item)
  end.

(** ** [tkl_thread.c] *)

Definition pdPASS : Z := 1.

(** The calls of the thread and system adapters. *)
Inductive SysE : Type -> Type :=
| xTaskCreate (stack_words priority : Z) : SysE (Z * Z)
| vTaskDelete (h : option Z) : SysE unit
| xTaskGetCurrentTaskHandle : SysE (option Z)
| vTaskPrioritySet (h priority : Z) : SysE unit
| uxTaskPriorityGet (h : Z) : SysE Z
| uxTaskGetStackHighWaterMark (h : Z) : SysE Z
| vTaskDelay (ticks : Z) : SysE unit
| esp_restart : SysE unit
| esp_reset_reason : SysE Z
| esp_random : SysE Z
| esp_task_wdt_init (seconds : Z) (panic : bool) : SysE Z
| esp_task_wdt_add : SysE Z
| esp_task_wdt_reset : SysE Z
| esp_task_wdt_deinit : SysE Z
| xPortGetFreeHeapSize : SysE Z
| xTaskGetTickCount : SysE Z
| ESP_LOGI (text : list Z) : SysE unit.

(** [portSTACK_TYPE] is one byte in ESP-IDF.  The handle is stored in [*thread]. *)
Definition tkl_thread_create (stack_size priority : Z) : prog SysE (Z * Z) :=
  do '(ret, h) <- call (xTaskCreate (stack_size / 1) priority);
  Ret (h, if ret =? pdPASS then OPRT_OK else OPRT_COM_ERROR).

Definition tkl_thread_release (thread : option Z) : prog SysE Z :=
  call (vTaskDelete thread) >> Ret OPRT_OK.

Definition tkl_thread_is_self (thread : option Z) (is_self : bool) : prog SysE (option bool * Z) :=
  match thread, is_self with
  | None, _ | _, false => Ret (None, OPRT_INVALID_PARM)
  | Some t, true =>
      do self <- call xTaskGetCurrentTaskHandle;
      match self with
      | None => Ret (None, OPRT_OS_ADAPTER_THRD_JUDGE_SELF_FAILED)
      | Some me => Ret (Some (t =? me), OPRT_OK)
      end
  end.

Definition tkl_thread_set_priority (thread : option Z) (priority : Z) : prog SysE Z :=
  match thread with
  | None => Ret OPRT_INVALID_PARM
  | Some t => call (vTaskPrioritySet t (u32 priority)) >> Ret OPRT_OK
  end.

Definition tkl_thread_get_priority (thread : option Z) (priority : bool) : prog SysE (option Z * Z) :=
  match thread, priority with
  | None, _ | _, false => Ret (None, OPRT_INVALID_PARM)
  | Some t, true => do p <- call (uxTaskPriorityGet t); Ret (Some (i32 p), OPRT_OK)
  end.

Definition tkl_thread_get_watermark (thread : option Z) (watermark : bool) : prog SysE (option Z * Z) :=
  match thread, watermark with
  | None, _ | _, false => Ret (None, OPRT_INVALID_PARM)
  | Some t, true => do n <- call (uxTaskGetStackHighWaterMark t); Ret (Some n, OPRT_OK)
  end.

Definition tkl_thread_get_id : prog SysE (option Z * Z) :=
  do h <- call xTaskGetCurrentTaskHandle; Ret (h, OPRT_OK).

(** ** [tkl_system.c] *)

Definition tkl_system_sleep (num_ms : Z) : prog SysE unit := call (vTaskDelay (pdMS_TO_TICKS num_ms)).

Definition tkl_system_delay (num_ms : Z) : prog SysE unit := tkl_system_sleep num_ms.

Definition tkl_system_reset : prog SysE unit := call esp_restart >> Halt Restarted.

(** [esp_reset_reason_t] and [TUYA_RESET_REASON_E] as their numbers. *)
Definition tkl_system_get_reset_reason : prog SysE Z :=
  do reason <- call esp_reset_reason;
  Ret (match reason with
       | 1 => 0      (* ESP_RST_POWERON: TUYA_RESET_REASON_POWERON *)
       | 2 => 6      (* ESP_RST_EXT: TUYA_RESET_REASON_EXTERNAL *)
       | 3 => 4      (* ESP_RST_SW: TUYA_RESET_REASON_SOFTWARE *)
       | 4 => 2      (* ESP_RST_PANIC: TUYA_RESET_REASON_FAULT *)
       | 5 => 3      (* ESP_RST_INT_WDT: TUYA_RESET_REASON_SW_WDOG *)
       | 6 => 3      (* ESP_RST_TASK_WDT: TUYA_RESET_REASON_SW_WDOG *)
       | 7 => 3      (* ESP_RST_WDT: TUYA_RESET_REASON_SW_WDOG *)
       | 8 => 5      (* ESP_RST_DEEPSLEEP: TUYA_RESET_REASON_DEEPSLEEP *)
       | 9 => 13     (* ESP_RST_BROWNOUT: TUYA_RESET_REASON_BROWNOUT *)
       | 10 => 6     (* ESP_RST_SDIO: TUYA_RESET_REASON_EXTERNAL *)
       | _ => 7      (* TUYA_RESET_REASON_UNKNOWN *)
       end).

(** A range of 0 divides by zero, which traps. *)
Definition tkl_system_get_random (range : Z) : prog SysE Z :=
  do r <- call esp_random;
  if range =? 0 then Halt Aborted else Ret (i32 (r mod range)).

(** The watchdog; [inited] is [tuya_watchdog_tread_inited]. *)
Definition tkl_watchdog_init (interval_ms : Z) : prog SysE Z :=
  let timeouts := u32 (u32 (interval_ms + 1000) - 1) / 1000 in
  do err <- call (esp_task_wdt_init timeouts true);
  Ret (if esp_failed err then u32 OPRT_COM_ERROR else OPRT_OK).

Definition tkl_watchdog_refresh (inited : bool) : prog SysE (bool * Z) :=
  do added <- (if inited then Ret (Some true)
               else do err <- call esp_task_wdt_add;
                    Ret (if esp_failed err then None else Some true));
  match added with
  | None => Ret (inited, OPRT_COM_ERROR)
  | Some inited =>
      do err <- call esp_task_wdt_reset;
      Ret (inited, if esp_failed err then OPRT_COM_ERROR else OPRT_OK)
  end.

Definition tkl_watchdog_deinit : prog SysE Z :=
  do err <- call esp_task_wdt_deinit;
  Ret (if esp_failed err then OPRT_COM_ERROR else OPRT_OK).

Definition tkl_system_get_free_heap_size : prog SysE Z :=
  do n <- call xPortGetFreeHeapSize; Ret (i32 n).

Definition tkl_system_get_tick_count : prog SysE Z := call xTaskGetTickCount.

Definition tkl_system_get_millisecond : prog SysE Z :=
  do t <- tkl_system_get_tick_count; Ret (pdTICKS_TO_MS t).

(** ** [tkl_output.c], [tkl_sleep.c] *)

Definition tkl_log_output (str : option (list Z)) : prog SysE unit :=
  match str with None => Ret tt | Some s => call (ESP_LOGI s) end.

Definition tkl_log_close : Z := OPRT_NOT_SUPPORTED.
Definition tkl_log_open : Z := OPRT_NOT_SUPPORTED.
Definition tkl_cpu_sleep_callback_register : Z := OPRT_NOT_SUPPORTED.

(** ** A queue reached through the adapter

    The FreeRTOS calls answered by the queue of [Queue.v], from a task or from
    an interrupt handler that is alone with it; a call that would wait has no
    answer. *)
Definition on_queue (isr : bool) (X : Type) (e : RtosE X) : Queue.Queue_t -> option (X * Queue.Queue_t) :=
  match e in RtosE X return Queue.Queue_t -> option (X * Queue.Queue_t) with
  | xPortInIsrContext => fun q => Some (if isr then pdTRUE else 0, q)
  | portYIELD_FROM_ISR => fun q => Some (tt, q)
  | xQueueSend _ item ticks => fun q =>
      match Queue.send_try q item ticks Queue.queueSEND_TO_BACK with
      | (q, _, Queue.Return code _) => Some (code, q)
      | _ => None
      end
  | xQueueSendFromISR _ item => fun q =>
      let '(q, w, code) := Queue.xQueueGenericSendFromISR q item Queue.queueSEND_TO_BACK in
      Some ((code, if bool_decide (w = []) then 0 else pdTRUE), q)
  | xQueueReceive _ ticks => fun q =>
      match Queue.receive_try q ticks with
      | (q, _, Queue.Return code item) => Some ((code, item), q)
      | _ => None
      end
  | xQueueReceiveFromISR _ => fun q =>
      let '(q, w, code, item) := Queue.xQueueReceiveFromISR q in
      Some ((code, item, if bool_decide (w = []) then 0 else pdTRUE), q)
  | _ => fun _ => None
  end.

Inductive queue_op := Post (data : list Z) | Fetch.

Definition queue_call (h : Z) (o : queue_op) : prog RtosE (Z * list Z) :=
  match o with
  | Post data => do r <- tkl_queue_post (Some h) data 0; Ret (r, [])
  | Fetch => tkl_queue_fetch (Some h) 0
  end.

Fixpoint queue_calls (h : Z) (os : list queue_op) : prog RtosE (list (Z * list Z)) :=
  match os with
  | [] => Ret []
  | o :: os => do r <- queue_call h o; do rs <- queue_calls h os; Ret (r :: rs)
  end.

(** The contract: a list of at most [cap] messages. *)
Definition bounded_op (cap : nat) (l : list (list Z)) (o : queue_op) : list (list Z) * (Z * list Z) :=
  match o, l with
  | Post x, _ => if (length l <? cap)%nat then (l ++ [x], (OPRT_OK, []))
                 else (l, (OPRT_OS_ADAPTER_QUEUE_SEND_FAIL, []))
  | Fetch, x :: l => (l, (OPRT_OK, x))
  | Fetch, [] => ([], (OPRT_OS_ADAPTER_QUEUE_RECV_FAIL, []))
  end.

Fixpoint bounded_ops (cap : nat) (l : list (list Z)) (os : list queue_op) : list (Z * list Z) :=
  match os with
  | [] => []
  | o :: os => let '(l, r) := bounded_op cap l o in r :: bounded_ops cap l os
  end.

Definition op_fits (size : nat) (o : queue_op) : Prop :=
  match o with Post x => length x = size | Fetch => True end.

(** One call through the adapter does one step of the bounded list. *)
Lemma queue_call_bounded (isr : bool) (h : Z) (q : Queue.Queue_t) (l : list (list Z)) (o : queue_op) :
  QueueSystem.qinv q l -> op_fits q.(Queue.uxItemSize) o ->
  let '(l', r) := bounded_op q.(Queue.uxLength) l o in
  exists q', interp (on_queue isr) (queue_call h o) q = Some (r, q') /\
    QueueSystem.qinv q' l' /\ QueueSystem.same_shape q q'.
Proof.
  intros Hq Hfit. destruct (QueueSystem.qinv_messages _ _ Hq) as [Hm Hb].
  pose proof Hq as (_ & Hrx & Htx). destruct o as [x|]; simpl.
  - destruct (Nat.ltb_spec (length l) q.(Queue.uxLength)) as [Hroom|Hfull].
    + pose proof (QueueSystem.put_item q l x Hq Hfit Hroom) as Hput.
      destruct isr; simpl; unfold Queue.send_try, Queue.xQueueGenericSendFromISR; rewrite Hm, orb_false_r;
        rewrite (proj2 (Nat.ltb_lt _ _)) by done; rewrite ?Htx; simpl;
        destruct (Queue.wake_receiver _) as [q' w]; destruct Hput as (H1 & H2 & _);
        exists q'; [|done]. by destruct w.
    + exists q. destruct isr; simpl; unfold Queue.send_try, Queue.xQueueGenericSendFromISR; rewrite Hm, orb_false_r;
        rewrite (proj2 (Nat.ltb_ge _ _)) by done; done.
  - destruct l as [|x l]; simpl in Hm.
    + exists q. destruct isr; simpl; unfold Queue.receive_try, Queue.xQueueReceiveFromISR; rewrite Hm; done.
    + pose proof (QueueSystem.take_item q x l Hq) as Htake. rewrite Hm in Htake. simpl in Htake.
      destruct isr; simpl; unfold Queue.receive_try, Queue.xQueueReceiveFromISR; rewrite Hm, ?Hrx; simpl;
        destruct (Queue.prvCopyDataFromQueue q) as [q1 y]; destruct (Queue.wake_sender _) as [q' w];
        destruct Htake as (-> & H1 & H2 & _); exists q'; [|done]. by destruct w.
Qed.

(** C17: a queue created with [xQueueCreate] and used through [tkl_queue_post] and
    [tkl_queue_fetch] without waiting, from a task or from an interrupt handler,
    behaves as a bounded list: every sequence of calls returns the codes and the
    messages the list gives, first in first out, and never blocks. *)
Theorem tkl_queue_bounded_fifo (isr : bool) (h sizeof len isz : Z) (mem : list Z) (q : Queue.Queue_t)
    (os : list queue_op) :
  0 < isz -> u32 (len * isz) <= Z.of_nat (length mem) ->
  Queue.xQueueGenericCreate sizeof len isz (Some mem) = Some (Some q) ->
  Forall (op_fits (Z.to_nat isz)) os ->
  exists q', interp (on_queue isr) (queue_calls h os) q =
    Some (bounded_ops (Z.to_nat len) [] os, q').
Proof.
  intros Hi Hmem Hc Hos. destruct (Queue.create_holds _ _ _ _ _ Hi Hmem Hc) as (Hh & Hl & Hz & _ & _ & Hlock).
  assert (Hq : QueueSystem.qinv q []) by (by split). rewrite <- Hl. rewrite <- Hz in Hos.
  clear Hc Hmem Hh Hlock Hl Hz Hi. revert q Hq Hos. generalize (@nil (list Z)).
  induction os as [|o os IH]; intros l q Hq Hos; simpl; [eauto|].
  apply Forall_cons in Hos as [Ho Hos]. pose proof (queue_call_bounded isr h q l o Hq Ho) as Hone.
  destruct (bounded_op _ l o) as [l' r]. destruct Hone as (q1 & H1 & Hq1 & Hlen & Hsz).
  rewrite <- Hsz in Hos. destruct (IH l' q1 Hq1 Hos) as (q2 & H2). rewrite Hlen in H2.
  exists q2. rewrite interp_bind, H1, interp_bind, H2. done.
Qed.

(** A queue of two one-byte messages: the third post fails, then they come out. *)
Lemma tkl_queue_bounded_fifo_witness :
  exists q', interp (on_queue false)
      (queue_calls 1 [Post [5]; Post [6]; Post [7]; Fetch; Fetch; Fetch])
      (Queue.prvInitialiseNewQueue 2 1 [0; 0]) =
    Some ([(OPRT_OK, []); (OPRT_OK, []); (OPRT_OS_ADAPTER_QUEUE_SEND_FAIL, []);
           (OPRT_OK, [5]); (OPRT_OK, [6]); (OPRT_OS_ADAPTER_QUEUE_RECV_FAIL, [])], q').
Proof.
  apply (tkl_queue_bounded_fifo false 1 80 2 1 [0; 0] (Queue.prvInitialiseNewQueue 2 1 [0; 0])
           [Post [5]; Post [6]; Post [7]; Fetch; Fetch; Fetch]).
  - lia.
  - vm_compute. discriminate.
  - vm_compute. reflexivity.
  - repeat constructor.
Defined.

(** ** Waiting *)

(** The ticks of a call that may block the caller. *)
Definition blocking (e : event RtosE) : option Z :=
  match e with
  | @Ev _ _ (xSemaphoreTake _ ticks) _ | @Ev _ _ (xQueueSend _ _ ticks) _
  | @Ev _ _ (xQueueReceive _ ticks) _ | @Ev _ _ (xSemaphoreTakeRecursive _ ticks) _ => Some ticks
  | _ => None
  end.

(** What a timeout in milliseconds becomes. *)
Definition waits_for (timeout ticks : Z) : Prop :=
  (timeout = TKL_SEM_WAIT_FOREVER -> ticks = portMAX_DELAY) /\
  (timeout <= 4294967 -> ticks = timeout) /\
  (4294967 < timeout < TKL_SEM_WAIT_FOREVER -> ticks < timeout).

(** A run that asks for its context first, does not block in an interrupt, and
    blocks once for [timeout] in a task. *)
Definition waits_once {A} (timeout : Z) (l : list (event RtosE)) (_ : outcome A) : Prop :=
  exists isr rest ticks, l = Ev xPortInIsrContext isr :: rest /\
    omap blocking l = (if isr =? pdTRUE then [] else [ticks]) /\ waits_for timeout ticks.

Lemma ticks_of_timeout (timeout : Z) :
  0 <= timeout <= TKL_SEM_WAIT_FOREVER ->
  waits_for timeout (if timeout <? TKL_SEM_WAIT_FOREVER then pdMS_TO_TICKS timeout else portMAX_DELAY).
Proof.
  unfold waits_for, TKL_SEM_WAIT_FOREVER, portMAX_DELAY, pdMS_TO_TICKS, configTICK_RATE_HZ. intros Ht.
  destruct (Z.ltb_spec timeout 0xFFFFFFFF); [|lia]. rewrite (u32_small timeout) by lia.
  split_and!; [lia| |]; intros Hs.
  - rewrite (u32_small (timeout * 1000)) by lia. rewrite Z.div_mul by lia. apply u32_small. lia.
  - pose proof (u32_range (timeout * 1000)) as Hr.
    assert (u32 (timeout * 1000) / 1000 <= 4294967) by (apply Z.lt_succ_r, Z.div_lt_upper_bound; lia).
    assert (0 <= u32 (timeout * 1000) / 1000) by (apply Z.div_pos; lia).
    rewrite u32_small by lia. lia.
Qed.

Lemma waits_in_isr {A} (timeout isr : Z) (rest : list (event RtosE)) (o : outcome A) :
  0 <= timeout <= TKL_SEM_WAIT_FOREVER -> (isr =? pdTRUE) = true -> omap blocking rest = [] ->
  waits_once timeout (Ev xPortInIsrContext isr :: rest) o.
Proof.
  intros Ht Hisr Hb. eexists _, _, _. split; [reflexivity|]. split; [|by apply ticks_of_timeout].
  by rewrite Hisr.
Qed.

Lemma waits_in_task {A} (timeout isr : Z) (rest : list (event RtosE)) (o : outcome A) :
  0 <= timeout <= TKL_SEM_WAIT_FOREVER -> (isr =? pdTRUE) = false ->
  omap blocking rest = [if timeout <? TKL_SEM_WAIT_FOREVER then pdMS_TO_TICKS timeout else portMAX_DELAY] ->
  waits_once timeout (Ev xPortInIsrContext isr :: rest) o.
Proof.
  intros Ht Hisr Hb. eexists _, _, _. split; [reflexivity|]. split; [|by apply ticks_of_timeout].
  by rewrite Hisr.
Qed.

(** Waiting.  [tkl_semaphore_wait], [tkl_queue_post] and [tkl_queue_fetch]
    never make a blocking call in an interrupt; in a task they make exactly one,
    whose ticks are the timeout up to 4294967 ms and "forever" for the maximal
    value.  In between the 32-bit product of [pdMS_TO_TICKS] wraps and the wait is
    shorter than asked for. *)
Theorem waits_exact (h timeout : Z) (data : list Z) :
  0 <= timeout <= TKL_SEM_WAIT_FOREVER ->
  always (tkl_semaphore_wait (Some h) timeout) (waits_once timeout) /\
  always (tkl_queue_post (Some h) data timeout) (waits_once timeout) /\
  always (tkl_queue_fetch (Some h) timeout) (waits_once timeout).
Proof.
  intros Ht. split; [|split]; apply wp_always; cbn; intros isr; destruct (isr =? pdTRUE) eqn:Hisr; cbn; intros x;
    try (apply waits_in_task; [done|done|reflexivity]).
  - destruct x as [ret woken]. unfold yield_if. destruct (_ && _); cbn; intros; by apply waits_in_isr.
  - destruct x as [ret woken]. unfold yield_if. destruct (_ && _); cbn; intros; by apply waits_in_isr.
  - destruct x as [[ret item] woken]. unfold yield_if. destruct (_ && _); cbn; intros; by apply waits_in_isr.
  - destruct x as [ret item]. apply waits_in_task; [done|done|reflexivity].
Qed.

Lemma waits_exact_witness :
  always (tkl_semaphore_wait (Some 7) 4294968) (waits_once 4294968).
Proof. apply (waits_exact 7 4294968 []). unfold TKL_SEM_WAIT_FOREVER. lia. Defined.
End Rtos.
