(* ===== verification/Memory.v ===== *)
(** * The heap adapter: [tkl_memory.c]

    The heap as a finite map from block addresses to their bytes.  An access
    outside a block, or to a freed one, is an error of the model ([None]). *)
From stdpp Require Import base list gmap.
From Stdlib Require Import ZArith Lia.
From S2P Require Import Prelude.
Local Open Scope Z_scope.

Module Memory.

Abbreviation heap := (gmap Z (list Z)).

Section Heap.
(** [pvPortMalloc]: an address and the bytes found there, or NULL. *)
Variable pvPortMalloc : heap -> Z -> option (Z * list Z).

Definition tkl_system_malloc (h : heap) (size : Z) : option Z * heap :=
  match pvPortMalloc h size with
  | None => (None, h)
  | Some (p, bytes) => (Some p, <[p := bytes]> h)
  end.

(** [vPortFree(NULL)] does nothing; freeing what is not a block is an error. *)
Definition tkl_system_free (h : heap) (ptr : option Z) : option heap :=
  match ptr with
  | None => Some h
  | Some p => match h !! p with Some _ => Some (delete p h) | None => None end
  end.

(** [memset(addr, 0, n)] and [memcpy(dst, src, n)] on whole blocks. *)
Definition memset0 (h : heap) (p n : Z) : option heap :=
  match h !! p with
  | Some b => if n <=? Z.of_nat (length b)
              then Some (<[p := store_at b 0 (replicate (Z.to_nat n) 0)]> h) else None
  | None => None
  end.

Definition memcpy (h : heap) (dst src n : Z) : option heap :=
  match h !! dst, h !! src with
  | Some d, Some s =>
      if (n <=? Z.of_nat (length d)) && (n <=? Z.of_nat (length s))
      then Some (<[dst := store_at d 0 (take (Z.to_nat n) s)]> h) else None
  | _, _ => None
  end.

(** [size_t] is 32 bits wide. *)
Definition tkl_system_calloc (h : heap) (nitems size : Z) : option (option Z * heap) :=
  let n := u32 (nitems * size) in
  match tkl_system_malloc h n with
  | (None, h) => Some (None, h)
  | (Some addr, h) => match memset0 h addr n with Some h => Some (Some addr, h) | None => None end
  end.

Definition tkl_system_realloc (h : heap) (ptr : option Z) (size : Z) : option (option Z * heap) :=
  if size =? 0 then
    match tkl_system_free h ptr with Some h => Some (None, h) | None => None end
  else
    match ptr with
    | None => Some (tkl_system_malloc h size)
    | Some p =>
        match tkl_system_malloc h size with
        | (None, h) => Some (None, h)
        | (Some new, h) =>
            match memcpy h new p size with
            | None => None
            | Some h =>
                match tkl_system_free h ptr with Some h => Some (Some new, h) | None => None end
            end
        end
    end.

(** What the allocator promises: a fresh block of the size asked for. *)
Hypothesis malloc_fresh : forall h size p b, pvPortMalloc h size = Some (p, b) -> h !! p = None.
Hypothesis malloc_size : forall h size p b,
  pvPortMalloc h size = Some (p, b) -> Z.of_nat (length b) = size.

Lemma memcpy_all (h : heap) (dst src n : Z) (d s : list Z) :
  h !! dst = Some d -> h !! src = Some s -> n = Z.of_nat (length d) -> n <= Z.of_nat (length s) ->
  memcpy h dst src n = Some (<[dst := take (Z.to_nat n) s]> h).
Proof.
  intros Hd Hs -> Hle. unfold memcpy. rewrite Hd, Hs.
  rewrite (proj2 (Z.leb_le _ _)), (proj2 (Z.leb_le _ _)) by lia. simpl. do 2 f_equal.
  unfold store_at. rewrite Nat2Z.id. simpl. rewrite drop_ge, app_nil_r; [done|].
  rewrite length_take. lia.
Qed.

(** C18: what [tkl_system_realloc] does with a live block of [n] bytes when the
    allocator has memory.  Asked for at most [n] bytes it returns a new block with
    the first [size] bytes, frees the old one and leaves every other block alone;
    asked for more it copies [size] bytes out of the old block, past its end. *)
Theorem realloc_live_block (h : heap) (p size new : Z) (old b : list Z) :
  h !! p = Some old -> 0 < size -> pvPortMalloc h size = Some (new, b) ->
  (size <= Z.of_nat (length old) ->
     tkl_system_realloc h (Some p) size =
       Some (Some new, <[new := take (Z.to_nat size) old]> (delete p h))) /\
  (Z.of_nat (length old) < size -> tkl_system_realloc h (Some p) size = None).
Proof.
  intros Hp Hsize Halloc.
  pose proof (malloc_fresh _ _ _ _ Halloc) as Hnew. pose proof (malloc_size _ _ _ _ Halloc) as Hlen.
  assert (Hne : new <> p) by congruence.
  unfold tkl_system_realloc, tkl_system_malloc. rewrite (proj2 (Z.eqb_neq size 0)) by lia. rewrite Halloc.
  split; intros Hle.
  - rewrite (memcpy_all _ _ _ _ b old); [|by rewrite lookup_insert_eq|by rewrite lookup_insert_ne|done|done].
    simpl. rewrite insert_insert_eq, lookup_insert_ne, Hp by done. by rewrite delete_insert_ne.
  - unfold memcpy. rewrite lookup_insert_eq, lookup_insert_ne, Hp by done.
    rewrite (proj2 (Z.leb_gt size (Z.of_nat (length old)))) by lia. by rewrite andb_false_r.
Qed.

(** When there is memory, [tkl_system_calloc] returns a fresh block of zeros, and leaves
    the other blocks alone; its length is the product of its arguments only when
    that fits 32 bits. *)
Theorem calloc_zeroed (h : heap) (nitems size p : Z) (b : list Z) :
  pvPortMalloc h (u32 (nitems * size)) = Some (p, b) ->
  tkl_system_calloc h nitems size =
    Some (Some p, <[p := replicate (Z.to_nat (u32 (nitems * size))) 0]> h) /\
  h !! p = None /\
  (0 <= nitems * size < 2 ^ 32 <-> 0 <= nitems * size /\ Z.of_nat (length b) = nitems * size).
Proof.
  intros Halloc. pose proof (malloc_fresh _ _ _ _ Halloc). pose proof (malloc_size _ _ _ _ Halloc) as Hlen.
  pose proof (u32_range (nitems * size)) as Hr. split_and!; [|done|].
  - unfold tkl_system_calloc, tkl_system_malloc, memset0. rewrite Halloc, lookup_insert_eq.
    rewrite (proj2 (Z.leb_le _ _)) by lia. rewrite insert_insert_eq. do 4 f_equal.
    unfold store_at. simpl. rewrite drop_ge, app_nil_r; [done|]. rewrite length_replicate. lia.
  - rewrite Hlen. split; intros [H1 H2]; [split; [done|apply u32_small; lia]|lia].
Qed.
End Heap.

(** An allocator that satisfies the hypotheses: one block at address 1. *)
Definition one_block (h : heap) (size : Z) : option (Z * list Z) :=
  match h !! 1 with
  | None => if 0 <=? size then Some (1, replicate (Z.to_nat size) 7) else None
  | Some _ => None
  end.

Lemma one_block_fresh h size p b : one_block h size = Some (p, b) -> h !! p = None.
Proof. unfold one_block. repeat case_match; naive_solver. Qed.

Lemma one_block_size h size p b : one_block h size = Some (p, b) -> Z.of_nat (length b) = size.
Proof.
  unfold one_block. destruct (h !! 1); [done|]. destruct (Z.leb_spec 0 size); [|done].
  intros [= <- <-]. rewrite length_replicate. lia.
Qed.

(** Shrinking a block of three bytes to two, and asking it for five. *)
Lemma realloc_live_block_witness :
  let h := {[ 9 := [4; 5; 6] ]} : heap in
  tkl_system_realloc one_block h (Some 9) 2 = Some (Some 1, <[1 := [4; 5]]> (delete 9 h)) /\
  tkl_system_realloc one_block h (Some 9) 5 = None.
Proof.
  intros h. split.
  - apply (realloc_live_block one_block one_block_fresh one_block_size h 9 2 1 [4; 5; 6] [7; 7]);
      [reflexivity|lia|reflexivity|simpl; lia].
  - apply (realloc_live_block one_block one_block_fresh one_block_size h 9 5 1 [4; 5; 6] [7; 7; 7; 7; 7]);
      [reflexivity|lia|reflexivity|simpl; lia].
Defined.

(** 65536 items of 65536 bytes: the product wraps to zero. *)
Lemma calloc_zeroed_witness :
  let n := 65536 in
  tkl_system_calloc one_block ∅ n n = Some (Some 1, <[1 := []]> ∅) /\
  (∅ : heap) !! 1 = None /\
  (0 <= n * n < 2 ^ 32 <-> 0 <= n * n /\ Z.of_nat (@length Z []) = n * n).
Proof.
  apply (calloc_zeroed one_block one_block_fresh one_block_size ∅ 65536 65536 1 []). reflexivity.
Defined.
End Memory.
