(* ===== verification/Flash.v ===== *)
(** * The flash chip and its driver: [esp_flash_api.c], [spi_flash_os_func_app.c]

    The main flash as a list of bytes with NOR semantics (programming clears
    bits, erasing a sector sets them), and the driver calls the firmware's
    partitions sit on.  The bus and the chip are taken to answer; [None] is an
    [abort()] of the write protection. *)
From stdpp Require Import base list.
From Stdlib Require Import ZArith Lia.
From S2P Require Import Prelude Oprt.
Local Open Scope Z_scope.

Module Flash.

Definition ESP_ERR_NO_MEM : Z := 0x101.
Definition ESP_ERR_INVALID_ARG : Z := 0x102.
Definition ESP_ERR_INVALID_STATE : Z := 0x103.
Definition ESP_ERR_INVALID_SIZE : Z := 0x104.
Definition ESP_ERR_NOT_FOUND : Z := 0x105.

Definition CONFIG_PARTITION_TABLE_OFFSET : Z := 0x8000.
Definition ESP_PARTITION_TABLE_MAX_LEN : Z := 0xC00.
Definition sector_size : Z := 4096.
Definition block_erase_size : Z := 65536.
Definition MAX_READ_CHUNK : Z := 16384.

Abbreviation cells := (list Z) (only parsing).

(** ** What the chip does *)

Definition slice (c : cells) (a n : nat) : list Z := take n (drop a c).

(** Programming [bs] at [a]: bits only go from 1 to 0. *)
Definition program (c : cells) (a : nat) (bs : list Z) : cells :=
  store_at c a (zip_with Z.land (slice c a (length bs)) bs).

Definition erase (c : cells) (a n : nat) : cells := store_at c a (replicate n 0xFF).

(** ** The driver *)

Section Driver.
(** The address range of the running application. *)
Variables running_address running_size : Z.

(** [esp_partition_main_flash_region_safe]. *)
Definition esp_partition_main_flash_region_safe (addr size : Z) : bool :=
  if addr <=? CONFIG_PARTITION_TABLE_OFFSET + ESP_PARTITION_TABLE_MAX_LEN then false
  else if (running_address <=? addr) && (addr <? u32 (running_address + running_size)) then false
  else if (addr <? running_address) && (running_address <? u32 (addr + size)) then false
  else true.

(** [main_flash_region_protected] as [CHECK_WRITE_ADDRESS] uses it; [no_protect]
    is never set by the firmware. *)
Definition region_protected (addr size : Z) : bool := negb (esp_partition_main_flash_region_safe addr size).

(** The chunked loops of [esp_flash_read], [esp_flash_write] and
    [esp_flash_erase_region]; the fuel is the length. *)
Fixpoint read_loop (fuel : nat) (c : cells) (address length chunk : nat) : list Z :=
  match fuel with
  | O => []
  | S fuel =>
      let n := Nat.min chunk length in
      let bs := slice c address n in
      if (length - n =? 0)%nat then bs
      else bs ++ read_loop fuel c (address + n) (length - n) chunk
  end.

Fixpoint write_loop (fuel : nat) (c : cells) (address : nat) (bs : list Z) (chunk : nat) : cells :=
  match fuel with
  | O => c
  | S fuel =>
      let n := Nat.min (length bs) chunk in
      let c := program c address (take n bs) in
      if (length bs - n =? 0)%nat then c
      else write_loop fuel c (address + n) (drop n bs) chunk
  end.

Fixpoint erase_loop (fuel : nat) (c : cells) (erase_addr len_remain : Z) : cells :=
  match fuel with
  | O => c
  | S fuel =>
      let n := if (block_erase_size <=? len_remain) && (erase_addr mod block_erase_size =? 0)
               then block_erase_size else sector_size in
      let c := erase c (Z.to_nat erase_addr) (Z.to_nat n) in
      if len_remain - n =? 0 then c else erase_loop fuel c (erase_addr + n) (len_remain - n)
  end.

(** The length of [c] is the chip's size.  [chunk] is the temporary buffer's
    length when the destination cannot be read into directly. *)
Definition esp_flash_read (chunk : nat) (c : cells) (address length_ : Z) : Z * list Z :=
  let size := Z.of_nat (length c) in
  if (size <? address) || (size <? u32 (address + length_)) then (ESP_ERR_INVALID_ARG, [])
  else if length_ =? 0 then (ESP_OK, [])
  else (ESP_OK, read_loop (Z.to_nat length_) c (Z.to_nat address) (Z.to_nat length_)
                  (Nat.min (Z.to_nat MAX_READ_CHUNK) (Nat.min chunk (Z.to_nat length_)))).

Definition esp_flash_write (chunk : nat) (c : cells) (address : Z) (bs : list Z) : option (Z * cells) :=
  let size := Z.of_nat (length c) in
  let length_ := Z.of_nat (length bs) in
  if region_protected address length_ then None
  else if (size <? address) || (size <? u32 (address + length_)) then Some (ESP_ERR_INVALID_ARG, c)
  else if length_ =? 0 then Some (ESP_OK, c)
  else Some (ESP_OK, write_loop (length bs) c (Z.to_nat address) bs chunk).

Definition esp_flash_erase_region (c : cells) (start len : Z) : option (Z * cells) :=
  let size := Z.of_nat (length c) in
  if region_protected start len then None
  else if (size <? start) || (size <? u32 (start + len)) then Some (ESP_ERR_INVALID_ARG, c)
  else if negb (start mod sector_size =? 0) || negb (len mod sector_size =? 0)
  then Some (ESP_ERR_INVALID_ARG, c)
  else if len =? 0 then Some (ESP_OK, c)
  else Some (ESP_OK, erase_loop (Z.to_nat len) c start len).
End Driver.

(** ** The loops do what one operation on the chip would *)

Lemma slice_split (c : cells) (a n m : nat) : slice c a n ++ slice c (a + n) m = slice c a (n + m).
Proof. unfold slice. rewrite <- drop_drop. by rewrite take_take_drop. Qed.

Lemma slice_length (c : cells) (a n : nat) : (a + n <= length c)%nat -> length (slice c a n) = n.
Proof. intros. unfold slice. rewrite length_take, length_drop. lia. Qed.

Lemma slice_ext (c c' : list Z) (a n : nat) :
  (forall i, (a <= i < a + n)%nat -> c' !! i = c !! i) -> slice c' a n = slice c a n.
Proof.
  intros H. apply list_eq. intros i. unfold slice. destruct (decide (i < n)%nat).
  - rewrite !lookup_take_lt, !lookup_drop by lia. apply H. lia.
  - by rewrite !lookup_take_ge by lia.
Qed.

Lemma read_loop_whole (c : cells) (chunk : nat) :
  (0 < chunk)%nat -> forall fuel a n, (0 < n <= fuel)%nat -> read_loop fuel c a n chunk = slice c a n.
Proof.
  intros Hc. induction fuel as [|fuel IH]; intros a n Hn; [lia|]. simpl.
  destruct (Nat.eqb_spec (n - Nat.min chunk n) 0).
  - f_equal. lia.
  - rewrite IH by lia. rewrite slice_split. f_equal. lia.
Qed.

Lemma program_length (c : cells) (a : nat) (bs : list Z) :
  (a + length bs <= length c)%nat -> length (program c a bs) = length c.
Proof.
  intros. unfold program. apply store_at_length. rewrite length_zip_with, slice_length; lia.
Qed.

Lemma program_nil (c : cells) (a : nat) : program c a [] = c.
Proof. unfold program, store_at, slice. simpl. rewrite Nat.add_0_r. apply take_drop. Qed.

Lemma erase_zero (c : cells) (a : nat) : erase c a 0 = c.
Proof. unfold erase, store_at. simpl. rewrite Nat.add_0_r. apply take_drop. Qed.

Lemma program_lookup (c : cells) (a : nat) (bs : list Z) (i : nat) :
  (a + length bs <= length c)%nat ->
  program c a bs !! i =
  if (a <=? i)%nat && (i <? a + length bs)%nat
  then x ← c !! i; y ← bs !! (i - a)%nat; Some (Z.land x y) else c !! i.
Proof.
  intros Hb. unfold program. set (z := zip_with _ _ _).
  assert (Hz : length z = length bs) by (unfold z; rewrite length_zip_with, slice_length; lia).
  destruct (Nat.leb_spec a i); simpl; [|apply store_at_before; lia].
  destruct (Nat.ltb_spec i (a + length bs)); [|apply store_at_after; lia].
  replace i with (a + (i - a))%nat at 1 by lia. rewrite store_at_hit by lia.
  unfold z. rewrite lookup_zip_with. unfold slice. rewrite lookup_take_lt, lookup_drop by lia.
  by replace (a + (i - a))%nat with i by lia.
Qed.

Lemma program_apart (c : cells) (a b n : nat) (bs : list Z) :
  (b + n <= a)%nat -> (a + length bs <= length c)%nat -> slice (program c a bs) b n = slice c b n.
Proof.
  intros Hb Hc. apply list_eq. intros i. unfold slice. destruct (decide (i < n)%nat).
  - rewrite !lookup_take_lt, !lookup_drop, program_lookup by lia. destruct (Nat.leb_spec a (b + i)); [lia|done].
  - by rewrite !lookup_take_ge by lia.
Qed.

Lemma program_split (c : cells) (a : nat) (b1 b2 : list Z) :
  (a + length b1 + length b2 <= length c)%nat ->
  program (program c a b1) (a + length b1) b2 = program c a (b1 ++ b2).
Proof.
  intros Hb. apply list_eq. intros i.
  rewrite program_lookup by (rewrite program_length; lia).
  rewrite !program_lookup by (rewrite ?length_app; lia). rewrite length_app.
  destruct (Nat.leb_spec a i); destruct (Nat.ltb_spec i (a + length b1));
    destruct (Nat.leb_spec (a + length b1) i); destruct (Nat.ltb_spec i (a + length b1 + length b2));
    destruct (Nat.ltb_spec i (a + (length b1 + length b2))); try lia; simpl; try done.
  - by rewrite lookup_app_l by lia.
  - rewrite lookup_app_r by lia. by replace (i - a - length b1)%nat with (i - (a + length b1))%nat by lia.
Qed.

Lemma write_loop_whole (chunk : nat) :
  (0 < chunk)%nat -> forall fuel c a bs, (0 < length bs <= fuel)%nat -> (a + length bs <= length c)%nat ->
  write_loop fuel c a bs chunk = program c a bs.
Proof.
  intros Hc. induction fuel as [|fuel IH]; intros c a bs Hf Hb; [lia|]. simpl.
  destruct (Nat.eqb_spec (length bs - Nat.min (length bs) chunk) 0) as [Hz|Hz].
  - by rewrite take_ge by lia.
  - set (n := Nat.min (length bs) chunk) in *.
    assert (Hn : length (take n bs) = n) by (rewrite length_take; lia).
    rewrite IH; [|rewrite length_drop; lia|rewrite program_length, length_drop; lia].
    rewrite <- Hn at 2. rewrite program_split by (rewrite Hn, length_drop; lia). by rewrite take_drop.
Qed.

Lemma erase_length (c : cells) (a n : nat) : (a + n <= length c)%nat -> length (erase c a n) = length c.
Proof. intros. unfold erase. apply store_at_length. rewrite length_replicate. lia. Qed.

Lemma erase_lookup (c : cells) (a n i : nat) :
  (a + n <= length c)%nat ->
  erase c a n !! i = if (a <=? i)%nat && (i <? a + n)%nat then Some 0xFF else c !! i.
Proof.
  intros Hb. unfold erase. destruct (Nat.leb_spec a i); simpl.
  - destruct (Nat.ltb_spec i (a + n)).
    + replace i with (a + (i - a))%nat by lia. rewrite store_at_hit by (rewrite ?length_replicate; lia).
      apply lookup_replicate. lia.
    + apply store_at_after; rewrite length_replicate; lia.
  - apply store_at_before; lia.
Qed.

(** Programming erased cells stores the bytes. *)
Lemma program_erased (c : cells) (a : nat) (bs : list Z) :
  (a + length bs <= length c)%nat -> (forall i, (a <= i < a + length bs)%nat -> c !! i = Some 0xFF) ->
  Forall (fun b => 0 <= b <= 255) bs -> slice (program c a bs) a (length bs) = bs.
Proof.
  intros Hb Hff Hbytes. apply list_eq. intros i. unfold slice.
  destruct (decide (i < length bs)%nat) as [Hi|Hi].
  - rewrite lookup_take_lt, lookup_drop, program_lookup, Hff by lia.
    destruct (lookup_lt_is_Some_2 bs i Hi) as [x Hx].
    rewrite (proj2 (Nat.leb_le a (a + i))), (proj2 (Nat.ltb_lt (a + i) (a + length bs))) by lia.
    cbn [andb]. replace (a + i - a)%nat with i by lia. rewrite Hx. cbn [mbind option_bind]. f_equal.
    rewrite Forall_lookup in Hbytes. specialize (Hbytes i x Hx).
    change 0xFF with (Z.ones 8). rewrite Z.land_comm, Z.land_ones by lia. apply Z.mod_small. lia.
  - rewrite (lookup_ge_None_2 bs i) by lia. apply lookup_ge_None_2. rewrite length_take. lia.
Qed.

Lemma erase_split (c : cells) (a n m : nat) :
  (a + n + m <= length c)%nat -> erase (erase c a n) (a + n) m = erase c a (n + m).
Proof.
  intros Hb. apply list_eq. intros i. rewrite erase_lookup by (rewrite erase_length; lia).
  rewrite !erase_lookup by lia.
  destruct (Nat.leb_spec a i); destruct (Nat.ltb_spec i (a + n));
    destruct (Nat.leb_spec (a + n) i); destruct (Nat.ltb_spec i (a + n + m));
    destruct (Nat.ltb_spec i (a + (n + m))); try lia; done.
Qed.

(** Whatever mix of blocks and sectors is chosen. *)
Lemma erase_loop_whole :
  forall fuel c a len, (Z.to_nat len <= fuel)%nat -> 0 <= a -> 0 < len -> a mod sector_size = 0 ->
  len mod sector_size = 0 -> a + len <= Z.of_nat (length c) ->
  erase_loop fuel c a len = erase c (Z.to_nat a) (Z.to_nat len).
Proof.
  induction fuel as [|fuel IH]; intros c a len Hf Ha Hl Hma Hml Hb; [lia|]. simpl.
  set (n := if _ && _ then _ else _).
  assert (Hn : 0 < n <= len /\ n mod sector_size = 0).
  { unfold n, block_erase_size, sector_size in *.
    destruct (Z.leb_spec 65536 len); simpl.
    - destruct (a mod 65536 =? 0); (split; [|done]); lia.
    - split; [|done]. pose proof (Z.div_mod len 4096). lia. }
  destruct Hn as [Hn Hmn]. destruct (Z.eqb_spec (len - n) 0).
  - f_equal. lia.
  - rewrite IH; try lia.
    + rewrite Z2Nat.inj_add, erase_split by lia. f_equal. lia.
    + rewrite Z.add_mod, Hma, Hmn by done. done.
    + rewrite Zminus_mod, Hml, Hmn. done.
    + rewrite erase_length by lia. lia.
Qed.
End Flash.
