(* ===== verification/Md5.v ===== *)
(** * MD5: [esp_rom_md5.c]

    The digest that protects the partition table, in the streaming form of the
    source, with the proof that any way of cutting a message into updates gives
    the digest of the whole message. *)
From stdpp Require Import base list.
From Stdlib Require Import ZArith Lia.
From S2P Require Import Prelude.
Local Open Scope Z_scope.

Module Md5.

(** Bytes as little-endian words, and back. *)
Definition le32 (b : list Z) : Z :=
  match b with
  | [b0; b1; b2; b3] => b0 + 2 ^ 8 * b1 + 2 ^ 16 * b2 + 2 ^ 24 * b3
  | _ => 0
  end.

Definition bytes32 (w : Z) : list Z :=
  [Z.land w 255; Z.land (Z.shiftr w 8) 255; Z.land (Z.shiftr w 16) 255; Z.land (Z.shiftr w 24) 255].

(** [byteReverse]: sixteen words from 64 bytes. *)
Fixpoint byteReverse (longs : nat) (buf : list Z) : list Z :=
  match longs with
  | O => []
  | S longs => le32 (take 4 buf) :: byteReverse longs (drop 4 buf)
  end.

Definition not32 (x : Z) : Z := Z.lxor x 0xFFFFFFFF.
Definition F1 (x y z : Z) : Z := Z.lxor z (Z.land x (Z.lxor y z)).
Definition F2 (x y z : Z) : Z := F1 z x y.
Definition F3 (x y z : Z) : Z := Z.lxor (Z.lxor x y) z.
Definition F4 (x y z : Z) : Z := Z.lxor y (Z.lor x (not32 z)).

(** [MD5STEP]: the new value of [w]. *)
Definition MD5STEP (f : Z -> Z -> Z -> Z) (w x y z data s : Z) : Z :=
  let w := u32 (w + u32 (f x y z + data)) in
  let w := Z.lor (u32 (Z.shiftl w s)) (Z.shiftr w (32 - s)) in
  u32 (w + x).

Definition word := Z.
Record state := mk_state { s0 : word; s1 : word; s2 : word; s3 : word }.

(** The 64 steps in the order of the source: function, index into [in], constant,
    shift.  Their register arguments rotate (a,b,c,d), (d,a,b,c), ... *)
Definition steps : list ((Z -> Z -> Z -> Z) * nat * Z * Z) :=
  [
   (F1, 0%nat, 0xd76aa478, 7); (F1, 1%nat, 0xe8c7b756, 12);
   (F1, 2%nat, 0x242070db, 17); (F1, 3%nat, 0xc1bdceee, 22);
   (F1, 4%nat, 0xf57c0faf, 7); (F1, 5%nat, 0x4787c62a, 12);
   (F1, 6%nat, 0xa8304613, 17); (F1, 7%nat, 0xfd469501, 22);
   (F1, 8%nat, 0x698098d8, 7); (F1, 9%nat, 0x8b44f7af, 12);
   (F1, 10%nat, 0xffff5bb1, 17); (F1, 11%nat, 0x895cd7be, 22);
   (F1, 12%nat, 0x6b901122, 7); (F1, 13%nat, 0xfd987193, 12);
   (F1, 14%nat, 0xa679438e, 17); (F1, 15%nat, 0x49b40821, 22);
   (F2, 1%nat, 0xf61e2562, 5); (F2, 6%nat, 0xc040b340, 9);
   (F2, 11%nat, 0x265e5a51, 14); (F2, 0%nat, 0xe9b6c7aa, 20);
   (F2, 5%nat, 0xd62f105d, 5); (F2, 10%nat, 0x02441453, 9);
   (F2, 15%nat, 0xd8a1e681, 14); (F2, 4%nat, 0xe7d3fbc8, 20);
   (F2, 9%nat, 0x21e1cde6, 5); (F2, 14%nat, 0xc33707d6, 9);
   (F2, 3%nat, 0xf4d50d87, 14); (F2, 8%nat, 0x455a14ed, 20);
   (F2, 13%nat, 0xa9e3e905, 5); (F2, 2%nat, 0xfcefa3f8, 9);
   (F2, 7%nat, 0x676f02d9, 14); (F2, 12%nat, 0x8d2a4c8a, 20);
   (F3, 5%nat, 0xfffa3942, 4); (F3, 8%nat, 0x8771f681, 11);
   (F3, 11%nat, 0x6d9d6122, 16); (F3, 14%nat, 0xfde5380c, 23);
   (F3, 1%nat, 0xa4beea44, 4); (F3, 4%nat, 0x4bdecfa9, 11);
   (F3, 7%nat, 0xf6bb4b60, 16); (F3, 10%nat, 0xbebfbc70, 23);
   (F3, 13%nat, 0x289b7ec6, 4); (F3, 0%nat, 0xeaa127fa, 11);
   (F3, 3%nat, 0xd4ef3085, 16); (F3, 6%nat, 0x04881d05, 23);
   (F3, 9%nat, 0xd9d4d039, 4); (F3, 12%nat, 0xe6db99e5, 11);
   (F3, 15%nat, 0x1fa27cf8, 16); (F3, 2%nat, 0xc4ac5665, 23);
   (F4, 0%nat, 0xf4292244, 6); (F4, 7%nat, 0x432aff97, 10);
   (F4, 14%nat, 0xab9423a7, 15); (F4, 5%nat, 0xfc93a039, 21);
   (F4, 12%nat, 0x655b59c3, 6); (F4, 3%nat, 0x8f0ccc92, 10);
   (F4, 10%nat, 0xffeff47d, 15); (F4, 1%nat, 0x85845dd1, 21);
   (F4, 8%nat, 0x6fa87e4f, 6); (F4, 15%nat, 0xfe2ce6e0, 10);
   (F4, 6%nat, 0xa3014314, 15); (F4, 13%nat, 0x4e0811a1, 21);
   (F4, 4%nat, 0xf7537e82, 6); (F4, 11%nat, 0xbd3af235, 10);
   (F4, 2%nat, 0x2ad7d2bb, 15); (F4, 9%nat, 0xeb86d391, 21)].

Definition step (inp : list Z) (r : state) (p : (Z -> Z -> Z -> Z) * nat * Z * Z) : state :=
  let '(f, i, k, s) := p in
  let w := MD5STEP f r.(s0) r.(s1) r.(s2) r.(s3) (u32 (nth i inp 0 + k)) s in
  mk_state r.(s3) w r.(s1) r.(s2).

Definition MD5Transform (buf : state) (inp : list Z) : state :=
  let r := foldl (step inp) buf steps in
  mk_state (u32 (buf.(s0) + r.(s0))) (u32 (buf.(s1) + r.(s1)))
           (u32 (buf.(s2) + r.(s2))) (u32 (buf.(s3) + r.(s3))).

(** The context; [in_] has 64 bytes. *)
Record md5_context_t := mk_ctx {
  buf : state;
  bits0 : Z;
  bits1 : Z;
  in_ : list Z;
}.

Definition md5_start : state := mk_state 0x67452301 0xefcdab89 0x98badcfe 0x10325476.

(** [garbage] is what the uninitialised buffer holds. *)
Definition esp_rom_md5_init (garbage : list Z) : md5_context_t := mk_ctx md5_start 0 0 garbage.

Definition block (b : state) (bs : list Z) : state := MD5Transform b (byteReverse 16 bs).

(** Lines 82-92: whole blocks straight from the input, the rest into [in_]. *)
Fixpoint update_loop (fuel : nat) (b : state) (inp data : list Z) : state * list Z :=
  match fuel with
  | O => (b, inp)
  | S fuel =>
      if (64 <=? length data)%nat
      then update_loop fuel (block b (take 64 data)) (take 64 data) (drop 64 data)
      else (b, store_at inp 0 data)
  end.

Definition esp_rom_md5_update (c : md5_context_t) (data : list Z) : md5_context_t :=
  let len := Z.of_nat (length data) in
  let t := c.(bits0) in
  let b0 := u32 (t + u32 (Z.shiftl len 3)) in
  let b1 := if b0 <? t then u32 (c.(bits1) + 1) else c.(bits1) in
  let b1 := u32 (b1 + Z.shiftr len 29) in
  let t := Z.to_nat (Z.land (Z.shiftr t 3) 0x3f) in
  if (t =? 0)%nat then
    let '(b, i) := update_loop (S (length data)) c.(buf) c.(in_) data in mk_ctx b b0 b1 i
  else
    if (length data <? 64 - t)%nat then mk_ctx c.(buf) b0 b1 (store_at c.(in_) t data)
    else
      let inp := store_at c.(in_) t (take (64 - t) data) in
      let '(b, i) := update_loop (S (length data)) (block c.(buf) inp) inp (drop (64 - t) data) in
      mk_ctx b b0 b1 i.

Definition esp_rom_md5_final (c : md5_context_t) : list Z :=
  let count := Z.to_nat (Z.land (Z.shiftr c.(bits0) 3) 0x3F) in
  let inp := store_at c.(in_) count [0x80] in
  let p := S count in
  let count := (64 - 1 - count)%nat in
  let '(b, inp) :=
    if (count <? 8)%nat then
      let inp := store_at inp p (replicate count 0) in
      (block c.(buf) inp, store_at inp 0 (replicate 56 0))
    else (c.(buf), store_at inp p (replicate (count - 8) 0)) in
  let b := MD5Transform b (byteReverse 14 inp ++ [c.(bits0); c.(bits1)]) in
  bytes32 b.(s0) ++ bytes32 b.(s1) ++ bytes32 b.(s2) ++ bytes32 b.(s3).

(** ** The reference: RFC 1321 on the whole message *)

Definition padding (n : nat) : list Z := 0x80 :: replicate ((119 - n mod 64) mod 64) 0.

Definition length_words (n : nat) : list Z :=
  [u32 (8 * Z.of_nat n); u32 (8 * Z.of_nat n / 2 ^ 32)].

Fixpoint absorb (n : nat) (b : state) (m : list Z) : state :=
  match n with
  | O => b
  | S n => absorb n (block b (take 64 m)) (drop 64 m)
  end.

(** All whole blocks of [m]. *)
Definition hash_blocks (b : state) (m : list Z) : state := absorb (length m / 64) b m.

Definition md5 (m : list Z) : list Z :=
  let padded := m ++ padding (length m) in
  let n := (length padded / 64)%nat in
  let b := absorb n md5_start padded in
  let last := drop (64 * n) padded in
  let b := MD5Transform b (byteReverse 14 last ++ length_words (length m)) in
  bytes32 b.(s0) ++ bytes32 b.(s1) ++ bytes32 b.(s2) ++ bytes32 b.(s3).

(** ** Blocks *)

Lemma div64_step (n : nat) : (64 <= n -> n / 64 = S ((n - 64) / 64) /\ n mod 64 = (n - 64) mod 64)%nat.
Proof.
  intros H. replace n with (n - 64 + 1 * 64)%nat at 1 3 by lia.
  rewrite Nat.div_add, Nat.Div0.mod_add by lia. lia.
Qed.

Lemma absorb_app (n k : nat) (b : state) (m1 m2 : list Z) :
  length m1 = (64 * n)%nat -> absorb (n + k) b (m1 ++ m2) = absorb k (absorb n b m1) m2.
Proof.
  revert b m1. induction n as [|n IH]; intros b m1 Hm; simpl.
  - by destruct m1.
  - rewrite take_app_le, drop_app_le by lia. apply IH. rewrite length_drop. lia.
Qed.

Lemma hash_blocks_step (b : state) (m : list Z) :
  (64 <= length m)%nat -> hash_blocks b m = hash_blocks (block b (take 64 m)) (drop 64 m).
Proof.
  intros H. unfold hash_blocks. rewrite length_drop. destruct (div64_step _ H) as [-> _]. done.
Qed.

Lemma hash_blocks_app (n : nat) (b : state) (m1 m2 : list Z) :
  length m1 = (64 * n)%nat -> hash_blocks b (m1 ++ m2) = hash_blocks (hash_blocks b m1) m2.
Proof.
  intros H. unfold hash_blocks. rewrite length_app, H.
  replace (64 * n + length m2)%nat with (length m2 + n * 64)%nat by lia.
  rewrite Nat.div_add by lia. replace (64 * n / 64)%nat with n by (rewrite Nat.mul_comm, Nat.div_mul; lia).
  rewrite (Nat.add_comm _ n). by apply absorb_app.
Qed.

Lemma hash_blocks_short (b : state) (m : list Z) : (length m < 64)%nat -> hash_blocks b m = b.
Proof. intros H. unfold hash_blocks. by rewrite Nat.div_small. Qed.

(** The bytes of an unfinished block. *)
Definition tail (m : list Z) : list Z := drop (64 * (length m / 64)) m.

Lemma tail_length (m : list Z) : length (tail m) = (length m mod 64)%nat.
Proof. unfold tail. rewrite length_drop. pose proof (Nat.div_mod_eq (length m) 64). lia. Qed.

Lemma tail_step (m : list Z) : (64 <= length m)%nat -> tail m = tail (drop 64 m).
Proof.
  intros H. unfold tail. rewrite length_drop, drop_drop. destruct (div64_step _ H) as [-> _]. f_equal. lia.
Qed.

Lemma tail_short (m : list Z) : (length m < 64)%nat -> tail m = m.
Proof. intros H. unfold tail. by rewrite Nat.div_small. Qed.

(** A message is its whole blocks and its tail. *)
Lemma message_split (m : list Z) :
  exists m0, m = m0 ++ tail m /\ length m0 = (64 * (length m / 64))%nat.
Proof.
  exists (take (64 * (length m / 64)) m). unfold tail. rewrite take_drop. split; [done|].
  rewrite length_take. pose proof (Nat.div_mod_eq (length m) 64). lia.
Qed.

Lemma tail_app (m x : list Z) : tail (m ++ x) = tail (tail m ++ x).
Proof.
  destruct (message_split m) as (m0 & Hm & Hlen). rewrite Hm at 1. rewrite <- app_assoc.
  set (y := tail m ++ x). unfold tail. rewrite length_app, Hlen.
  replace (64 * (length m / 64) + length y)%nat with (length y + length m / 64 * 64)%nat by lia.
  rewrite Nat.div_add by lia.
  rewrite drop_app_ge by lia. f_equal. lia.
Qed.

(** ** One update *)

(** Where the streaming state stands after the bytes [m]. *)
Record absorbed (c : md5_context_t) (m : list Z) : Prop := {
  ab_buf : c.(buf) = hash_blocks md5_start m;
  ab_in : length c.(in_) = 64%nat;
  ab_tail : take (length m mod 64) c.(in_) = tail m;
  ab_bits0 : c.(bits0) = u32 (8 * Z.of_nat (length m));
  ab_bits1 : c.(bits1) = u32 (8 * Z.of_nat (length m) / 2 ^ 32);
}.

Lemma update_loop_spec (fuel : nat) :
  forall b inp data, (length data < fuel)%nat -> length inp = 64%nat ->
  exists i, update_loop fuel b inp data = (hash_blocks b data, i) /\ length i = 64%nat /\
    take (length data mod 64) i = tail data.
Proof.
  induction fuel as [|fuel IH]; intros b inp data Hf Hi; [lia|]. cbn [update_loop].
  destruct (Nat.leb_spec 64 (length data)) as [H|H].
  - destruct (IH (block b (take 64 data)) (take 64 data) (drop 64 data)) as (i & -> & Hl & Ht);
      [rewrite length_drop; lia|rewrite length_take; lia|].
    exists i. rewrite (hash_blocks_step b data), (tail_step data) by done. split_and!; [done|done|].
    rewrite <- Ht, length_drop. f_equal. by apply div64_step.
  - exists (store_at inp 0 data). rewrite hash_blocks_short, tail_short, Nat.mod_small by done.
    split_and!; [done|rewrite store_at_length; simpl; lia|].
    pose proof (take_store_at inp 0 data) as Hts. simpl in Hts. apply Hts. lia.
Qed.

(** The count of bytes in the buffer, as the code computes it. *)
Lemma bits_mod (n : nat) :
  Z.to_nat (Z.land (Z.shiftr (u32 (8 * Z.of_nat n)) 3) 0x3f) = (n mod 64)%nat.
Proof.
  rewrite Z.shiftr_div_pow2 by lia. change 0x3f with (Z.ones 6). rewrite Z.land_ones by lia.
  unfold u32. change (2 ^ 3) with 8. change (2 ^ 6) with 64.
  replace (8 * Z.of_nat n) with (Z.of_nat n * 8) by lia.
  change (2 ^ 32) with (2 ^ 29 * 8). rewrite Z.mul_mod_distr_r, Z.div_mul by lia.
  rewrite Z.mod_mod_divide by (by exists (2 ^ 23)).
  change 64 with (Z.of_nat 64). by rewrite <- Nat2Z.inj_mod, Nat2Z.id.
Qed.

Lemma bits_advance (b len : Z) :
  0 <= b -> 0 <= len < 2 ^ 32 ->
  let b0 := u32 (u32 b + u32 (Z.shiftl len 3)) in
  b0 = u32 (b + 8 * len) /\
  u32 ((if b0 <? u32 b then u32 (u32 (b / 2 ^ 32) + 1) else u32 (b / 2 ^ 32)) + Z.shiftr len 29)
  = u32 ((b + 8 * len) / 2 ^ 32).
Proof.
  intros Hb Hl. rewrite Z.shiftl_mul_pow2, Z.shiftr_div_pow2 by lia. change (2 ^ 3) with 8.
  cbv zeta. split; [rewrite u32_add_l, u32_add_r; f_equal; lia|].
  unfold u32. change (2 ^ 32) with 4294967296 in *. change (2 ^ 29) with 536870912.
  pose proof (Z.div_mod b 4294967296). pose proof (Z.div_mod (len * 8) 4294967296).
  pose proof (Z.mod_pos_bound b 4294967296). pose proof (Z.mod_pos_bound (len * 8) 4294967296).
  set (bl := b mod 4294967296) in *. set (bh := b / 4294967296) in *.
  set (ll := (len * 8) mod 4294967296) in *. set (lh := (len * 8) / 4294967296) in *.
  assert (Hlh : len / 536870912 = lh).
  { unfold lh. change 4294967296 with (536870912 * 8). by rewrite Z.div_mul_cancel_r by lia. }
  rewrite Hlh. assert (Hbl : 0 <= bl + ll < 2 * 4294967296) by lia.
  assert (Hsum : b + 8 * len = (bh + lh) * 4294967296 + (bl + ll)) by lia. rewrite Hsum.
  rewrite Z.div_add_l by lia. destruct (Z_lt_le_dec (bl + ll) 4294967296) as [Hc|Hc].
  - rewrite (Z.mod_small (bl + ll)), (Z.div_small (bl + ll)) by lia.
    rewrite (proj2 (Z.ltb_ge _ bl)) by lia. rewrite Zplus_mod_idemp_l. f_equal. lia.
  - assert (Hd : (bl + ll) / 4294967296 = 1) by (symmetry; apply (Z.div_unique _ _ _ (bl + ll - 4294967296)); lia).
    assert (Hm : (bl + ll) mod 4294967296 = bl + ll - 4294967296)
      by (symmetry; apply (Z.mod_unique _ _ 1); lia).
    rewrite Hd, Hm. rewrite (proj2 (Z.ltb_lt _ bl)) by lia.
    rewrite !Zplus_mod_idemp_l. rewrite <- Z.add_assoc, Zplus_mod_idemp_l. f_equal. lia.
Qed.

Lemma tail_of_app (m data : list Z) : (length (m ++ data) mod 64 = length (tail m ++ data) mod 64)%nat.
Proof. by rewrite <- !tail_length, tail_app. Qed.

(** The buffered bytes and the new ones, block by block. *)
Lemma update_blocks (m data : list Z) :
  hash_blocks md5_start (m ++ data) = hash_blocks (hash_blocks md5_start m) (tail m ++ data).
Proof.
  destruct (message_split m) as (m0 & Hm & Hlen).
  assert (Hm0 : hash_blocks md5_start m = hash_blocks md5_start m0).
  { rewrite Hm at 1. rewrite (hash_blocks_app (length m / 64)) by done. apply hash_blocks_short.
    rewrite tail_length. apply Nat.mod_upper_bound. lia. }
  rewrite Hm0. rewrite Hm at 1. rewrite <- app_assoc. by apply (hash_blocks_app (length m / 64)).
Qed.

(** The branches of [esp_rom_md5_update] on [t] buffered bytes. *)
Definition feed (t : nat) (b : state) (inp data : list Z) : state * list Z :=
  if (t =? 0)%nat then update_loop (S (length data)) b inp data
  else if (length data <? 64 - t)%nat then (b, store_at inp t data)
  else let inp := store_at inp t (take (64 - t) data) in
       update_loop (S (length data)) (block b inp) inp (drop (64 - t) data).

Lemma update_feed (c : md5_context_t) (data : list Z) :
  let u := esp_rom_md5_update c data in
  (u.(buf), u.(in_)) = feed (Z.to_nat (Z.land (Z.shiftr c.(bits0) 3) 0x3f)) c.(buf) c.(in_) data.
Proof.
  unfold esp_rom_md5_update, feed. cbv zeta. destruct (_ =? 0)%nat; [by destruct (update_loop _ _ _ _)|].
  destruct (_ <? _)%nat; [done|by destruct (update_loop _ _ _ _)].
Qed.

(** A block completed from the buffer. *)
Lemma feed_block (t : nat) (b : state) (inp r data : list Z) :
  length inp = 64%nat -> take t inp = r -> length r = t -> (t < 64)%nat -> (64 - t <= length data)%nat ->
  let x := store_at inp t (take (64 - t) data) in
  x = take 64 (r ++ data) /\ drop (64 - t) data = drop 64 (r ++ data).
Proof.
  intros Hi Ht Hr Hlt Hlen x. split.
  - pose proof (take_store_at inp t (take (64 - t) data) ltac:(lia)) as Hts.
    rewrite Ht in Hts. unfold x. rewrite <- (take_ge (store_at _ _ _) (t + length (take (64 - t) data))).
    + rewrite Hts, take_app, (take_ge r), Hr by lia. done.
    + rewrite store_at_length; rewrite length_take; lia.
  - rewrite drop_app, (drop_ge r), Hr by lia. done.
Qed.

Lemma feed_spec (t : nat) (b : state) (inp r data : list Z) :
  length inp = 64%nat -> take t inp = r -> length r = t -> (t < 64)%nat ->
  exists i, feed t b inp data = (hash_blocks b (r ++ data), i) /\ length i = 64%nat /\
    take (length (r ++ data) mod 64) i = tail (r ++ data).
Proof.
  intros Hi Ht Hr Hlt. unfold feed. destruct (Nat.eqb_spec t 0) as [Hz|Hz].
  { destruct r; [|simpl in Hr; lia]. apply update_loop_spec; [simpl; lia|done]. }
  destruct (Nat.ltb_spec (length data) (64 - t)) as [Hs|Hs].
  - exists (store_at inp t data). rewrite hash_blocks_short, tail_short by (rewrite length_app; lia).
    split_and!; [done|rewrite store_at_length; lia|].
    rewrite length_app, Hr, Nat.mod_small, take_store_at by lia. by rewrite Ht.
  - destruct (feed_block t b inp r data Hi Ht Hr Hlt Hs) as [Hx Hd]. cbv zeta in *. rewrite Hx, Hd.
    assert (Hge : (64 <= length (r ++ data))%nat) by (rewrite length_app; lia).
    destruct (update_loop_spec (S (length data)) (block b (take 64 (r ++ data))) (take 64 (r ++ data))
                (drop 64 (r ++ data))) as (i & -> & Hl & Htl);
      [rewrite <- Hd, length_drop; lia|rewrite length_take; lia|].
    exists i. rewrite (hash_blocks_step b (r ++ data)), (tail_step (r ++ data)) by done.
    split_and!; [done|done|]. rewrite <- Htl, length_drop. f_equal. by apply div64_step.
Qed.

Lemma update_absorbed (c : md5_context_t) (m data : list Z) :
  absorbed c m -> Z.of_nat (length data) < 2 ^ 32 ->
  absorbed (esp_rom_md5_update c data) (m ++ data).
Proof.
  intros [Hb Hi Ht H0 H1] Hlen. pose proof (update_feed c data) as Hf. cbv zeta in Hf.
  rewrite H0, bits_mod in Hf.
  destruct (feed_spec (length m mod 64) c.(buf) c.(in_) (tail m) data Hi Ht (tail_length m)) as (i & Hfe & Hl & Htl);
    [apply Nat.mod_upper_bound; lia|].
  rewrite Hfe in Hf. injection Hf as Hbuf Hin.
  destruct (bits_advance (8 * Z.of_nat (length m)) (Z.of_nat (length data))) as [Hb0 Hb1]; [lia|lia|].
  assert (Hn : 8 * Z.of_nat (length m) + 8 * Z.of_nat (length data) = 8 * Z.of_nat (length (m ++ data)))
    by (rewrite length_app; lia). rewrite Hn in Hb0, Hb1.
  constructor.
  - by rewrite Hbuf, update_blocks, Hb.
  - by rewrite Hin.
  - by rewrite Hin, tail_of_app, tail_app.
  - rewrite <- Hb0, <- H0. unfold esp_rom_md5_update. cbv zeta.
    repeat case_match; done.
  - rewrite <- Hb1, <- H0, <- H1. unfold esp_rom_md5_update. cbv zeta.
    repeat case_match; done.
Qed.

(** ** The end *)

Lemma byteReverse_prefix (n : nat) (a b : list Z) :
  length a = (4 * n)%nat -> byteReverse n (a ++ b) = byteReverse n a.
Proof.
  revert a. induction n as [|n IH]; intros a Ha; simpl; [done|].
  rewrite take_app_le, drop_app_le by lia. f_equal. apply IH. rewrite length_drop. lia.
Qed.

(** The marker byte and the zeros behind the buffered bytes. *)
Lemma pad_store (inp r z : list Z) (t : nat) :
  length inp = 64%nat -> take t inp = r -> length r = t -> (t + 1 + length z <= 64)%nat ->
  take (t + 1 + length z) (store_at (store_at inp t [0x80]) (S t) z) = r ++ 0x80 :: z /\
  length (store_at (store_at inp t [0x80]) (S t) z) = 64%nat.
Proof.
  intros Hi Ht Hr Hz.
  assert (Hl : length (store_at inp t [0x80]) = 64%nat) by (rewrite store_at_length; simpl; lia).
  split; [|rewrite store_at_length; lia].
  replace (t + 1 + length z)%nat with (S t + length z)%nat by lia. rewrite take_store_at by lia.
  pose proof (take_store_at inp t [0x80] ltac:(lia)) as H1. simpl in H1.
  replace (t + 1)%nat with (S t) in H1 by lia. by rewrite H1, Ht, <- app_assoc.
Qed.

Lemma md5_unfold (m : list Z) (c : md5_context_t) :
  absorbed c m ->
  md5 m = let x := tail m ++ padding (length m) in
          let b := MD5Transform (hash_blocks c.(buf) x) (byteReverse 14 (tail x) ++ [c.(bits0); c.(bits1)]) in
          bytes32 b.(s0) ++ bytes32 b.(s1) ++ bytes32 b.(s2) ++ bytes32 b.(s3).
Proof.
  intros [Hb _ _ H0 H1]. unfold md5. cbv zeta.
  change (absorb _ md5_start ?p) with (hash_blocks md5_start p).
  change (drop _ (m ++ padding (length m))) with (tail (m ++ padding (length m))).
  unfold length_words. by rewrite update_blocks, tail_app, <- H0, <- H1, <- Hb.
Qed.

Lemma final_absorbed (c : md5_context_t) (m : list Z) :
  absorbed c m -> esp_rom_md5_final c = md5 m.
Proof.
  intros Habs. rewrite (md5_unfold m c Habs). destruct Habs as [Hb Hi Ht H0 _].
  unfold esp_rom_md5_final. rewrite H0, bits_mod.
  pose proof (tail_length m) as Hr. pose proof (Nat.mod_upper_bound (length m) 64 ltac:(lia)) as Hlt.
  unfold padding. set (t := (length m mod 64)%nat) in *. set (r := tail m) in *.
  destruct (Nat.ltb_spec (64 - 1 - t) 8) as [Hc|Hc]; cbv zeta.
  - destruct (pad_store c.(in_) r (replicate (64 - 1 - t) 0) t Hi Ht Hr) as [H1 H2];
      [rewrite length_replicate; lia|]. rewrite length_replicate in H1.
    rewrite take_ge in H1 by (rewrite H2; lia). rewrite H1 in H2 |- *.
    rewrite (Nat.mod_small (119 - t)) by lia.
    assert (Hx : r ++ 0x80 :: replicate (119 - t) 0 = (r ++ 0x80 :: replicate (64 - 1 - t) 0) ++ replicate 56 0).
    { rewrite <- app_assoc. cbn [app]. do 2 f_equal. rewrite <- replicate_add. f_equal. lia. }
    rewrite Hx. rewrite (hash_blocks_app 1) by (rewrite H2; lia).
    rewrite (hash_blocks_short _ (replicate 56 0)) by (rewrite length_replicate; lia).
    rewrite (hash_blocks_step _ (r ++ _)) by lia. rewrite take_ge, drop_ge by lia.
    rewrite (hash_blocks_short _ []) by (simpl; lia).
    rewrite (tail_step (_ ++ replicate 56 0)) by (rewrite length_app; lia).
    rewrite (drop_app_length' _ (replicate 56 0) 64) by done.
    rewrite (tail_short (replicate 56 0)) by (rewrite length_replicate; lia).
    unfold store_at at 1. rewrite take_0, app_nil_l, byteReverse_prefix by (by rewrite length_replicate).
    reflexivity.
  - destruct (pad_store c.(in_) r (replicate (64 - 1 - t - 8) 0) t Hi Ht Hr) as [H1 H2];
      [rewrite length_replicate; lia|]. rewrite length_replicate in H1.
    replace (t + 1 + (64 - 1 - t - 8))%nat with 56%nat in H1 by lia.
    replace ((119 - t) mod 64)%nat with (64 - 1 - t - 8)%nat.
    2: { replace (119 - t)%nat with (55 - t + 1 * 64)%nat by lia. rewrite Nat.Div0.mod_add, Nat.mod_small; lia. }
    rewrite <- H1. set (x := store_at _ _ _) in *.
    rewrite hash_blocks_short, tail_short by (rewrite length_take; lia).
    assert (Hx : byteReverse 14 x = byteReverse 14 (take 56 x)).
    { rewrite <- (take_drop 56 x) at 1. apply byteReverse_prefix. rewrite length_take. lia. }
    rewrite Hx. reflexivity.
Qed.

(** C22: streaming MD5 is MD5.  However a message is cut into updates of less
    than 2^32 bytes, [esp_rom_md5_final] gives the digest that the definition of
    RFC 1321 gives for the whole message, whatever the context's buffer held. *)
Theorem md5_streaming (garbage : list Z) (chunks : list (list Z)) :
  length garbage = 64%nat ->
  Forall (fun d => Z.of_nat (length d) < 2 ^ 32) chunks ->
  esp_rom_md5_final (foldl esp_rom_md5_update (esp_rom_md5_init garbage) chunks) = md5 (concat chunks).
Proof.
  intros Hg Hc. apply final_absorbed.
  enough (H : forall c m, absorbed c m -> absorbed (foldl esp_rom_md5_update c chunks) (m ++ concat chunks))
    by (apply (H _ []); by constructor).
  clear Hg garbage. induction Hc as [|d chunks Hd Hc IH]; intros c m Habs; simpl.
  - by rewrite app_nil_r.
  - rewrite app_assoc. apply IH. by apply update_absorbed.
Qed.

(** "abc" in two updates has the digest RFC 1321 lists. *)
Lemma md5_streaming_witness :
  esp_rom_md5_final (foldl esp_rom_md5_update (esp_rom_md5_init (repeat 0 64)) [[97]; [98; 99]]) =
    md5 [97; 98; 99] /\
  md5 [97; 98; 99] = [0x90; 0x01; 0x50; 0x98; 0x3c; 0xd2; 0x4f; 0xb0; 0xd6; 0x96; 0x3f; 0x7d; 0x28; 0xe1; 0x7f; 0x72].
Proof.
  split; [|vm_compute; reflexivity].
  apply (md5_streaming (repeat 0 64) [[97]; [98; 99]]); [reflexivity|repeat constructor].
Defined.
End Md5.
