(* ===== verification/Crc.v ===== *)
(** * CRC-32: [esp_rom_crc.c]

    The checksum of the boot selection entries, in the table-driven form of the
    source (ESP-IDF's C version of the ROM routine), and the proof that it is the
    bit-by-bit division by the CRC-32 polynomial. *)
From stdpp Require Import base list.
From Stdlib Require Import ZArith Lia.
From S2P Require Import Prelude.
Local Open Scope Z_scope.

Module Crc.

Definition crc32_le_table : list Z :=
  [0x00000000; 0x77073096; 0xee0e612c; 0x990951ba; 0x076dc419; 0x706af48f; 0xe963a535; 0x9e6495a3;
   0x0edb8832; 0x79dcb8a4; 0xe0d5e91e; 0x97d2d988; 0x09b64c2b; 0x7eb17cbd; 0xe7b82d07; 0x90bf1d91;
   0x1db71064; 0x6ab020f2; 0xf3b97148; 0x84be41de; 0x1adad47d; 0x6ddde4eb; 0xf4d4b551; 0x83d385c7;
   0x136c9856; 0x646ba8c0; 0xfd62f97a; 0x8a65c9ec; 0x14015c4f; 0x63066cd9; 0xfa0f3d63; 0x8d080df5;
   0x3b6e20c8; 0x4c69105e; 0xd56041e4; 0xa2677172; 0x3c03e4d1; 0x4b04d447; 0xd20d85fd; 0xa50ab56b;
   0x35b5a8fa; 0x42b2986c; 0xdbbbc9d6; 0xacbcf940; 0x32d86ce3; 0x45df5c75; 0xdcd60dcf; 0xabd13d59;
   0x26d930ac; 0x51de003a; 0xc8d75180; 0xbfd06116; 0x21b4f4b5; 0x56b3c423; 0xcfba9599; 0xb8bda50f;
   0x2802b89e; 0x5f058808; 0xc60cd9b2; 0xb10be924; 0x2f6f7c87; 0x58684c11; 0xc1611dab; 0xb6662d3d;
   0x76dc4190; 0x01db7106; 0x98d220bc; 0xefd5102a; 0x71b18589; 0x06b6b51f; 0x9fbfe4a5; 0xe8b8d433;
   0x7807c9a2; 0x0f00f934; 0x9609a88e; 0xe10e9818; 0x7f6a0dbb; 0x086d3d2d; 0x91646c97; 0xe6635c01;
   0x6b6b51f4; 0x1c6c6162; 0x856530d8; 0xf262004e; 0x6c0695ed; 0x1b01a57b; 0x8208f4c1; 0xf50fc457;
   0x65b0d9c6; 0x12b7e950; 0x8bbeb8ea; 0xfcb9887c; 0x62dd1ddf; 0x15da2d49; 0x8cd37cf3; 0xfbd44c65;
   0x4db26158; 0x3ab551ce; 0xa3bc0074; 0xd4bb30e2; 0x4adfa541; 0x3dd895d7; 0xa4d1c46d; 0xd3d6f4fb;
   0x4369e96a; 0x346ed9fc; 0xad678846; 0xda60b8d0; 0x44042d73; 0x33031de5; 0xaa0a4c5f; 0xdd0d7cc9;
   0x5005713c; 0x270241aa; 0xbe0b1010; 0xc90c2086; 0x5768b525; 0x206f85b3; 0xb966d409; 0xce61e49f;
   0x5edef90e; 0x29d9c998; 0xb0d09822; 0xc7d7a8b4; 0x59b33d17; 0x2eb40d81; 0xb7bd5c3b; 0xc0ba6cad;
   0xedb88320; 0x9abfb3b6; 0x03b6e20c; 0x74b1d29a; 0xead54739; 0x9dd277af; 0x04db2615; 0x73dc1683;
   0xe3630b12; 0x94643b84; 0x0d6d6a3e; 0x7a6a5aa8; 0xe40ecf0b; 0x9309ff9d; 0x0a00ae27; 0x7d079eb1;
   0xf00f9344; 0x8708a3d2; 0x1e01f268; 0x6906c2fe; 0xf762575d; 0x806567cb; 0x196c3671; 0x6e6b06e7;
   0xfed41b76; 0x89d32be0; 0x10da7a5a; 0x67dd4acc; 0xf9b9df6f; 0x8ebeeff9; 0x17b7be43; 0x60b08ed5;
   0xd6d6a3e8; 0xa1d1937e; 0x38d8c2c4; 0x4fdff252; 0xd1bb67f1; 0xa6bc5767; 0x3fb506dd; 0x48b2364b;
   0xd80d2bda; 0xaf0a1b4c; 0x36034af6; 0x41047a60; 0xdf60efc3; 0xa867df55; 0x316e8eef; 0x4669be79;
   0xcb61b38c; 0xbc66831a; 0x256fd2a0; 0x5268e236; 0xcc0c7795; 0xbb0b4703; 0x220216b9; 0x5505262f;
   0xc5ba3bbe; 0xb2bd0b28; 0x2bb45a92; 0x5cb36a04; 0xc2d7ffa7; 0xb5d0cf31; 0x2cd99e8b; 0x5bdeae1d;
   0x9b64c2b0; 0xec63f226; 0x756aa39c; 0x026d930a; 0x9c0906a9; 0xeb0e363f; 0x72076785; 0x05005713;
   0x95bf4a82; 0xe2b87a14; 0x7bb12bae; 0x0cb61b38; 0x92d28e9b; 0xe5d5be0d; 0x7cdcefb7; 0x0bdbdf21;
   0x86d3d2d4; 0xf1d4e242; 0x68ddb3f8; 0x1fda836e; 0x81be16cd; 0xf6b9265b; 0x6fb077e1; 0x18b74777;
   0x88085ae6; 0xff0f6a70; 0x66063bca; 0x11010b5c; 0x8f659eff; 0xf862ae69; 0x616bffd3; 0x166ccf45;
   0xa00ae278; 0xd70dd2ee; 0x4e048354; 0x3903b3c2; 0xa7672661; 0xd06016f7; 0x4969474d; 0x3e6e77db;
   0xaed16a4a; 0xd9d65adc; 0x40df0b66; 0x37d83bf0; 0xa9bcae53; 0xdebb9ec5; 0x47b2cf7f; 0x30b5ffe9;
   0xbdbdf21c; 0xcabac28a; 0x53b39330; 0x24b4a3a6; 0xbad03605; 0xcdd70693; 0x54de5729; 0x23d967bf;
   0xb3667a2e; 0xc4614ab8; 0x5d681b02; 0x2a6f2b94; 0xb40bbe37; 0xc30c8ea1; 0x5a05df1b; 0x2d02ef8d].

(** [~x] on 32 bits. *)
Definition bnot (x : Z) : Z := Z.lxor x 0xFFFFFFFF.

(** One turn of the loop. *)
Definition crc32_le_step (crc b : Z) : Z :=
  Z.lxor (nth (Z.to_nat (Z.land (Z.lxor crc b) 0xff)) crc32_le_table 0) (Z.shiftr crc 8).

Definition esp_rom_crc32_le (crc : Z) (buf : list Z) : Z :=
  bnot (fold_left crc32_le_step buf (bnot crc)).

(** ** The division *)

(** A bit of the message divided by the reflected polynomial. *)
Definition crc_bit (r : Z) : Z :=
  if Z.odd r then Z.lxor (Z.shiftr r 1) 0xEDB88320 else Z.shiftr r 1.

Definition crc_byte (r b : Z) : Z := Nat.iter 8 crc_bit (Z.lxor r b).

Definition crc32 (init : Z) (buf : list Z) : Z := bnot (fold_left crc_byte buf (bnot init)).

Definition is_byte (b : Z) : Prop := 0 <= b < 256.

Lemma bnot_bnot x : bnot (bnot x) = x.
Proof. unfold bnot. by rewrite Z.lxor_assoc, Z.lxor_nilpotent, Z.lxor_0_r. Qed.

Lemma crc_bit_lxor a b : crc_bit (Z.lxor a b) = Z.lxor (crc_bit a) (crc_bit b).
Proof.
  unfold crc_bit. rewrite <- !Z.bit0_odd, Z.lxor_spec, Z.shiftr_lxor.
  destruct (Z.testbit a 0), (Z.testbit b 0); simpl.
  - rewrite Z.lxor_assoc, (Z.lxor_comm 0xEDB88320), Z.lxor_assoc, Z.lxor_nilpotent, Z.lxor_0_r. done.
  - by rewrite !Z.lxor_assoc, (Z.lxor_comm 0xEDB88320).
  - by rewrite Z.lxor_assoc.
  - done.
Qed.

Lemma iter_bit_lxor n a b :
  Nat.iter n crc_bit (Z.lxor a b) = Z.lxor (Nat.iter n crc_bit a) (Nat.iter n crc_bit b).
Proof. induction n as [|n IH]; [done|]. simpl. by rewrite IH, crc_bit_lxor. Qed.

Lemma iter_bit_shift n m x :
  (n <= m)%nat -> Nat.iter n crc_bit (Z.shiftl x (Z.of_nat m)) = Z.shiftl x (Z.of_nat (m - n)).
Proof.
  intros Hn. induction n as [|n IH]; [by rewrite Nat.sub_0_r|]. simpl. rewrite IH by lia.
  unfold crc_bit. replace (Z.odd _) with false.
  - rewrite Z.shiftr_shiftl_l by lia. f_equal. lia.
  - rewrite <- Z.bit0_odd, Z.shiftl_spec_low by lia. done.
Qed.

Lemma table_divides :
  forallb (fun k => nth k crc32_le_table 0 =? Nat.iter 8 crc_bit (Z.of_nat k)) (seq 0 256) = true.
Proof. vm_compute. reflexivity. Qed.

Lemma low_byte r : Z.land r 0xff = r mod 256.
Proof. change 0xff with (Z.ones 8). by rewrite Z.land_ones. Qed.

Lemma table_at r : nth (Z.to_nat (Z.land r 0xff)) crc32_le_table 0 = Nat.iter 8 crc_bit (Z.land r 0xff).
Proof.
  pose proof (Z.mod_pos_bound r 256 ltac:(lia)) as Hr. rewrite low_byte in *.
  pose proof table_divides as Ht. rewrite forallb_forall in Ht.
  specialize (Ht (Z.to_nat (r mod 256)) ltac:(apply in_seq; lia)).
  apply Z.eqb_eq in Ht. by rewrite Ht, Z2Nat.id by lia.
Qed.

Lemma split_byte r : r = Z.lxor (Z.land r 0xff) (Z.shiftl (Z.shiftr r 8) 8).
Proof.
  apply Z.bits_inj'. intros n Hn. change 0xff with (Z.ones 8).
  rewrite Z.lxor_spec, Z.land_spec, Z.shiftl_spec by lia.
  destruct (Z.ltb_spec n 8).
  - rewrite Z.ones_spec_low, (Z.testbit_neg_r _ (n - 8)), andb_true_r, xorb_false_r by lia. done.
  - rewrite Z.ones_spec_high, Z.shiftr_spec, andb_false_r, xorb_false_l by lia. f_equal. lia.
Qed.

Lemma shiftr_byte r b : is_byte b -> Z.shiftr (Z.lxor r b) 8 = Z.shiftr r 8.
Proof.
  intros Hb. rewrite Z.shiftr_lxor, (Z.shiftr_div_pow2 b), Z.div_small by (unfold is_byte in Hb; lia).
  apply Z.lxor_0_r.
Qed.

Lemma step_divides r b : is_byte b -> crc32_le_step r b = crc_byte r b.
Proof.
  intros Hb. unfold crc32_le_step, crc_byte. rewrite table_at, <- (shiftr_byte r b Hb).
  rewrite (split_byte (Z.lxor r b)) at 3. rewrite iter_bit_lxor. f_equal.
  rewrite (iter_bit_shift 8 8) by lia. done.
Qed.

Lemma crc_fold init buf : Forall is_byte buf -> esp_rom_crc32_le init buf = crc32 init buf.
Proof.
  intros Hb. unfold esp_rom_crc32_le, crc32. f_equal. generalize (bnot init) as r.
  induction Hb as [|b buf Hb _ IH]; intros r; [done|]. simpl. by rewrite IH, step_divides.
Qed.

(** ** Ranges, and the only four bytes with the checksum of erased flash *)

Lemma lxor_bound n a b : 0 <= n -> 0 <= a < 2 ^ n -> 0 <= b < 2 ^ n -> 0 <= Z.lxor a b < 2 ^ n.
Proof.
  intros Hn Ha Hb. replace (Z.lxor a b) with (Z.lxor a b mod 2 ^ n); [apply Z.mod_pos_bound; lia|].
  rewrite <- Z.land_ones by lia. apply Z.bits_inj'. intros k Hk. rewrite Z.land_spec, Z.lxor_spec.
  destruct (Z.ltb_spec k n); [by rewrite Z.ones_spec_low, andb_true_r by lia|].
  rewrite Z.ones_spec_high, andb_false_r by lia.
  rewrite <- (Z.mod_small a (2 ^ n)), <- (Z.mod_small b (2 ^ n)), !Z.mod_pow2_bits_high by lia. done.
Qed.

Lemma crc_bit_range r : 0 <= r < 2 ^ 32 -> 0 <= crc_bit r < 2 ^ 32.
Proof.
  intros Hr. assert (Hs : 0 <= Z.shiftr r 1 < 2 ^ 32).
  { rewrite Z.shiftr_div_pow2 by lia. split; [apply Z.div_pos; lia|apply Z.div_lt_upper_bound; lia]. }
  unfold crc_bit. destruct (Z.odd r); [apply lxor_bound; lia|done].
Qed.

Lemma iter_bit_range n r : 0 <= r < 2 ^ 32 -> 0 <= Nat.iter n crc_bit r < 2 ^ 32.
Proof. intros Hr. induction n; [done|]. simpl. by apply crc_bit_range. Qed.

Lemma crc_byte_range r b : 0 <= r < 2 ^ 32 -> is_byte b -> 0 <= crc_byte r b < 2 ^ 32.
Proof. intros Hr Hb. apply iter_bit_range, lxor_bound; unfold is_byte in *; lia. Qed.

Lemma crc_range init buf :
  0 <= init < 2 ^ 32 -> Forall is_byte buf -> 0 <= esp_rom_crc32_le init buf < 2 ^ 32.
Proof.
  intros Hi Hb. unfold esp_rom_crc32_le, bnot. apply lxor_bound; [lia| |lia].
  assert (Hr : 0 <= Z.lxor init 0xFFFFFFFF < 2 ^ 32) by (apply lxor_bound; lia).
  revert Hr. generalize (Z.lxor init 0xFFFFFFFF) as r.
  induction Hb as [|b buf Hb _ IH]; intros r Hr; [done|]. simpl. apply IH.
  rewrite step_divides by done. by apply crc_byte_range.
Qed.

(** A register with its top bit clear was shifted without the polynomial. *)
Lemma crc_bit_small r : 0 <= r < 2 ^ 32 -> crc_bit r < 2 ^ 31 -> r = 2 * crc_bit r.
Proof.
  intros Hr. unfold crc_bit. destruct (Z.odd r) eqn:Ho.
  - intros Hlt. exfalso. assert (Hb : Z.testbit (Z.lxor (Z.shiftr r 1) 0xEDB88320) 31 = true).
    { rewrite Z.lxor_spec, Z.shiftr_spec by lia. change (Z.testbit 0xEDB88320 31) with true.
      rewrite <- (Z.mod_small r (2 ^ 32)), Z.mod_pow2_bits_high by lia. done. }
    pose proof (crc_bit_range r Hr) as Hc. unfold crc_bit in Hc. rewrite Ho in Hc.
    rewrite <- (Z.mod_small (Z.lxor _ _) (2 ^ 31)), Z.mod_pow2_bits_high in Hb by lia. done.
  - intros _. rewrite Z.shiftr_div_pow2 by lia. change (2 ^ 1) with 2.
    pose proof (Z.div2_odd r) as Hd. rewrite Ho, Z.div2_div in Hd. simpl in Hd. lia.
Qed.

Lemma iter_bit_small n r :
  (n <= 31)%nat -> 0 <= r < 2 ^ 32 -> Nat.iter n crc_bit r < 2 ^ (32 - Z.of_nat n) ->
  r = 2 ^ Z.of_nat n * Nat.iter n crc_bit r.
Proof.
  intros Hn Hr. revert Hn. induction n as [|n IH]; intros Hn Hlt; [simpl; lia|].
  pose proof (iter_bit_range n r Hr) as Hi. change (Nat.iter (S n) crc_bit r) with (crc_bit (Nat.iter n crc_bit r)) in *.
  assert (Hp : 2 ^ (32 - Z.of_nat (S n)) <= 2 ^ 31) by (apply Z.pow_le_mono_r; lia).
  assert (Hs : 2 ^ (32 - Z.of_nat n) = 2 * 2 ^ (32 - Z.of_nat (S n)))
    by (rewrite <- Z.pow_succ_r by lia; f_equal; lia).
  pose proof (crc_bit_small _ Hi ltac:(lia)) as Hd.
  rewrite Nat2Z.inj_succ, Z.pow_succ_r by lia. rewrite (IH ltac:(lia) ltac:(lia)) at 1. lia.
Qed.

Lemma crc_byte_small r b :
  0 <= r < 2 ^ 32 -> is_byte b -> crc_byte r b < 2 ^ 24 -> r = Z.lxor (256 * crc_byte r b) b.
Proof.
  intros Hr Hb Hs. assert (Hx : 0 <= Z.lxor r b < 2 ^ 32) by (apply lxor_bound; unfold is_byte in *; lia).
  pose proof (iter_bit_small 8 _ ltac:(lia) Hx Hs) as He. change (2 ^ Z.of_nat 8) with 256 in He.
  unfold crc_byte. rewrite <- He, Z.lxor_assoc, Z.lxor_nilpotent. by rewrite Z.lxor_0_r.
Qed.

Lemma lxor_shifted x b : 0 <= x -> is_byte b -> Z.lxor (256 * x) b = 256 * x + b.
Proof.
  intros Hx Hb. rewrite <- Z.add_nocarry_lxor; [done|]. unfold is_byte in Hb. apply Z.bits_inj'. intros n Hn.
  change 256 with (2 ^ 8). rewrite Z.mul_comm, Z.land_spec, Z.bits_0, <- Z.shiftl_mul_pow2, Z.shiftl_spec by lia.
  destruct (Z.ltb_spec n 8); [by rewrite Z.testbit_neg_r by lia|].
  rewrite <- (Z.mod_small b (2 ^ 8)), Z.mod_pow2_bits_high by lia. apply andb_false_r.
Qed.

(** One step back: a small register and the byte before it. *)
Lemma crc_byte_back r b x :
  0 <= r < 2 ^ 32 -> is_byte b -> crc_byte r b = x -> x < 2 ^ 24 -> 0 <= x /\ r = 256 * x + b.
Proof.
  intros Hr Hb <- Hx. pose proof (crc_byte_range r b Hr Hb) as [H0 _]. split; [done|].
  rewrite (crc_byte_small r b Hr Hb Hx) at 1. by apply lxor_shifted.
Qed.

Lemma crc_bytes_zero b0 b1 b2 b3 r1 r2 r3 :
  is_byte b0 -> is_byte b1 -> is_byte b2 -> is_byte b3 ->
  crc_byte 0 b0 = r1 -> crc_byte r1 b1 = r2 -> crc_byte r2 b2 = r3 -> crc_byte r3 b3 = 0 ->
  b0 = 0 /\ b1 = 0 /\ b2 = 0 /\ b3 = 0.
Proof.
  intros H0 H1 H2 H3 E1 E2 E3 E4.
  assert (R1 : 0 <= r1 < 2 ^ 32) by (subst; apply crc_byte_range; [lia|done]).
  assert (R2 : 0 <= r2 < 2 ^ 32) by (rewrite <- E2; by apply crc_byte_range).
  assert (R3 : 0 <= r3 < 2 ^ 32) by (rewrite <- E3; by apply crc_byte_range).
  apply crc_byte_back in E4 as [_ E4]; [|done|done|lia]. unfold is_byte in *.
  apply crc_byte_back in E3 as [_ E3]; [|done|done|lia].
  apply crc_byte_back in E2 as [_ E2]; [|done|done|lia].
  apply crc_byte_back in E1 as [_ E1]; [|lia|done|lia]. lia.
Qed.

Lemma crc_ones_register buf :
  Forall is_byte buf -> esp_rom_crc32_le 0xFFFFFFFF buf = 0xFFFFFFFF -> fold_left crc_byte buf 0 = 0.
Proof.
  intros Hb Hc. rewrite crc_fold in Hc by done. unfold crc32 in Hc. apply (f_equal bnot) in Hc. rewrite bnot_bnot in Hc. exact Hc.
Qed.

Lemma fold_left_four (f : Z -> Z -> Z) (r b0 b1 b2 b3 : Z) :
  fold_left f [b0; b1; b2; b3] r = f (f (f (f r b0) b1) b2) b3.
Proof. reflexivity. Qed.

Lemma crc_all_ones b0 b1 b2 b3 :
  Forall is_byte [b0; b1; b2; b3] -> esp_rom_crc32_le 0xFFFFFFFF [b0; b1; b2; b3] = 0xFFFFFFFF ->
  b0 = 0 /\ b1 = 0 /\ b2 = 0 /\ b3 = 0.
Proof.
  intros Hb Hc. apply crc_ones_register in Hc; [|done]. rewrite fold_left_four in Hc.
  rewrite !Forall_cons in Hb. destruct Hb as (H0 & H1 & H2 & H3 & _).
  exact (crc_bytes_zero b0 b1 b2 b3 _ _ _ H0 H1 H2 H3 eq_refl eq_refl eq_refl Hc).
Qed.

(** C12: the table computes the CRC.  For any start value and message the
    table-driven loop gives what dividing the message bit by bit by the CRC-32
    polynomial gives. *)
Theorem crc32_le_divides (init : Z) (buf : list Z) :
  Forall is_byte buf -> esp_rom_crc32_le init buf = crc32 init buf.
Proof. apply crc_fold. Qed.

(** The check value of the algorithm: "123456789". *)
Lemma crc32_le_divides_witness :
  esp_rom_crc32_le 0 [0x31; 0x32; 0x33; 0x34; 0x35; 0x36; 0x37; 0x38; 0x39] =
  crc32 0 [0x31; 0x32; 0x33; 0x34; 0x35; 0x36; 0x37; 0x38; 0x39] /\
  esp_rom_crc32_le 0 [0x31; 0x32; 0x33; 0x34; 0x35; 0x36; 0x37; 0x38; 0x39] = 0xCBF43926.
Proof.
  split; [apply crc32_le_divides; repeat constructor; unfold is_byte; lia|vm_compute; reflexivity].
Defined.
End Crc.
