(* ===== verification/Partition.v ===== *)
(** * Flash partitions: [partition.c], [partition_table.h] and the update of the
      table in [device_interface.cpp]

    The partition table as the boot code reads it from flash, access to a
    partition, and the table the firmware carries to replace an older one. *)
From stdpp Require Import base list.
From Stdlib Require Import ZArith Lia.
From S2P Require Import Prelude Oprt Flash Md5.
Import Flash.
Local Open Scope Z_scope.

Module Partition.

Definition ESP_PARTITION_MAGIC : Z := 0x50AA.
Definition ESP_PARTITION_MAGIC_MD5 : Z := 0xEBEB.
Definition ESP_PARTITION_MD5_OFFSET : nat := 16.
Definition ESP_PARTITION_TYPE_APP : Z := 0.
Definition ESP_PARTITION_TYPE_DATA : Z := 1.
Definition ESP_PARTITION_TYPE_ANY : Z := 0xff.
Definition ESP_PARTITION_SUBTYPE_ANY : Z := 0xff.
Definition SPI_FLASH_SEC_SIZE : Z := 4096.

(** An entry of the table: 32 bytes, little-endian. *)
Record esp_partition_info_t := mk_info {
  magic : Z;
  info_type : Z;
  info_subtype : Z;
  pos_offset : Z;
  pos_size : Z;
  info_label : list Z;
  flags : Z;
}.

Definition byte (b : list Z) (i : nat) : Z := nth i b 0.
Definition word (b : list Z) (i : nat) : Z := Md5.le32 (take 4 (drop i b)).

Definition read_info (b : list Z) : esp_partition_info_t :=
  mk_info (byte b 0 + 2 ^ 8 * byte b 1) (byte b 2) (byte b 3) (word b 4) (word b 8)
    (take 16 (drop 12 b)) (word b 28).

(** A loaded partition; the label is the string up to its NUL. *)
Record esp_partition_t := mk_partition {
  address : Z;
  size : Z;
  type : Z;
  subtype : Z;
  label : list Z;
  encrypted : bool;
}.

Fixpoint c_string (b : list Z) : list Z :=
  match b with
  | [] => []
  | x :: b => if x =? 0 then [] else x :: c_string b
  end.

Definition load_entry (encryption : bool) (e : esp_partition_info_t) : esp_partition_t :=
  mk_partition e.(pos_offset) e.(pos_size) e.(info_type) e.(info_subtype) (c_string e.(info_label))
    (if negb encryption then false
     else if (e.(info_type) =? ESP_PARTITION_TYPE_APP)
          || ((e.(info_type) =? ESP_PARTITION_TYPE_DATA) && (e.(info_subtype) =? 0))
          || ((e.(info_type) =? ESP_PARTITION_TYPE_DATA) && (e.(info_subtype) =? 4))
     then true else Z.testbit e.(flags) 0).

(** Lines 193-257: the entries up to the MD5 row or the first that is none.
    [table] is what is left of the mapped sector, [ctx] the running digest;
    the answer holds the stored digest when the row was found.  [calloc_ok k] says
    whether there is memory for item [k]. *)
Fixpoint load_loop (calloc_ok : nat -> bool) (encryption : bool) (n : nat) (table : list Z) (ctx : Md5.md5_context_t)
    (acc : list esp_partition_t) : Z * list esp_partition_t * Md5.md5_context_t * option (list Z) :=
  match n with
  | O => (ESP_OK, acc, ctx, None)
  | S n =>
      let entry := take 32 table in
      let e := read_info entry in
      if e.(magic) =? ESP_PARTITION_MAGIC_MD5 then
        (ESP_OK, acc, ctx, Some (take 16 (drop ESP_PARTITION_MD5_OFFSET table)))
      else if negb (e.(magic) =? ESP_PARTITION_MAGIC) then (ESP_OK, acc, ctx, None)
      else
        let ctx := Md5.esp_rom_md5_update ctx entry in
        if negb (calloc_ok (length acc)) then (ESP_ERR_NO_MEM, acc, ctx, None)
        else load_loop calloc_ok encryption n (drop 32 table) ctx (acc ++ [load_entry encryption e])
  end.

(** [sector] is the flash sector at [ESP_PARTITION_TABLE_OFFSET], [mmap_err] what
    [spi_flash_mmap] answers. *)
Definition load_partitions (mmap_err : Z) (calloc_ok : nat -> bool) (encryption : bool) (garbage sector : list Z)
  : Z * list esp_partition_t :=
  if negb (mmap_err =? ESP_OK) then (mmap_err, [])
  else
  let '(err, parts, ctx, md5_part) :=
    load_loop calloc_ok encryption (Z.to_nat (SPI_FLASH_SEC_SIZE / 32)) sector
      (Md5.esp_rom_md5_init garbage) [] in
  let err :=
    match md5_part with
    | None => ESP_ERR_NOT_FOUND
    | Some stored =>
        if bool_decide (Md5.esp_rom_md5_final ctx = stored) then err else ESP_ERR_INVALID_STATE
    end in
  if err =? ESP_OK then (ESP_OK, parts) else (err, []).

(** [esp_partition_find_first] on the loaded list; a NULL label is [None]. *)
Definition matches (ty sub : Z) (lab : option (list Z)) (p : esp_partition_t) : bool :=
  negb (negb (ty =? ESP_PARTITION_TYPE_ANY) && negb (ty =? p.(type))) &&
  negb (negb (sub =? ESP_PARTITION_SUBTYPE_ANY) && negb (sub =? p.(subtype))) &&
  match lab with None => true | Some l => bool_decide (l = p.(label)) end.

Definition esp_partition_find_first (parts : list esp_partition_t) (ty sub : Z) (lab : option (list Z))
  : option esp_partition_t :=
  if (ty =? ESP_PARTITION_TYPE_ANY) && negb (sub =? ESP_PARTITION_SUBTYPE_ANY) then None
  else List.find (matches ty sub lab) parts.

(** ** Access to a partition that is not encrypted *)

Section Access.
Variables running_address running_size : Z.
Variable chunk : nat.

Definition esp_partition_read (c : list Z) (p : esp_partition_t) (src_offset sz : Z) : Z * list Z :=
  if p.(size) <? src_offset then (ESP_ERR_INVALID_ARG, [])
  else if p.(size) <? u32 (src_offset + sz) then (ESP_ERR_INVALID_SIZE, [])
  else esp_flash_read chunk c (u32 (p.(address) + src_offset)) sz.

Definition esp_partition_write (c : list Z) (p : esp_partition_t) (dst_offset : Z) (src : list Z)
  : option (Z * list Z) :=
  if p.(size) <? dst_offset then Some (ESP_ERR_INVALID_ARG, c)
  else if p.(size) <? u32 (dst_offset + Z.of_nat (length src)) then Some (ESP_ERR_INVALID_SIZE, c)
  else esp_flash_write running_address running_size chunk c (u32 (p.(address) + dst_offset)) src.

Definition esp_partition_erase_range (c : list Z) (p : esp_partition_t) (offset sz : Z)
  : option (Z * list Z) :=
  if p.(size) <? offset then Some (ESP_ERR_INVALID_ARG, c)
  else if p.(size) <? u32 (offset + sz) then Some (ESP_ERR_INVALID_SIZE, c)
  else if negb (sz mod SPI_FLASH_SEC_SIZE =? 0) then Some (ESP_ERR_INVALID_SIZE, c)
  else if negb (offset mod SPI_FLASH_SEC_SIZE =? 0) then Some (ESP_ERR_INVALID_ARG, c)
  else esp_flash_erase_region running_address running_size c (u32 (p.(address) + offset)) sz.
End Access.

(** ** The table in the firmware *)

Definition TUYA_PARTITION_TABLE_LEN : nat := 3072.

(** Five entries and the MD5 row, 32 bytes each; the other bytes are 0xff. *)
Definition tuya_partition_table : list Z :=
  ([0xaa; 0x50; 0x01; 0x02; 0x00; 0x90; 0x00; 0x00; 0x00; 0x50; 0x00; 0x00; 0x6e; 0x76; 0x73] ++ repeat 0x00 17) ++
  ([0xaa; 0x50; 0x01; 0x00; 0x00; 0xe0; 0x00; 0x00; 0x00; 0x20; 0x00; 0x00; 0x6f; 0x74; 0x61; 0x64;
    0x61; 0x74; 0x61] ++ repeat 0x00 13) ++
  ([0xaa; 0x50; 0x00; 0x10; 0x00; 0x00; 0x01; 0x00; 0x00; 0x00; 0x3d; 0x00; 0x6f; 0x74; 0x61; 0x5f;
    0x30] ++ repeat 0x00 15) ++
  ([0xaa; 0x50; 0x00; 0x11; 0x00; 0x00; 0x40; 0x00; 0x00; 0x00; 0x3d; 0x00; 0x6f; 0x74; 0x61; 0x5f;
    0x31] ++ repeat 0x00 15) ++
  ([0xaa; 0x50; 0x01; 0xaa; 0x00; 0x00; 0x7d; 0x00; 0x00; 0x80; 0x02; 0x00; 0x74; 0x75; 0x79; 0x61] ++ repeat 0x00 16) ++
  ([0xeb; 0xeb] ++ repeat 0xff 14 ++
   [0xb8; 0x0b; 0x61; 0x55; 0x04; 0x22; 0xf3; 0x82; 0xbb; 0xc7; 0x9b; 0xef; 0x56; 0x5f; 0xe6; 0xbc]) ++
  repeat 0xff 2880.

(** "tuya" *)
Definition tuya_label : list Z := [0x74; 0x75; 0x79; 0x61].

Definition not_find_tuya_patition (parts : list esp_partition_t) : bool :=
  match esp_partition_find_first parts ESP_PARTITION_TYPE_DATA ESP_PARTITION_SUBTYPE_ANY (Some tuya_label) with
  | None => true
  | Some _ => false
  end.

(** [update_partition_table]: the flash afterwards, and whether it restarts.
    [nvs_flash_erase] works on the nvs partition, outside this model. *)
Inductive updated :=
| UpdateAborted
| UpdateDone (flash : list Z)
| UpdateRestart (flash : list Z).

Definition update_partition_table (running_address running_size : Z) (chunk : nat) (c : list Z) : updated :=
  match esp_flash_erase_region running_address running_size c CONFIG_PARTITION_TABLE_OFFSET 0x1000 with
  | None => UpdateAborted
  | Some (ret, c) =>
      if ret =? ESP_OK then
        match esp_flash_write running_address running_size chunk c CONFIG_PARTITION_TABLE_OFFSET tuya_partition_table with
        | None => UpdateAborted
        | Some (_, c) => UpdateRestart c
        end
      else UpdateDone c
  end.

Definition ota_update_partition_table (parts : list esp_partition_t) (running_address running_size : Z)
    (chunk : nat) (c : list Z) : updated :=
  if not_find_tuya_patition parts then update_partition_table running_address running_size chunk c
  else UpdateDone c.

(** ** Reading the table *)

Definition entry_at (sector : list Z) (k : nat) : esp_partition_info_t :=
  read_info (take 32 (drop (32 * k) sector)).

(** The partitions of the first [n] entries. *)
Definition entries (encryption : bool) (sector : list Z) (n : nat) : list esp_partition_t :=
  map (fun k => load_entry encryption (entry_at sector k)) (seq 0 n).

(** Where the loop stands after [k] entries. *)
Lemma load_loop_spec (calloc_ok : nat -> bool) (encryption : bool) (sector : list Z) :
  forall n k ctx acc err parts ctx' md5_part,
  (32 * (k + n) <= length sector)%nat ->
  Md5.absorbed ctx (take (32 * k) sector) -> acc = entries encryption sector k ->
  load_loop calloc_ok encryption n (drop (32 * k) sector) ctx acc = (err, parts, ctx', md5_part) ->
  match md5_part with
  | None => True
  | Some stored => exists m, (k <= m < k + n)%nat /\ err = ESP_OK /\
      parts = entries encryption sector m /\ Md5.absorbed ctx' (take (32 * m) sector) /\
      (forall j, (k <= j < m)%nat -> (entry_at sector j).(magic) = ESP_PARTITION_MAGIC) /\
      (entry_at sector m).(magic) = ESP_PARTITION_MAGIC_MD5 /\
      stored = take 16 (drop (32 * m + 16) sector)
  end.
Proof.
  induction n as [|n IH]; intros k ctx acc err parts ctx' md5_part Hlen Habs Hacc.
  { intros [= <- <- <- <-]. done. }
  cbn [load_loop]. fold (entry_at sector k). destruct (Z.eqb_spec (entry_at sector k).(magic) ESP_PARTITION_MAGIC_MD5) as [Hm|_].
  { intros [= <- <- <- <-]. exists k. split_and!; try done; try lia.
    by rewrite drop_drop. }
  destruct (Z.eqb_spec (entry_at sector k).(magic) ESP_PARTITION_MAGIC) as [Hm|_]; cbn [negb].
  2: by intros [= <- <- <- <-].
  destruct (calloc_ok (length acc)); cbn [negb]; [|by intros [= <- <- <- <-]].
  assert (Hentry : length (take 32 (drop (32 * k) sector)) = 32%nat) by (rewrite length_take, length_drop; lia).
  rewrite drop_drop. replace (32 * k + 32)%nat with (32 * S k)%nat by lia. intros Heq.
  apply (IH (S k)) in Heq; [| lia | |].
  - destruct md5_part as [stored|]; [|done]. destruct Heq as (m & ? & ? & ? & ? & Hall & ? & ?).
    exists m. split_and!; try done; try lia.
    intros j Hj. destruct (decide (j = k)) as [->|]; [done|apply Hall; lia].
  - replace (take (32 * S k) sector) with (take (32 * k) sector ++ take 32 (drop (32 * k) sector)).
    + apply Md5.update_absorbed; [done|]. rewrite Hentry. lia.
    + rewrite take_take_drop. f_equal. lia.
  - rewrite Hacc. unfold entries. rewrite seq_S, map_app. done.
Qed.

(** The other way round: a table that is all right is read to its MD5 row. *)
Lemma load_loop_complete (calloc_ok : nat -> bool) (encryption : bool) (sector : list Z) (m : nat) :
  (forall j, (j < m)%nat -> calloc_ok j = true) ->
  (forall j, (j < m)%nat -> (entry_at sector j).(magic) = ESP_PARTITION_MAGIC) ->
  (entry_at sector m).(magic) = ESP_PARTITION_MAGIC_MD5 ->
  forall n k ctx acc, length acc = k -> (k <= m < k + n)%nat ->
  exists parts ctx' stored,
    load_loop calloc_ok encryption n (drop (32 * k) sector) ctx acc = (ESP_OK, parts, ctx', Some stored).
Proof.
  intros Hmem Hall Hmd5. induction n as [|n IH]; intros k ctx acc Hacc Hk; [lia|].
  cbn [load_loop]. fold (entry_at sector k). destruct (decide (k = m)) as [->|Hne].
  - rewrite Hmd5. eauto.
  - rewrite (Hall k) by lia.
    rewrite (proj2 (Z.eqb_neq ESP_PARTITION_MAGIC ESP_PARTITION_MAGIC_MD5)), Z.eqb_refl by done.
    cbn [negb]. rewrite Hacc, Hmem by lia. cbn [negb]. rewrite (drop_drop sector 32 (32 * k)).
    replace (32 * k + 32)%nat with (32 * S k)%nat by lia. apply IH; [|lia]. rewrite length_app. cbn [length]. lia.
Qed.

Lemma entry_magic_unique (sector : list Z) (m n : nat) :
  (forall j, (j < m)%nat -> (entry_at sector j).(magic) = ESP_PARTITION_MAGIC) ->
  (entry_at sector m).(magic) = ESP_PARTITION_MAGIC_MD5 ->
  (forall j, (j < n)%nat -> (entry_at sector j).(magic) = ESP_PARTITION_MAGIC) ->
  (entry_at sector n).(magic) = ESP_PARTITION_MAGIC_MD5 -> m = n.
Proof.
  intros H1 H2 H3 H4. destruct (lt_eq_lt_dec m n) as [[Hlt| ->]|Hlt]; [|done|].
  - specialize (H3 m Hlt). rewrite H2 in H3. done.
  - specialize (H1 n Hlt). rewrite H4 in H1. done.
Qed.

(** What a table has to be: [n] entries, then the row with their digest. *)
Definition table_ok (sector : list Z) (n : nat) : Prop :=
  (n < 128)%nat /\
  (forall j, (j < n)%nat -> (entry_at sector j).(magic) = ESP_PARTITION_MAGIC) /\
  (entry_at sector n).(magic) = ESP_PARTITION_MAGIC_MD5 /\
  Md5.md5 (take (32 * n) sector) = take 16 (drop (32 * n + 16) sector).

(** What is loaded is a table that is all right. *)
Lemma load_partitions_sound (mmap_err : Z) (calloc_ok : nat -> bool) (encryption : bool) (garbage sector : list Z)
    (parts : list esp_partition_t) :
  length garbage = 64%nat -> length sector = 4096%nat ->
  load_partitions mmap_err calloc_ok encryption garbage sector = (ESP_OK, parts) ->
  exists n, table_ok sector n /\ parts = entries encryption sector n.
Proof.
  intros Hg Hs. unfold load_partitions, table_ok. destruct (Z.eqb_spec mmap_err ESP_OK); cbn [negb]; [|congruence].
  destruct (load_loop _ _ _ _ _ _) as [[[err ps] ctx] md5_part] eqn:Hl.
  change (Z.to_nat (SPI_FLASH_SEC_SIZE / 32)) with 128%nat in Hl.
  apply (load_loop_spec _ _ sector 128 0) in Hl; [|lia|by constructor|done].
  destruct md5_part as [stored|]; [|done]. destruct Hl as (m & Hm & -> & -> & Habs & Hall & Hmagic & ->).
  destruct (bool_decide _) eqn:Hd; [|done]. apply bool_decide_eq_true in Hd. intros [= <-].
  exists m. split_and!; [lia|intros j Hj; apply Hall; lia|done| |done].
  by rewrite <- (Md5.final_absorbed _ _ Habs).
Qed.

(** Such a table is loaded when it can be mapped and there is memory for its items. *)
Lemma load_partitions_complete (calloc_ok : nat -> bool) (encryption : bool) (garbage sector : list Z) (n : nat) :
  length garbage = 64%nat -> length sector = 4096%nat -> (forall k, (k < n)%nat -> calloc_ok k = true) -> table_ok sector n ->
  load_partitions ESP_OK calloc_ok encryption garbage sector = (ESP_OK, entries encryption sector n).
Proof.
  intros Hg Hs Hmem (Hn & Hall & Hmagic & Hdigest). unfold load_partitions. cbn [Z.eqb negb ESP_OK].
  change (Z.to_nat (SPI_FLASH_SEC_SIZE / 32)) with 128%nat.
  destruct (load_loop_complete calloc_ok encryption sector n Hmem Hall Hmagic 128 0 (Md5.esp_rom_md5_init garbage) [] eq_refl)
    as (parts & ctx' & stored & Hc); [lia|]. change (drop (32 * 0) sector) with sector in Hc. rewrite Hc.
  apply (load_loop_spec _ _ sector 128 0) in Hc; [|lia|by constructor|done].
  destruct Hc as (m & Hm & _ & -> & Habs & Hall' & Hmagic' & ->).
  assert (m = n) as -> by (eapply entry_magic_unique; eauto; intros j Hj; apply Hall'; lia).
  by rewrite (Md5.final_absorbed _ _ Habs), bool_decide_eq_true_2.
Qed.

(** The sector with the firmware's table in it, and its partitions. *)
Definition tuya_sector : list Z := tuya_partition_table ++ repeat 0xff 1024.

Definition tuya_partitions : list esp_partition_t :=
  [mk_partition 0x9000 0x5000 1 2 [0x6e; 0x76; 0x73] false;
   mk_partition 0xe000 0x2000 1 0 [0x6f; 0x74; 0x61; 0x64; 0x61; 0x74; 0x61] false;
   mk_partition 0x10000 0x3d0000 0 16 [0x6f; 0x74; 0x61; 0x5f; 0x30] false;
   mk_partition 0x400000 0x3d0000 0 17 [0x6f; 0x74; 0x61; 0x5f; 0x31] false;
   mk_partition 0x7d0000 0x28000 1 0xaa tuya_label false].

Lemma tuya_table_ok : table_ok tuya_sector 5 /\ entries false tuya_sector 5 = tuya_partitions.
Proof.
  split; [|vm_compute; reflexivity]. unfold table_ok. split_and!; [lia| |vm_compute; reflexivity|vm_compute; reflexivity].
  intros j Hj. do 5 (destruct j as [|j]; [vm_compute; reflexivity|]). lia.
Qed.

Lemma tuya_sector_length : length tuya_sector = 4096%nat.
Proof. vm_compute. reflexivity. Qed.

(** A chip of 8 MB, erased. *)
Definition blank_chip : list Z := replicate (Z.to_nat 0x800000) 0xFF.

Lemma blank_chip_length : Z.of_nat (length blank_chip) = 0x800000.
Proof. unfold blank_chip. by rewrite length_replicate, Z2Nat.id. Qed.

(** ** A partition on the chip *)

Section Placed.
Variables running_address running_size : Z.
Variable chunk : nat.

(** The partition [p] is behind the table, on a sector boundary, on the chip, and
    apart from the running application. *)
Record placed (p : esp_partition_t) (c : list Z) : Prop := {
  pl_chunk : (0 < chunk)%nat;
  pl_table : CONFIG_PARTITION_TABLE_OFFSET + ESP_PARTITION_TABLE_MAX_LEN < p.(address);
  pl_sector : p.(address) mod sector_size = 0;
  pl_size : 0 <= p.(size);
  pl_chip : p.(address) + p.(size) <= Z.of_nat (length c) < 2 ^ 32;
  pl_app : 0 <= running_address /\ 0 <= running_size /\ running_address + running_size < 2 ^ 32;
  pl_apart : p.(address) + p.(size) <= running_address \/ running_address + running_size <= p.(address);
}.

(** The application does not start right behind the partition: there, even an
    access of no bytes is stopped. *)
Definition not_followed (p : esp_partition_t) : Prop := p.(address) + p.(size) <> running_address.

(** Writes that stay in the partition are never stopped by the protection. *)
Lemma placed_unprotected p c a n :
  placed p c -> 0 <= a -> 0 <= n -> a + n <= p.(size) -> 0 < n \/ a < p.(size) \/ not_followed p ->
  region_protected running_address running_size (p.(address) + a) n = false.
Proof.
  intros [_ Ht _ _ Hc Ha Hp] H0 Hn Han Hf. unfold not_followed in Hf. unfold region_protected, esp_partition_main_flash_region_safe.
  unfold CONFIG_PARTITION_TABLE_OFFSET, ESP_PARTITION_TABLE_MAX_LEN in *.
  rewrite !u32_small by lia.
  destruct (Z.leb_spec (p.(address) + a) (0x8000 + 0xC00)); [lia|].
  destruct (Z.leb_spec running_address (p.(address) + a)),
    (Z.ltb_spec (p.(address) + a) (running_address + running_size)),
    (Z.ltb_spec (p.(address) + a) running_address),
    (Z.ltb_spec running_address (p.(address) + a + n)); simpl; lia || done.
Qed.

Lemma placed_range p c a n :
  placed p c -> 0 <= a -> 0 <= n -> a + n <= p.(size) ->
  u32 (p.(address) + a) = p.(address) + a /\ u32 (a + n) = a + n /\ p.(address) + a + n < 2 ^ 32 /\
  (Z.of_nat (length c) <? p.(address) + a) || (Z.of_nat (length c) <? u32 (p.(address) + a + n)) = false /\
  (p.(size) <? a) = false /\ (p.(size) <? a + n) = false.
Proof.
  intros [_ Ht _ _ Hc _ _] H0 Hn Han.
  unfold CONFIG_PARTITION_TABLE_OFFSET, ESP_PARTITION_TABLE_MAX_LEN in *.
  rewrite !u32_small by lia. rewrite orb_false_iff, !Z.ltb_ge. lia.
Qed.

(** The three operations inside the partition. *)
Lemma part_read_inside p c a n :
  placed p c -> 0 <= a -> 0 < n -> a + n <= p.(size) ->
  esp_partition_read chunk c p a n = (ESP_OK, slice c (Z.to_nat (p.(address) + a)) (Z.to_nat n)).
Proof.
  intros L H0 Hn Han. destruct (placed_range p c a n L H0 ltac:(lia) Han) as (E1 & E2 & _ & E3 & E4 & E5).
  assert (Hz : (n =? 0) = false) by (apply Z.eqb_neq; lia).
  unfold esp_partition_read, esp_flash_read. rewrite E2, E4, E5, E1, E3, Hz.
  rewrite read_loop_whole; [done| |lia].
  pose proof (pl_chunk _ _ L). apply Nat.min_glb_lt; [by apply (Z2Nat.inj_lt 0)|lia].
Qed.

Lemma part_write_inside p c a bs :
  placed p c -> 0 <= a -> bs <> [] -> a + Z.of_nat (length bs) <= p.(size) ->
  esp_partition_write running_address running_size chunk c p a bs =
  Some (ESP_OK, program c (Z.to_nat (p.(address) + a)) bs).
Proof.
  intros L H0 Hne Han. assert (Hlen : (0 < length bs)%nat) by (destruct bs; [done|simpl; lia]).
  destruct (placed_range p c a (Z.of_nat (length bs)) L H0 ltac:(lia) Han) as (E1 & E2 & _ & E3 & E4 & E5).
  unfold esp_partition_write. rewrite E2, E4, E5, E1. unfold esp_flash_write.
  rewrite (placed_unprotected p c) by (done || lia || auto). rewrite E3.
  destruct (Z.eqb_spec (Z.of_nat (length bs)) 0); [lia|].
  pose proof (pl_chip _ _ L). pose proof (pl_table _ _ L). pose proof (pl_chunk _ _ L).
  unfold CONFIG_PARTITION_TABLE_OFFSET, ESP_PARTITION_TABLE_MAX_LEN in *.
  rewrite write_loop_whole; [done|done|lia|lia].
Qed.

Lemma part_write_fits p c a bs :
  placed p c -> a < p.(size) \/ not_followed p -> 0 <= a -> a + Z.of_nat (length bs) <= p.(size) ->
  esp_partition_write running_address running_size chunk c p a bs =
  Some (ESP_OK, program c (Z.to_nat (p.(address) + a)) bs).
Proof.
  intros L Hnf H0 Hin. destruct (decide (bs = [])) as [->|Hne]; [|by apply part_write_inside].
  change (Z.of_nat (length [])) with 0 in Hin.
  destruct (placed_range p c a 0 L H0 ltac:(lia) Hin) as (E1 & E2 & _ & E3 & E4 & E5).
  unfold esp_partition_write, esp_flash_write. change (Z.of_nat (length [])) with 0.
  rewrite E2, E4, E5, E1, E3, (placed_unprotected p c) by (done || lia || auto). by rewrite program_nil.
Qed.

Lemma part_erase_inside p c a n :
  placed p c -> 0 <= a -> 0 < n -> a + n <= p.(size) -> a mod sector_size = 0 -> n mod sector_size = 0 ->
  esp_partition_erase_range running_address running_size c p a n =
  Some (ESP_OK, erase c (Z.to_nat (p.(address) + a)) (Z.to_nat n)).
Proof.
  intros L H0 Hn Han Ha4 Hn4.
  destruct (placed_range p c a n L H0 ltac:(lia) Han) as (E1 & E2 & _ & E3 & E4 & E5).
  assert (Hpa : (p.(address) + a) mod sector_size = 0)
    by (rewrite Z.add_mod, (pl_sector _ _ L), Ha4 by done; done).
  unfold esp_partition_erase_range.
  rewrite E2, E4, E5, E1. change SPI_FLASH_SEC_SIZE with sector_size. rewrite Ha4, Hn4. simpl.
  unfold esp_flash_erase_region. rewrite (placed_unprotected p c) by (done || lia || auto).
  rewrite E3, Hpa, Hn4. simpl. destruct (Z.eqb_spec n 0); [lia|]. simpl.
  pose proof (pl_chip _ _ L). pose proof (pl_table _ _ L).
  unfold CONFIG_PARTITION_TABLE_OFFSET, ESP_PARTITION_TABLE_MAX_LEN in *.
  rewrite erase_loop_whole; [done|lia|lia|lia|done|done|lia].
Qed.

(** Outside of [p] nothing changes. *)
Definition same_outside (p : esp_partition_t) (c c' : list Z) : Prop :=
  length c' = length c /\
  forall i, ~ (p.(address) <= Z.of_nat i < p.(address) + p.(size)) -> c' !! i = c !! i.

Lemma same_outside_refl p c : same_outside p c c.
Proof. done. Qed.

Lemma same_outside_trans p c1 c2 c3 : same_outside p c1 c2 -> same_outside p c2 c3 -> same_outside p c1 c3.
Proof.
  intros [L1 H1] [L2 H2]. split; [congruence|]. intros i Hi. rewrite H2, H1 by done. done.
Qed.

Lemma program_outside p c a bs :
  placed p c -> 0 <= a -> a + Z.of_nat (length bs) <= p.(size) ->
  same_outside p c (program c (Z.to_nat (p.(address) + a)) bs).
Proof.
  intros L H0 Han. pose proof (pl_chip _ _ L). pose proof (pl_table _ _ L).
  unfold CONFIG_PARTITION_TABLE_OFFSET, ESP_PARTITION_TABLE_MAX_LEN in *.
  split; [apply program_length; lia|]. intros i Hi. rewrite program_lookup by lia.
  destruct (Nat.leb_spec (Z.to_nat (p.(address) + a)) i);
    destruct (Nat.ltb_spec i (Z.to_nat (p.(address) + a) + length bs)); simpl; lia || done.
Qed.

Lemma erase_outside p c a n :
  placed p c -> 0 <= a -> 0 <= n -> a + n <= p.(size) ->
  same_outside p c (erase c (Z.to_nat (p.(address) + a)) (Z.to_nat n)).
Proof.
  intros L H0 Hn Han. pose proof (pl_chip _ _ L). pose proof (pl_table _ _ L).
  unfold CONFIG_PARTITION_TABLE_OFFSET, ESP_PARTITION_TABLE_MAX_LEN in *.
  split; [apply erase_length; lia|]. intros i Hi. rewrite erase_lookup by lia.
  destruct (Nat.leb_spec (Z.to_nat (p.(address) + a)) i);
    destruct (Nat.ltb_spec i (Z.to_nat (p.(address) + a) + Z.to_nat n)); simpl; lia || done.
Qed.

(** A write or an erase, wherever it aims: it ends, inside the partition. *)
Lemma part_write_isolated p c a bs :
  placed p c -> not_followed p -> 0 <= a -> a + Z.of_nat (length bs) < 2 ^ 32 ->
  exists r c', esp_partition_write running_address running_size chunk c p a bs = Some (r, c') /\
    same_outside p c c'.
Proof.
  intros L Hnf H0 Hw. destruct (decide (a + Z.of_nat (length bs) <= p.(size))) as [Hin|Hout].
  - eexists _, _. split; [by apply part_write_fits; [|right|..]|by apply program_outside].
  - unfold esp_partition_write. rewrite u32_small by lia. destruct (_ <? a); [by eexists _, c|].
    destruct (Z.ltb_spec p.(size) (a + Z.of_nat (length bs))); [by eexists _, c|lia].
Qed.

Lemma part_erase_isolated p c a n :
  placed p c -> not_followed p -> 0 <= a -> 0 <= n -> a + n < 2 ^ 32 ->
  exists r c', esp_partition_erase_range running_address running_size c p a n = Some (r, c') /\
    same_outside p c c'.
Proof.
  intros L Hnf H0 Hn Hw.
  destruct (decide (a + n <= p.(size))) as [Hin|Hout];
    [destruct (decide (0 < n /\ a mod sector_size = 0 /\ n mod sector_size = 0)) as [(Hpos & Ha & Hm)|Hno]|].
  - eexists _, _. split; [by apply (part_erase_inside p)|by apply erase_outside].
  - destruct (placed_range p c a n L H0 Hn Hin) as (E1 & E2 & _ & E3 & E4 & E5).
    unfold esp_partition_erase_range, esp_flash_erase_region.
    rewrite E2, E4, E5, E1, E3, (placed_unprotected p c) by (done || lia || auto).
    change SPI_FLASH_SEC_SIZE with sector_size.
    repeat case_match; simpl; eexists _, _; (split; [reflexivity|]); try apply same_outside_refl.
    exfalso. apply Hno. rewrite negb_false_iff, Z.eqb_eq in *. rewrite Z.eqb_neq in *. lia.
  - unfold esp_partition_erase_range. rewrite u32_small by lia. destruct (_ <? a); [by eexists _, c|].
    destruct (Z.ltb_spec p.(size) (a + n)); [by eexists _, c|lia].
Qed.

(** The same without the condition on what follows: the access may also be stopped. *)
Lemma part_write_confined p c a bs :
  placed p c -> 0 <= a -> a + Z.of_nat (length bs) < 2 ^ 32 ->
  match esp_partition_write running_address running_size chunk c p a bs with
  | Some (_, c') => same_outside p c c'
  | None => True
  end.
Proof.
  intros L H0 Hw. destruct (decide (a + Z.of_nat (length bs) <= p.(size))) as [Hin|Hout].
  - destruct (decide (bs = [])) as [->|Hne].
    + unfold esp_partition_write, esp_flash_write. repeat case_match; simplify_eq/=; try done; apply same_outside_refl.
    + rewrite part_write_inside by done. by apply program_outside.
  - unfold esp_partition_write. rewrite u32_small by lia. destruct (_ <? a); [apply same_outside_refl|].
    destruct (Z.ltb_spec p.(size) (a + Z.of_nat (length bs))); [apply same_outside_refl|lia].
Qed.

Lemma part_erase_confined p c a n :
  placed p c -> 0 <= a -> 0 <= n -> a + n < 2 ^ 32 ->
  match esp_partition_erase_range running_address running_size c p a n with
  | Some (_, c') => same_outside p c c'
  | None => True
  end.
Proof.
  intros L H0 Hn Hw.
  destruct (decide (a + n <= p.(size) /\ 0 < n /\ a mod sector_size = 0 /\ n mod sector_size = 0)) as [(Hin & Hpos & Ha & Hm)|Hno].
  - rewrite (part_erase_inside p) by done. by apply erase_outside.
  - unfold esp_partition_erase_range, esp_flash_erase_region. rewrite (u32_small (a + n)) by lia.
    change SPI_FLASH_SEC_SIZE with sector_size. repeat case_match; simplify_eq/=; try done; try apply same_outside_refl.
    exfalso. apply Hno. rewrite ?negb_false_iff, ?Z.eqb_eq, ?Z.ltb_ge, ?Z.eqb_neq in *. lia.
Qed.

(** A call that succeeds stayed inside. *)
Lemma part_erase_ok p c a n c' :
  a + n < 2 ^ 32 -> 0 <= a -> 0 <= n ->
  esp_partition_erase_range running_address running_size c p a n = Some (ESP_OK, c') -> a + n <= p.(size).
Proof.
  intros Hw Ha Hn. unfold esp_partition_erase_range. rewrite u32_small by lia.
  destruct (p.(size) <? a); [done|]. destruct (Z.ltb_spec p.(size) (a + n)); [done|lia].
Qed.

Lemma part_write_ok p c a bs c' :
  a + Z.of_nat (length bs) < 2 ^ 32 -> 0 <= a ->
  esp_partition_write running_address running_size chunk c p a bs = Some (ESP_OK, c') ->
  a + Z.of_nat (length bs) <= p.(size).
Proof.
  intros Hw Ha. unfold esp_partition_write. rewrite u32_small by lia.
  destruct (p.(size) <? a); [done|]. destruct (Z.ltb_spec p.(size) (a + Z.of_nat (length bs))); [done|lia].
Qed.

Lemma placed_length p c c' : placed p c -> length c' = length c -> placed p c'.
Proof. intros [] Hlen. constructor; try done. by rewrite Hlen. Qed.
End Placed.

(** C21: the partition table is used whole or not at all.  [load_partitions]
    either succeeds with exactly the entries in front of the MD5 row, in order,
    the row holding the MD5 of their bytes; or it fails and keeps no partition.  It
    fails only if the table cannot be mapped, there is no memory for one of its
    items, or the sector does not hold such a table. *)
Theorem load_partitions_all_or_nothing (mmap_err : Z) (calloc_ok : nat -> bool) (encryption : bool) (garbage sector : list Z) :
  length garbage = 64%nat -> length sector = 4096%nat ->
  let '(err, parts) := load_partitions mmap_err calloc_ok encryption garbage sector in
  (err = ESP_OK /\ exists n, table_ok sector n /\ parts = entries encryption sector n) \/
  (err <> ESP_OK /\ parts = [] /\
   (mmap_err = ESP_OK -> forall n, (forall k, (k < n)%nat -> calloc_ok k = true) -> ~ table_ok sector n)).
Proof.
  intros Hg Hs. destruct (load_partitions mmap_err calloc_ok encryption garbage sector) as [err parts] eqn:Hload.
  destruct (decide (err = ESP_OK)) as [->|Hne]; [left|right]; (split; [done|]).
  - by eapply load_partitions_sound.
  - split.
    + unfold load_partitions in Hload. destruct (negb _); [by injection Hload as <- <-|].
      destruct (load_loop _ _ _ _ _ _) as [[[e ps] ctx] md5_part]. cbv zeta in Hload.
      destruct (_ =? ESP_OK); by injection Hload as <- <-.
    + intros -> n Hmem Hn. rewrite (load_partitions_complete _ encryption garbage sector n) in Hload by done. congruence.
Qed.

(** The firmware's table, with memory for only three items: it is not used. *)
Lemma load_partitions_all_or_nothing_witness :
  let '(err, parts) := load_partitions ESP_OK (fun k => (k <? 3)%nat) false (repeat 0 64) tuya_sector in
  (err = ESP_OK /\ exists n, table_ok tuya_sector n /\ parts = entries false tuya_sector n) \/
  (err <> ESP_OK /\ parts = [] /\
   (ESP_OK = ESP_OK -> forall n, (forall k, (k < n)%nat -> (k <? 3)%nat = true) -> ~ table_ok tuya_sector n)).
Proof.
  apply (load_partitions_all_or_nothing ESP_OK (fun k => (k <? 3)%nat) false (repeat 0 64) tuya_sector);
    [apply repeat_length|apply tuya_sector_length].
Defined.

Definition disjoint_parts (p q : esp_partition_t) : Prop :=
  p.(address) + p.(size) <= q.(address) \/ q.(address) + q.(size) <= p.(address).

(** The table the firmware carries is sound.  It has the declared length,
    passes the boot code's own check, has the "tuya" partition [tkl_flash.c]
    looks for, and its partitions lie behind the table, on sector boundaries,
    inside 8 MB, without overlap, with two application slots of one size. *)
Theorem tuya_table_sound (garbage : list Z) :
  length garbage = 64%nat ->
  length tuya_partition_table = TUYA_PARTITION_TABLE_LEN /\
  load_partitions ESP_OK (fun _ => true) false garbage tuya_sector = (ESP_OK, tuya_partitions) /\
  not_find_tuya_patition tuya_partitions = false /\
  Forall (fun p => 0x9000 <= p.(address) /\ p.(address) + p.(size) <= 0x800000 /\
                   p.(address) mod 0x1000 = 0 /\ p.(size) mod 0x1000 = 0) tuya_partitions /\
  (forall i j p q, i <> j -> tuya_partitions !! i = Some p -> tuya_partitions !! j = Some q ->
     disjoint_parts p q) /\
  map size (List.filter (fun p => p.(type) =? ESP_PARTITION_TYPE_APP) tuya_partitions) = [0x3d0000; 0x3d0000].
Proof.
  intros Hg. split_and!; [vm_compute; reflexivity| |reflexivity| | |reflexivity].
  - destruct tuya_table_ok as [Hok <-]. by apply load_partitions_complete; [|apply tuya_sector_length|..].
  - repeat constructor; discriminate.
  - intros i j p q Hij Hi Hj. unfold disjoint_parts, tuya_partitions in *.
    do 5 (destruct i as [|i]; [do 5 (destruct j as [|j]; [simplify_eq/=; lia|]); done|]). done.
Qed.

Lemma tuya_table_sound_witness :
  load_partitions ESP_OK (fun _ => true) false (repeat 0 64) tuya_sector = (ESP_OK, tuya_partitions).
Proof. apply (tuya_table_sound (repeat 0 64)). reflexivity. Defined.

(** Replacing the partition table never succeeds.  With the write
    protection of this configuration ([CONFIG_SPI_FLASH_DANGEROUS_WRITE_ABORTS])
    the erase of the table's sector aborts, wherever the application runs and
    whatever the flash holds, so a device without the "tuya" partition aborts in
    [ota_update_partition_table] with its flash unchanged. *)
Theorem ota_update_partition_table_aborts (parts : list esp_partition_t) (ra rs : Z) (chunk : nat) (c : list Z) :
  ota_update_partition_table parts ra rs chunk c =
  if not_find_tuya_patition parts then UpdateAborted else UpdateDone c.
Proof.
  unfold ota_update_partition_table, update_partition_table. destruct (not_find_tuya_patition parts); [|done].
  reflexivity.
Qed.
End Partition.
