(* ===== verification/EspOta.v ===== *)
(** * Writing and selecting images: [esp_ota_ops.c] and the selection entries of
      [bootloader_common_loader.c]

    The application side of an update: open handles, writing an image into the
    slot that is not running, and the two selection entries that say which slot
    boots.  Flash encryption, rollback and anti-rollback are off in this
    configuration ([sdkconfig]), so their branches are left out. *)
From stdpp Require Import base list.
From Stdlib Require Import ZArith Lia.
From S2P Require Import Prelude Oprt Flash Md5 Crc Partition.
Import Flash Partition.
Local Open Scope Z_scope.

Module EspOta.

Definition ESP_ERR_OTA_PARTITION_CONFLICT : Z := 0x1501.
Definition ESP_ERR_OTA_VALIDATE_FAILED : Z := 0x1503.
Definition OTA_SIZE_UNKNOWN : Z := 0xffffffff.
Definition OTA_WITH_SEQUENTIAL_WRITES : Z := 0xfffffffe.
Definition ESP_IMAGE_HEADER_MAGIC : Z := 0xE9.
Definition UINT32_MAX : Z := 0xFFFFFFFF.
Definition ESP_PARTITION_SUBTYPE_APP_FACTORY : Z := 0x00.
Definition ESP_PARTITION_SUBTYPE_APP_OTA_MIN : Z := 0x10.
Definition ESP_PARTITION_SUBTYPE_APP_OTA_MAX : Z := 0x20.
Definition ESP_PARTITION_SUBTYPE_APP_TEST : Z := 0x20.
Definition ESP_PARTITION_SUBTYPE_DATA_OTA : Z := 0x00.

#[export] Instance esp_partition_eq_dec : EqDecision esp_partition_t.
Proof. solve_decision. Defined.

(** ** The selection entries *)

Definition ESP_OTA_IMG_VALID : Z := 0x2.
Definition ESP_OTA_IMG_INVALID : Z := 0x3.
Definition ESP_OTA_IMG_ABORTED : Z := 0x4.
Definition ESP_OTA_IMG_UNDEFINED : Z := 0xFFFFFFFF.

Record esp_ota_select_entry_t := mk_entry {
  ota_seq : Z;
  seq_label : list Z;
  ota_state : Z;
  crc : Z;
}.

(** The 32 bytes of an entry. *)
Definition entry_of_bytes (b : list Z) : esp_ota_select_entry_t :=
  mk_entry (word b 0) (take 20 (drop 4 b)) (word b 24) (word b 28).

Definition bytes_of_entry (e : esp_ota_select_entry_t) : list Z :=
  Md5.bytes32 e.(ota_seq) ++ e.(seq_label) ++ Md5.bytes32 e.(ota_state) ++ Md5.bytes32 e.(crc).

Definition bootloader_common_ota_select_crc (s : esp_ota_select_entry_t) : Z :=
  Crc.esp_rom_crc32_le UINT32_MAX (Md5.bytes32 s.(ota_seq)).

Definition bootloader_common_ota_select_invalid (s : esp_ota_select_entry_t) : bool :=
  (s.(ota_seq) =? UINT32_MAX) || (s.(ota_state) =? ESP_OTA_IMG_INVALID) || (s.(ota_state) =? ESP_OTA_IMG_ABORTED).

Definition bootloader_common_ota_select_valid (s : esp_ota_select_entry_t) : bool :=
  negb (bootloader_common_ota_select_invalid s) && (s.(crc) =? bootloader_common_ota_select_crc s).

(** The two entries of the data partition, one in each sector. *)
Definition otadata_t : Type := esp_ota_select_entry_t * esp_ota_select_entry_t.

Definition nth_otadata (two : otadata_t) (i : Z) : esp_ota_select_entry_t :=
  if i =? 0 then two.1 else two.2.

Definition bootloader_common_select_otadata (two : otadata_t) (valid0 valid1 max : bool) : Z :=
  if valid0 && valid1 then
    let condition := if max then Z.max two.1.(ota_seq) two.2.(ota_seq) else Z.min two.1.(ota_seq) two.2.(ota_seq) in
    if condition =? two.1.(ota_seq) then 0 else 1
  else if valid0 then 0 else if valid1 then 1 else -1.

Definition bootloader_common_get_active_otadata (two : otadata_t) : Z :=
  bootloader_common_select_otadata two (bootloader_common_ota_select_valid two.1)
    (bootloader_common_ota_select_valid two.2) true.

(** ** The platform

    Access to partitions, the check of an image, and memory for a handle.
    [part_mmap] answers the bytes of the partition unless the mapping fails. *)
Inductive FlashE : Type -> Type :=
| part_erase (p : esp_partition_t) (offset size : Z) : FlashE Z
| part_write (p : esp_partition_t) (offset : Z) (bs : list Z) : FlashE Z
| part_mmap (p : esp_partition_t) : FlashE (option (list Z))
| image_verify (p : esp_partition_t) : FlashE bool
| calloc_entry : FlashE bool.

(** The loaded table, the flash address of the running code, and the driver's
    chunk length. *)
Record board := mk_board {
  parts : list esp_partition_t;
  phys_offs : Z;
  chunk : nat;
}.

Record ota_ops_entry_t := mk_ops {
  handle : Z;
  part : esp_partition_t;
  need_erase : bool;
  wrote_size : Z;
}.

(** [s_ota_ops_entries_head] and [s_ota_ops_last_handle]. *)
Record ops := mk_state {
  ops_entries : list ota_ops_entry_t;
  last_handle : Z;
}.

Definition no_ops : ops := mk_state [] 0.

Section Operations.
Variable d : board.

Definition find_first (ty sub : Z) : option esp_partition_t := esp_partition_find_first d.(parts) ty sub None.

Definition is_ota_partition (p : esp_partition_t) : bool :=
  (p.(type) =? ESP_PARTITION_TYPE_APP) && (ESP_PARTITION_SUBTYPE_APP_OTA_MIN <=? p.(subtype)) &&
  (p.(subtype) <? ESP_PARTITION_SUBTYPE_APP_OTA_MAX).

(** The entry of the table that [p] describes. *)
Definition esp_partition_verify (p : esp_partition_t) : option esp_partition_t :=
  let lab := match p.(label) with [] => None | l => Some l end in
  if (p.(type) =? ESP_PARTITION_TYPE_ANY) && negb (p.(subtype) =? ESP_PARTITION_SUBTYPE_ANY) then None
  else List.find (fun q => matches p.(type) p.(subtype) lab q && (q.(address) =? p.(address)) &&
                           (p.(size) =? q.(size)) && eqb p.(encrypted) q.(encrypted)) d.(parts).

(** [None] is the [abort] when no application partition holds the code. *)
Definition esp_ota_get_running_partition : option esp_partition_t :=
  List.find (fun p => matches ESP_PARTITION_TYPE_APP ESP_PARTITION_SUBTYPE_ANY None p &&
                      (p.(address) <=? d.(phys_offs)) && (d.(phys_offs) <? u32 (p.(address) + p.(size)))) d.(parts).

(** The loop over the subtypes from [t]; [found] is [default_ota]. *)
Fixpoint next_loop (n : nat) (t : Z) (start_from : esp_partition_t) (found : option esp_partition_t)
    (next_is_result : bool) : option esp_partition_t :=
  match n with
  | O => found
  | S n =>
      match find_first ESP_PARTITION_TYPE_APP t with
      | None => next_loop n (t + 1) start_from found next_is_result
      | Some p =>
          let found := match found with None => Some p | Some _ => found end in
          if bool_decide (p = start_from) then next_loop n (t + 1) start_from found true
          else if next_is_result then Some p
          else next_loop n (t + 1) start_from found next_is_result
      end
  end.

Definition esp_ota_get_next_update_partition (start_from : option esp_partition_t)
  : prog FlashE (option esp_partition_t) :=
  match match start_from with
        | None => esp_ota_get_running_partition
        | Some p => esp_partition_verify p
        end with
  | None => Halt Aborted
  | Some start_from => Ret (next_loop 16 ESP_PARTITION_SUBTYPE_APP_OTA_MIN start_from None false)
  end.

(** ** Handles *)

(** The error, [*out_handle] (0 where it is not written), and the open handles. *)
Definition esp_ota_begin (partition : option esp_partition_t) (image_size : Z) (o : ops)
  : prog FlashE (Z * Z * ops) :=
  match partition with
  | None => Ret (ESP_ERR_INVALID_ARG, 0, o)
  | Some partition =>
      match esp_partition_verify partition with
      | None => Ret (ESP_ERR_NOT_FOUND, 0, o)
      | Some partition =>
          if negb (is_ota_partition partition) then Ret (ESP_ERR_INVALID_ARG, 0, o)
          else match esp_ota_get_running_partition with
          | None => Halt Aborted
          | Some running_partition =>
              if bool_decide (partition = running_partition) then Ret (ESP_ERR_OTA_PARTITION_CONFLICT, 0, o)
              else
                do ret <-
                  (if image_size =? OTA_WITH_SEQUENTIAL_WRITES then Ret ESP_OK
                   else if (image_size =? 0) || (image_size =? OTA_SIZE_UNKNOWN)
                   then call (part_erase partition 0 partition.(size))
                   else call (part_erase partition 0
                                (Z.land (u32 (image_size + SPI_FLASH_SEC_SIZE - 1)) (u32 (Z.lnot (SPI_FLASH_SEC_SIZE - 1))))));
                if esp_failed ret then Ret (ret, 0, o)
                else
                  do new_entry <- call calloc_entry;
                  if negb new_entry then Ret (ESP_ERR_NO_MEM, 0, o)
                  else
                    let h := u32 (o.(last_handle) + 1) in
                    Ret (ESP_OK, h,
                         mk_state (mk_ops h partition (image_size =? OTA_WITH_SEQUENTIAL_WRITES) 0 :: o.(ops_entries)) h)
          end
      end
  end.

Definition get_ota_ops_entry (h : Z) (o : ops) : option ota_ops_entry_t :=
  List.find (fun it => it.(handle) =? h) o.(ops_entries).

(** [it->wrote_size] of the first entry with the handle. *)
Fixpoint set_wrote_size (h w : Z) (l : list ota_ops_entry_t) : list ota_ops_entry_t :=
  match l with
  | [] => []
  | it :: l =>
      if it.(handle) =? h then mk_ops it.(handle) it.(part) it.(need_erase) w :: l
      else it :: set_wrote_size h w l
  end.

(** [LIST_REMOVE]. *)
Fixpoint remove_entry (h : Z) (l : list ota_ops_entry_t) : list ota_ops_entry_t :=
  match l with
  | [] => []
  | it :: l => if it.(handle) =? h then l else it :: remove_entry h l
  end.

(** The erase in front of a write of [size] bytes for a handle that erases as it
    goes. *)
Definition erase_ahead (it : ota_ops_entry_t) (size : Z) : prog FlashE Z :=
  let first_sector := it.(wrote_size) / SPI_FLASH_SEC_SIZE in
  let last_sector := u32 (it.(wrote_size) + size) / SPI_FLASH_SEC_SIZE in
  if it.(wrote_size) mod SPI_FLASH_SEC_SIZE =? 0 then
    call (part_erase it.(part) it.(wrote_size) (u32 (u32 (u32 (last_sector - first_sector) + 1) * SPI_FLASH_SEC_SIZE)))
  else if negb (first_sector =? last_sector) then
    call (part_erase it.(part) (u32 (u32 (first_sector + 1) * SPI_FLASH_SEC_SIZE))
            (u32 (u32 (last_sector - first_sector) * SPI_FLASH_SEC_SIZE)))
  else Ret ESP_OK.

(** [data]: the [size] bytes at the pointer, [None] for NULL. *)
Definition esp_ota_write (h : Z) (data : option (list Z)) (o : ops) : prog FlashE (Z * ops) :=
  match data with
  | None => Ret (ESP_ERR_INVALID_ARG, o)
  | Some data_bytes =>
      match get_ota_ops_entry h o with
      | None => Ret (ESP_ERR_INVALID_ARG, o)
      | Some it =>
          let size := Z.of_nat (length data_bytes) in
          do ret <- (if it.(need_erase) then erase_ahead it size else Ret ESP_OK);
          if esp_failed ret then Ret (ret, o)
          else if (it.(wrote_size) =? 0) && (0 <? size) && negb (nth 0 data_bytes 0 =? ESP_IMAGE_HEADER_MAGIC)
          then Ret (ESP_ERR_OTA_VALIDATE_FAILED, o)
          else
            do ret <- call (part_write it.(part) it.(wrote_size) data_bytes);
            Ret (ret, if ret =? ESP_OK
                      then mk_state (set_wrote_size h (u32 (it.(wrote_size) + size)) o.(ops_entries)) o.(last_handle)
                      else o)
      end
  end.

Definition esp_ota_write_with_offset (h : Z) (data : option (list Z)) (offset : Z) (o : ops) : prog FlashE (Z * ops) :=
  match data with
  | None => Ret (ESP_ERR_INVALID_ARG, o)
  | Some data_bytes =>
      match get_ota_ops_entry h o with
      | None => Ret (ESP_ERR_INVALID_ARG, o)
      | Some it =>
          assert_ (negb it.(need_erase)) >>
          do ret <- call (part_write it.(part) offset data_bytes);
          Ret (ret, if ret =? ESP_OK
                    then mk_state (set_wrote_size h (u32 (it.(wrote_size) + Z.of_nat (length data_bytes))) o.(ops_entries))
                           o.(last_handle)
                    else o)
      end
  end.

Definition esp_ota_abort (h : Z) (o : ops) : Z * ops :=
  match get_ota_ops_entry h o with
  | None => (ESP_ERR_NOT_FOUND, o)
  | Some _ => (ESP_OK, mk_state (remove_entry h o.(ops_entries)) o.(last_handle))
  end.

Definition esp_ota_end (h : Z) (o : ops) : prog FlashE (Z * ops) :=
  match get_ota_ops_entry h o with
  | None => Ret (ESP_ERR_NOT_FOUND, o)
  | Some it =>
      let cleanup := mk_state (remove_entry h o.(ops_entries)) o.(last_handle) in
      if it.(wrote_size) =? 0 then Ret (ESP_ERR_INVALID_ARG, cleanup)
      else
        do ok <- call (image_verify it.(part));
        Ret (if ok : bool then ESP_OK else ESP_ERR_OTA_VALIDATE_FAILED, cleanup)
  end.

(** ** Selecting the boot partition *)

Definition read_otadata : prog FlashE (option (esp_partition_t * otadata_t)) :=
  match find_first ESP_PARTITION_TYPE_DATA ESP_PARTITION_SUBTYPE_DATA_OTA with
  | None => Ret None
  | Some otadata_partition =>
      do result <- call (part_mmap otadata_partition);
      match result with
      | None => Ret None
      | Some result =>
          Ret (Some (otadata_partition,
                     (entry_of_bytes (take 32 result),
                      entry_of_bytes (take 32 (drop (Z.to_nat SPI_FLASH_SEC_SIZE) result)))))
      end
  end.

Definition set_new_state_otadata : Z := ESP_OTA_IMG_UNDEFINED.

Definition rewrite_ota_seq (two : otadata_t) (seq sec_id : Z) (ota_data_partition : esp_partition_t) : prog FlashE Z :=
  if 1 <? sec_id then Ret ESP_ERR_INVALID_ARG
  else
    let e := nth_otadata two sec_id in
    let e := mk_entry seq e.(seq_label) e.(ota_state) e.(crc) in
    let e := mk_entry e.(ota_seq) e.(seq_label) e.(ota_state) (bootloader_common_ota_select_crc e) in
    do ret <- call (part_erase ota_data_partition (sec_id * SPI_FLASH_SEC_SIZE) SPI_FLASH_SEC_SIZE);
    if esp_failed ret then Ret ret
    else call (part_write ota_data_partition (SPI_FLASH_SEC_SIZE * sec_id) (bytes_of_entry e)).

(** [None] is the failed assertion at the seventeenth slot. *)
Fixpoint count_loop (fuel : nat) (ota_app_count : Z) : option Z :=
  match find_first ESP_PARTITION_TYPE_APP (ESP_PARTITION_SUBTYPE_APP_OTA_MIN + ota_app_count) with
  | None => Some (u8 ota_app_count)
  | Some _ =>
      match fuel with
      | O => None
      | S fuel => count_loop fuel (u16 (ota_app_count + 1))
      end
  end.

Definition esp_ota_get_app_partition_count : prog FlashE Z :=
  match count_loop 16 0 with
  | None => Halt Aborted
  | Some n => Ret n
  end.

Definition SUB_TYPE_ID (i : Z) : Z := Z.land i 0x0F.

(** The sequence number with index [i]. *)
Definition seq_at (sub ota_app_count i : Z) : Z :=
  u32 ((SUB_TYPE_ID sub + 1) mod ota_app_count + u32 (i * ota_app_count)).

(** The loop that looks for [i]. *)
Fixpoint seq_loop (fuel : nat) (seq sub ota_app_count i : Z) : option Z :=
  if seq_at sub ota_app_count i <? seq then
    match fuel with
    | O => None
    | S fuel => seq_loop fuel seq sub ota_app_count (u32 (i + 1))
    end
  else Some i.

Definition with_state (two : otadata_t) (i st : Z) : otadata_t :=
  let upd (e : esp_ota_select_entry_t) := mk_entry e.(ota_seq) e.(seq_label) st e.(crc) in
  if i =? 0 then (upd two.1, two.2) else (two.1, upd two.2).

Definition esp_rewrite_ota_data (sub : Z) : prog FlashE Z :=
  do r <- read_otadata;
  match r with
  | None => Ret ESP_ERR_NOT_FOUND
  | Some (otadata_partition, otadata) =>
      do ota_app_count <- esp_ota_get_app_partition_count;
      if ota_app_count <=? SUB_TYPE_ID sub then Ret ESP_ERR_INVALID_ARG
      else
        let active_otadata := bootloader_common_get_active_otadata otadata in
        if negb (active_otadata =? -1) then
          let seq := (nth_otadata otadata active_otadata).(ota_seq) in
          match seq_loop (Z.to_nat seq) seq sub ota_app_count 0 with
          | None => Halt Blocked
          | Some i =>
              let next_otadata := Z.land (Z.lnot active_otadata) 1 in
              rewrite_ota_seq (with_state otadata next_otadata set_new_state_otadata)
                (seq_at sub ota_app_count i) next_otadata otadata_partition
          end
        else
          rewrite_ota_seq (with_state otadata 0 set_new_state_otadata) (SUB_TYPE_ID sub + 1) 0 otadata_partition
  end.

Definition image_validate (partition : esp_partition_t) : prog FlashE Z :=
  do ok <- call (image_verify partition);
  Ret (if ok : bool then ESP_OK else ESP_ERR_OTA_VALIDATE_FAILED).

Definition esp_ota_set_boot_partition (partition : option esp_partition_t) : prog FlashE Z :=
  match partition with
  | None => Ret ESP_ERR_INVALID_ARG
  | Some partition =>
      do v <- image_validate partition;
      if esp_failed v then Ret ESP_ERR_OTA_VALIDATE_FAILED
      else if partition.(type) =? ESP_PARTITION_TYPE_APP then
        if partition.(subtype) =? ESP_PARTITION_SUBTYPE_APP_FACTORY then
          match find_first ESP_PARTITION_TYPE_DATA ESP_PARTITION_SUBTYPE_DATA_OTA with
          | Some find_partition => call (part_erase find_partition 0 find_partition.(size))
          | None => Ret ESP_ERR_NOT_FOUND
          end
        else esp_rewrite_ota_data partition.(subtype)
      else Ret ESP_ERR_INVALID_ARG
  end.

Fixpoint first_slot (n : nat) (s : Z) : option esp_partition_t :=
  match n with
  | O => None
  | S n =>
      match find_first ESP_PARTITION_TYPE_APP s with
      | Some result => Some result
      | None => first_slot n (s + 1)
      end
  end.

Definition find_default_boot_partition : option esp_partition_t :=
  match find_first ESP_PARTITION_TYPE_APP ESP_PARTITION_SUBTYPE_APP_FACTORY with
  | Some result => Some result
  | None =>
      match first_slot 16 ESP_PARTITION_SUBTYPE_APP_OTA_MIN with
      | Some result => Some result
      | None => find_first ESP_PARTITION_TYPE_APP ESP_PARTITION_SUBTYPE_APP_TEST
      end
  end.

Definition esp_ota_get_boot_partition : prog FlashE (option esp_partition_t) :=
  do r <- read_otadata;
  match r with
  | None => Ret None
  | Some (_, otadata) =>
      do ota_app_count <- esp_ota_get_app_partition_count;
      if (bootloader_common_ota_select_invalid otadata.1 && bootloader_common_ota_select_invalid otadata.2)
         || (ota_app_count =? 0)
      then Ret find_default_boot_partition
      else
        let active_otadata := bootloader_common_get_active_otadata otadata in
        if negb (active_otadata =? -1) then
          let ota_slot := u32 ((nth_otadata otadata active_otadata).(ota_seq) - 1) mod ota_app_count in
          Ret (find_first ESP_PARTITION_TYPE_APP (ESP_PARTITION_SUBTYPE_APP_OTA_MIN + ota_slot))
        else Ret find_default_boot_partition
  end.

(** ** The calls on a flash chip

    [image_ok c offset size]: the image loader accepts the partition.  The state
    is the chip and whether the coming calls for memory or for a mapping succeed
    (they do once the list is used up). *)
Section Handler.
Variable image_ok : list Z -> Z -> Z -> bool.

Definition machine : Type := list Z * list bool.

Definition granted (s : machine) : bool := match s.2 with [] => true | b :: _ => b end.

Definition on_flash (X : Type) (e : FlashE X) (s : machine) : option (X * machine) :=
  match esp_ota_get_running_partition with
  | None => None
  | Some running =>
      match e in FlashE Y return option (Y * machine) with
      | part_erase p offset size =>
          '(r, c) ← esp_partition_erase_range running.(address) running.(Partition.size) s.1 p offset size;
          Some (r, (c, s.2))
      | part_write p offset bs =>
          '(r, c) ← esp_partition_write running.(address) running.(Partition.size) d.(chunk) s.1 p offset bs;
          Some (r, (c, s.2))
      | part_mmap p =>
          Some (if granted s then Some (slice s.1 (Z.to_nat p.(address)) (Z.to_nat p.(Partition.size))) else None,
                (s.1, tail s.2))
      | image_verify p => Some (image_ok s.1 p.(address) p.(Partition.size), s)
      | calloc_entry => Some (granted s, (s.1, tail s.2))
      end
  end.

(** Power lost during a call.  A write programs its bytes in order, so any number
    of them may have been programmed; the erase of a sector is taken to be
    complete or not begun, sectors being erased in order. *)
Definition torn_flash (X : Type) (e : FlashE X) (s s' : machine) : Prop :=
  match e with
  | part_erase p offset size => exists n,
      fst <$> on_flash _ (part_erase p offset size) s = Some ESP_OK /\ 0 <= n <= size /\ n mod SPI_FLASH_SEC_SIZE = 0 /\
      s' = (erase s.1 (Z.to_nat (p.(address) + offset)) (Z.to_nat n), s.2)
  | part_write p offset bs => exists n,
      fst <$> on_flash _ (part_write p offset bs) s = Some ESP_OK /\
      s' = (program s.1 (Z.to_nat (p.(address) + offset)) (take n bs), s.2)
  | _ => s' = s
  end.
End Handler.
End Operations.

(** ** Entries on flash *)

Lemma bytes32_bytes w : Forall Crc.is_byte (Md5.bytes32 w).
Proof.
  assert (H : forall x, Crc.is_byte (Z.land x 255)).
  { intros x. change 255 with (Z.ones 8). rewrite Z.land_ones by lia. apply (Z.mod_pos_bound x 256). lia. }
  repeat constructor; apply H.
Qed.

Lemma le32_bytes32 w : 0 <= w < 2 ^ 32 -> Md5.le32 (Md5.bytes32 w) = w.
Proof.
  intros Hw. unfold Md5.bytes32, Md5.le32. change 255 with (Z.ones 8).
  rewrite !Z.land_ones, !Z.shiftr_div_pow2 by lia. change (2 ^ 8) with 256.
  replace (w / 2 ^ 16) with (w / 256 / 256) by (rewrite Z.div_div by lia; done).
  replace (w / 2 ^ 24) with (w / 256 / 256 / 256) by (rewrite !Z.div_div by lia; done).
  assert (Hs : w / 256 / 256 / 256 < 256) by (rewrite !Z.div_div by lia; apply Z.div_lt_upper_bound; lia).
  pose proof (Z.div_mod w 256 ltac:(lia)). pose proof (Z.div_mod (w / 256) 256 ltac:(lia)).
  pose proof (Z.div_mod (w / 256 / 256) 256 ltac:(lia)).
  rewrite (Z.mod_small (w / 256 / 256 / 256)) by (split; [repeat apply Z.div_pos; lia|done]). lia.
Qed.

Lemma bytes32_le32 b0 b1 b2 b3 :
  Forall Crc.is_byte [b0; b1; b2; b3] -> Md5.bytes32 (Md5.le32 [b0; b1; b2; b3]) = [b0; b1; b2; b3].
Proof.
  rewrite !Forall_cons. unfold Crc.is_byte, Md5.bytes32, Md5.le32. intros (H0 & H1 & H2 & H3 & _).
  change 255 with (Z.ones 8). rewrite !Z.land_ones, !Z.shiftr_div_pow2 by lia.
  change (2 ^ 8) with 256. change (2 ^ 16) with 65536. change (2 ^ 24) with 16777216.
  repeat f_equal; Z.to_euclidean_division_equations; lia.
Qed.

(** An entry that is being written over erased flash. *)
Definition partial (j : nat) (bs : list Z) : esp_ota_select_entry_t :=
  entry_of_bytes (map (Z.land 0xFF) (take j bs) ++ replicate (32 - length (take j bs)) 0xFF).

Lemma slice_programmed (c : list Z) (a n m : nat) (bs : list Z) :
  (a + n <= length c)%nat -> (length bs <= m <= n)%nat ->
  slice (program (erase c a n) a bs) a m = map (Z.land 0xFF) bs ++ replicate (m - length bs) 0xFF.
Proof.
  intros Hn Hm. pose proof (erase_length c a n Hn) as Hl. apply list_eq. intros i. unfold slice.
  destruct (decide (i < m)%nat) as [Hi|Hi].
  - rewrite lookup_take_lt, lookup_drop, program_lookup, erase_lookup by lia.
    rewrite (proj2 (Nat.leb_le a (a + i))), (proj2 (Nat.ltb_lt (a + i) (a + n))) by lia. cbn [andb].
    destruct (Nat.ltb_spec (a + i) (a + length bs)).
    + rewrite lookup_app_l by (rewrite length_map; lia). rewrite list_lookup_fmap.
      replace (a + i - a)%nat with i by lia. destruct (bs !! i); done.
    + rewrite lookup_app_r by (rewrite length_map; lia). rewrite length_map.
      symmetry. apply lookup_replicate_2. lia.
  - rewrite lookup_take_ge by lia. symmetry. apply lookup_ge_None_2.
    rewrite length_app, length_map, length_replicate. lia.
Qed.

Lemma land_bytes bs : Forall Crc.is_byte bs -> map (Z.land 0xFF) bs = bs.
Proof.
  induction 1 as [|b bs Hb _ IH]; [done|]. simpl. rewrite IH. f_equal. unfold Crc.is_byte in Hb.
  change 0xFF with (Z.ones 8). rewrite Z.land_comm, Z.land_ones by lia. apply Z.mod_small. lia.
Qed.

(** The words of an entry from its parts. *)
Lemma entry_of_parts w l st cr :
  length l = 20%nat -> 0 <= w < 2 ^ 32 -> 0 <= st < 2 ^ 32 -> 0 <= cr < 2 ^ 32 ->
  entry_of_bytes (bytes_of_entry (mk_entry w l st cr)) = mk_entry w l st cr.
Proof.
  intros Hl Hw Hst Hcr. unfold entry_of_bytes, bytes_of_entry, word. cbn [ota_seq seq_label ota_state EspOta.crc].
  assert (E0 : forall x : list Z, take 4 (drop 0 (Md5.bytes32 w ++ x)) = Md5.bytes32 w) by done.
  assert (E1 : forall x : list Z, take 20 (drop 4 (Md5.bytes32 w ++ l ++ x)) = l).
  { intros x. change (drop 4 (Md5.bytes32 w ++ l ++ x)) with (l ++ x). by rewrite take_app_length'. }
  assert (E2 : forall x : list Z, drop 24 (Md5.bytes32 w ++ l ++ x) = x).
  { intros x. rewrite app_assoc. apply drop_app_length'. rewrite length_app, Hl. done. }
  assert (E3 : forall x : list Z, drop 28 (Md5.bytes32 w ++ l ++ x) = drop 4 x).
  { intros x. change 28%nat with (24 + 4)%nat. by rewrite <- drop_drop, E2. }
  rewrite E0, E1, E2, E3.
  change (take 4 (Md5.bytes32 st ++ Md5.bytes32 cr)) with (Md5.bytes32 st).
  change (take 4 (drop 4 (Md5.bytes32 st ++ Md5.bytes32 cr))) with (Md5.bytes32 cr).
  by rewrite !le32_bytes32.
Qed.

Definition mask_label (e : esp_ota_select_entry_t) : esp_ota_select_entry_t :=
  mk_entry e.(ota_seq) (map (Z.land 0xFF) e.(seq_label)) e.(ota_state) e.(EspOta.crc).

Lemma land_entry e : map (Z.land 0xFF) (bytes_of_entry e) = bytes_of_entry (mask_label e).
Proof.
  unfold bytes_of_entry, mask_label. cbn [ota_seq seq_label ota_state EspOta.crc].
  by rewrite !map_app, !(land_bytes _ (bytes32_bytes _)).
Qed.

(** The entry [esp_rewrite_ota_data] writes. *)
Definition new_entry (v : Z) (l : list Z) : esp_ota_select_entry_t :=
  mk_entry v l ESP_OTA_IMG_UNDEFINED (Crc.esp_rom_crc32_le UINT32_MAX (Md5.bytes32 v)).

Lemma bytes_of_entry_length e : length e.(seq_label) = 20%nat -> length (bytes_of_entry e) = 32%nat.
Proof. intros Hl. unfold bytes_of_entry. rewrite !length_app, Hl. done. Qed.

Lemma partial_whole v l :
  length l = 20%nat -> 0 <= v < 2 ^ 32 ->
  partial 32 (bytes_of_entry (new_entry v l)) = new_entry v (map (Z.land 0xFF) l).
Proof.
  intros Hl Hv. unfold partial. pose proof (bytes_of_entry_length (new_entry v l) Hl) as Hlen.
  rewrite take_ge, Hlen by lia. rewrite app_nil_r, land_entry.
  unfold mask_label, new_entry. cbn [ota_seq seq_label ota_state EspOta.crc].
  assert (Hc : 0 <= Crc.esp_rom_crc32_le UINT32_MAX (Md5.bytes32 v) < 2 ^ 32)
    by (apply Crc.crc_range; [done|apply bytes32_bytes]).
  revert Hc. generalize (Crc.esp_rom_crc32_le UINT32_MAX (Md5.bytes32 v)). intros cr Hcr.
  apply entry_of_parts; [by rewrite length_map|done|done|done].
Qed.

(** Once four bytes are there, so is the sequence number. *)
Lemma partial_seq v l j :
  length l = 20%nat -> 0 <= v < 2 ^ 32 -> (4 <= j)%nat ->
  (partial j (bytes_of_entry (new_entry v l))).(ota_seq) = v.
Proof.
  intros Hl Hv Hj. unfold partial, entry_of_bytes, word. cbn [ota_seq].
  do 4 (destruct j as [|j]; [lia|]). unfold bytes_of_entry, new_entry. cbn [ota_seq].
  unfold Md5.bytes32 at 1 4. cbn [app take map drop].
  transitivity (Md5.le32 (map (Z.land 0xFF) (Md5.bytes32 v))); [done|].
  by rewrite (land_bytes _ (bytes32_bytes _)), le32_bytes32.
Qed.

(** Before, the checksum is still erased, and no such entry passes. *)
Lemma partial_invalid v l j :
  length l = 20%nat -> (j < 4)%nat ->
  bootloader_common_ota_select_valid (partial j (bytes_of_entry (new_entry v l))) = false.
Proof.
  intros Hl Hj. set (e := partial j _).
  assert (He : exists b0 b1 b2, Forall Crc.is_byte [b0; b1; b2; 0xFF] /\ e.(ota_seq) = Md5.le32 [b0; b1; b2; 0xFF] /\
             e.(EspOta.crc) = 0xFFFFFFFF).
  { assert (Hb : Forall Crc.is_byte (map (Z.land 0xFF) (Md5.bytes32 v)))
      by (rewrite land_bytes; apply bytes32_bytes).
    pose proof (bytes_of_entry_length (new_entry v l) Hl) as Hlen. unfold bytes_of_entry in Hlen.
    unfold Md5.bytes32 in Hb. cbn [map] in Hb. rewrite !Forall_cons in Hb. destruct Hb as (H0 & H1 & H2 & _).
    assert (Hf : Crc.is_byte 0xFF) by (unfold Crc.is_byte; lia).
    destruct j as [|[|[|[|j]]]]; [| | | |lia]; eexists _, _, _; (split; [|split; reflexivity]);
      repeat apply Forall_cons_2; first [eassumption|apply Forall_nil_2]. }
  destruct He as (b0 & b1 & b2 & Hb & Hs & Hc). unfold bootloader_common_ota_select_valid, bootloader_common_ota_select_crc.
  apply andb_false_iff. right. apply Z.eqb_neq. rewrite Hc, Hs, bytes32_le32 by done. intros Heq.
  symmetry in Heq. apply Crc.crc_all_ones in Heq; [|done]. lia.
Qed.

(** ** The selected sequence number *)

Definition selected (two : otadata_t) : option Z :=
  let a := bootloader_common_get_active_otadata two in
  if a =? -1 then None else Some (nth_otadata two a).(ota_seq).

Definition replace_otadata (two : otadata_t) (i : Z) (e : esp_ota_select_entry_t) : otadata_t :=
  if i =? 0 then (e, two.2) else (two.1, e).

(** The active entry is valid, and it is one of the two. *)
Lemma active_cases two :
  let a := bootloader_common_get_active_otadata two in
  a = -1 \/
  (a = 0 /\ bootloader_common_ota_select_valid two.1 = true) \/
  (a = 1 /\ bootloader_common_ota_select_valid two.2 = true).
Proof.
  unfold bootloader_common_get_active_otadata, bootloader_common_select_otadata.
  destruct (bootloader_common_ota_select_valid two.1), (bootloader_common_ota_select_valid two.2); simpl; auto.
  destruct (_ =? _); auto.
Qed.

(** Writing the entry that is not active changes the selection to the new number
    if the entry is valid, and not at all otherwise. *)
Lemma selected_replace two e s v :
  selected two = Some s -> s <= v ->
  (bootloader_common_ota_select_valid e = true -> e.(ota_seq) = v) ->
  selected (replace_otadata two (Z.land (Z.lnot (bootloader_common_get_active_otadata two)) 1) e) =
  Some (if bootloader_common_ota_select_valid e then v else s).
Proof.
  intros Hs Hv He. unfold selected in Hs. destruct (active_cases two) as [Ha|[[Ha H0]|[Ha H1]]]; rewrite Ha in *.
  - done.
  - injection Hs as Hs. change (nth_otadata two 0) with two.1 in Hs.
    change (replace_otadata two (Z.land (Z.lnot 0) 1) e) with (two.1, e).
    unfold selected, bootloader_common_get_active_otadata, bootloader_common_select_otadata.
    cbn [fst snd]. rewrite H0. destruct (bootloader_common_ota_select_valid e); simpl.
    + specialize (He eq_refl). rewrite Hs, He, Z.max_r by lia.
      unfold nth_otadata. destruct (Z.eqb_spec v s) as [->|]; simpl; by rewrite ?Hs, ?He.
    + unfold nth_otadata. simpl. by rewrite Hs.
  - injection Hs as Hs. change (nth_otadata two 1) with two.2 in Hs.
    change (replace_otadata two (Z.land (Z.lnot 1) 1) e) with (e, two.2).
    unfold selected, bootloader_common_get_active_otadata, bootloader_common_select_otadata.
    cbn [fst snd]. rewrite H1. destruct (bootloader_common_ota_select_valid e); simpl.
    + specialize (He eq_refl). rewrite Hs, He, Z.max_l, Z.eqb_refl by lia. unfold nth_otadata. simpl. by rewrite He.
    + unfold nth_otadata. simpl. by rewrite Hs.
Qed.

(** The search ends with the next number for the slot. *)
Lemma seq_at_small sub n i :
  1 <= n -> 0 <= i -> n + i * n < 2 ^ 32 -> seq_at sub n i = (SUB_TYPE_ID sub + 1) mod n + i * n.
Proof.
  intros Hn Hi Hb. unfold seq_at. pose proof (Z.mod_pos_bound (SUB_TYPE_ID sub + 1) n ltac:(lia)).
  rewrite (u32_small (i * n)) by nia. apply u32_small. nia.
Qed.

Lemma seq_loop_finds sub n s :
  1 <= n -> 1 <= s -> s + 2 * n < 2 ^ 32 ->
  forall fuel i, 0 <= i -> i * n < s + n -> s - i <= Z.of_nat fuel ->
  (i = 0 \/ (SUB_TYPE_ID sub + 1) mod n + (i - 1) * n < s) ->
  exists j, seq_loop fuel s sub n i = Some j /\ 0 <= j /\
    seq_at sub n j = (SUB_TYPE_ID sub + 1) mod n + j * n /\ s <= seq_at sub n j < s + n.
Proof.
  intros Hn Hs Hb. pose proof (Z.mod_pos_bound (SUB_TYPE_ID sub + 1) n ltac:(lia)) as Hm.
  induction fuel as [|fuel IH]; intros i Hi Hin Hf Hp.
  all: cbn [seq_loop]; pose proof (seq_at_small sub n i ltac:(lia) Hi ltac:(nia)) as E; rewrite E.
  all: destruct (Z.ltb_spec ((SUB_TYPE_ID sub + 1) mod n + i * n) s) as [Hlt|Hge];
    [|exists i; rewrite E; split_and!; [done|done|done|lia|destruct Hp as [->|]; nia]].
  - nia.
  - rewrite u32_small by nia. apply IH; [lia|nia|lia|right]. by replace (i + 1 - 1) with i by lia.
Qed.

Lemma slot_of_seq k n j : 0 <= k < n -> (((k + 1) mod n + j * n) - 1) mod n = k.
Proof.
  intros Hk. replace ((k + 1) mod n + j * n - 1) with ((k + 1) mod n - 1 + j * n) by lia.
  rewrite Z.mod_add by lia. destruct (decide (k + 1 = n)) as [<-|].
  - rewrite Z.mod_same by lia. rewrite <- (Z.mod_unique (0 - 1) (k + 1) (-1) k); lia.
  - rewrite (Z.mod_small (k + 1)) by lia. replace (k + 1 - 1) with k by lia. apply Z.mod_small. lia.
Qed.

(** ** Cells hold bytes *)

Lemma land_byte b x : Crc.is_byte b -> Crc.is_byte (Z.land b x).
Proof.
  intros Hb. unfold Crc.is_byte in *. replace (Z.land b x) with (Z.land b x mod 256); [apply Z.mod_pos_bound; lia|].
  change 256 with (2 ^ 8). rewrite <- Z.land_ones, <- Z.land_assoc, (Z.land_comm x), Z.land_assoc, Z.land_ones by lia.
  rewrite Z.mod_small by lia. done.
Qed.

Lemma store_bytes (c : list Z) (a : nat) (l : list Z) :
  Forall Crc.is_byte c -> Forall Crc.is_byte l -> Forall Crc.is_byte (store_at c a l).
Proof. intros Hc Hl. unfold store_at. rewrite !Forall_app. split_and!; [by apply Forall_take|done|by apply Forall_drop]. Qed.

Lemma program_bytes (c : list Z) (a : nat) (bs : list Z) : Forall Crc.is_byte c -> Forall Crc.is_byte (program c a bs).
Proof.
  intros Hc. apply store_bytes; [done|]. unfold slice. generalize (length bs) as n. intros n.
  assert (Hs : Forall Crc.is_byte (take n (drop a c))) by (by apply Forall_take, Forall_drop).
  revert bs. induction Hs as [|b l Hb _ IH]; intros [|x bs]; try constructor; [by apply land_byte|apply IH].
Qed.

Lemma erase_bytes (c : list Z) (a n : nat) : Forall Crc.is_byte c -> Forall Crc.is_byte (erase c a n).
Proof. intros Hc. apply store_bytes; [done|]. by apply Forall_replicate. Qed.

Lemma write_loop_bytes fuel : forall c a bs chunk, Forall Crc.is_byte c -> Forall Crc.is_byte (write_loop fuel c a bs chunk).
Proof.
  induction fuel as [|fuel IH]; intros c a bs chunk Hc; [done|]. cbn [write_loop].
  destruct (_ =? 0)%nat; [|apply IH]; by apply program_bytes.
Qed.

Lemma erase_loop_bytes fuel : forall c a n, Forall Crc.is_byte c -> Forall Crc.is_byte (erase_loop fuel c a n).
Proof.
  induction fuel as [|fuel IH]; intros c a n Hc; [done|]. cbn [erase_loop].
  destruct (_ =? 0); [|apply IH]; by apply erase_bytes.
Qed.

Lemma on_flash_bytes d ok X (e : FlashE X) s x s' :
  on_flash d ok X e s = Some (x, s') -> Forall Crc.is_byte s.1 -> Forall Crc.is_byte s'.1.
Proof.
  unfold on_flash. destruct (esp_ota_get_running_partition d) as [run|]; [|done]. destruct e; intros H Hs.
  - unfold esp_partition_erase_range, esp_flash_erase_region in H. repeat case_match; simplify_eq/=; try done.
    by apply erase_loop_bytes.
  - unfold esp_partition_write, esp_flash_write in H. repeat case_match; simplify_eq/=; try done.
    by apply write_loop_bytes.
  - by simplify_eq.
  - by simplify_eq.
  - by simplify_eq.
Qed.

Lemma torn_flash_bytes d ok X (e : FlashE X) s s' :
  torn_flash d ok X e s s' -> Forall Crc.is_byte s.1 -> Forall Crc.is_byte s'.1.
Proof.
  destruct e; simpl; intros H Hs; [..|by subst|by subst|by subst].
  - destruct H as (n & _ & _ & _ & ->). by apply erase_bytes.
  - destruct H as (n & _ & ->). by apply program_bytes.
Qed.
End EspOta.
