(* ===== verification/Image.v ===== *)
(** * Checking and loading an application image: [esp_image_format.c]

    What [esp_image_verify] checks in the application, and what
    [bootloader_load_image] checks and loads in the bootloader: the header, the
    segments, the checksum and the appended SHA-256 digest.  The configuration has
    no secure boot and always validates.  [silent] only selects log messages and is
    left out. *)
From stdpp Require Import base list gmap.
From Stdlib Require Import ZArith Lia.
From S2P Require Import Prelude Oprt Flash Md5 Crc Partition EspOta.
Import Flash Partition.
Local Open Scope Z_scope.

Module Image.

Definition ESP_FAIL : Z := -1.
Definition ESP_ERR_IMAGE_INVALID : Z := 0x2002.
Definition HASH_LEN : Z := 32.
Definition SIXTEEN_MB : Z := 0x1000000.
Definition ESP_ROM_CHECKSUM_INITIAL : Z := 0xEF.
Definition STACK_LOAD_HEADROOM : Z := 32768.
Definition ESP_IMAGE_HEADER_MAGIC : Z := 0xE9.
Definition ESP_IMAGE_MAX_SEGMENTS : Z := 16.
Definition ESP_BOOTLOADER_OFFSET : Z := 0.
Definition CONFIG_IDF_FIRMWARE_CHIP_ID : Z := 9.
Definition SPI_FLASH_MMU_PAGE_SIZE : Z := 0x10000.
Definition MMAP_ALIGNED_MASK : Z := 0xFFFF.
Definition MMU_SIZE : Z := 0x3f0000.
Definition MMU_FREE_PAGES : Z := MMU_SIZE / 0x10000.
Definition SHA_CHUNK : Z := 1024.

(** Address ranges of the ESP32-S3. *)
Definition SOC_DROM_LOW : Z := 0x3C000000.
Definition SOC_DROM_HIGH : Z := 0x3D000000.
Definition SOC_IROM_LOW : Z := 0x42000000.
Definition SOC_IROM_HIGH : Z := 0x44000000.
Definition SOC_IRAM_LOW : Z := 0x40370000.
Definition SOC_IRAM_HIGH : Z := 0x403E0000.
Definition SOC_DRAM_LOW : Z := 0x3FC88000.
Definition SOC_DRAM_HIGH : Z := 0x3FD00000.
Definition SOC_RTC_IRAM_LOW : Z := 0x600FE000.
Definition SOC_RTC_IRAM_HIGH : Z := 0x60100000.
Definition SOC_RTC_DRAM_LOW : Z := 0x600FE000.
Definition SOC_RTC_DRAM_HIGH : Z := 0x60100000.
Definition SOC_RTC_DATA_LOW : Z := 0x50000000.
Definition SOC_RTC_DATA_HIGH : Z := 0x50002000.
Definition SOC_DIRAM_IRAM_LOW : Z := 0x40378000.
Definition SOC_DIRAM_IRAM_HIGH : Z := 0x403E0000.
Definition SOC_DIRAM_DRAM_LOW : Z := 0x3FC88000.
Definition SOC_DIRAM_DRAM_HIGH : Z := 0x3FCF0000.
Definition SOC_ROM_STACK_START : Z := 0x3fcebf10.

(** ** The image on flash *)

Record esp_image_header_t := mk_header {
  magic : Z;
  segment_count : Z;
  spi_mode : Z;
  spi_speed : Z;
  spi_size : Z;
  entry_addr : Z;
  wp_pin : Z;
  spi_pin_drv : list Z;
  chip_id : Z;
  min_chip_rev : Z;
  reserved : list Z;
  hash_appended : Z;
}.

(** The 24 bytes of the packed structure. *)
Definition header_of_bytes (b : list Z) : esp_image_header_t :=
  mk_header (byte b 0) (byte b 1) (byte b 2) (byte b 3 mod 16) (byte b 3 / 16) (word b 4) (byte b 8)
    (slice b 9 3) (byte b 12 + byte b 13 * 256) (byte b 14) (slice b 15 8) (byte b 23).

Record esp_image_segment_header_t := mk_segment { load_addr : Z; data_len : Z }.

(** [segments] and [segment_data] hold the entries filled in so far. *)
Record esp_image_metadata_t := mk_metadata {
  start_addr : Z;
  image : esp_image_header_t;
  segments : list esp_image_segment_header_t;
  segment_data : list Z;
  image_len : Z;
  image_digest : list Z;
}.

Inductive esp_image_load_mode_t :=
| ESP_IMAGE_VERIFY
| ESP_IMAGE_VERIFY_SILENT
| ESP_IMAGE_LOAD
| ESP_IMAGE_LOAD_NO_VALIDATE.

(** A call returns a value or an error code, fails an assertion, writes behind
    the end of [segments], or does not end. *)
Inductive res (A : Type) :=
| Good (a : A)
| Err (e : Z)
| Assertion
| Overrun
| Endless.
Arguments Good {A} a.
Arguments Err {A} e.
Arguments Assertion {A}.
Arguments Overrun {A}.
Arguments Endless {A}.

Definition rbind {A B} (r : res A) (f : A -> res B) : res B :=
  match r with
  | Good a => f a
  | Err e => Err e
  | Assertion => Assertion
  | Overrun => Overrun
  | Endless => Endless
  end.

Declare Scope res_scope.
Delimit Scope res_scope with res.
Notation "'let!' x := r 'in' k" := (rbind r (fun x => k))
  (at level 10, x pattern, r at level 100, k at level 200) : res_scope.
Local Open Scope res_scope.

(** ** Flash access

    [bootloader_flash_read], [bootloader_mmap] (the bytes visible at the returned
    pointer) and [bootloader_mmap_get_free_pages], which may change between two
    segments.  Every mapping is undone before the next one. *)
Record reader := mk_reader {
  flash_read : Z -> Z -> res (list Z);
  flash_mmap : Z -> Z -> option (list Z);
  free_pages : nat -> Z;
}.

(** The two builds of [bootloader_flash.c].  The application goes through
    [spi_flash_read] and [spi_flash_mmap]; [room n] says whether the MMU has [n]
    pages in a row and the heap memory for the bookkeeping. *)
Section Readers.
Variable c : list Z.

Definition chip_size : Z := Z.of_nat (length c).

Section App.
Variable chunk : nat.
Variable room : Z -> bool.
Variable pages : nat -> Z.

Definition spi_flash_mmap (src_addr size : Z) : option (list Z) :=
  if negb (Z.land src_addr 0xffff =? 0) then None
  else if chip_size <? u32 (src_addr + size) then None
  else
    let page_count := u32 (size + SPI_FLASH_MMU_PAGE_SIZE - 1) / SPI_FLASH_MMU_PAGE_SIZE in
    if page_count =? 0 then None
    else if negb (forallb (fun i => (src_addr / SPI_FLASH_MMU_PAGE_SIZE + i) * SPI_FLASH_MMU_PAGE_SIZE <? chip_size)
                    (seqZ 0 page_count)) then None
    else if room page_count then Some (slice c (Z.to_nat src_addr) (Z.to_nat size))
    else None.

Definition app_mmap (src_addr size : Z) : option (list Z) :=
  let src_page := Z.land src_addr (u32 (Z.lnot (SPI_FLASH_MMU_PAGE_SIZE - 1))) in
  let size := u32 (size + (src_addr - src_page)) in
  drop (Z.to_nat (src_addr - src_page)) <$> spi_flash_mmap src_page size.

Definition app_read (src size : Z) : res (list Z) :=
  let '(err, bs) := esp_flash_read chunk c src size in
  if err =? ESP_OK then Good bs else Err err.

Definition app_reader : reader := mk_reader app_read app_mmap pages.
End App.

(** The bootloader reads through the cache.  What it sees at addresses behind the
    chip, [behind], is up to the hardware; [mapped a n] says whether the ROM accepts
    the mapping of [n] pages from [a]. *)
Section Boot.
Variable behind : Z -> Z.
Variable mapped : Z -> Z -> bool.

Definition visible (a n : Z) : list Z :=
  map (fun k => let i := u32 (a + Z.of_nat k) in
                if i <? chip_size then nth (Z.to_nat i) c 0 else u8 (behind i)) (seq 0 (Z.to_nat n)).

Definition boot_mmap (src_addr size : Z) : option (list Z) :=
  if MMU_SIZE <? size then None
  else
    let src_addr_aligned := Z.land src_addr (u32 (Z.lnot (SPI_FLASH_MMU_PAGE_SIZE - 1))) in
    let count := u32 (size + (src_addr - src_addr_aligned) + SPI_FLASH_MMU_PAGE_SIZE - 1) / SPI_FLASH_MMU_PAGE_SIZE in
    if mapped src_addr_aligned count then Some (visible src_addr size) else None.

(** The words of [bootloader_flash_read_allow_decrypt], each through a mapping of
    its 64 KB block; an access never leaves the word's block. *)
Fixpoint boot_words (n : nat) (src_addr : Z) : res (list Z) :=
  match n with
  | O => Good []
  | S n =>
      let map_at := Z.land src_addr (u32 (Z.lnot (SPI_FLASH_MMU_PAGE_SIZE - 1))) in
      if mapped map_at 1 then let! rest := boot_words n (u32 (src_addr + 4)) in Good (visible src_addr 4 ++ rest)
      else Err ESP_FAIL
  end.

Definition boot_read (src_addr size : Z) : res (list Z) :=
  if negb (Z.land src_addr 3 =? 0) then Err ESP_FAIL
  else if negb (Z.land size 3 =? 0) then Err ESP_FAIL
  else boot_words (Z.to_nat (size / 4)) src_addr.

Definition boot_reader : reader := mk_reader boot_read boot_mmap (fun _ => MMU_FREE_PAGES).
End Boot.
End Readers.

(** ** The machine around the loader

    [build] is [BOOTLOADER_BUILD]; [sha256] the digest of the accelerator or of
    mbed TLS and [sha_start] whether a context can be had; [ocd] and [deep_sleep]
    what the chip reports; [sp] and the next four the bootloader's stack and its
    linker symbols; [random] the first value of the generator without a zero word. *)
Record env := mk_env {
  build : bool;
  rd : reader;
  sha256 : list Z -> list Z;
  sha_start : bool;
  ocd : bool;
  deep_sleep : bool;
  sp : Z;
  dram_start : Z;
  dram_end : Z;
  loader_text_start : Z;
  loader_text_end : Z;
  random : Z * Z;
}.

(** [sha]: the bytes given to the context, [None] when [sha_handle] is NULL;
    [checksum]: [None] when the pointer is NULL; [ram] by word address; [obfs] is
    [ram_obfs_value]. *)
Record loader := mk_loader {
  sha : option (list Z);
  checksum : option Z;
  ram : gmap Z Z;
  obfs : Z * Z;
}.

Section Load.
Variable e : env.

Definition should_map (a : Z) : bool :=
  ((SOC_IROM_LOW <=? a) && (a <? SOC_IROM_HIGH)) || ((SOC_DROM_LOW <=? a) && (a <? SOC_DROM_HIGH)).

Definition should_load (a : Z) : bool :=
  if should_map a then false
  else if a <? 0x10000000 then false
  else if e.(deep_sleep) &&
          (((SOC_RTC_IRAM_LOW <=? a) && (a <? SOC_RTC_IRAM_HIGH)) ||
           ((SOC_RTC_DRAM_LOW <=? a) && (a <? SOC_RTC_DRAM_HIGH)) ||
           ((SOC_RTC_DATA_LOW <=? a) && (a <? SOC_RTC_DATA_HIGH))) then false
  else true.

Definition esp_ptr_in_dram (p : Z) : bool := (SOC_DRAM_LOW <=? p) && (p <? SOC_DRAM_HIGH).
Definition esp_ptr_in_iram (p : Z) : bool := (SOC_IRAM_LOW <=? p) && (p <? SOC_IRAM_HIGH).
Definition esp_ptr_in_diram_dram (p : Z) : bool := (SOC_DIRAM_DRAM_LOW <=? p) && (p <? SOC_DIRAM_DRAM_HIGH).
Definition esp_ptr_in_diram_iram (p : Z) : bool := (SOC_DIRAM_IRAM_LOW <=? p) && (p <? SOC_DIRAM_IRAM_HIGH).
Definition esp_ptr_in_rtc_iram_fast (p : Z) : bool := (SOC_RTC_IRAM_LOW <=? p) && (p <? SOC_RTC_IRAM_HIGH).
Definition esp_ptr_in_rtc_dram_fast (p : Z) : bool := (SOC_RTC_DRAM_LOW <=? p) && (p <? SOC_RTC_DRAM_HIGH).
Definition esp_ptr_in_rtc_slow (p : Z) : bool := (SOC_RTC_DATA_LOW <=? p) && (p <? SOC_RTC_DATA_HIGH).
Definition esp_ptr_diram_dram_to_iram (p : Z) : Z := SOC_DIRAM_IRAM_LOW + (p - SOC_DIRAM_DRAM_LOW).
Definition esp_ptr_diram_iram_to_dram (p : Z) : Z := SOC_DIRAM_DRAM_LOW + (p - SOC_DIRAM_IRAM_LOW).

Definition bootloader_util_regions_overlap (start1 end1 start2 end2 : Z) : res bool :=
  if negb (start1 <? end1) then Assertion
  else if negb (start2 <? end2) then Assertion
  else Good ((start2 <? end1) && (start1 <? end2)).

(** [levels] is 0 when [no_recurse] is set. *)
Fixpoint verify_load_addresses (levels : nat) (load_addr load_end : Z) : res bool :=
  if load_end =? load_addr then Good true
  else if negb (load_addr <? load_end) then Assertion
  else if esp_ptr_in_dram load_addr && esp_ptr_in_dram (load_end - 1) then
    let! stack := bootloader_util_regions_overlap (e.(sp) - STACK_LOAD_HEADROOM) SOC_ROM_STACK_START load_addr load_end in
    if stack : bool then Good false
    else
      let! data := bootloader_util_regions_overlap e.(dram_start) e.(dram_end) load_addr load_end in
      if data : bool then Good false
      else match levels with
      | O => Good true
      | S levels =>
          let! diram := bootloader_util_regions_overlap SOC_DIRAM_DRAM_LOW SOC_DIRAM_DRAM_HIGH load_addr load_end in
          if diram : bool then
            let iram_load_addr := esp_ptr_diram_dram_to_iram
              (if esp_ptr_in_diram_dram load_addr then load_addr else SOC_DIRAM_DRAM_LOW) in
            let iram_load_end := esp_ptr_diram_dram_to_iram
              (if esp_ptr_in_diram_dram (load_end - 1) then load_end else SOC_DIRAM_DRAM_HIGH) in
            if iram_load_end <? iram_load_addr then verify_load_addresses levels iram_load_end iram_load_addr
            else verify_load_addresses levels iram_load_addr iram_load_end
          else Good true
      end
  else if esp_ptr_in_iram load_addr && esp_ptr_in_iram (load_end - 1) then
    let! text := bootloader_util_regions_overlap e.(loader_text_start) e.(loader_text_end) load_addr load_end in
    if text : bool then Good false
    else match levels with
    | O => Good true
    | S levels =>
        let! diram := bootloader_util_regions_overlap SOC_DIRAM_IRAM_LOW SOC_DIRAM_IRAM_HIGH load_addr load_end in
        if diram : bool then
          let dram_load_addr := esp_ptr_diram_iram_to_dram
            (if esp_ptr_in_diram_iram load_addr then load_addr else SOC_DIRAM_IRAM_LOW) in
          let dram_load_end := esp_ptr_diram_iram_to_dram
            (if esp_ptr_in_diram_iram (load_end - 1) then load_end else SOC_DIRAM_IRAM_HIGH) in
          if dram_load_end <? dram_load_addr then verify_load_addresses levels dram_load_end dram_load_addr
          else verify_load_addresses levels dram_load_addr dram_load_end
        else Good true
    end
  else Good ((esp_ptr_in_rtc_iram_fast load_addr && esp_ptr_in_rtc_iram_fast (load_end - 1)) ||
             (esp_ptr_in_rtc_dram_fast load_addr && esp_ptr_in_rtc_dram_fast (load_end - 1)) ||
             (esp_ptr_in_rtc_slow load_addr && esp_ptr_in_rtc_slow (load_end - 1))).

(** [bootloader_sha256_data]; the accelerator of the bootloader takes whole words. *)
Definition bootloader_sha256_data (bs : list Z) (s : loader) : res loader :=
  match s.(sha) with
  | None => Assertion
  | Some h =>
      if e.(build) && negb (Z.of_nat (length bs) mod 4 =? 0) then Assertion
      else Good (mk_loader (Some (h ++ bs)) s.(checksum) s.(ram) s.(obfs))
  end.

Definition sha_data (bs : list Z) (s : loader) : res loader :=
  match s.(sha) with
  | None => Good s
  | Some _ => bootloader_sha256_data bs s
  end.

(** The loop over the words of a mapping; [i] is the byte index. *)
Fixpoint words_loop (n : nat) (i : nat) (src : list Z) (data_len : nat) (dest : option Z) (s : loader)
  : res loader :=
  match n with
  | O => Good s
  | S n =>
      let w_i := (i / 4)%nat in
      let w := word src i in
      let s := mk_loader s.(sha) (Z.lxor w <$> s.(checksum)) s.(ram) s.(obfs) in
      let s := match dest with
               | None => s
               | Some a => mk_loader s.(sha) s.(checksum)
                   (<[a + Z.of_nat (4 * w_i) := Z.lxor w (if Nat.odd w_i then s.(obfs).1 else s.(obfs).2)]> s.(ram)) s.(obfs)
               end in
      let! s := if Z.of_nat i mod SHA_CHUNK =? 0
                then sha_data (slice src i (Nat.min (Z.to_nat SHA_CHUNK) (data_len - i))) s
                else Good s in
      words_loop n (i + 4) src data_len dest s
  end.

(** [memcpy] of whole words. *)
Fixpoint copy_words (n : nat) (i : nat) (src : list Z) (a : Z) (m : gmap Z Z) : gmap Z Z :=
  match n with
  | O => m
  | S n => copy_words n (i + 4) src a (<[a + Z.of_nat i := word src i]> m)
  end.

Definition process_segment_data (load_addr data_addr data_len : Z) (do_load : bool) (s : loader) : res loader :=
  if negb do_load && bool_decide (s.(checksum) = None) then Good s
  else match e.(rd).(flash_mmap) data_addr data_len with
  | None => Err ESP_FAIL
  | Some data =>
      let words := Z.to_nat ((data_len + 3) / 4) in
      if bool_decide (s.(checksum) = None) && bool_decide (s.(sha) = None)
      then Good (mk_loader s.(sha) s.(checksum) (copy_words words 0 data load_addr s.(ram)) s.(obfs))
      else
        let o := if e.(build) && ((s.(obfs).1 =? 0) || (s.(obfs).2 =? 0)) then e.(random) else s.(obfs) in
        words_loop words 0 data (Z.to_nat data_len) (if e.(build) && do_load then Some load_addr else None)
          (mk_loader s.(sha) s.(checksum) s.(ram) o)
  end.

Definition verify_segment_header (segment : esp_image_segment_header_t) (segment_data_offs : Z) : Z :=
  if negb (Z.land segment.(data_len) 3 =? 0) || (SIXTEEN_MB <=? segment.(data_len)) then ESP_ERR_IMAGE_INVALID
  else if should_map segment.(load_addr) &&
          negb (segment_data_offs mod SPI_FLASH_MMU_PAGE_SIZE =? segment.(load_addr) mod SPI_FLASH_MMU_PAGE_SIZE)
  then ESP_ERR_IMAGE_INVALID
  else ESP_OK.

(** The loop over the chunks that can be mapped at once.  A chunk is empty, and
    the loop does not get on, when one page is free and the data does not begin
    on a page; otherwise every chunk but the last has at least one page. *)
Fixpoint chunks_loop (fuel : nat) (pages load_addr data_addr data_len_remain : Z) (do_load : bool) (s : loader)
  : res loader :=
  if data_len_remain <=? 0 then Good s
  else match fuel with
  | O => Endless
  | S fuel =>
      let offset_page := if negb (Z.land data_addr MMAP_ALIGNED_MASK =? 0) then 1 else 0 in
      let data_len := Z.min data_len_remain (u32 (u32 (pages - offset_page) * SPI_FLASH_MMU_PAGE_SIZE)) in
      let! s := process_segment_data load_addr data_addr data_len do_load s in
      chunks_loop fuel pages load_addr (u32 (data_addr + data_len)) (data_len_remain - data_len) do_load s
  end.

Definition chunks_fuel (data_len : Z) : nat := S (Z.to_nat (data_len / SPI_FLASH_MMU_PAGE_SIZE)).

Definition segment_of_bytes (b : list Z) : esp_image_segment_header_t := mk_segment (word b 0) (word b 4).

Definition process_segment (index : nat) (flash_addr : Z) (do_load : bool) (s : loader)
  : res (esp_image_segment_header_t * loader) :=
  let! b := e.(rd).(flash_read) flash_addr 8 in
  let! s := sha_data b s in
  let header := segment_of_bytes b in
  let load_addr := i32 header.(load_addr) in
  let data_addr := u32 (flash_addr + 8) in
  let err := verify_segment_header header data_addr in
  if esp_failed err then Err err
  else if negb (header.(data_len) mod 4 =? 0) then Err ESP_ERR_IMAGE_INVALID
  else
    let do_load := do_load && should_load header.(Image.load_addr) in
    let! ok := if e.(build) && do_load && (0 <? header.(data_len))
               then verify_load_addresses 1 load_addr (i32 (load_addr + header.(data_len)))
               else Good true in
    if negb ok then Err ESP_ERR_IMAGE_INVALID
    else
      let! s := chunks_loop (chunks_fuel header.(data_len)) (e.(rd).(free_pages) index) load_addr data_addr
                  header.(data_len) do_load s in
      Good (header, s).

(** [n] segments remain, [i] is the next. *)
Fixpoint segments_loop (n i : nat) (next_addr : Z) (do_load : bool) (segs : list esp_image_segment_header_t)
    (offs : list Z) (s : loader) : res (list esp_image_segment_header_t * list Z * Z * loader) :=
  match n with
  | O => Good (segs, offs, next_addr, s)
  | S n =>
      if ESP_IMAGE_MAX_SEGMENTS <=? Z.of_nat i then Overrun
      else
        let! (header, s) := process_segment i next_addr do_load s in
        let next_addr := u32 (next_addr + 8) in
        segments_loop n (S i) (u32 (next_addr + header.(data_len))) do_load (segs ++ [header]) (offs ++ [next_addr]) s
  end.

Definition process_segments (data : esp_image_metadata_t) (do_load : bool) (s : loader)
  : res (esp_image_metadata_t * loader) :=
  let start_segments := u32 (data.(start_addr) + data.(image_len)) in
  let! (segs, offs, end_addr, s) :=
    segments_loop (Z.to_nat data.(image).(segment_count)) 0 start_segments do_load [] [] s in
  if end_addr <? data.(start_addr) then Err ESP_ERR_IMAGE_INVALID
  else Good (mk_metadata data.(start_addr) data.(image) segs offs
               (u32 (data.(image_len) + u32 (end_addr - start_segments))) data.(image_digest), s).

(** The chip has no other revision than 0. *)
Definition bootloader_common_get_chip_revision : Z := 0.

Definition bootloader_common_check_chip_validity (img_hdr : esp_image_header_t) : Z :=
  let err := if negb (CONFIG_IDF_FIRMWARE_CHIP_ID =? img_hdr.(chip_id)) then ESP_FAIL else ESP_OK in
  if bootloader_common_get_chip_revision <? img_hdr.(min_chip_rev) then ESP_FAIL else err.

Definition verify_image_header (image : esp_image_header_t) : Z :=
  if negb (image.(magic) =? ESP_IMAGE_HEADER_MAGIC) then ESP_ERR_IMAGE_INVALID
  else
    let err := bootloader_common_check_chip_validity image in
    if esp_failed err then err
    else if ESP_IMAGE_MAX_SEGMENTS <? image.(segment_count) then ESP_ERR_IMAGE_INVALID
    else ESP_OK.

(** [want_sha]: the pointer to the handle is not NULL. *)
Definition process_image_header (part_offset : Z) (want_sha do_verify : bool) (s : loader)
  : res (esp_image_metadata_t * loader) :=
  let! b := e.(rd).(flash_read) part_offset 24 in
  let image := header_of_bytes b in
  let data := mk_metadata part_offset image [] [] 24 [] in
  if do_verify then
    let! s := if negb (image.(hash_appended) =? 0) && want_sha
              then if e.(sha_start)
                   then bootloader_sha256_data b (mk_loader (Some []) s.(checksum) s.(ram) s.(obfs))
                   else Err ESP_ERR_NO_MEM
              else Good s in
    let err := verify_image_header image in
    if esp_failed err then Err err else Good (data, s)
  else Good (data, s).

Definition process_checksum (checksum_word : Z) (data : esp_image_metadata_t) (skip_check_checksum : bool) (s : loader)
  : res (esp_image_metadata_t * loader) :=
  let unpadded_length := data.(image_len) in
  let length := u32 (unpadded_length + 1) in
  let length := Z.land (u32 (length + 15)) (u32 (Z.lnot 15)) in
  let length := u32 (length - unpadded_length) in
  let data' := mk_metadata data.(start_addr) data.(image) data.(segments) data.(segment_data)
                 (u32 (unpadded_length + length)) data.(image_digest) in
  if negb skip_check_checksum || negb (bool_decide (s.(sha) = None)) then
    let! buf := e.(rd).(flash_read) (u32 (data.(start_addr) + unpadded_length)) length in
    let read_checksum := byte buf (Z.to_nat (length - 1)) in
    let calc_checksum := u8 (Z.lxor (Z.lxor (Z.lxor (Z.shiftr checksum_word 24) (Z.shiftr checksum_word 16))
                                      (Z.shiftr checksum_word 8)) checksum_word) in
    if negb skip_check_checksum && negb (calc_checksum =? read_checksum) then Err ESP_ERR_IMAGE_INVALID
    else let! s := sha_data buf s in Good (data', s)
  else Good (data', s).

Definition process_appended_hash (data : esp_image_metadata_t) (part_len : Z) (do_verify : bool)
  : res esp_image_metadata_t :=
  let! data :=
    if negb (data.(image).(hash_appended) =? 0) then
      let! digest := if do_verify
                     then e.(rd).(flash_read) (u32 (data.(start_addr) + data.(image_len))) HASH_LEN
                     else Good data.(image_digest) in
      Good (mk_metadata data.(start_addr) data.(image) data.(segments) data.(segment_data)
              (u32 (data.(image_len) + HASH_LEN)) digest)
    else Good data in
  if part_len <? data.(image_len) then Err ESP_ERR_IMAGE_INVALID else Good data.

Definition verify_simple_hash (h : list Z) (data : esp_image_metadata_t) : Z :=
  if bool_decide (data.(image_digest) = e.(sha256) h) then ESP_OK else ESP_ERR_IMAGE_INVALID.

(** The words of a segment made readable. *)
Fixpoint clear_words (n : nat) (j : nat) (a : Z) (o : Z * Z) (m : gmap Z Z) : gmap Z Z :=
  match n with
  | O => m
  | S n =>
      let at_ := a + Z.of_nat (4 * j) in
      clear_words n (S j) a o (<[at_ := Z.lxor (default 0 (m !! at_)) (if Nat.odd j then o.1 else o.2)]> m)
  end.

Fixpoint deobfuscate (segs : list esp_image_segment_header_t) (o : Z * Z) (m : gmap Z Z) : gmap Z Z :=
  match segs with
  | [] => m
  | h :: segs =>
      deobfuscate segs o
        (if should_load h.(load_addr) then clear_words (Z.to_nat (h.(data_len) / 4)) 0 h.(load_addr) o m else m)
  end.

Definition load_of (mode : esp_image_load_mode_t) : bool :=
  e.(build) && match mode with ESP_IMAGE_LOAD | ESP_IMAGE_LOAD_NO_VALIDATE => true | _ => false end.

Definition verify_of (mode : esp_image_load_mode_t) : bool :=
  negb e.(build) || match mode with ESP_IMAGE_LOAD_NO_VALIDATE => false | _ => true end.

(** [part->offset], [part->size]; [m] and [o] are the memory and the obfuscation
    words before the call. *)
Definition image_load (mode : esp_image_load_mode_t) (offset size : Z) (m : gmap Z Z) (o : Z * Z)
  : res (esp_image_metadata_t * gmap Z Z) :=
  let do_load := load_of mode in
  let do_verify := verify_of mode in
  let verify_sha := negb (offset =? ESP_BOOTLOADER_OFFSET) && do_verify in
  if SIXTEEN_MB <? size then Err ESP_ERR_INVALID_ARG
  else
    let s := mk_loader None (if do_verify then Some ESP_ROM_CHECKSUM_INITIAL else None) m o in
    let! (data, s) := process_image_header offset verify_sha do_verify s in
    let! (data, s) := process_segments data do_load s in
    let checksum_word := default ESP_ROM_CHECKSUM_INITIAL s.(checksum) in
    let! (data, s) := process_checksum checksum_word data (negb do_verify || e.(ocd)) s in
    let! data := process_appended_hash data size do_verify in
    let err := match s.(sha) with
               | Some h => if verify_sha && negb e.(ocd) then verify_simple_hash h data else ESP_OK
               | None => ESP_OK
               end in
    if esp_failed err then Err err
    else
      Good (data, if e.(build) && do_load && negb (s.(obfs).1 =? 0) && negb (s.(obfs).2 =? 0)
                  then deobfuscate data.(segments) s.(obfs) s.(ram) else s.(ram)).

Definition esp_image_verify := image_load.

Definition bootloader_load_image (offset size : Z) (m : gmap Z Z) (o : Z * Z) : res (esp_image_metadata_t * gmap Z Z) :=
  if e.(build) then image_load ESP_IMAGE_LOAD offset size m o else Err ESP_FAIL.

Definition bootloader_load_image_no_verify (offset size : Z) (m : gmap Z Z) (o : Z * Z)
  : res (esp_image_metadata_t * gmap Z Z) :=
  if e.(build) then image_load ESP_IMAGE_LOAD_NO_VALIDATE offset size m o else Err ESP_FAIL.

Definition esp_image_get_metadata (offset size : Z) (m : gmap Z Z) (o : Z * Z) : res esp_image_metadata_t :=
  if SIXTEEN_MB <? size then Err ESP_ERR_INVALID_ARG
  else
    let s := mk_loader None None m o in
    let! (data, s) := process_image_header offset false false s in
    let! (data, s) := process_segments data false s in
    let! (data, _) := process_checksum 0 data true s in
    process_appended_hash data size true.
End Load.
End Image.
