(* ===== verification/Bootloader.v ===== *)
(** * The second-stage bootloader's choice of an image: [bootloader_utility.c],
      [bootloader_start.c]

    Which slot the selection entries name, and what is loaded when that slot has
    no good image.  The flash is read through [bootloader_mmap] ([Image.boot_mmap]).
    How an image is loaded is an argument ([Loader]); [ImageCheck.v] instantiates it.  The configuration has no rollback, anti-rollback, factory
    reset, test application pin or flash encryption. *)
From stdpp Require Import base list.
From Stdlib Require Import ZArith Lia.
From S2P Require Import Prelude Oprt Flash Md5 Crc Partition EspOta Image.
Import Flash Partition EspOta.
Local Open Scope Z_scope.

Module Bootloader.

Definition FACTORY_INDEX : Z := -1.
Definition TEST_APP_INDEX : Z := -2.
Definition INVALID_INDEX : Z := -99.
Definition MAX_OTA_SLOTS : Z := 16.
Definition FLASH_SECTOR_SIZE : Z := 4096.
Definition PART_SUBTYPE_OTA_FLAG : Z := 0x10.
Definition PART_SUBTYPE_OTA_MASK : Z := 0x0f.

Record esp_partition_pos_t := mk_pos {
  offset : Z;
  pos_size : Z;
}.

Record bootloader_state_t := mk_bs {
  ota_info : esp_partition_pos_t;
  factory : esp_partition_pos_t;
  test : esp_partition_pos_t;
  ota : list esp_partition_pos_t;
  app_count : Z;
}.

Definition zero_pos : esp_partition_pos_t := mk_pos 0 0.

Definition zero_bs : bootloader_state_t := mk_bs zero_pos zero_pos zero_pos (repeat zero_pos 16) 0.

(** One entry of a table that has passed [esp_partition_table_verify]. *)
Definition load_table_entry (bs : bootloader_state_t) (p : esp_partition_t) : bootloader_state_t :=
  let pos := mk_pos p.(address) p.(size) in
  if p.(type) =? ESP_PARTITION_TYPE_APP then
    if p.(subtype) =? ESP_PARTITION_SUBTYPE_APP_FACTORY then
      mk_bs bs.(ota_info) pos bs.(test) bs.(ota) bs.(app_count)
    else if p.(subtype) =? ESP_PARTITION_SUBTYPE_APP_TEST then
      mk_bs bs.(ota_info) bs.(factory) pos bs.(ota) bs.(app_count)
    else if Z.land p.(subtype) (Z.lnot PART_SUBTYPE_OTA_MASK) =? PART_SUBTYPE_OTA_FLAG then
      mk_bs bs.(ota_info) bs.(factory) bs.(test)
        (<[Z.to_nat (Z.land p.(subtype) PART_SUBTYPE_OTA_MASK) := pos]> bs.(ota)) (u32 (bs.(app_count) + 1))
    else bs
  else if p.(type) =? ESP_PARTITION_TYPE_DATA then
    if p.(subtype) =? ESP_PARTITION_SUBTYPE_DATA_OTA then
      mk_bs pos bs.(factory) bs.(test) bs.(ota) bs.(app_count)
    else bs
  else bs.

Definition bootloader_utility_load_partition_table (partitions : list esp_partition_t) : bootloader_state_t :=
  fold_left load_table_entry partitions zero_bs.

Definition index_to_partition (bs : bootloader_state_t) (index : Z) : esp_partition_pos_t :=
  if index =? FACTORY_INDEX then bs.(factory)
  else if index =? TEST_APP_INDEX then bs.(test)
  else if (0 <=? index) && (index <? MAX_OTA_SLOTS) && (index <? bs.(app_count))
  then nth (Z.to_nat index) bs.(ota) zero_pos
  else zero_pos.

(** The ROM maps any pages of a chip of [size] bytes. *)
Definition maps_chip (mapped : Z -> Z -> bool) (size : Z) : Prop :=
  forall a n, 0 <= a -> 0 < n -> a + (n - 1) * 65536 < size -> mapped a n = true.

Section Select.
(** What is visible behind the chip and which mappings the ROM accepts, as in [Image]. *)
Variable behind : Z -> Z.
Variable mapped : Z -> Z -> bool.

(** [None] for an error. *)
Definition read_otadata (c : list Z) (info : esp_partition_pos_t) : option otadata_t :=
  if info.(offset) =? 0 then None
  else if info.(pos_size) <? 2 * FLASH_SECTOR_SIZE then None
  else match Image.boot_mmap c behind mapped info.(offset) info.(pos_size) with
  | None => None
  | Some ota_select_map =>
      Some (entry_of_bytes (take 32 ota_select_map),
            entry_of_bytes (take 32 (drop (Z.to_nat FLASH_SECTOR_SIZE) ota_select_map)))
  end.

(** The entry was never written, or its checksum is wrong. *)
Definition initial_or_bad_crc (e : esp_ota_select_entry_t) : bool :=
  (e.(ota_seq) =? UINT32_MAX) || negb (e.(crc) =? bootloader_common_ota_select_crc e).

(** The index, and the flag [ota_has_initial_contents]. *)
Definition bootloader_utility_get_selected_boot_partition (c : list Z) (bs : bootloader_state_t) : Z * bool :=
  if bs.(ota_info).(offset) =? 0 then (FACTORY_INDEX, false)
  else match read_otadata c bs.(ota_info) with
  | None => (INVALID_INDEX, false)
  | Some otadata =>
      if (bootloader_common_ota_select_invalid otadata.1 && bootloader_common_ota_select_invalid otadata.2)
         || (bs.(app_count) =? 0)
      then
        if negb (bs.(factory).(offset) =? 0) then (FACTORY_INDEX, false)
        else (0, initial_or_bad_crc otadata.1 && initial_or_bad_crc otadata.2)
      else
        let active_otadata := bootloader_common_get_active_otadata otadata in
        if negb (active_otadata =? -1) then
          (u32 ((nth_otadata otadata active_otadata).(ota_seq) - 1) mod bs.(app_count), false)
        else (FACTORY_INDEX, false)
  end.
End Select.

(** What [bootloader_load_image] does with a partition: it loads the image, returns
    an error, or stops in a failed assertion. *)
Inductive verdict := Accepted | Rejected | Stopped.

(** What the rest of the system relies on: an accepted image is accepted whatever
    changes outside its partition. *)
Class Loader (load : list Z -> Z -> Z -> verdict) : Prop :=
  load_local c c' a n :
    length c' = length c -> Forall Crc.is_byte c -> Forall Crc.is_byte c' ->
    0 < a -> 0 < n -> a mod SPI_FLASH_SEC_SIZE = 0 -> a + n <= Z.of_nat (length c) -> Z.of_nat (length c) < 2 ^ 31 ->
    (forall i, a <= Z.of_nat i < a + n -> c' !! i = c !! i) -> load c a n = Accepted -> load c' a n = Accepted.

(** What the boot ends with: the index of the loaded image and the flash it
    starts on, a reset of the chip, or a bootloader that stands still. *)
Inductive booted :=
| Loaded (index : Z) (c : list Z)
| Reset
| Hung.

Section Load.
Variable behind : Z -> Z.
Variable mapped : Z -> Z -> bool.
Variable load : list Z -> Z -> Z -> verdict.

Definition try_load_partition (c : list Z) (partition : esp_partition_pos_t) : verdict :=
  if partition.(pos_size) =? 0 then Rejected else load c partition.(offset) partition.(pos_size).

Definition write_otadata (c : list Z) (otadata : esp_ota_select_entry_t) (offset : Z) : list Z :=
  program (erase c (Z.to_nat (offset / FLASH_SECTOR_SIZE * FLASH_SECTOR_SIZE)) (Z.to_nat FLASH_SECTOR_SIZE))
    (Z.to_nat offset) (bytes_of_entry otadata).

Definition set_actual_ota_seq (c : list Z) (bs : bootloader_state_t) (initial : bool) (index : Z) : list Z :=
  if (FACTORY_INDEX <? index) && initial then
    let otadata := mk_entry (index + 1) (repeat 0xFF 20) ESP_OTA_IMG_VALID 0xFFFFFFFF in
    let otadata := mk_entry otadata.(ota_seq) otadata.(seq_label) otadata.(ota_state)
                     (bootloader_common_ota_select_crc otadata) in
    write_otadata c otadata (bs.(ota_info).(offset) + FLASH_SECTOR_SIZE * 0)
  else c.

(** One of the two loops, over the indices it visits; [inr] is the index of the
    loaded image if one was found. *)
Fixpoint try_indices (c : list Z) (bs : bootloader_state_t) (l : list Z) : unit + option Z :=
  match l with
  | [] => inr None
  | index :: l =>
      let part := index_to_partition bs index in
      if part.(pos_size) =? 0 then try_indices c bs l
      else match try_load_partition c part with
      | Accepted => inr (Some index)
      | Rejected => try_indices c bs l
      | Stopped => inl tt
      end
  end.

(** [start_index, ..., FACTORY_INDEX]. *)
Definition backwards (start_index : Z) : list Z :=
  map (fun k => start_index - Z.of_nat k) (seq 0 (Z.to_nat (start_index - FACTORY_INDEX + 1))).

(** [start_index + 1, ..., app_count - 1]. *)
Definition forwards (bs : bootloader_state_t) (start_index : Z) : list Z :=
  map (fun k => start_index + 1 + Z.of_nat k) (seq 0 (Z.to_nat (bs.(app_count) - (start_index + 1)))).

Definition bootloader_utility_load_boot_image (c : list Z) (bs : bootloader_state_t) (initial : bool)
    (start_index : Z) : booted :=
  let try_test := match try_load_partition c bs.(test) with
                  | Accepted => Loaded TEST_APP_INDEX c
                  | Rejected => Reset
                  | Stopped => Hung
                  end in
  if start_index =? TEST_APP_INDEX then try_test
  else match try_indices c bs (backwards start_index) with
  | inl _ => Hung
  | inr (Some index) => Loaded index (set_actual_ota_seq c bs initial index)
  | inr None =>
      match try_indices c bs (forwards bs start_index) with
      | inl _ => Hung
      | inr (Some index) => Loaded index (set_actual_ota_seq c bs initial index)
      | inr None => try_test
      end
  end.

(** [call_start_cpu0] from the partition table on; [partitions] are the entries of the
    mapped table that [esp_partition_table_verify] accepts. *)
Definition boot (partitions : list esp_partition_t) (c : list Z) : booted :=
  match Image.boot_mmap c behind mapped CONFIG_PARTITION_TABLE_OFFSET ESP_PARTITION_TABLE_MAX_LEN with
  | None => Reset
  | Some _ =>
      let bs := bootloader_utility_load_partition_table partitions in
      let '(boot_index, initial) := bootloader_utility_get_selected_boot_partition behind mapped c bs in
      if boot_index =? INVALID_INDEX then Reset
      else bootloader_utility_load_boot_image c bs initial boot_index
  end.
End Load.
End Bootloader.
