(* ===== verification/ImageCheck.v ===== *)
(** * What the image check accepts

    The image format as an encoder of header, segments, checksum and digest, and
    the proof that the loader of [Image.v] accepts exactly the encodings that fit
    the partition. *)
From stdpp Require Import base list gmap.
From Stdlib Require Import ZArith Lia.
From S2P Require Import Prelude Oprt Flash Md5 Crc Partition EspOta Bootloader Image.
Import Flash Crc Partition Image.
Local Open Scope Z_scope.

Module ImageCheck.

(** ** Words of a byte list *)

Fixpoint words (d : list Z) : list Z :=
  match d with
  | b0 :: b1 :: b2 :: b3 :: d => Md5.le32 [b0; b1; b2; b3] :: words d
  | _ => []
  end.

(** Bytes come in fours. *)
Definition whole (d : list Z) : Prop := (length d mod 4 = 0)%nat.

Lemma fours_ind (P : list Z -> Prop) :
  P [] -> (forall b0 b1 b2 b3 d, whole d -> P d -> P (b0 :: b1 :: b2 :: b3 :: d)) -> forall d, whole d -> P d.
Proof.
  intros H0 H4 d Hd. apply Nat.Div0.div_exact in Hd. revert d Hd.
  assert (H : forall n d, length d = (4 * n)%nat -> P d); [|eauto].
  induction n as [|n IH]; intros d Hd.
  - destruct d; [done|simpl in Hd; lia].
  - destruct d as [|b0 [|b1 [|b2 [|b3 d]]]]; simpl in Hd; try lia.
    apply H4; [unfold whole; replace (length d) with (n * 4)%nat by lia; apply Nat.Div0.mod_mul|apply IH; lia].
Qed.

Lemma words_app d1 d2 : whole d1 -> words (d1 ++ d2) = words d1 ++ words d2.
Proof. revert d1. apply fours_ind; [done|]. intros b0 b1 b2 b3 d _ IH. simpl. by rewrite IH. Qed.

Lemma words_drop d i : (i + 4 <= length d)%nat -> words (drop i d) = word d i :: words (drop (i + 4) d).
Proof.
  intros H. unfold word. rewrite <- drop_drop.
  destruct (drop i d) as [|b0 [|b1 [|b2 [|b3 r]]]] eqn:E; try done;
    apply (f_equal length) in E; rewrite length_drop in E; simpl in E; lia.
Qed.

Lemma words_length d : length (words d) = (length d / 4)%nat.
Proof.
  assert (H : forall n d, (length d <= n)%nat -> length (words d) = (length d / 4)%nat); [|by eapply H].
  induction n as [|n IH]; intros [|b0 [|b1 [|b2 [|b3 r]]]] Hd; simpl in Hd; try done; try lia.
  simpl length. rewrite IH by lia. change (S (S (S (S (length r))))) with (4 + length r)%nat.
  rewrite <- (Nat.div_add_l 1 4) by lia. done.
Qed.

Lemma whole_Z d : whole d <-> Z.of_nat (length d) mod 4 = 0.
Proof. unfold whole. change 4 with (Z.of_nat 4). rewrite <- Nat2Z.inj_mod. split; [by intros ->|lia]. Qed.

Lemma whole_app d1 d2 : whole d1 -> whole d2 -> whole (d1 ++ d2).
Proof.
  unfold whole. intros H1 H2. rewrite length_app, Nat.Div0.add_mod, H1, H2. done.
Qed.

(** ** The checksum: words folded to a byte are the bytes folded *)

Definition fold8 (w : Z) : Z :=
  u8 (Z.lxor (Z.lxor (Z.lxor (Z.shiftr w 24) (Z.shiftr w 16)) (Z.shiftr w 8)) w).

Definition xor_words (w : Z) (l : list Z) : Z := fold_left (fun w x => Z.lxor x w) l w.

Definition xor_bytes (x : Z) (d : list Z) : Z := fold_left Z.lxor d x.

Lemma u8_lxor a b : u8 (Z.lxor a b) = Z.lxor (u8 a) (u8 b).
Proof.
  unfold u8. rewrite <- !Z.land_ones by lia. apply Z.bits_inj'. intros n _.
  rewrite !Z.land_spec, !Z.lxor_spec, !Z.land_spec. by destruct (Z.testbit (Z.ones 8) n), (Z.testbit a n), (Z.testbit b n).
Qed.

Lemma fold8_lxor a b : fold8 (Z.lxor a b) = Z.lxor (fold8 a) (fold8 b).
Proof.
  unfold fold8. rewrite <- u8_lxor, !Z.shiftr_lxor. f_equal. apply Z.bits_inj'. intros n _. rewrite !Z.lxor_spec.
  destruct (Z.testbit _ n), (Z.testbit _ n), (Z.testbit _ n), (Z.testbit a n), (Z.testbit _ n), (Z.testbit _ n),
    (Z.testbit _ n), (Z.testbit b n); done.
Qed.

Lemma fold8_le32 b0 b1 b2 b3 :
  Forall is_byte [b0; b1; b2; b3] -> fold8 (Md5.le32 [b0; b1; b2; b3]) = Z.lxor (Z.lxor (Z.lxor b3 b2) b1) b0.
Proof.
  rewrite !Forall_cons. unfold is_byte. intros (H0 & H1 & H2 & H3 & _). unfold fold8, Md5.le32. rewrite !u8_lxor.
  rewrite !Z.shiftr_div_pow2 by lia. unfold u8. change (2 ^ 8) with 256. change (2 ^ 16) with 65536.
  change (2 ^ 24) with 16777216. repeat f_equal; Z.to_euclidean_division_equations; lia.
Qed.

Lemma fold8_words d : whole d -> Forall is_byte d -> forall w, fold8 (xor_words w (words d)) = xor_bytes (fold8 w) d.
Proof.
  revert d. apply (fours_ind (fun d => Forall is_byte d -> forall w, fold8 (xor_words w (words d)) = xor_bytes (fold8 w) d)).
  { done. }
  intros b0 b1 b2 b3 d _ IH Hb w. change (b0 :: b1 :: b2 :: b3 :: d) with ([b0; b1; b2; b3] ++ d) in Hb.
  apply Forall_app in Hb as [Hw Hd].
  change (fold8 (xor_words (Z.lxor (Md5.le32 [b0; b1; b2; b3]) w) (words d)) =
          xor_bytes (Z.lxor (Z.lxor (Z.lxor (Z.lxor (fold8 w) b0) b1) b2) b3) d).
  rewrite (IH Hd), fold8_lxor, (fold8_le32 _ _ _ _ Hw). f_equal.
  rewrite Z.lxor_comm, (Z.lxor_comm _ b0), (Z.lxor_comm _ b1), (Z.lxor_comm _ b2). by rewrite !Z.lxor_assoc.
Qed.

Lemma xor_words_app w l1 l2 : xor_words w (l1 ++ l2) = xor_words (xor_words w l1) l2.
Proof. apply fold_left_app. Qed.

(** ** The loop over a mapping *)

Fixpoint store_words (k : nat) (l : list Z) (a : Z) (o : Z * Z) (m : gmap Z Z) : gmap Z Z :=
  match l with
  | [] => m
  | w :: l => store_words (S k) l a o (<[a + Z.of_nat (4 * k) := Z.lxor w (if Nat.odd k then o.1 else o.2)]> m)
  end.

(** The next multiple of [SHA_CHUNK]. *)
Definition up (i : nat) : nat := (1024 * ((i + 1023) / 1024))%nat.

Lemma up_here k : (4 * k mod 1024 = 0)%nat -> up (4 * k) = (4 * k)%nat /\ up (4 * k + 4) = (4 * k + 1024)%nat.
Proof.
  unfold up. intros H. apply Nat.Div0.div_exact in H. rewrite H at 1 3. revert H. generalize (4 * k / 1024)%nat. intros j H.
  replace (1024 * j + 1023)%nat with (j * 1024 + 1023)%nat by lia.
  replace (1024 * j + 4 + 1023)%nat with ((j + 1) * 1024 + 3)%nat by lia.
  rewrite !Nat.div_add_l by lia. change (1023 / 1024)%nat with 0%nat. change (3 / 1024)%nat with 0%nat. lia.
Qed.

Lemma up_later k : (4 * k mod 1024 <> 0)%nat -> up (4 * k) = up (4 * k + 4).
Proof.
  unfold up. intros H. pose proof (Nat.div_mod_eq (4 * k) 1024) as Hd. pose proof (Nat.mod_upper_bound (4 * k) 1024).
  revert H Hd H0. generalize (4 * k / 1024)%nat, (4 * k mod 1024)%nat. intros j r Hr Hd Hb.
  replace (4 * k + 1023)%nat with ((j + 1) * 1024 + (r - 1))%nat by lia.
  replace (4 * k + 4 + 1023)%nat with ((j + 1) * 1024 + (r + 3))%nat by lia.
  rewrite !Nat.div_add_l, !(Nat.div_small _ 1024) by lia. done.
Qed.

Lemma up_ge i : (i <= up i)%nat.
Proof.
  unfold up. pose proof (Nat.div_mod_eq (i + 1023) 1024). pose proof (Nat.mod_upper_bound (i + 1023) 1024). lia.
Qed.

Lemma slice_drop (d : list Z) i n : slice d i (Nat.min n (length d - i)) ++ drop (i + n) d = drop i d.
Proof.
  unfold slice. rewrite <- drop_drop, <- length_drop.
  replace (take (Nat.min n (length (drop i d))) (drop i d)) with (take n (drop i d)); [apply take_drop|].
  destruct (Nat.le_ge_cases n (length (drop i d))); [by rewrite Nat.min_l|rewrite Nat.min_r, !take_ge; done || lia].
Qed.

Section Loops.
Variable e : env.

Lemma sha_data_some bs h cs m o :
  whole bs -> bootloader_sha256_data e bs (mk_loader (Some h) cs m o) = Good (mk_loader (Some (h ++ bs)) cs m o).
Proof.
  intros H%whole_Z. unfold bootloader_sha256_data. cbn [sha]. rewrite H. by rewrite andb_false_r.
Qed.

Lemma sha_data_spec bs s :
  whole bs -> sha_data e bs s = Good (mk_loader ((fun h => h ++ bs) <$> s.(sha)) s.(checksum) s.(ram) s.(obfs)).
Proof. intros H. destruct s as [[h|] cs m o]; [by apply sha_data_some|done]. Qed.

Lemma words_loop_spec dest src k n : forall s,
  (4 * k + 4 * n = length src)%nat ->
  words_loop e n (4 * k) src (length src) dest s =
  Good (mk_loader ((fun h => h ++ drop (up (4 * k)) src) <$> s.(sha))
          ((fun w => xor_words w (words (drop (4 * k) src))) <$> s.(checksum))
          (match dest with None => s.(ram) | Some a => store_words k (words (drop (4 * k) src)) a s.(obfs) s.(ram) end)
          s.(obfs)).
Proof.
  revert k. induction n as [|n IH]; intros k s Hn.
  - pose proof (up_ge (4 * k)). rewrite !(drop_ge src) by lia.
    destruct s as [[h|] [w|] m o]; destruct dest; simpl; by rewrite ?app_nil_r.
  - rewrite (words_drop src (4 * k)) by lia. cbn [words_loop].
    replace (4 * k / 4)%nat with k by (rewrite Nat.mul_comm, Nat.div_mul; lia).
    replace (4 * k + 4)%nat with (4 * S k)%nat by lia.
    assert (Hc : (Z.of_nat (4 * k) mod SHA_CHUNK =? 0) = (4 * k mod 1024 =? 0)%nat).
    { change SHA_CHUNK with (Z.of_nat 1024). rewrite <- Nat2Z.inj_mod. by destruct (4 * k mod 1024)%nat. }
    rewrite Hc. destruct (Nat.eqb_spec (4 * k mod 1024) 0) as [H0|H0].
    + destruct (up_here k H0) as [-> Hu]. rewrite sha_data_spec. cbn [rbind]. rewrite IH by lia.
      2: { unfold whole. rewrite slice_length by lia. change (Z.to_nat SHA_CHUNK) with 1024%nat.
           destruct (Nat.min_spec 1024 (length src - 4 * k)) as [[_ ->]|[_ ->]]; [done|].
           replace (length src - 4 * k)%nat with (S n * 4)%nat by lia. apply Nat.Div0.mod_mul. }
      replace (4 * S k)%nat with (4 * k + 4)%nat by lia. rewrite Hu. change (Z.to_nat SHA_CHUNK) with 1024%nat.
      destruct s as [[h|] [w|] m o]; destruct dest; cbn [fmap option_fmap option_map sha checksum ram obfs];
        rewrite <- ?app_assoc, ?slice_drop; done.
    + cbn [rbind]. rewrite IH, (up_later k H0) by lia. replace (4 * S k)%nat with (4 * k + 4)%nat by lia.
      destruct s as [[h|] [w|] m o]; destruct dest; done.
Qed.

(** ** Flash access inside the chip *)

Definition off_page (a : Z) : Z := if negb (Z.land a MMAP_ALIGNED_MASK =? 0) then 1 else 0.

Class FlashReader (r : reader) (c : list Z) : Prop := {
  read_bytes a n b : 0 <= a -> 0 <= n <= 32 -> r.(flash_read) a n = Good b -> Forall is_byte b /\ Z.of_nat (length b) = n;
  read_in a n :
    0 <= a -> 0 <= n -> a mod 4 = 0 -> n mod 4 = 0 -> a + n <= Z.of_nat (length c) ->
    r.(flash_read) a n = Good (slice c (Z.to_nat a) (Z.to_nat n));
  map_in i a n :
    0 <= a -> 0 < n -> a + n <= Z.of_nat (length c) ->
    n <= (r.(free_pages) i - off_page a) * SPI_FLASH_MMU_PAGE_SIZE ->
    r.(flash_mmap) a n = Some (slice c (Z.to_nat a) (Z.to_nat n));
  pages_in i : 2 <= r.(free_pages) i < 65536;
}.

(** What a mapping's bytes do to the state. *)
Definition fresh (o : Z * Z) : Z * Z := if e.(build) && ((o.1 =? 0) || (o.2 =? 0)) then e.(random) else o.

Definition feed (d : list Z) (dest : option Z) (s : loader) : loader :=
  mk_loader ((fun h => h ++ d) <$> s.(sha)) ((fun w => xor_words w (words d)) <$> s.(checksum))
    (match dest with None => s.(ram) | Some a => store_words 0 (words d) a (fresh s.(obfs)) s.(ram) end)
    (fresh s.(obfs)).

Lemma fresh_idem o : fresh (fresh o) = fresh o.
Proof. unfold fresh. destruct (e.(build) && ((o.1 =? 0) || (o.2 =? 0))) eqn:E; [by repeat case_match|by rewrite E]. Qed.

Lemma feed_app d1 d2 s : whole d1 -> feed d2 None (feed d1 None s) = feed (d1 ++ d2) None s.
Proof.
  intros H. unfold feed. cbn [sha checksum ram obfs]. rewrite fresh_idem, words_app by done.
  destruct s as [[h|] [w|] m o]; cbn [fmap option_fmap option_map sha checksum]; by rewrite ?xor_words_app, <- ?app_assoc.
Qed.

Context (c : list Z).
Context `{R : !FlashReader e.(rd) c}.
Abbreviation size := (Z.of_nat (length c)).
Abbreviation bytes_at a n := (slice c (Z.to_nat a) (Z.to_nat n)).

Lemma bytes_at_length a n : 0 <= a -> 0 <= n -> a + n <= size -> Z.of_nat (length (bytes_at a n)) = n.
Proof. intros. rewrite slice_length; lia. Qed.

Lemma bytes_at_whole a n : 0 <= a -> 0 <= n -> a + n <= size -> n mod 4 = 0 -> whole (bytes_at a n).
Proof. intros. apply whole_Z. by rewrite bytes_at_length. Qed.

Lemma bytes_at_split a n m : 0 <= a -> 0 <= n -> 0 <= m -> bytes_at a n ++ bytes_at (a + n) m = bytes_at a (n + m).
Proof. intros. rewrite Z2Nat.inj_add, slice_split, <- Z2Nat.inj_add by lia. done. Qed.

Lemma process_segment_data_in i la a n dl s :
  s.(checksum) <> None -> 0 <= a -> 0 < n -> n mod 4 = 0 -> a + n <= size ->
  n <= (e.(rd).(free_pages) i - off_page a) * SPI_FLASH_MMU_PAGE_SIZE ->
  process_segment_data e la a n dl s = Good (feed (bytes_at a n) (if e.(build) && dl then Some la else None) s).
Proof.
  intros Hc Ha Hn H4 Hin Hp. unfold process_segment_data. rewrite (map_in i a n) by done.
  rewrite bool_decide_eq_false_2, andb_false_r by done. cbn [andb]. fold (fresh s.(obfs)).
  pose proof (bytes_at_length a n Ha ltac:(lia) Hin) as Hl.
  replace (Z.to_nat n) with (length (bytes_at a n)) at 2 by lia. rewrite (words_loop_spec _ _ 0).
  2: { rewrite <- (Nat2Z.id (length _)), Hl. apply Nat2Z.inj. rewrite Nat2Z.inj_add, !Nat2Z.inj_mul, !Z2Nat.id by
         (try apply Z.div_pos; lia). Z.to_euclidean_division_equations; lia. }
  done.
Qed.

(** The data of a segment, possibly empty. *)
Definition feed_data (d : list Z) (dest : option Z) (s : loader) : loader :=
  match d with [] => s | _ => feed d dest s end.

Lemma feed_data_app d1 d2 s : whole d1 -> feed_data d2 None (feed_data d1 None s) = feed_data (d1 ++ d2) None s.
Proof.
  intros H. destruct d1 as [|x d1]; [done|]. destruct d2 as [|y d2]; [by rewrite app_nil_r|]. by apply feed_app.
Qed.

Lemma feed_data_checksum d dest s : s.(checksum) <> None -> (feed_data d dest s).(checksum) <> None.
Proof. intros H. destruct d; [done|]. simpl. by destruct s.(checksum). Qed.

Lemma feed_data_pos a n dest s :
  0 <= a -> 0 < n -> a + n <= size -> feed_data (bytes_at a n) dest s = feed (bytes_at a n) dest s.
Proof.
  intros Ha Hn Hin. pose proof (bytes_at_length a n Ha ltac:(lia) Hin).
  by destruct (bytes_at a n); [simpl in *; lia|].
Qed.

Lemma chunks_loop_in i la dl fuel : forall a n s,
  s.(checksum) <> None -> 0 <= a -> 0 <= n -> n mod 4 = 0 -> a + n <= size -> size < 2 ^ 32 ->
  n < Z.of_nat fuel * SPI_FLASH_MMU_PAGE_SIZE ->
  (e.(build) && dl = true -> n <= (e.(rd).(free_pages) i - 1) * SPI_FLASH_MMU_PAGE_SIZE) ->
  chunks_loop e fuel (e.(rd).(free_pages) i) la a n dl s =
  Good (feed_data (bytes_at a n) (if e.(build) && dl then Some la else None) s).
Proof.
  pose proof (pages_in i) as Hp. induction fuel as [|fuel IH]; intros a n s Hc Ha Hn H4 Hin Hs Hf Hd.
  - replace n with 0 by lia. done.
  - assert (Ho : 0 <= off_page a <= 1) by (unfold off_page; destruct (negb _); lia).
    cbn [chunks_loop]. fold (off_page a). destruct (Z.leb_spec n 0) as [Hz|Hz]; [replace n with 0 by lia; done|].
    unfold SPI_FLASH_MMU_PAGE_SIZE in *.
    rewrite (u32_small (_ - _)), (u32_small (_ * _)) by lia.
    set (k := Z.min n ((e.(rd).(free_pages) i - off_page a) * 0x10000)).
    assert (Hk4 : k mod 4 = 0).
    { subst k. destruct (Z.min_spec n ((e.(rd).(free_pages) i - off_page a) * 0x10000)) as [[_ ->]|[_ ->]]; [done|].
      change 0x10000 with (16384 * 4). rewrite Z.mul_assoc. apply Z.mod_mul. lia. }
    rewrite (process_segment_data_in i) by (done || unfold SPI_FLASH_MMU_PAGE_SIZE; lia). cbn [rbind].
    rewrite u32_small by lia. rewrite <- feed_data_pos by lia. destruct (Z.eq_dec k n) as [->|Hne].
    + rewrite Z.sub_diag. by destruct fuel.
    + assert (Hl : 65536 <= k < n) by lia. destruct (e.(build) && dl) eqn:Hb; [specialize (Hd eq_refl); lia|].
      rewrite IH by (try apply feed_data_checksum; try (rewrite Zminus_mod, H4, Hk4); done || lia). rewrite feed_data_app by (apply bytes_at_whole; lia).
      rewrite bytes_at_split by lia. do 3 f_equal. lia.
Qed.

(** A segment that may be loaded fits the memory it goes to. *)
Lemma verify_load_span n la le : verify_load_addresses e n la le = Good true -> 0 <= le - la <= 0x78000 /\ (la < le -> 0 < la).
Proof.
  assert (Hr : forall lo hi, 0 < lo -> hi - lo <= 0x78000 -> (lo <=? la) && (la <? hi) && ((lo <=? le - 1) && (le - 1 <? hi)) = true ->
            la < le -> 0 <= le - la <= 0x78000 /\ (la < le -> 0 < la)).
  { intros lo hi Hlo Hs H ?. apply andb_true_iff in H as [[H1 H2]%andb_true_iff [H3 H4]%andb_true_iff].
    apply Z.leb_le in H1, H3. apply Z.ltb_lt in H2, H4. lia. }
  destruct n; cbn [verify_load_addresses]; destruct (Z.eqb_spec le la); [lia| |lia|];
    (destruct (Z.ltb_spec la le); cbn [negb]; [|done]);
    (destruct (esp_ptr_in_dram la && esp_ptr_in_dram (le - 1)) eqn:Hd;
      [intros _; by apply (Hr SOC_DRAM_LOW SOC_DRAM_HIGH)|]);
    (destruct (esp_ptr_in_iram la && esp_ptr_in_iram (le - 1)) eqn:Hi;
      [intros _; by apply (Hr SOC_IRAM_LOW SOC_IRAM_HIGH)|]);
    intros [= [[Ho|Ho]%orb_true_iff|Ho]%orb_true_iff];
    [by apply (Hr SOC_RTC_IRAM_LOW SOC_RTC_IRAM_HIGH)|by apply (Hr SOC_RTC_DRAM_LOW SOC_RTC_DRAM_HIGH)|
     by apply (Hr SOC_RTC_DATA_LOW SOC_RTC_DATA_HIGH)|by apply (Hr SOC_RTC_IRAM_LOW SOC_RTC_IRAM_HIGH)|
     by apply (Hr SOC_RTC_DRAM_LOW SOC_RTC_DRAM_HIGH)|by apply (Hr SOC_RTC_DATA_LOW SOC_RTC_DATA_HIGH)].
Qed.

(** ** Segments *)

Definition segment_bytes (sg : Z * list Z) : list Z :=
  Md5.bytes32 sg.1 ++ Md5.bytes32 (Z.of_nat (length sg.2)) ++ sg.2.

Definition seg_header (sg : Z * list Z) : esp_image_segment_header_t := mk_segment sg.1 (Z.of_nat (length sg.2)).

(** [a]: where the segment's header lies. *)
Record segment_ok (a : Z) (sg : Z * list Z) : Prop := {
  seg_addr : 0 <= sg.1 < 2 ^ 32;
  seg_whole : whole sg.2;
  seg_small : Z.of_nat (length sg.2) < SIXTEEN_MB;
  seg_bytes : Forall is_byte sg.2;
  seg_mapped : should_map sg.1 = true -> (a + 8) mod SPI_FLASH_MMU_PAGE_SIZE = sg.1 mod SPI_FLASH_MMU_PAGE_SIZE;
}.

Definition load_ok (dl : bool) (sg : Z * list Z) : Prop :=
  e.(build) && (dl && should_load e sg.1) = true -> sg.2 <> [] ->
  verify_load_addresses e 1 (i32 sg.1) (i32 (i32 sg.1 + Z.of_nat (length sg.2))) = Good true.

Definition run_segment (dl : bool) (sg : Z * list Z) (s : loader) : loader :=
  feed_data sg.2 (if e.(build) && (dl && should_load e sg.1) then Some (i32 sg.1) else None)
    (mk_loader ((fun h => h ++ Md5.bytes32 sg.1 ++ Md5.bytes32 (Z.of_nat (length sg.2))) <$> s.(sha))
       s.(checksum) s.(ram) s.(obfs)).

Lemma segment_bytes_length sg : Z.of_nat (length (segment_bytes sg)) = 8 + Z.of_nat (length sg.2).
Proof. unfold segment_bytes. rewrite !length_app. simpl. lia. Qed.

Lemma le32_range b0 b1 b2 b3 : Forall is_byte [b0; b1; b2; b3] -> 0 <= Md5.le32 [b0; b1; b2; b3] < 2 ^ 32.
Proof. rewrite !Forall_cons. unfold is_byte, Md5.le32. lia. Qed.

(** The header bytes are the encoding of what is read from them. *)
Lemma header_bytes b :
  Forall is_byte b -> length b = 8%nat ->
  b = Md5.bytes32 (segment_of_bytes b).(load_addr) ++ Md5.bytes32 (segment_of_bytes b).(data_len) /\
  0 <= (segment_of_bytes b).(load_addr) < 2 ^ 32 /\ 0 <= (segment_of_bytes b).(data_len) < 2 ^ 32.
Proof.
  intros Hb Hl. do 8 (destruct b as [|? b]; [done|]). destruct b; [|done].
  pose proof (Forall_take _ 4 _ Hb) as H0. pose proof (Forall_drop _ 4 _ Hb) as H4. cbn in H0, H4.
  split_and!; [unfold segment_of_bytes, word; cbn [load_addr data_len take drop]; by rewrite !EspOta.bytes32_le32|
    by apply le32_range..|by apply le32_range].
Qed.

Lemma header_decoded sg d :
  0 <= sg.1 < 2 ^ 32 -> Z.of_nat (length sg.2) < 2 ^ 32 ->
  segment_of_bytes (Md5.bytes32 sg.1 ++ Md5.bytes32 (Z.of_nat (length sg.2)) ++ d) = seg_header sg.
Proof.
  intros H1 H2. unfold segment_of_bytes, word, seg_header. f_equal; cbn [app take drop Md5.bytes32];
    apply EspOta.le32_bytes32; lia.
Qed.

Lemma verify_segment_header_ok h o :
  esp_failed (verify_segment_header h o) = false <->
  h.(data_len) mod 4 = 0 /\ h.(data_len) < SIXTEEN_MB /\
  (should_map h.(load_addr) = true -> o mod SPI_FLASH_MMU_PAGE_SIZE = h.(load_addr) mod SPI_FLASH_MMU_PAGE_SIZE).
Proof.
  rewrite esp_failed_false. unfold verify_segment_header. change 3 with (Z.ones 2). rewrite Z.land_ones by lia.
  change (2 ^ 2) with 4. destruct (Z.eqb_spec (h.(data_len) mod 4) 0); [|split; [done|tauto]].
  destruct (Z.leb_spec SIXTEEN_MB h.(data_len)); [split; [done|lia]|]. cbn [negb orb].
  destruct (should_map h.(load_addr)); cbn [andb]; [|by split; [intros _; split_and!|]].
  destruct (Z.eqb_spec (o mod SPI_FLASH_MMU_PAGE_SIZE) (h.(load_addr) mod SPI_FLASH_MMU_PAGE_SIZE)) as [Heq|Hne]; cbn [negb].
  - by split; [intros _; split_and!|].
  - split; [done|]. intros (_ & _ & Hm). by destruct Hne, Hm.
Qed.

Context (boot_pages : e.(build) = true -> forall i, 9 <= e.(rd).(free_pages) i).

(** The header is read from [b]; what follows needs the data to be on the chip. *)
Lemma process_segment_read i a dl s b :
  e.(rd).(flash_read) a 8 = Good b -> s.(checksum) <> None -> 0 <= a -> size < 2 ^ 32 ->
  let h := segment_of_bytes b in
  a + 8 + h.(data_len) <= size ->
  h.(data_len) mod 4 = 0 -> h.(data_len) < SIXTEEN_MB ->
  (should_map h.(load_addr) = true -> (a + 8) mod SPI_FLASH_MMU_PAGE_SIZE = h.(load_addr) mod SPI_FLASH_MMU_PAGE_SIZE) ->
  let sg := (h.(load_addr), bytes_at (a + 8) h.(data_len)) in
  load_ok dl sg -> process_segment e i a dl s = Good (h, run_segment dl sg s).
Proof.
  intros Hr Hc Ha Hs h Hin H4 Hlt Hmap sg Hld. destruct (read_bytes a 8 b Ha ltac:(lia) Hr) as [Hb Hl].
  destruct (header_bytes b Hb ltac:(lia)) as (Eb & Hla & Hlen). fold h in Eb, Hla, Hlen.
  assert (Hd : Z.of_nat (length sg.2) = h.(data_len)) by (apply bytes_at_length; lia).
  assert (He : 0 < h.(data_len) -> sg.2 <> []) by (intros Hz E; rewrite E in Hd; change (0 = h.(data_len)) in Hd; lia).
  unfold process_segment. rewrite Hr. cbn [rbind]. rewrite sha_data_spec by (apply whole_Z; by rewrite Hl).
  cbn [rbind]. fold h. rewrite u32_small by lia. rewrite (proj2 (verify_segment_header_ok h (a + 8))) by done.
  rewrite H4. cbn [Z.eqb negb].
  assert (Hv : (if e.(build) && (dl && should_load e h.(load_addr)) && (0 <? h.(data_len))
                then verify_load_addresses e 1 (i32 h.(load_addr)) (i32 (i32 h.(load_addr) + h.(data_len)))
                else Good true) = Good true).
  { destruct (e.(build) && (dl && should_load e h.(load_addr))) eqn:E; [|done].
    destruct (Z.ltb_spec 0 h.(data_len)); [|done]. rewrite <- Hd. apply Hld; auto. }
  rewrite Hv. cbn [rbind negb]. rewrite chunks_loop_in; [|by destruct s as [? [] ? ?]|lia..| |].
  - cbn [rbind]. unfold run_segment. change sg.1 with h.(load_addr). rewrite Hd. by rewrite <- Eb.
  - unfold chunks_fuel, SPI_FLASH_MMU_PAGE_SIZE. pose proof (Z.div_pos h.(data_len) 65536 ltac:(lia) ltac:(lia)).
    rewrite Nat2Z.inj_succ, Z2Nat.id by lia. pose proof (Z.mod_pos_bound h.(data_len) 65536).
    pose proof (Z.div_mod h.(data_len) 65536). lia.
  - intros E. apply andb_true_iff in E as E2. destruct E2 as [Eb' _]. pose proof (boot_pages Eb' i) as Hp.
    rewrite E in Hv. destruct (Z.ltb_spec 0 h.(data_len)) as [Hz|Hz]; [|unfold SPI_FLASH_MMU_PAGE_SIZE; lia].
    cbn [andb] in Hv. apply verify_load_span in Hv as [Hspan _]. pose proof (i32_range h.(load_addr)) as Hi.
    revert Hspan. generalize (i32 h.(load_addr)) as la, Hi. intros la Hi' Hspan. unfold SPI_FLASH_MMU_PAGE_SIZE, SIXTEEN_MB in *.
    unfold i32 in Hspan. Z.to_euclidean_division_equations; lia.
Qed.

Lemma process_segment_inv i a dl s h s' :
  process_segment e i a dl s = Good (h, s') -> 0 <= a ->
  exists b, e.(rd).(flash_read) a 8 = Good b /\ h = segment_of_bytes b /\
    h.(data_len) mod 4 = 0 /\ 0 <= h.(data_len) < SIXTEEN_MB /\ 0 <= h.(load_addr) < 2 ^ 32 /\
    (should_map h.(load_addr) = true ->
     u32 (a + 8) mod SPI_FLASH_MMU_PAGE_SIZE = h.(load_addr) mod SPI_FLASH_MMU_PAGE_SIZE) /\
    (e.(build) && (dl && should_load e h.(load_addr)) = true -> 0 < h.(data_len) ->
     verify_load_addresses e 1 (i32 h.(load_addr)) (i32 (i32 h.(load_addr) + h.(data_len))) = Good true).
Proof.
  intros H Ha. unfold process_segment in H. destruct (e.(rd).(flash_read) a 8) as [b| | | |] eqn:Hr; try done.
  destruct (read_bytes a 8 b Ha ltac:(lia) Hr) as [Hb Hl]. destruct (header_bytes b Hb ltac:(lia)) as (_ & Hla & Hlen).
  cbn [rbind] in H. rewrite sha_data_spec in H by (apply whole_Z; by rewrite Hl). cbn [rbind] in H.
  destruct (esp_failed _) eqn:Hv; [done|]. apply verify_segment_header_ok in Hv as (H4 & Hlt & Hmap).
  rewrite H4 in H. cbn [Z.eqb negb] in H. destruct (if _ : bool then _ else Good true) as [[]| | | |] eqn:Hld; try done.
  cbn [rbind negb] in H. destruct (chunks_loop _ _ _ _ _ _ _ _) eqn:Hch; try done.
  cbn [rbind] in H. injection H as <- _. exists b. split_and!; try done; try lia.
  intros E Hz. rewrite E, (proj2 (Z.ltb_lt _ _) Hz) in Hld. cbn [andb] in Hld. exact Hld.
Qed.

Context (c_bytes : Forall is_byte c).

Lemma process_segment_forward i a dl s h s' :
  process_segment e i a dl s = Good (h, s') -> s.(checksum) <> None -> 0 <= a -> a mod 4 = 0 -> size < 2 ^ 32 ->
  a + 8 + h.(data_len) <= size ->
  exists sg, segment_ok a sg /\ load_ok dl sg /\ bytes_at a (8 + h.(data_len)) = segment_bytes sg /\
    h = seg_header sg /\ s' = run_segment dl sg s.
Proof.
  intros H Hc Ha Ha4 Hs Hin. destruct (process_segment_inv _ _ _ _ _ _ H Ha) as (b & Hr & -> & H4 & Hlt & Hla & Hmap & Hld).
  rewrite u32_small in Hmap by lia. set (h := segment_of_bytes b) in *. set (d := bytes_at (a + 8) h.(data_len)).
  assert (Hd : Z.of_nat (length d) = h.(data_len)) by (apply bytes_at_length; lia).
  assert (Hlk : load_ok dl (h.(load_addr), d)).
  { intros E Hne. cbn [fst snd] in *. rewrite Hd. apply Hld; [done|].
    assert (length d <> 0%nat) by (by intros ?%nil_length_inv). lia. }
  assert (Eb : b = bytes_at a 8) by (rewrite (read_in a 8) in Hr by (done || lia); by injection Hr).
  destruct (read_bytes a 8 b Ha ltac:(lia) Hr) as [Hb Hl]. destruct (header_bytes b Hb ltac:(lia)) as (E8 & _). fold h in E8.
  exists (h.(load_addr), d). split_and!.
  - constructor; cbn [fst snd]; [done|by apply whole_Z; rewrite Hd|lia|by apply Forall_take, Forall_drop|done].
  - done.
  - unfold segment_bytes. cbn [fst snd]. rewrite Hd, app_assoc, <- E8, Eb at 1. symmetry. apply bytes_at_split; lia.
  - unfold seg_header. cbn [fst snd]. rewrite Hd. by destruct h.
  - pose proof (process_segment_read i a dl s b Hr Hc Ha Hs Hin H4 (proj2 Hlt) Hmap Hlk) as E. rewrite H in E. by injection E.
Qed.

Lemma process_segment_backward i a dl s sg :
  segment_ok a sg -> load_ok dl sg -> bytes_at a (8 + Z.of_nat (length sg.2)) = segment_bytes sg ->
  s.(checksum) <> None -> 0 <= a -> a mod 4 = 0 -> size < 2 ^ 32 -> a + 8 + Z.of_nat (length sg.2) <= size ->
  process_segment e i a dl s = Good (seg_header sg, run_segment dl sg s).
Proof.
  intros [Ha1 Hw Hsm Hby Hmap] Hld Hsl Hc Ha Ha4 Hs Hin. unfold SIXTEEN_MB in Hsm.
  rewrite <- bytes_at_split in Hsl by lia. unfold segment_bytes in Hsl. rewrite app_assoc in Hsl.
  apply app_inj_1 in Hsl as [H8 Hd]; [|by rewrite slice_length by lia].
  assert (Hh : segment_of_bytes (bytes_at a 8) = seg_header sg).
  { rewrite H8, <- (app_nil_r (_ ++ _)), <- app_assoc. apply header_decoded; lia. }
  assert (Hr : e.(rd).(flash_read) a 8 = Good (bytes_at a 8)) by (apply read_in; done || lia).
  pose proof (process_segment_read i a dl s _ Hr Hc Ha Hs) as E.
  cbv zeta in E. rewrite Hh in E. cbn [seg_header data_len load_addr] in E. rewrite Hd, <- surjective_pairing in E.
  apply E; try done. by apply whole_Z.
Qed.

(** ** The sequence of segments *)

Fixpoint segments_ok (a : Z) (segs : list (Z * list Z)) : Prop :=
  match segs with
  | [] => True
  | sg :: segs => segment_ok a sg /\ segments_ok (a + (8 + Z.of_nat (length sg.2))) segs
  end.

Definition segs_bytes (segs : list (Z * list Z)) : list Z := concat (map segment_bytes segs).

Fixpoint offsets (a : Z) (segs : list (Z * list Z)) : list Z :=
  match segs with
  | [] => []
  | sg :: segs => (a + 8) :: offsets (a + (8 + Z.of_nat (length sg.2))) segs
  end.

Definition run_segments (dl : bool) (segs : list (Z * list Z)) (s : loader) : loader :=
  fold_left (fun s sg => run_segment dl sg s) segs s.

Lemma run_segment_checksum dl sg s : s.(checksum) <> None -> (run_segment dl sg s).(checksum) <> None.
Proof. intros H. by apply feed_data_checksum. Qed.

Definition most (n : nat) : Z := Z.of_nat n * (8 + SIXTEEN_MB).

Lemma segments_loop_grows dl n : forall i a hs os s hs' os' fin s',
  segments_loop e n i a dl hs os s = Good (hs', os', fin, s') -> 0 <= a -> a + most n < 2 ^ 32 ->
  a <= fin <= a + most n /\ (fin - a) mod 4 = 0.
Proof.
  unfold most, SIXTEEN_MB. induction n as [|n IH]; intros i a hs os s hs' os' fin s' H Ha Hb; cbn [segments_loop] in H.
  - injection H as <- <- <- <-. rewrite Z.sub_diag. split; [lia|done].
  - destruct (_ <=? _); [done|]. destruct (process_segment e i a dl s) as [[h s1]| | | |] eqn:Hp; try done.
    cbn [rbind] in H. destruct (process_segment_inv _ _ _ _ _ _ Hp Ha) as (b & _ & _ & Hh4 & Hlt & _).
    unfold SIXTEEN_MB in Hlt. rewrite (u32_small (a + 8)), u32_small in H by lia. apply IH in H as [Hg H4]; [|lia..].
    split; [lia|]. Z.to_euclidean_division_equations. lia.
Qed.

Lemma segments_loop_forward dl n : forall i a hs os s hs' os' fin s',
  segments_loop e n i a dl hs os s = Good (hs', os', fin, s') ->
  s.(checksum) <> None -> 0 <= a -> a mod 4 = 0 -> a + most n < 2 ^ 32 -> size < 2 ^ 32 -> fin <= size ->
  exists segs, length segs = n /\ segments_ok a segs /\ Forall (load_ok dl) segs /\
    bytes_at a (fin - a) = segs_bytes segs /\ hs' = hs ++ map seg_header segs /\ os' = os ++ offsets a segs /\
    fin = a + Z.of_nat (length (segs_bytes segs)) /\ s' = run_segments dl segs s.
Proof.
  unfold most. induction n as [|n IH]; intros i a hs os s hs' os' fin s' H Hc Ha H4 Hb Hs Hfin; cbn [segments_loop] in H.
  - injection H as <- <- <- <-. exists []. rewrite Z.sub_diag, !app_nil_r. split_and!; simpl; done || lia.
  - destruct (_ <=? _); [done|]. destruct (process_segment e i a dl s) as [[h s1]| | | |] eqn:Hp; try done.
    cbn [rbind] in H. destruct (process_segment_inv _ _ _ _ _ _ Hp Ha) as (b & _ & _ & Hh4 & Hlt & _).
    unfold SIXTEEN_MB in *. rewrite (u32_small (a + 8)), u32_small in H by lia.
    pose proof (segments_loop_grows _ _ _ _ _ _ _ _ _ _ _ H ltac:(lia) ltac:(unfold most, SIXTEEN_MB; lia)) as [Hg _].
    destruct (process_segment_forward _ _ _ _ _ _ Hp Hc Ha H4 Hs ltac:(lia)) as (sg & Hok & Hld & Hsl & -> & ->).
    cbn [seg_header data_len] in *.
    apply IH in H as (segs & Hn & Hoks & Hlds & Hsls & -> & -> & Hf & ->);
      [|by apply run_segment_checksum|lia|rewrite <- Z.add_assoc, Z.add_mod, H4, (Z.add_mod 8), Hh4 by lia; done|lia|done|done].
    rewrite <- Z.add_assoc in *. exists (sg :: segs). split_and!; cbn [map offsets segments_ok]; [simpl; lia|done|by constructor| | | | |done].
    + unfold segs_bytes. cbn [map concat]. fold (segs_bytes segs). rewrite <- Hsl, <- Hsls, bytes_at_split by lia. do 2 f_equal. lia.
    + by rewrite <- app_assoc.
    + by rewrite <- app_assoc.
    + unfold segs_bytes in *. cbn [map concat]. rewrite length_app, Nat2Z.inj_add, segment_bytes_length. lia.
Qed.

(** Any number of good segments in front. *)
Lemma segments_loop_backward dl n segs : forall i a hs os s,
  segments_ok a segs -> Forall (load_ok dl) segs -> bytes_at a (Z.of_nat (length (segs_bytes segs))) = segs_bytes segs ->
  Z.of_nat (i + length segs) <= 16 ->
  s.(checksum) <> None -> 0 <= a -> a mod 4 = 0 -> size < 2 ^ 32 -> a + Z.of_nat (length (segs_bytes segs)) <= size ->
  segments_loop e (length segs + n) i a dl hs os s =
  segments_loop e n (i + length segs) (a + Z.of_nat (length (segs_bytes segs))) dl (hs ++ map seg_header segs)
    (os ++ offsets a segs) (run_segments dl segs s).
Proof.
  induction segs as [|sg segs IH]; intros i a hs os s Hok Hld Hsl Hi Hc Ha H4 Hs Hin.
  - simpl. by rewrite !app_nil_r, Z.add_0_r, Nat.add_0_r.
  - destruct Hok as [Hok Hoks]. apply Forall_cons in Hld as [Hld Hlds]. cbn [segments_loop length Nat.add] in *.
    unfold segs_bytes in Hsl, Hin |- *. cbn [map concat] in *. fold (segs_bytes segs) in *.
    rewrite length_app, Nat2Z.inj_add, segment_bytes_length in *.
    rewrite <- bytes_at_split in Hsl by lia. apply app_inj_1 in Hsl as [Hsl Hsls];
      [|apply Nat2Z.inj; rewrite bytes_at_length, segment_bytes_length; lia].
    destruct (Z.leb_spec ESP_IMAGE_MAX_SEGMENTS (Z.of_nat i)); [unfold ESP_IMAGE_MAX_SEGMENTS in *; lia|].
    rewrite (process_segment_backward i a dl s sg) by (done || lia). cbn [rbind seg_header data_len].
    destruct Hok as [_ Hw%whole_Z Hsm _ _]. rewrite (u32_small (a + 8)), u32_small by lia. rewrite <- (Z.add_assoc a 8).
    rewrite IH by (try apply run_segment_checksum; try (rewrite Z.add_mod, H4, (Z.add_mod 8), Hw by lia); done || lia).
    cbn [offsets map]. rewrite <- !app_assoc, <- Z.add_assoc, <- Nat.add_succ_comm. done.
Qed.

Lemma run_segment_sha dl sg s : (run_segment dl sg s).(sha) = (fun h => h ++ segment_bytes sg) <$> s.(sha).
Proof.
  unfold run_segment, feed_data, segment_bytes, feed. destruct sg as [a [|x d]], s as [[h|] cs m o]; cbn [sha fmap option_fmap option_map fst snd];
    by rewrite ?app_nil_r, <- ?app_assoc.
Qed.

Lemma run_segments_sha dl segs : forall s, (run_segments dl segs s).(sha) = (fun h => h ++ segs_bytes segs) <$> s.(sha).
Proof.
  induction segs as [|sg segs IH]; intros s.
  - destruct s as [[h|] cs m o]; [|done]. cbn. by rewrite app_nil_r.
  - change (run_segments dl (sg :: segs) s) with (run_segments dl segs (run_segment dl sg s)).
    rewrite IH, run_segment_sha. unfold segs_bytes. cbn [map concat]. destruct s.(sha); cbn; by rewrite <- ?app_assoc.
Qed.

Lemma run_segments_sum dl segs : forall a s w,
  segments_ok a segs -> s.(checksum) = Some w ->
  exists w', (run_segments dl segs s).(checksum) = Some w' /\ fold8 w' = xor_bytes (fold8 w) (concat (map snd segs)).
Proof.
  induction segs as [|sg segs IH]; intros a s w Hok Hs; [by exists w|]. destruct Hok as [[_ Hw _ Hb _] Hoks].
  change (run_segments dl (sg :: segs) s) with (run_segments dl segs (run_segment dl sg s)).
  assert (Hc : (run_segment dl sg s).(checksum) = Some (xor_words w (words sg.2))).
  { unfold run_segment, feed_data. destruct sg as [x [|y d]]; [done|]. cbn [feed checksum]. by rewrite Hs. }
  destruct (IH _ _ _ Hoks Hc) as (w' & Hw' & Hf). exists w'. split; [done|]. rewrite Hf, (fold8_words _ Hw Hb).
  cbn [map concat]. unfold xor_bytes. by rewrite fold_left_app.
Qed.

(** ** Images *)

Record app_image := mk_image { hdr : list Z; segs : list (Z * list Z); pad : list Z }.

Definition header (img : app_image) : esp_image_header_t := header_of_bytes img.(hdr).
Definition body (img : app_image) : list Z := img.(hdr) ++ segs_bytes img.(segs).
Definition sum_of (img : app_image) : Z := xor_bytes ESP_ROM_CHECKSUM_INITIAL (concat (map snd img.(segs))).
Definition sealed (img : app_image) : list Z := body img ++ img.(pad) ++ [sum_of img].
Definition has_hash (img : app_image) : bool := negb ((header img).(hash_appended) =? 0).
Definition digest (img : app_image) : list Z := if has_hash img then e.(sha256) (sealed img) else [].
Definition encode (img : app_image) : list Z := sealed img ++ digest img.

(** An image placed at [off]. *)
Record image_wf (off : Z) (img : app_image) : Prop := {
  wf_hdr : length img.(hdr) = 24%nat;
  wf_header : verify_image_header (header img) = ESP_OK;
  wf_count : (header img).(segment_count) = Z.of_nat (length img.(segs));
  wf_segs : segments_ok (off + 24) img.(segs);
  wf_pad : Z.of_nat (length img.(pad)) = 15 - Z.of_nat (length (body img)) mod 16;
}.

Definition metadata (off : Z) (img : app_image) : esp_image_metadata_t :=
  mk_metadata off (header img) (map seg_header img.(segs)) (offsets (off + 24) img.(segs))
    (Z.of_nat (length (encode img))) (digest img).

(** The image lies at [off] in the chip. *)
Definition stored (off : Z) (img : app_image) : Prop :=
  bytes_at off (Z.of_nat (length (encode img))) = encode img.

Context (sha_length : forall l, length (e.(sha256) l) = 32%nat).
Context (sha_starts : e.(sha_start) = true).
Context (no_debugger : e.(ocd) = false).

Lemma process_image_header_inv off s data s1 :
  process_image_header e off true true s = Good (data, s1) -> 0 < off ->
  exists b, e.(rd).(flash_read) off 24 = Good b /\ verify_image_header (header_of_bytes b) = ESP_OK /\
    data = mk_metadata off (header_of_bytes b) [] [] 24 [] /\
    s1 = mk_loader (if (header_of_bytes b).(hash_appended) =? 0 then s.(sha) else Some b) s.(checksum) s.(ram) s.(obfs).
Proof.
  intros H Ho. unfold process_image_header in H. destruct (e.(rd).(flash_read) off 24) as [b| | | |] eqn:Hr; try done.
  destruct (read_bytes off 24 b ltac:(lia) ltac:(lia) Hr) as [Hb Hl]. cbn [rbind] in H. rewrite sha_starts, andb_true_r in H.
  exists b. destruct (Z.eqb_spec (header_of_bytes b).(hash_appended) 0) as [Hz|Hz]; cbn [negb] in H.
  - cbn [rbind] in H. destruct (esp_failed _) eqn:Hv; [done|]. injection H as <- <-. apply esp_failed_false in Hv.
    split_and!; try done. by destruct s.
  - rewrite (sha_data_some b []) in H by (apply whole_Z; by rewrite Hl). cbn [rbind] in H.
    destruct (esp_failed _) eqn:Hv; [done|]. injection H as <- <-. apply esp_failed_false in Hv. by split_and!.
Qed.

(** The length of the padding and the checksum byte. *)
Definition tail_len (n : Z) : Z := 16 - n mod 16.

Lemma tail_len_code n :
  0 <= n < 2 ^ 31 -> u32 (Z.land (u32 (u32 (n + 1) + 15)) (u32 (Z.lnot 15)) - n) = tail_len n.
Proof.
  intros Hn. rewrite (u32_small (n + 1)), (u32_small (n + 1 + 15)) by lia.
  change (u32 (Z.lnot 15)) with (Z.shiftl (Z.ones 28) 4). rewrite land_mask by lia.
  rewrite (Z.mod_small (_ / _)) by (split; [apply Z.div_pos; lia|apply Z.div_lt_upper_bound; lia]).
  unfold tail_len. change (2 ^ 4) with 16. rewrite u32_small; Z.to_euclidean_division_equations; lia.
Qed.

Lemma tail_len_range n : 1 <= tail_len n <= 16.
Proof. unfold tail_len. pose proof (Z.mod_pos_bound n 16). lia. Qed.

Lemma tail_len_mod n : n mod 4 = 0 -> tail_len n mod 4 = 0.
Proof. unfold tail_len. intros H. Z.to_euclidean_division_equations. lia. Qed.

Definition grown (data : esp_image_metadata_t) (n : Z) : esp_image_metadata_t :=
  mk_metadata data.(start_addr) data.(image) data.(segments) data.(segment_data) (data.(image_len) + n) data.(image_digest).

Lemma process_checksum_read w data s buf :
  let n := data.(image_len) in
  0 <= n < 2 ^ 31 -> 0 <= data.(start_addr) < 2 ^ 31 -> n mod 4 = 0 ->
  e.(rd).(flash_read) (data.(start_addr) + n) (tail_len n) = Good buf ->
  process_checksum e w data false s =
  if fold8 w =? byte buf (Z.to_nat (tail_len n - 1))
  then Good (grown data (tail_len n), mk_loader ((fun h => h ++ buf) <$> s.(sha)) s.(checksum) s.(ram) s.(obfs))
  else Err ESP_ERR_IMAGE_INVALID.
Proof.
  intros n Hn Hs H4 Hr. pose proof (tail_len_range n) as Ht. unfold process_checksum. fold n.
  rewrite tail_len_code by done. cbn [negb orb andb]. rewrite (u32_small (data.(start_addr) + n)), Hr by lia. cbn [rbind]. fold (fold8 w).
  destruct (fold8 w =? _); cbn [negb]; [|done].
  destruct (read_bytes (data.(start_addr) + n) (tail_len n) buf ltac:(lia) ltac:(lia) Hr) as [_ Hl]. rewrite sha_data_spec.
  - cbn [rbind]. rewrite u32_small by lia. done.
  - apply whole_Z. rewrite Hl. by apply tail_len_mod.
Qed.

Lemma process_checksum_inv w data s data' s' :
  process_checksum e w data false s = Good (data', s') ->
  0 <= data.(image_len) < 2 ^ 31 -> 0 <= data.(start_addr) < 2 ^ 31 ->
  exists buf, e.(rd).(flash_read) (data.(start_addr) + data.(image_len)) (tail_len data.(image_len)) = Good buf.
Proof.
  intros H Hn Hs. unfold process_checksum in H. rewrite tail_len_code, (u32_small (_.(start_addr) + _)) in H by lia.
  cbn [negb orb andb] in H. destruct (e.(rd).(flash_read) _ _) as [buf| | | |]; try done. by exists buf.
Qed.

Lemma byte_range b i : Forall is_byte b -> 0 <= byte b i < 256.
Proof.
  intros Hb. unfold byte. destruct (nth_in_or_default i b 0) as [Hi|Hi]; [|rewrite Hi; lia].
  by apply (proj1 (List.Forall_forall _ _) Hb).
Qed.

Lemma header_count b :
  Forall is_byte b -> verify_image_header (header_of_bytes b) = ESP_OK ->
  0 <= (header_of_bytes b).(segment_count) <= 16.
Proof.
  intros Hb H. split; [by apply byte_range|]. unfold verify_image_header, ESP_IMAGE_MAX_SEGMENTS in H.
  destruct (negb _); [done|]. destruct (esp_failed _) eqn:Hf; [by rewrite H in Hf|].
  destruct (Z.ltb_spec 16 (header_of_bytes b).(segment_count)); [done|lia].
Qed.

Lemma process_segments_inv off h dl s data s1 :
  process_segments e (mk_metadata off h [] [] 24 []) dl s = Good (data, s1) ->
  0 <= off < 2 ^ 31 -> 0 <= h.(segment_count) <= 16 ->
  exists hs os fin,
    segments_loop e (Z.to_nat h.(segment_count)) 0 (off + 24) dl [] [] s = Good (hs, os, fin, s1) /\
    data = mk_metadata off h hs os (fin - off) [] /\ off + 24 <= fin <= off + 24 + most 16 /\ (fin - off) mod 4 = 0.
Proof.
  intros H Ho Hc. unfold process_segments in H. cbn [start_addr image_len image] in H. rewrite (u32_small (off + 24)) in H by lia.
  destruct (segments_loop _ _ _ _ _ _ _ _) as [[[[hs os] fin] s2]| | | |] eqn:Hl; try done. cbn [rbind] in H.
  assert (Hm : most (Z.to_nat h.(segment_count)) <= most 16) by (unfold most, SIXTEEN_MB; lia).
  pose proof (segments_loop_grows _ _ _ _ _ _ _ _ _ _ _ Hl ltac:(lia) ltac:(unfold most, SIXTEEN_MB in *; lia)) as [Hg H4].
  destruct (fin <? off); [done|]. injection H as <- <-. exists hs, os, fin. unfold most, SIXTEEN_MB in *.
  split_and!; [done| |lia|lia|Z.to_euclidean_division_equations; lia]. rewrite (u32_small (_ - _)), u32_small by lia. f_equal. lia.
Qed.

Definition start_state (img : app_image) (m : gmap Z Z) (o : Z * Z) : loader :=
  mk_loader (if has_hash img then Some img.(hdr) else None) (Some ESP_ROM_CHECKSUM_INITIAL) m o.

(** Memory after the segments of the image were loaded. *)
Definition loaded_ram (dl : bool) (img : app_image) (m : gmap Z Z) (o : Z * Z) : gmap Z Z :=
  let s := run_segments dl img.(segs) (start_state img m o) in
  if e.(build) && dl && negb (s.(obfs).1 =? 0) && negb (s.(obfs).2 =? 0)
  then deobfuscate e (map seg_header img.(segs)) s.(obfs) s.(ram) else s.(ram).

(** What an accepted partition holds, as far as the loader looked. *)
Lemma image_load_inv mode off psize m o data m' :
  verify_of e mode = true -> 0 < off < 2 ^ 31 -> image_load e mode off psize m o = Good (data, m') ->
  exists b hs os fin s1 buf dg,
    let h := header_of_bytes b in
    let n := fin - off in
    let hash := negb (h.(hash_appended) =? 0) in
    e.(rd).(flash_read) off 24 = Good b /\ verify_image_header h = ESP_OK /\
    segments_loop e (Z.to_nat h.(segment_count)) 0 (off + 24) (load_of e mode) [] []
      (mk_loader (if hash then Some b else None) (Some ESP_ROM_CHECKSUM_INITIAL) m o) = Good (hs, os, fin, s1) /\
    off + 24 <= fin <= off + 24 + most 16 /\ n mod 4 = 0 /\
    e.(rd).(flash_read) fin (tail_len n) = Good buf /\
    fold8 (default ESP_ROM_CHECKSUM_INITIAL s1.(checksum)) = byte buf (Z.to_nat (tail_len n - 1)) /\
    (if hash then e.(rd).(flash_read) (fin + tail_len n) 32 = Good dg else dg = []) /\
    n + tail_len n + (if hash then 32 else 0) <= psize /\
    data = mk_metadata off h hs os (n + tail_len n + (if hash then 32 else 0)) dg /\
    (hash = true -> forall x, s1.(sha) = Some x -> dg = e.(sha256) (x ++ buf)) /\
    m' = (if e.(build) && load_of e mode && negb (s1.(obfs).1 =? 0) && negb (s1.(obfs).2 =? 0)
          then deobfuscate e hs s1.(obfs) s1.(ram) else s1.(ram)).
Proof.
  intros Hv Ho H. unfold image_load in H. rewrite Hv, no_debugger in H. cbn [negb orb andb] in H.
  replace (off =? ESP_BOOTLOADER_OFFSET) with false in H by (symmetry; apply Z.eqb_neq; unfold ESP_BOOTLOADER_OFFSET; lia).
  cbn [negb andb] in H. destruct (SIXTEEN_MB <? psize); [done|].
  destruct (process_image_header _ _ _ _ _) as [[d0 s0]| | | |] eqn:Hh; try done. cbn [rbind] in H.
  destruct (process_image_header_inv _ _ _ _ Hh (proj1 Ho)) as (b & Hr & Hhv & -> & ->). cbn [sha checksum ram obfs] in *.
  destruct (process_segments _ _ _ _) as [[d1 s1]| | | |] eqn:Hp; try done. cbn [rbind] in H.
  apply process_segments_inv in Hp as (hs & os & fin & Hl & -> & Hfin & H4); [|lia|].
  2: { apply header_count; [|done]. apply (read_bytes off 24); done || lia. }
  destruct (process_checksum _ _ _ _ _) as [[d2 s2]| | | |] eqn:Hc; try done. cbn [rbind] in H.
  apply process_checksum_inv in Hc as Hb; [|cbn; unfold most, SIXTEEN_MB in *; lia..]. destruct Hb as [buf Hb].
  cbn [start_addr image_len] in Hb. replace (off + (fin - off)) with fin in Hb by lia.
  rewrite (process_checksum_read _ _ _ buf) in Hc;
    [|cbn [start_addr image_len]; try (replace (off + (fin - off)) with fin by lia); unfold most, SIXTEEN_MB in *; done || lia..].
  cbn [image_len] in Hc. destruct (Z.eqb_spec (fold8 (default ESP_ROM_CHECKSUM_INITIAL s1.(checksum)))
    (byte buf (Z.to_nat (tail_len (fin - off) - 1)))) as [Hsum|]; [|done]. injection Hc as <- <-.
  pose proof (tail_len_range (fin - off)) as Ht.
  unfold process_appended_hash, grown, HASH_LEN in H. cbn [start_addr image segments segment_data image_len image_digest sha ram obfs] in H.
  rewrite (u32_small (off + _)), (u32_small (fin - off + _ + 32)) in H by (unfold most, SIXTEEN_MB in *; lia).
  replace (off + (fin - off + tail_len (fin - off))) with (fin + tail_len (fin - off)) in H by lia.
  destruct (Z.eqb_spec (header_of_bytes b).(hash_appended) 0) as [Hz|Hz]; cbn [negb] in H.
  - cbn [rbind image_len segments] in H. destruct (Z.ltb_spec psize (fin - off + tail_len (fin - off))); [done|].
    cbn [rbind] in H. destruct (esp_failed _); [done|]. injection H as <- <-. exists b, hs, os, fin, s1, buf, []. cbv zeta.
    rewrite Hz. cbn [Z.eqb negb]. rewrite Z.add_0_r. split_and!; done || lia.
  - destruct (e.(rd).(flash_read) _ 32) as [dg| | | |] eqn:Hd; try done. cbn [rbind image_len segments] in H.
    destruct (Z.ltb_spec psize (fin - off + tail_len (fin - off) + 32)); [done|]. cbn [rbind] in H.
    destruct (esp_failed _) eqn:Hf; [done|]. injection H as <- <-. exists b, hs, os, fin, s1, buf, dg. cbv zeta.
    rewrite (proj2 (Z.eqb_neq _ _) Hz). cbn [negb]. split_and!; try (done || lia). intros _ x Hx.
    rewrite Hx in Hf. apply esp_failed_false in Hf. cbn [fmap option_fmap option_map] in Hf.
    unfold verify_simple_hash in Hf. cbn [image_digest] in Hf. by case_bool_decide.
Qed.

Lemma last_byte (buf : list Z) n : Z.of_nat (length buf) = n -> 1 <= n ->
  buf = take (Z.to_nat (n - 1)) buf ++ [byte buf (Z.to_nat (n - 1))].
Proof.
  intros Hl Hn. rewrite <- (take_drop (Z.to_nat (n - 1)) buf) at 1. f_equal.
  assert (Hd : length (drop (Z.to_nat (n - 1)) buf) = 1%nat) by (rewrite length_drop; lia).
  unfold byte. rewrite <- (take_drop (Z.to_nat (n - 1)) buf) at 2. rewrite app_nth2; rewrite length_take_le by lia; [|lia].
  rewrite Nat.sub_diag. by destruct (drop _ buf) as [|x [|]].
Qed.

Context (mode : esp_image_load_mode_t) (mode_verifies : verify_of e mode = true).
Context (off psize : Z) (off_range : 0 < off < 2 ^ 31) (off_aligned : off mod 4 = 0).
Context (part_inside : off + psize <= size) (chip_small : size < 2 ^ 32).
Abbreviation dl := (load_of e mode).

Lemma sealed_length img : Z.of_nat (length (sealed img)) = Z.of_nat (length (body img)) + Z.of_nat (length img.(pad)) + 1.
Proof. unfold sealed. rewrite !length_app. simpl. lia. Qed.

Lemma image_load_forward m o data m' :
  image_load e mode off psize m o = Good (data, m') ->
  exists img, image_wf off img /\ Forall (load_ok dl) img.(segs) /\ stored off img /\
    Z.of_nat (length (encode img)) <= psize /\ data = metadata off img /\ m' = loaded_ram dl img m o.
Proof.
  intros H. destruct (image_load_inv _ _ _ _ _ _ _ mode_verifies off_range H)
    as (b & hs & os & fin & s1 & buf & dg & Hr & Hv & Hl & Hfin & H4 & Hbuf & Hsum & Hdg & Hlen & -> & Hsha & ->).
  set (h := header_of_bytes b) in *. set (n := fin - off) in *. pose proof (tail_len_range n) as Ht.
  destruct (read_bytes off 24 b ltac:(lia) ltac:(lia) Hr) as [Hb Hb24]. pose proof (header_count b Hb Hv) as Hcount. fold h in Hcount.
  assert (Hin : fin + tail_len n + (if negb (h.(hash_appended) =? 0) then 32 else 0) <= size) by lia.
  assert (Hin0 : 0 <= (if negb (h.(hash_appended) =? 0) then 32 else 0)) by (destruct (negb _); lia).
  rewrite (read_in off 24) in Hr by (done || lia). injection Hr as Eb.
  rewrite (read_in fin (tail_len n)) in Hbuf by (try apply tail_len_mod; try (subst n; Z.to_euclidean_division_equations); done || lia).
  injection Hbuf as Ebuf.
  assert (Hmost : off + 24 + most (Z.to_nat h.(segment_count)) < 2 ^ 32) by (unfold most, SIXTEEN_MB; lia).
  destruct (segments_loop_forward _ _ _ _ _ _ _ _ _ _ _ Hl ltac:(done) ltac:(lia)
    ltac:(Z.to_euclidean_division_equations; lia) Hmost chip_small ltac:(lia))
    as (sgs & Hn & Hoks & Hlds & Hsl & -> & -> & Hf & ->).
  destruct (run_segments_sum dl sgs _ (mk_loader (if negb (h.(hash_appended) =? 0) then Some b else None)
    (Some ESP_ROM_CHECKSUM_INITIAL) m o) _ Hoks eq_refl) as (w & Hw & Hfold).
  rewrite Hw in Hsum. unfold id in Hsum. cbn [from_option] in Hsum. rewrite Hfold in Hsum.
  change (fold8 ESP_ROM_CHECKSUM_INITIAL) with ESP_ROM_CHECKSUM_INITIAL in Hsum.
  assert (Hbl : Z.of_nat (length buf) = tail_len n) by (rewrite <- Ebuf; apply bytes_at_length; lia).
  set (img := mk_image b sgs (take (Z.to_nat (tail_len n - 1)) buf)).
  assert (Hbody : body img = bytes_at off n).
  { unfold body. cbn [hdr segs img]. rewrite <- Eb, <- Hsl, bytes_at_split by lia. do 2 f_equal. lia. }
  assert (Hseal : sealed img = bytes_at off (n + tail_len n)).
  { unfold sealed, sum_of. cbn [pad segs img]. rewrite Hbody, Hsum, <- (last_byte buf) by lia. rewrite <- Ebuf.
    replace fin with (off + n) by lia. apply bytes_at_split; lia. }
  assert (Hdig : digest img = dg).
  { unfold digest, has_hash. change (header img) with h. destruct (negb (h.(hash_appended) =? 0)) eqn:Hz; [|by rewrite Hdg].
    symmetry. rewrite (Hsha eq_refl (b ++ segs_bytes sgs)); [|by rewrite run_segments_sha].
    f_equal. change (b ++ segs_bytes sgs) with (body img). rewrite Hbody, Hseal, <- Ebuf.
    replace fin with (off + n) by lia. apply bytes_at_split; lia. }
  assert (Henc : encode img = bytes_at off (n + tail_len n + (if negb (h.(hash_appended) =? 0) then 32 else 0))).
  { unfold encode. rewrite Hseal, Hdig. destruct (negb (h.(hash_appended) =? 0)); [|by rewrite Hdg, app_nil_r, Z.add_0_r].
    rewrite (read_in (fin + tail_len n) 32) in Hdg by
      (try (unfold tail_len in *; subst n; Z.to_euclidean_division_equations); done || lia).
    injection Hdg as <-. replace (fin + tail_len n) with (off + (n + tail_len n)) by lia. apply bytes_at_split; lia. }
  assert (Hel : Z.of_nat (length (encode img)) = n + tail_len n + (if negb (h.(hash_appended) =? 0) then 32 else 0))
    by (rewrite Henc; apply bytes_at_length; lia).
  exists img. split_and!; [|done| | | |].
  - constructor; cbn [hdr segs pad img]; [lia|done|change (h.(segment_count) = Z.of_nat (length sgs)); lia|done|].
    rewrite Hbody, bytes_at_length, length_take_le by lia. unfold tail_len in *. lia.
  - unfold stored. by rewrite Hel.
  - lia.
  - unfold metadata. rewrite Hel, Hdig. cbn [segs img]. done.
  - done.
Qed.

(** The parts of a stored image. *)
Lemma stored_app a (l1 l2 : list Z) :
  0 <= a -> a + Z.of_nat (length (l1 ++ l2)) <= size -> bytes_at a (Z.of_nat (length (l1 ++ l2))) = l1 ++ l2 ->
  bytes_at a (Z.of_nat (length l1)) = l1 /\ bytes_at (a + Z.of_nat (length l1)) (Z.of_nat (length l2)) = l2.
Proof.
  intros Ha Hin H. rewrite length_app, Nat2Z.inj_add in *. rewrite <- bytes_at_split in H by lia.
  apply app_inj_1 in H; [done|]. apply Nat2Z.inj. rewrite bytes_at_length; lia.
Qed.

Definition body_len (img : app_image) : Z := 24 + Z.of_nat (length (segs_bytes img.(segs))).

Lemma encode_length img :
  image_wf off img ->
  Z.of_nat (length (body img)) = body_len img /\
  Z.of_nat (length (img.(pad) ++ [sum_of img])) = tail_len (body_len img) /\
  Z.of_nat (length (encode img)) = body_len img + tail_len (body_len img) + Z.of_nat (length (digest img)).
Proof.
  intros [H24 _ _ _ Hpad]. assert (Hb : Z.of_nat (length (body img)) = body_len img) by
    (unfold body, body_len; rewrite length_app, H24; lia).
  rewrite Hb in Hpad. unfold encode, sealed. rewrite !length_app, !Nat2Z.inj_add, Hb. unfold tail_len in *. simpl. lia.
Qed.

Lemma stored_parts img :
  image_wf off img -> stored off img -> Z.of_nat (length (encode img)) <= psize ->
  let n := body_len img in
  bytes_at off 24 = img.(hdr) /\ bytes_at (off + 24) (Z.of_nat (length (segs_bytes img.(segs)))) = segs_bytes img.(segs) /\
  bytes_at (off + n) (tail_len n) = img.(pad) ++ [sum_of img] /\
  bytes_at (off + n + tail_len n) (Z.of_nat (length (digest img))) = digest img.
Proof.
  intros Hwf Hst Hlen n. destruct (encode_length img Hwf) as (Hb & Ht & He). pose proof (tail_len_range n).
  unfold stored in Hst. unfold encode, sealed in Hst, Hlen. apply stored_app in Hst as [Hs Hd]; [|lia..].
  apply stored_app in Hs as [Hbd Hbuf]; [|lia|rewrite !length_app in *; lia].
  unfold body in Hbd. apply stored_app in Hbd as [Hh Hsg]; [|lia|fold (body img); rewrite !length_app in *; lia].
  rewrite (wf_hdr _ _ Hwf) in *. rewrite length_app, Nat2Z.inj_add, Hb, Ht, Z.add_assoc in Hd. rewrite Hb, Ht in Hbuf. done.
Qed.

Lemma segs_bytes_mod l : forall a, segments_ok a l -> Z.of_nat (length (segs_bytes l)) mod 4 = 0.
Proof.
  induction l as [|sg l IH]; intros a Hok; [done|]. destruct Hok as [[_ Hw%whole_Z _ _ _] Hoks].
  specialize (IH _ Hoks). unfold segs_bytes in *. cbn [map concat]. rewrite length_app, Nat2Z.inj_add, segment_bytes_length.
  Z.to_euclidean_division_equations. lia.
Qed.

Lemma body_len_mod img : image_wf off img -> body_len img mod 4 = 0.
Proof.
  intros Hwf. pose proof (segs_bytes_mod _ _ (wf_segs _ _ Hwf)). unfold body_len. Z.to_euclidean_division_equations. lia.
Qed.

Lemma process_segments_backward img s :
  image_wf off img -> Forall (load_ok dl) img.(segs) -> stored off img -> Z.of_nat (length (encode img)) <= psize ->
  s.(checksum) <> None ->
  process_segments e (mk_metadata off (header img) [] [] 24 []) dl s =
  Good (mk_metadata off (header img) (map seg_header img.(segs)) (offsets (off + 24) img.(segs)) (body_len img) [],
        run_segments dl img.(segs) s).
Proof.
  intros Hwf Hlds Hst Hlen Hc. destruct (stored_parts img Hwf Hst Hlen) as (Hh & Hsg & _ & _).
  destruct (encode_length img Hwf) as (_ & _ & He). pose proof (tail_len_range (body_len img)). unfold body_len in *.
  assert (Hb : Forall is_byte img.(hdr)) by (rewrite <- Hh; by apply Forall_take, Forall_drop).
  pose proof (header_count img.(hdr) Hb (wf_header _ _ Hwf)) as Hcount. fold (header img) in Hcount.
  pose proof (wf_count _ _ Hwf) as Hct. unfold process_segments. cbn [start_addr image_len image].
  rewrite (u32_small (off + 24)) by lia. rewrite Hct, Nat2Z.id, <- (Nat.add_0_r (length img.(segs))), segments_loop_backward;
    [|by apply Hwf|done|done|simpl; lia|done|lia|Z.to_euclidean_division_equations; lia|done|lia].
  cbn [segments_loop rbind app]. destruct (Z.ltb_spec (off + 24 + Z.of_nat (length (segs_bytes img.(segs)))) off); [lia|].
  rewrite (u32_small (_ - _)), u32_small by lia. do 3 f_equal. lia.
Qed.

Lemma process_image_header_backward img m o :
  image_wf off img -> stored off img -> Z.of_nat (length (encode img)) <= psize ->
  process_image_header e off true true (mk_loader None (Some ESP_ROM_CHECKSUM_INITIAL) m o) =
  Good (mk_metadata off (header img) [] [] 24 [], start_state img m o).
Proof.
  intros Hwf Hst Hlen. destruct (stored_parts img Hwf Hst Hlen) as (Hh & _).
  destruct (encode_length img Hwf) as (_ & _ & He). pose proof (tail_len_range (body_len img)). unfold body_len in *.
  unfold process_image_header. rewrite (read_in off 24), Hh by (done || lia). cbn [rbind].
  fold (header img). rewrite andb_true_r, sha_starts. fold (has_hash img). unfold start_state.
  destruct (has_hash img); [rewrite (sha_data_some img.(hdr) []) by (apply whole_Z; by rewrite (wf_hdr _ _ Hwf))|];
    cbn [rbind]; by rewrite (wf_header _ _ Hwf).
Qed.

Lemma process_appended_hash_backward img hs os :
  image_wf off img -> stored off img -> Z.of_nat (length (encode img)) <= psize -> psize <= SIXTEEN_MB ->
  process_appended_hash e (mk_metadata off (header img) hs os (body_len img + tail_len (body_len img)) []) psize true =
  Good (mk_metadata off (header img) hs os (Z.of_nat (length (encode img))) (digest img)).
Proof.
  intros Hwf Hst Hlen Hp. destruct (stored_parts img Hwf Hst Hlen) as (_ & _ & _ & Hdg).
  destruct (encode_length img Hwf) as (_ & _ & He). pose proof (tail_len_range (body_len img)).
  pose proof (tail_len_mod _ (body_len_mod img Hwf)). pose proof (body_len_mod img Hwf).
  assert (Hn : 24 <= body_len img) by (unfold body_len; lia). unfold process_appended_hash, HASH_LEN, SIXTEEN_MB, digest in *.
  cbn [start_addr image segments segment_data image_len image_digest]. fold (has_hash img). rewrite He in *.
  destruct (has_hash img).
  - rewrite sha_length in *. change (Z.of_nat 32) with 32 in *. rewrite (u32_small (off + _)), (u32_small (_ + 32)), Z.add_assoc by lia.
    rewrite (read_in (off + _ + _)), Hdg by (done || (Z.to_euclidean_division_equations; lia)). cbn [rbind image_len].
    destruct (Z.ltb_spec psize (body_len img + tail_len (body_len img) + 32)); [lia|done].
  - cbn [rbind image_len length] in *. rewrite Z.add_0_r in *.
    destruct (Z.ltb_spec psize (body_len img + tail_len (body_len img))); [lia|done].
Qed.

Lemma image_load_backward m o img :
  image_wf off img -> Forall (load_ok dl) img.(segs) -> stored off img ->
  Z.of_nat (length (encode img)) <= psize -> psize <= SIXTEEN_MB ->
  image_load e mode off psize m o = Good (metadata off img, loaded_ram dl img m o).
Proof.
  intros Hwf Hlds Hst Hlen Hp. destruct (stored_parts img Hwf Hst Hlen) as (_ & _ & Hbuf & Hdg).
  destruct (encode_length img Hwf) as (_ & Ht & He). pose proof (tail_len_range (body_len img)) as Htr.
  pose proof (body_len_mod img Hwf) as H4. assert (Hn : 24 <= body_len img) by (unfold body_len; lia).
  destruct (run_segments_sum dl _ _ (start_state img m o) _ (wf_segs _ _ Hwf) eq_refl) as (w & Hw & Hfold).
  change (fold8 ESP_ROM_CHECKSUM_INITIAL) with ESP_ROM_CHECKSUM_INITIAL in Hfold. fold (sum_of img) in Hfold.
  unfold image_load. rewrite mode_verifies, no_debugger. cbn [negb orb andb].
  replace (off =? ESP_BOOTLOADER_OFFSET) with false by (symmetry; apply Z.eqb_neq; unfold ESP_BOOTLOADER_OFFSET; lia).
  rewrite (proj2 (Z.ltb_ge _ _) Hp). cbn [negb andb]. rewrite (process_image_header_backward img) by done. cbn [rbind].
  rewrite process_segments_backward by done. cbn [rbind]. rewrite Hw. unfold id. cbn [from_option].
  rewrite (process_checksum_read w _ _ (img.(pad) ++ [sum_of img])); cbn [start_addr image_len];
    [|unfold SIXTEEN_MB in *; lia|lia|done|rewrite (read_in (off + _)), Hbuf; [done|lia|lia| |by apply tail_len_mod|lia];
      Z.to_euclidean_division_equations; lia].
  rewrite Hfold. replace (byte _ _) with (sum_of img).
  2: { unfold byte. rewrite length_app in Ht. simpl in Ht. rewrite app_nth2 by lia.
       replace (_ - _)%nat with 0%nat by lia. done. }
  rewrite Z.eqb_refl. cbn [rbind sha checksum ram obfs]. unfold grown. cbn [start_addr image segments segment_data image_len image_digest].
  rewrite process_appended_hash_backward by done. cbn [rbind segments]. rewrite run_segments_sha. unfold start_state at 1 2.
  unfold metadata, loaded_ram. cbn [sha]. destruct (has_hash img) eqn:Hz; [|done].
  cbn [fmap option_fmap option_map]. unfold verify_simple_hash, digest. cbn [image_digest]. rewrite Hz.
  by rewrite bool_decide_eq_true_2.
Qed.

(** *** A segment whose load addresses pass the top of the signed range *)

Definition wraps (sg : Z * list Z) : Prop :=
  should_load e sg.1 = true /\ sg.1 < 2 ^ 31 <= sg.1 + Z.of_nat (length sg.2).

Lemma process_segment_wraps i a s sg :
  e.(build) = true -> wraps sg -> segment_ok a sg -> bytes_at a (8 + Z.of_nat (length sg.2)) = segment_bytes sg ->
  0 <= a -> a mod 4 = 0 -> size < 2 ^ 32 -> a + 8 + Z.of_nat (length sg.2) <= size ->
  process_segment e i a true s = Assertion.
Proof.
  intros Hbuild [Hl Hw] [Ha1 Hwh%whole_Z Hsm Hby Hmap] Hsl Ha Ha4 Hs Hin. unfold SIXTEEN_MB in Hsm.
  rewrite <- bytes_at_split in Hsl by lia. unfold segment_bytes in Hsl. rewrite app_assoc in Hsl.
  apply app_inj_1 in Hsl as [H8 _]; [|by rewrite slice_length by lia].
  assert (Hh : segment_of_bytes (bytes_at a 8) = seg_header sg).
  { rewrite H8, <- (app_nil_r (_ ++ _)), <- app_assoc. apply header_decoded; lia. }
  unfold process_segment. rewrite (read_in a 8) by (done || lia). cbn [rbind].
  rewrite sha_data_spec by (apply whole_Z; rewrite bytes_at_length by lia; done). cbn [rbind]. rewrite Hh.
  rewrite u32_small by lia. rewrite (proj2 (verify_segment_header_ok (seg_header sg) (a + 8))) by done.
  cbn [seg_header data_len load_addr]. rewrite Hwh, Hbuild, Hl. cbn [Z.eqb negb andb].
  rewrite (proj2 (Z.ltb_lt 0 _)) by lia. rewrite (i32_small sg.1) by lia. cbn [verify_load_addresses].
  replace (i32 (sg.1 + Z.of_nat (length sg.2))) with (sg.1 + Z.of_nat (length sg.2) - 2 ^ 32)
    by (unfold i32; Z.to_euclidean_division_equations; lia).
  rewrite (proj2 (Z.eqb_neq _ sg.1)) by lia. by rewrite (proj2 (Z.ltb_ge sg.1 _)) by lia.
Qed.

Lemma segments_ok_app l1 l2 : forall a,
  segments_ok a (l1 ++ l2) <-> segments_ok a l1 /\ segments_ok (a + Z.of_nat (length (segs_bytes l1))) l2.
Proof.
  induction l1 as [|sg l1 IH]; intros a.
  { change (length (segs_bytes [])) with 0%nat. cbn [app segments_ok]. rewrite Z.add_0_r. tauto. }
  cbn [app segments_ok]. rewrite IH. unfold segs_bytes. cbn [map concat].
  rewrite length_app, Nat2Z.inj_add, segment_bytes_length, (Z.add_assoc a (8 + _)). tauto.
Qed.

Lemma image_load_wraps m o img pre sg post :
  e.(build) = true -> dl = true -> image_wf off img -> stored off img ->
  Z.of_nat (length (encode img)) <= psize -> psize <= SIXTEEN_MB ->
  img.(segs) = pre ++ sg :: post -> Forall (load_ok true) pre -> wraps sg ->
  image_load e mode off psize m o = Assertion.
Proof.
  intros Hbuild Hdl Hwf Hst Hlen Hp Hsegs Hpre Hw. destruct (stored_parts img Hwf Hst Hlen) as (Hh & Hsg & _ & _).
  destruct (encode_length img Hwf) as (_ & _ & He). pose proof (tail_len_range (body_len img)) as Ht. unfold body_len in *.
  assert (Hin : off + 24 + Z.of_nat (length (segs_bytes img.(segs))) <= size) by lia. clear He Ht.
  assert (Hb : Forall is_byte img.(hdr)) by (rewrite <- Hh; by apply Forall_take, Forall_drop).
  pose proof (header_count img.(hdr) Hb (wf_header _ _ Hwf)) as Hcount. fold (header img) in Hcount.
  pose proof (wf_count _ _ Hwf) as Hct. pose proof (wf_segs _ _ Hwf) as Hok. rewrite Hsegs in *.
  apply segments_ok_app in Hok as [Hokp [Hoks Hokt]]. change (segs_bytes (pre ++ sg :: post)) with (concat (map segment_bytes (pre ++ sg :: post))) in *.
  rewrite map_app, concat_app in *. fold (segs_bytes pre) in *. cbn [map concat] in *. rewrite length_app in Hct. cbn [length] in Hct.
  apply stored_app in Hsg as [Hp1 Hp2]; [|lia|lia]. rewrite !length_app, !Nat2Z.inj_add, segment_bytes_length in Hin.
  apply stored_app in Hp2 as [Hp2 _]; [|lia|rewrite !length_app, !Nat2Z.inj_add, segment_bytes_length; lia].
  rewrite segment_bytes_length in *.
  assert (H4 : (off + 24 + Z.of_nat (length (segs_bytes pre))) mod 4 = 0).
  { pose proof (segs_bytes_mod pre _ Hokp). Z.to_euclidean_division_equations; lia. }
  unfold image_load. rewrite mode_verifies, no_debugger. cbn [negb orb andb].
  replace (off =? ESP_BOOTLOADER_OFFSET) with false by (symmetry; apply Z.eqb_neq; unfold ESP_BOOTLOADER_OFFSET; lia).
  rewrite (proj2 (Z.ltb_ge _ _) Hp). cbn [negb andb]. rewrite (process_image_header_backward img) by done. cbn [rbind].
  unfold process_segments. cbn [start_addr image_len image]. rewrite (u32_small (off + 24)), Hct, Nat2Z.id, Hdl by lia.
  rewrite (segments_loop_backward true (S (length post))) by
    (try (Z.to_euclidean_division_equations; lia); done || (simpl; lia)).
  cbn [segments_loop]. destruct (Z.leb_spec ESP_IMAGE_MAX_SEGMENTS (Z.of_nat (0 + length pre)));
    [unfold ESP_IMAGE_MAX_SEGMENTS in *; lia|].
  by rewrite process_segment_wraps with (sg := sg) by (done || lia).
Qed.
End Loops.

(** ** Memory after a load *)

Section Memory.
Variable e : env.
Hypothesis booting : e.(build) = true.

(** The words of a loaded segment have addresses of their own. *)
Definition loads (sg : Z * list Z) : Prop := should_load e sg.1 = true /\ sg.2 <> [].
Definition covers (sg : Z * list Z) (x : Z) : Prop := loads sg /\ sg.1 <= x < sg.1 + Z.of_nat (length sg.2).

Fixpoint apart (segs : list (Z * list Z)) : Prop :=
  match segs with
  | [] => True
  | sg :: segs => Forall (fun sg' => forall x, covers sg x -> covers sg' x -> False) segs /\ apart segs
  end.

Definition mask (o : Z * Z) (k : nat) : Z := if Nat.odd k then o.1 else o.2.

Lemma store_words_miss o a l : forall k m x,
  (forall j, (j < length l)%nat -> x <> a + Z.of_nat (4 * (k + j))) -> store_words k l a o m !! x = m !! x.
Proof.
  induction l as [|w l IH]; intros k m x H; [done|]. cbn [store_words]. rewrite IH.
  - apply lookup_insert_ne. specialize (H 0%nat). rewrite Nat.add_0_r in H. simpl in H |- *. intros E. apply H; lia.
  - intros j Hj. specialize (H (S j)). simpl length in H. replace (S k + j)%nat with (k + S j)%nat by lia. apply H. lia.
Qed.

Lemma store_words_hit o a l : forall k m j w,
  l !! j = Some w -> store_words k l a o m !! (a + Z.of_nat (4 * (k + j))) = Some (Z.lxor w (mask o (k + j))).
Proof.
  induction l as [|v l IH]; intros k m j w H; [done|]. cbn [store_words]. destruct j as [|j].
  - injection H as ->. rewrite Nat.add_0_r, store_words_miss, lookup_insert_eq; [done|]. intros i _. lia.
  - replace (k + S j)%nat with (S k + j)%nat by lia. by apply IH.
Qed.

Lemma clear_words_miss o a n : forall k m x,
  (forall j, (j < n)%nat -> x <> a + Z.of_nat (4 * (k + j))) -> clear_words n k a o m !! x = m !! x.
Proof.
  induction n as [|n IH]; intros k m x H; [done|]. cbn [clear_words]. rewrite IH.
  - apply lookup_insert_ne. specialize (H 0%nat). rewrite Nat.add_0_r in H. simpl in H |- *. intros E. apply H; lia.
  - intros j Hj. replace (S k + j)%nat with (k + S j)%nat by lia. apply H. lia.
Qed.

Lemma clear_words_hit o a n : forall k m j,
  (j < n)%nat ->
  clear_words n k a o m !! (a + Z.of_nat (4 * (k + j))) =
  Some (Z.lxor (default 0 (m !! (a + Z.of_nat (4 * (k + j))))) (mask o (k + j))).
Proof.
  induction n as [|n IH]; intros k m j H; [lia|]. cbn [clear_words]. destruct j as [|j].
  - rewrite Nat.add_0_r, clear_words_miss, lookup_insert_eq; [done|]. intros i _. lia.
  - replace (k + S j)%nat with (S k + j)%nat by lia. rewrite IH, lookup_insert_ne by lia. done.
Qed.

(** The words of a segment lie in it. *)
Lemma word_covered sg j w :
  should_load e sg.1 = true -> words sg.2 !! j = Some w -> covers sg (sg.1 + Z.of_nat (4 * j)).
Proof.
  intros Hl H. apply lookup_lt_Some in H. rewrite words_length in H.
  pose proof (Nat.div_mod_eq (length sg.2) 4). unfold covers, loads. split_and!; [done| |lia|lia].
  intros E. rewrite E in H. simpl in H. lia.
Qed.

Definition pass (f : (Z * list Z) -> gmap Z Z -> gmap Z Z) (segs : list (Z * list Z)) (m : gmap Z Z) : gmap Z Z :=
  fold_left (fun m sg => if should_load e sg.1 then f sg m else m) segs m.

(** A pass over segments that are apart treats each word once. *)
Lemma pass_spec f (upd : nat -> Z -> option Z -> Z) :
  (forall sg m j w, words sg.2 !! j = Some w ->
     f sg m !! (sg.1 + Z.of_nat (4 * j)) = Some (upd j w (m !! (sg.1 + Z.of_nat (4 * j))))) ->
  (forall sg m x, (forall j w, words sg.2 !! j = Some w -> x <> sg.1 + Z.of_nat (4 * j)) -> f sg m !! x = m !! x) ->
  forall segs m, apart segs ->
  (forall sg j w, In sg segs -> should_load e sg.1 = true -> words sg.2 !! j = Some w ->
     pass f segs m !! (sg.1 + Z.of_nat (4 * j)) = Some (upd j w (m !! (sg.1 + Z.of_nat (4 * j))))) /\
  (forall x, (forall sg, In sg segs -> ~ covers sg x) -> pass f segs m !! x = m !! x).
Proof.
  intros Hhit Hmiss segs. induction segs as [|sg segs IH]; intros m Hap; [done|]. destruct Hap as [Hd Hap].
  set (m1 := if should_load e sg.1 then f sg m else m). change (pass f (sg :: segs) m) with (pass f segs m1).
  assert (Hm1 : forall x, ~ covers sg x -> m1 !! x = m !! x).
  { intros x Hx. unfold m1. destruct (should_load e sg.1) eqn:Hl; [|done]. apply Hmiss. intros j w Hw ->.
    by apply Hx, (word_covered sg j w). }
  destruct (IH m1 Hap) as [H1 H2]. rewrite Forall_forall in Hd. split.
  - intros sg' j w [<-|Hin] Hl Hw; pose proof (word_covered _ _ _ Hl Hw) as Hc.
    + rewrite H2; [unfold m1; rewrite Hl; by apply Hhit|]. intros sg2 Hin2 Hc2. by eapply Hd; [apply list_elem_of_In| |].
    + rewrite (H1 sg' j w) by done. rewrite Hm1; [done|]. intros Hc2. by eapply Hd; [apply list_elem_of_In| |].
  - intros x Hx. rewrite H2, Hm1; [done|by apply Hx; left|]. intros sg2 Hin. apply Hx. by right.
Qed.

Definition store_pass (o : Z * Z) (sg : Z * list Z) (m : gmap Z Z) : gmap Z Z := store_words 0 (words sg.2) sg.1 o m.
Definition clear_pass (o : Z * Z) (sg : Z * list Z) (m : gmap Z Z) : gmap Z Z := clear_words (length sg.2 / 4) 0 sg.1 o m.

Lemma store_pass_spec o segs m : apart segs ->
  (forall sg j w, In sg segs -> should_load e sg.1 = true -> words sg.2 !! j = Some w ->
     pass (store_pass o) segs m !! (sg.1 + Z.of_nat (4 * j)) = Some (Z.lxor w (mask o j))) /\
  (forall x, (forall sg, In sg segs -> ~ covers sg x) -> pass (store_pass o) segs m !! x = m !! x).
Proof.
  apply (pass_spec _ (fun j w _ => Z.lxor w (mask o j))).
  - intros sg m1 j w H. exact (store_words_hit o sg.1 (words sg.2) 0 m1 j w H).
  - intros sg m1 x H. apply (store_words_miss o sg.1 (words sg.2) 0). intros j Hj.
    apply lookup_lt_is_Some in Hj as [w Hw]. by eapply H.
Qed.

Lemma clear_pass_spec o segs m : apart segs ->
  (forall sg j w, In sg segs -> should_load e sg.1 = true -> words sg.2 !! j = Some w ->
     pass (clear_pass o) segs m !! (sg.1 + Z.of_nat (4 * j)) =
     Some (Z.lxor (default 0 (m !! (sg.1 + Z.of_nat (4 * j)))) (mask o j))) /\
  (forall x, (forall sg, In sg segs -> ~ covers sg x) -> pass (clear_pass o) segs m !! x = m !! x).
Proof.
  apply (pass_spec _ (fun j _ v => Z.lxor (default 0 v) (mask o j))).
  - intros sg m1 j w H. apply lookup_lt_Some in H. rewrite words_length in H. exact (clear_words_hit o sg.1 _ 0 m1 j H).
  - intros sg m1 x H. apply (clear_words_miss o sg.1 _ 0). intros j Hj. rewrite <- words_length in Hj.
    apply lookup_lt_is_Some in Hj as [w Hw]. by eapply H.
Qed.

Lemma deobfuscate_pass o segs : forall m, deobfuscate e (map seg_header segs) o m = pass (clear_pass o) segs m.
Proof.
  induction segs as [|sg segs IH]; intros m; [done|]. cbn [map deobfuscate]. rewrite IH. cbn [seg_header load_addr data_len].
  unfold clear_pass. change 4 with (Z.of_nat 4). rewrite <- Nat2Z.inj_div, Nat2Z.id. done.
Qed.

Lemma run_segment_ram sg s :
  load_ok e true sg -> 0 <= sg.1 < 2 ^ 32 -> Z.of_nat (length sg.2) < SIXTEEN_MB ->
  (run_segment e true sg s).(ram) = if should_load e sg.1 then store_pass (fresh e s.(obfs)) sg s.(ram) else s.(ram).
Proof.
  intros Hl Hr Hn. unfold run_segment, feed_data, store_pass. destruct sg as [a [|x d]]; cbn [fst snd] in *; [by destruct (should_load e a)|].
  cbn [feed ram]. rewrite booting. cbn [andb]. destruct (should_load e a) eqn:E; [|done]. f_equal.
  specialize (Hl ltac:(by rewrite booting; cbn [fst]; rewrite E) ltac:(done)). cbn [fst snd] in Hl.
  apply verify_load_span in Hl as [Hs Hp]. unfold i32, SIXTEEN_MB in *. cbn [length] in *. Z.to_euclidean_division_equations; lia.
Qed.

Lemma run_segments_ram segs : forall a s,
  segments_ok a segs -> Forall (load_ok e true) segs ->
  let s' := run_segments e true segs s in
  s'.(ram) = pass (store_pass (fresh e s.(obfs))) segs s.(ram) /\
  (forall sg, In sg segs -> sg.2 <> [] -> s'.(obfs) = fresh e s.(obfs)).
Proof.
  induction segs as [|sg segs IH]; intros a s Hok Hld; [done|]. destruct Hok as [[Hr _ Hn _ _] Hoks].
  apply Forall_cons in Hld as [Hl Hls]. cbv zeta.
  change (run_segments e true (sg :: segs) s) with (run_segments e true segs (run_segment e true sg s)).
  destruct (IH _ (run_segment e true sg s) Hoks Hls) as [H1 H2].
  assert (Hf : fresh e (run_segment e true sg s).(obfs) = fresh e s.(obfs)).
  { unfold run_segment, feed_data. destruct sg.2; [done|]. apply fresh_idem. }
  rewrite Hf in H1, H2. split.
  - rewrite H1, run_segment_ram by done. done.
  - intros sg' [<-|Hin] Hne; [|by apply (H2 sg')].
    destruct (decide (Forall (fun sg' => sg'.2 = []) segs)) as [Hall|Hex].
    + clear H2 IH H1. assert (Ho : (run_segment e true sg s).(obfs) = fresh e s.(obfs)) by
        (unfold run_segment, feed_data; by destruct sg.2).
      rewrite <- Ho. clear -Hall. revert s. generalize (run_segment e true sg) as f. intros f s. generalize (f s) as s1.
      induction Hall as [|sg1 segs E _ IH]; intros s1; [done|].
      change (run_segments e true (sg1 :: segs) s1) with (run_segments e true segs (run_segment e true sg1 s1)).
      rewrite IH. unfold run_segment. by rewrite E.
    + apply not_Forall_Exists, List.Exists_exists in Hex as (sg2 & Hin & Hne2); [|solve_decision]. by apply (H2 sg2).
Qed.

Hypothesis random_nonzero : e.(random).1 <> 0 /\ e.(random).2 <> 0.

Lemma fresh_nonzero o : (fresh e o).1 <> 0 /\ (fresh e o).2 <> 0.
Proof.
  unfold fresh. rewrite booting. cbn [andb]. destruct (Z.eqb_spec o.1 0), (Z.eqb_spec o.2 0); done.
Qed.

(** Every loaded word is where its segment says, and nothing else has changed. *)
Lemma loaded_ram_spec off img m o :
  image_wf off img -> Forall (load_ok e true) img.(segs) -> apart img.(segs) ->
  (forall sg j w, In sg img.(segs) -> should_load e sg.1 = true -> words sg.2 !! j = Some w ->
     loaded_ram e true img m o !! (sg.1 + Z.of_nat (4 * j)) = Some w) /\
  (forall x, (forall sg, In sg img.(segs) -> ~ covers sg x) -> loaded_ram e true img m o !! x = m !! x).
Proof.
  intros Hwf Hld Hap. destruct (run_segments_ram _ _ (start_state img m o) (wf_segs _ _ Hwf) Hld) as [Hram Hobfs].
  unfold loaded_ram. rewrite booting. cbn [andb]. set (s := run_segments e true img.(segs) (start_state img m o)) in *.
  cbn [start_state obfs ram] in Hram, Hobfs. pose proof (fresh_nonzero o) as [Ho1 Ho2].
  destruct (store_pass_spec (fresh e o) img.(segs) m Hap) as [Hs1 Hs2]. rewrite <- Hram in Hs1, Hs2.
  destruct (clear_pass_spec s.(obfs) img.(segs) s.(ram) Hap) as [Hc1 Hc2]. rewrite <- deobfuscate_pass in Hc1, Hc2. split.
  - intros sg j w Hin Hl Hw. assert (Hne : sg.2 <> []) by (intros E; by rewrite E in Hw).
    rewrite (Hobfs sg Hin Hne) in *. rewrite (proj2 (Z.eqb_neq _ _) Ho1), (proj2 (Z.eqb_neq _ _) Ho2). cbn [negb andb].
    rewrite (Hc1 sg j w), (Hs1 sg j w) by done. unfold id. cbn [from_option]. f_equal.
    by rewrite Z.lxor_assoc, Z.lxor_nilpotent, Z.lxor_0_r.
  - intros x Hx. destruct (_ && _); [rewrite Hc2 by done|]; by apply Hs2.
Qed.
End Memory.

(** The application does not touch memory. *)
Lemma app_ram e dl img m o : e.(build) = false -> loaded_ram e dl img m o = m.
Proof.
  intros B. unfold loaded_ram. rewrite B. cbn [andb]. change m with (start_state img m o).(ram) at 2.
  generalize (start_state img m o) as s. induction img.(segs) as [|sg l IH]; intros s; [done|].
  change (run_segments e dl (sg :: l) s) with (run_segments e dl l (run_segment e dl sg s)). rewrite IH.
  unfold run_segment, feed_data. rewrite B. by destruct sg.2.
Qed.

(** ** The two builds read what is on the chip *)

Section Readers.
Variable c : list Z.
Hypothesis c_bytes : Forall is_byte c.
Hypothesis c_small : Z.of_nat (length c) < 2 ^ 31.
Abbreviation size := (Z.of_nat (length c)).

Lemma page_of a : 0 <= a < 2 ^ 32 -> Z.land a (u32 (Z.lnot (SPI_FLASH_MMU_PAGE_SIZE - 1))) = a / 65536 * 65536.
Proof.
  intros Ha. change (u32 (Z.lnot (SPI_FLASH_MMU_PAGE_SIZE - 1))) with (Z.shiftl (Z.ones 16) 16). rewrite land_mask by lia.
  rewrite Z.mod_small; [done|]. split; [apply Z.div_pos; lia|apply Z.div_lt_upper_bound; lia].
Qed.

Lemma off_page_of a : off_page a = if a mod 65536 =? 0 then 0 else 1.
Proof.
  unfold off_page, MMAP_ALIGNED_MASK. change 0xFFFF with (Z.ones 16). rewrite Z.land_ones by lia.
  change (2 ^ 16) with 65536. by destruct (a mod 65536 =? 0).
Qed.

Section Boot.
Variable behind : Z -> Z.
Variable mapped : Z -> Z -> bool.
Hypothesis maps : Bootloader.maps_chip mapped size.

Lemma visible_length a n : length (visible c behind a n) = Z.to_nat n.
Proof. unfold visible. by rewrite length_map, length_seq. Qed.

Lemma visible_bytes a n : Forall is_byte (visible c behind a n).
Proof.
  unfold visible. apply List.Forall_map, List.Forall_forall. intros k _. destruct (_ <? _); [|apply u8_range].
  apply (byte_range c _ c_bytes).
Qed.

Lemma visible_in a n : 0 <= a -> 0 <= n -> a + n <= size -> visible c behind a n = slice c (Z.to_nat a) (Z.to_nat n).
Proof.
  intros Ha Hn Hin. apply list_eq. intros i. unfold visible, slice. rewrite list_lookup_fmap.
  destruct (decide (i < Z.to_nat n)%nat) as [Hi|Hi].
  - rewrite lookup_seq_lt, lookup_take_lt, lookup_drop by lia. cbn [fmap option_fmap option_map]. rewrite u32_small by lia.
    rewrite (proj2 (Z.ltb_lt _ _)) by (unfold chip_size; lia).
    replace (Z.to_nat (a + Z.of_nat (0 + i))) with (Z.to_nat a + i)%nat by lia.
    destruct (nth_lookup_or_length c (Z.to_nat a + i) 0); [done|lia].
  - rewrite lookup_take_ge by lia. rewrite lookup_seq_ge by lia. done.
Qed.

Lemma boot_words_in n : forall a,
  0 <= a -> a mod 4 = 0 -> a + Z.of_nat (4 * n) <= size ->
  boot_words c behind mapped n a = Good (slice c (Z.to_nat a) (4 * n)).
Proof.
  induction n as [|n IH]; intros a Ha H4 Hin; [done|]. cbn [boot_words]. rewrite page_of by lia.
  rewrite maps, u32_small by (Z.to_euclidean_division_equations; lia).
  rewrite IH; [|lia|rewrite Z.add_mod, H4 by lia; done|lia]. cbn [rbind].
  rewrite visible_in by lia. replace (Z.to_nat (a + 4)) with (Z.to_nat a + 4)%nat by lia. change (Z.to_nat 4) with 4%nat.
  rewrite slice_split. do 2 f_equal. lia.
Qed.

Lemma boot_words_bytes n : forall a b, boot_words c behind mapped n a = Good b -> Forall is_byte b /\ length b = (4 * n)%nat.
Proof.
  induction n as [|n IH]; intros a b H; cbn [boot_words] in H; [by injection H as <-|].
  destruct (mapped _ 1); [|done]. destruct (boot_words _ _ _ n _) as [r| | | |] eqn:E; try done. cbn [rbind] in H.
  assert (Eb : b = visible c behind a 4 ++ r) by congruence. rewrite Eb. destruct (IH _ _ E) as [Hb Hl]. split; [apply Forall_app; split; [apply visible_bytes|done]|].
  rewrite length_app, visible_length, Hl. change (Z.to_nat 4) with 4%nat. lia.
Qed.

Lemma boot_mmap_in a n :
  0 <= a -> 0 < n <= MMU_SIZE -> a + n <= size -> boot_mmap c behind mapped a n = Some (slice c (Z.to_nat a) (Z.to_nat n)).
Proof.
  intros Ha Hn Hin. unfold boot_mmap. destruct (Z.ltb_spec MMU_SIZE n) as [Hm|Hm]; [lia|].
  rewrite page_of by lia. unfold SPI_FLASH_MMU_PAGE_SIZE. unfold MMU_SIZE in Hm.
  rewrite u32_small by (Z.to_euclidean_division_equations; lia).
  rewrite maps by (Z.to_euclidean_division_equations; lia). f_equal. apply visible_in; lia.
Qed.

Lemma boot_reader_laws : FlashReader (boot_reader c behind mapped) c.
Proof.
  assert (Hl : forall x, Z.land x 3 = x mod 4) by (intros x; change 3 with (Z.ones 2); rewrite Z.land_ones by lia; done).
  split; cbn [boot_reader flash_read flash_mmap free_pages].
  - intros a n b _ Hn H. unfold boot_read in H. rewrite !Hl in H. destruct (negb (a mod 4 =? 0)); [done|].
    destruct (Z.eqb_spec (n mod 4) 0) as [H4|]; [|done]. cbn [negb] in H. apply boot_words_bytes in H as [Hb Hlen].
    split; [done|]. rewrite Hlen, Nat2Z.inj_mul, Z2Nat.id by (apply Z.div_pos; lia). Z.to_euclidean_division_equations; lia.
  - intros a n Ha Hn Ha4 Hn4 Hin. unfold boot_read. rewrite !Hl, Ha4, Hn4. cbn [Z.eqb negb].
    assert (E : 4 * (n / 4) = n) by (Z.to_euclidean_division_equations; lia).
    rewrite boot_words_in by (rewrite ?Nat2Z.inj_mul, ?Z2Nat.id by (apply Z.div_pos; lia); done || lia).
    do 2 f_equal. apply Nat2Z.inj. rewrite Nat2Z.inj_mul, !Z2Nat.id by (try apply Z.div_pos; lia). lia.
  - intros i a n Ha Hn Hin Hp. rewrite off_page_of in Hp. unfold MMU_FREE_PAGES, SPI_FLASH_MMU_PAGE_SIZE in Hp.
    change (MMU_SIZE / 65536) with 63 in Hp. apply boot_mmap_in; [done| |done].
    unfold MMU_SIZE. destruct (_ =? _); lia.
  - intros i. done.
Qed.
End Boot.

Section App.
Variable chunk : nat.
Variable room : Z -> bool.
Variable pages : nat -> Z.
Hypothesis chunk_pos : (0 < chunk)%nat.
(** The pages reported free can be mapped in one piece. *)
Hypothesis room_pages : forall i n, 0 < n <= pages i -> room n = true.
Hypothesis pages_some : forall i, 2 <= pages i < 65536.

Lemma app_read_in a n :
  0 <= a -> 0 <= n <= 2 ^ 31 -> app_read c chunk a n =
  if a + n <=? size then Good (slice c (Z.to_nat a) (Z.to_nat n)) else Err ESP_ERR_INVALID_ARG.
Proof.
  intros Ha Hn. unfold app_read, esp_flash_read.
  destruct (Z.ltb_spec size a); [rewrite (proj2 (Z.leb_gt (a + n) size)) by lia; done|]. rewrite u32_small by lia. cbn [orb].
  destruct (Z.ltb_spec size (a + n)); [rewrite (proj2 (Z.leb_gt (a + n) size)) by lia; done|].
  rewrite (proj2 (Z.leb_le (a + n) size)) by lia. destruct (Z.eqb_spec n 0) as [->|Hz]; [done|].
  rewrite read_loop_whole; [done| |lia]. unfold MAX_READ_CHUNK. lia.
Qed.

Lemma app_reader_laws : FlashReader (app_reader c chunk room pages) c.
Proof.
  split; cbn [app_reader flash_read flash_mmap free_pages].
  - intros a n b Ha Hn H. rewrite app_read_in in H by lia. destruct (Z.leb_spec (a + n) size); [|done].
    injection H as <-. split; [by apply Forall_take, Forall_drop|]. rewrite slice_length; lia.
  - intros a n Ha Hn _ _ Hin. rewrite app_read_in by lia. by rewrite (proj2 (Z.leb_le _ _) Hin).
  - intros i a n Ha Hn Hin Hp. pose proof (pages_some i) as Hpi. rewrite off_page_of in Hp. unfold app_mmap, spi_flash_mmap.
    rewrite page_of by lia. set (p := a / 65536 * 65536). assert (Hpa : p <= a < p + 65536) by
      (unfold p; Z.to_euclidean_division_equations; lia).
    rewrite (u32_small (n + _)) by lia. change 0xffff with (Z.ones 16). rewrite Z.land_ones by lia.
    replace (p mod 2 ^ 16) with 0 by (symmetry; apply Z.mod_mul; lia). cbn [Z.eqb negb]. unfold chip_size.
    rewrite (u32_small (p + _)) by lia. replace (p + (n + (a - p))) with (a + n) by lia.
    rewrite (proj2 (Z.ltb_ge _ _) Hin). unfold SPI_FLASH_MMU_PAGE_SIZE in *. rewrite (u32_small (_ - 1)) by lia.
    set (k := (n + (a - p) + 0x10000 - 1) / 0x10000).
    assert (Hap : a - p = a mod 65536) by (unfold p; Z.to_euclidean_division_equations; lia).
    assert (Hk : 0 < k <= pages i /\ p + (k - 1) * 65536 < a + n).
    { unfold k. destruct (Z.eqb_spec (a mod 65536) 0); Z.to_euclidean_division_equations; lia. }
    rewrite (proj2 (Z.eqb_neq k 0)) by lia. rewrite (room_pages i k) by lia. rewrite (proj2 (forallb_forall _ _)).
    + cbn [negb fmap option_fmap option_map]. f_equal. unfold slice. rewrite skipn_firstn_comm, drop_drop.
      f_equal; [|f_equal]; lia.
    + intros x Hx. apply list_elem_of_In, elem_of_seqZ in Hx. apply Z.ltb_lt. unfold p. rewrite Z.div_mul by lia. fold p. lia.
  - done.
Qed.
End App.
End Readers.

(** ** Properties *)

(** The loader's surroundings: the chip answers, a digest context can be had, no
    debugger is attached, and the partition lies on the chip. *)
Record ready (e : env) (c : list Z) (off psize : Z) : Prop := {
  rdy_reader : FlashReader e.(rd) c;
  rdy_pages : e.(build) = true -> forall i, 9 <= e.(rd).(free_pages) i;
  rdy_bytes : Forall is_byte c;
  rdy_sha : forall l, length (e.(sha256) l) = 32%nat;
  rdy_start : e.(sha_start) = true;
  rdy_ocd : e.(ocd) = false;
  rdy_off : 0 < off < 2 ^ 31;
  rdy_aligned : off mod 4 = 0;
  rdy_inside : off + psize <= Z.of_nat (length c);
  rdy_small : Z.of_nat (length c) < 2 ^ 32;
  rdy_part : psize <= SIXTEEN_MB;
}.

(** The image [img] lies in the partition and may be loaded. *)
Record holds (e : env) (c : list Z) (mode : esp_image_load_mode_t) (off psize : Z) (img : app_image) : Prop := {
  hold_wf : image_wf off img;
  hold_load : Forall (load_ok e (load_of e mode)) img.(segs);
  hold_stored : stored e c off img;
  hold_fits : Z.of_nat (length (encode e img)) <= psize;
}.

Lemma load_accepts e c off psize mode m o data m' :
  ready e c off psize -> verify_of e mode = true -> image_load e mode off psize m o = Good (data, m') ->
  exists img, holds e c mode off psize img /\ data = metadata e off img /\ m' = loaded_ram e (load_of e mode) img m o.
Proof.
  intros [] V H. destruct (image_load_forward e c ltac:(done) ltac:(done) ltac:(done) ltac:(done) mode V off psize
    ltac:(done) ltac:(done) ltac:(done) ltac:(done) m o data m' H) as (img & H1 & H2 & H3 & H4 & H5 & H6). by exists img.
Qed.

Lemma load_accepted e c off psize mode m o img :
  ready e c off psize -> verify_of e mode = true -> holds e c mode off psize img ->
  image_load e mode off psize m o = Good (metadata e off img, loaded_ram e (load_of e mode) img m o).
Proof. intros [] V []. by apply (image_load_backward e c). Qed.

(** *** The verdicts for the rest of the system

    [E c]: the surroundings on the chip [c]; only flash access depends on it. *)

Definition verdict_of {A} (r : res A) : Bootloader.verdict :=
  match r with
  | Good _ => Bootloader.Accepted
  | Err _ => Bootloader.Rejected
  | _ => Bootloader.Stopped
  end.

Definition boot_verdict (E : list Z -> env) (c : list Z) (a n : Z) : Bootloader.verdict :=
  verdict_of (bootloader_load_image (E c) a n ∅ (0, 0)).

Definition app_verdict (E : list Z -> env) (c : list Z) (a n : Z) : bool :=
  match esp_image_verify (E c) ESP_IMAGE_VERIFY a n ∅ (0, 0) with Good _ => true | _ => false end.

Definition with_reader (e : env) (r : reader) : env :=
  mk_env e.(build) r e.(sha256) e.(sha_start) e.(ocd) e.(deep_sleep) e.(sp) e.(dram_start) e.(dram_end)
    e.(loader_text_start) e.(loader_text_end) e.(random).

(** The bootloader is a loader in the sense of [Bootloader.v]. *)
Lemma boot_verdict_loader (e : env) (mk : list Z -> reader) :
  e.(build) = true ->
  (forall c a n, Forall is_byte c -> 0 < a -> 0 < n -> a mod SPI_FLASH_SEC_SIZE = 0 -> a + n <= Z.of_nat (length c) ->
     Z.of_nat (length c) < 2 ^ 31 -> n <= SIXTEEN_MB -> ready (with_reader e (mk c)) c a n) ->
  Bootloader.Loader (boot_verdict (fun c => with_reader e (mk c))).
Proof.
  intros B Hready c c' a n Hl Hb Hb' Ha Hpos Ha4 Hin Hs Hsame. unfold boot_verdict, bootloader_load_image. cbn [with_reader build]. rewrite B.
  assert (V : forall r, verify_of (with_reader e r) ESP_IMAGE_LOAD = true) by (intros r; unfold verify_of; simpl; by rewrite B).
  destruct (image_load (with_reader e (mk c)) _ a n ∅ (0, 0)) as [[data m']| | | |] eqn:E; try done. intros _.
  assert (Hn : n <= SIXTEEN_MB) by (unfold image_load in E; destruct (Z.ltb_spec SIXTEEN_MB n); [done|lia]).
  assert (Rc : ready (with_reader e (mk c)) c a n) by (apply Hready; done || lia).
  destruct (load_accepts _ c _ _ _ _ _ _ _ Rc (V _) E) as (img & [Hwf Hld Hst Hf] & _).
  rewrite (load_accepted (with_reader e (mk c')) c' a n ESP_IMAGE_LOAD ∅ (0, 0) img); [done| |apply V|].
  - apply Hready; try done; lia.
  - constructor; [done| | |done].
    + exact Hld.
    + unfold stored in *. change (encode (with_reader e (mk c')) img) with (encode (with_reader e (mk c)) img).
      rewrite <- Hst at 2. apply slice_ext. intros i Hi. apply Hsame. lia.
Qed.

(** *** A small chip with an image *)

Definition sample_sha (l : list Z) : list Z := repeat (xor_bytes 0 l) 32.

Definition sample_app (c : list Z) : env :=
  mk_env false (app_reader c 4096 (fun _ => true) (fun _ => 16)) sample_sha true false false 0 0 0 0 0 (0, 0).

Definition sample_boot (c : list Z) : env :=
  mk_env true (boot_reader c (fun _ => 0) (fun _ _ => true)) sample_sha true false false
    0x3fcea000 0x3fcd0000 0x3fcd8000 0x403c0000 0x403c8000 (1, 2).

Lemma sample_app_ready c off psize :
  Forall is_byte c -> 0 < off < 2 ^ 31 -> off mod 4 = 0 -> off + psize <= Z.of_nat (length c) ->
  Z.of_nat (length c) < 2 ^ 31 -> psize <= SIXTEEN_MB -> ready (sample_app c) c off psize.
Proof.
  intros Hb Ho Ha Hin Hs Hp. constructor; try done; [|lia]. apply app_reader_laws; done || lia.
Qed.

Lemma sample_boot_ready c off psize :
  Forall is_byte c -> 0 < off < 2 ^ 31 -> off mod 4 = 0 -> off + psize <= Z.of_nat (length c) ->
  Z.of_nat (length c) < 2 ^ 31 -> psize <= SIXTEEN_MB -> ready (sample_boot c) c off psize.
Proof.
  intros Hb Ho Ha Hin Hs Hp. constructor; try done; [|lia]. by apply boot_reader_laws.
Qed.

Lemma sample_loader : Bootloader.Loader (boot_verdict sample_boot).
Proof.
  apply (boot_verdict_loader (sample_boot []) (fun c => boot_reader c (fun _ => 0) (fun _ _ => true))); [done|].
  intros c a n Hb Ha Hpos H4 Hin Hs Hn. apply (sample_boot_ready c a n); try done; [lia|].
  unfold SPI_FLASH_SEC_SIZE in H4. Z.to_euclidean_division_equations; lia.
Qed.

(** One segment of two words for [load], with a digest. *)
Definition sample_image (load : Z) : app_image :=
  mk_image [0xE9; 1; 2; 0x2F; 0; 0; 0; 0; 0xEE; 0; 0; 0; 9; 0; 0; 0; 0; 0; 0; 0; 0; 0; 0; 1]
    [(load, [1; 2; 3; 4; 5; 6; 7; 8])] [0; 0; 0; 0; 0; 0; 0].

Lemma sample_image_wf off load :
  0 <= load < 2 ^ 32 -> should_map load = false -> image_wf off (sample_image load).
Proof.
  intros Hl Hm. constructor; try done. split; [|done]. constructor; try done; cbn [fst snd].
  - unfold is_byte. repeat constructor; lia.
  - by rewrite Hm.
Qed.

Definition sample_chip (load : Z) : list Z :=
  repeat 0xFF 64 ++ encode (sample_app []) (sample_image load) ++ repeat 0xFF 64.

Lemma bytes_decided l : forallb (fun x => (0 <=? x) && (x <? 256)) l = true -> Forall is_byte l.
Proof.
  intros H. apply List.Forall_forall. intros x Hx. apply (proj1 (forallb_forall _ _) H) in Hx.
  apply andb_true_iff in Hx as [H1%Z.leb_le H2%Z.ltb_lt]. done.
Qed.

(** C4: what [image_load] accepts.  A partition of at most 16 MB passes the check
    exactly when it begins with an encoded image: a
    header for this chip with 0 to 16 segments, the segments one behind the
    other, each a multiple of 4 bytes shorter than 16 MB and, if it is mapped,
    aligned with its address, padding to 16 bytes, the XOR of all data bytes, and,
    only if [hash_appended] in the header is not zero, the SHA-256 digest of everything in
    front of it; the whole fits the partition.  The application looks at no load address;
    in the bootloader every segment to be loaded must also have a permitted one.  The
    reported metadata is that of the image, however the data is cut into pages and
    digest chunks.  [ready]: the flash can be read and mapped, the digest can be
    started, and no debugger is attached. *)
Theorem image_check_exact (e : env) (c : list Z) (off psize : Z) (mode : esp_image_load_mode_t) (m : gmap Z Z) (o : Z * Z)
    (data : esp_image_metadata_t) :
  ready e c off psize -> verify_of e mode = true ->
  (exists m', image_load e mode off psize m o = Good (data, m')) <->
  (exists img, holds e c mode off psize img /\ data = metadata e off img).
Proof.
  intros R V. split.
  - intros [m' H]. destruct (load_accepts _ _ _ _ _ _ _ _ _ R V H) as (img & Hh & -> & _). by exists img.
  - intros (img & Hh & ->). eexists. by apply (load_accepted e c).
Qed.

Lemma image_check_exact_witness :
  exists m', image_load (sample_app (sample_chip 0x3FC90000)) ESP_IMAGE_VERIFY 64 128 ∅ (0, 0) =
             Good (metadata (sample_app (sample_chip 0x3FC90000)) 64 (sample_image 0x3FC90000), m').
Proof.
  apply (image_check_exact _ (sample_chip 0x3FC90000)).
  - apply sample_app_ready; try done. by apply bytes_decided.
  - done.
  - exists (sample_image 0x3FC90000). split; [|done]. constructor; [by apply sample_image_wf| |done..].
    constructor; [|done]. by intros H.
Defined.

(** C7: what the bootloader loads.  If the slot holds an image whose segments may be
    loaded and do not overlap in memory, [bootloader_load_image] succeeds, and every word
    of a segment to be loaded is in memory
    at its load address, whatever was in memory before and whatever the values used
    to hide the words until the check was complete; the rest of the memory is as
    before. *)
Theorem bootloader_loads_segments (e : env) (c : list Z) (off psize : Z) (m : gmap Z Z) (o : Z * Z) (img : app_image) :
  ready e c off psize -> e.(build) = true -> e.(random).1 <> 0 -> e.(random).2 <> 0 ->
  holds e c ESP_IMAGE_LOAD off psize img -> apart e img.(segs) ->
  exists m', bootloader_load_image e off psize m o = Good (metadata e off img, m') /\
    (forall sg j w, In sg img.(segs) -> should_load e sg.1 = true -> words sg.2 !! j = Some w ->
       m' !! (sg.1 + Z.of_nat (4 * j)) = Some w) /\
    (forall x, (forall sg, In sg img.(segs) -> ~ covers e sg x) -> m' !! x = m !! x).
Proof.
  intros R B R1 R2 H Hap. unfold bootloader_load_image. rewrite B.
  assert (V : verify_of e ESP_IMAGE_LOAD = true) by (unfold verify_of; by rewrite B).
  assert (L : load_of e ESP_IMAGE_LOAD = true) by (unfold load_of; by rewrite B).
  eexists. split; [by apply (load_accepted e c)|]. destruct H as [Hwf Hld _ _]. rewrite L in *.
  by apply (loaded_ram_spec e B (conj R1 R2) off img m o).
Qed.

(** The two words of the sample image, over other contents. *)
Lemma bootloader_loads_segments_witness :
  exists m',
    bootloader_load_image (sample_boot (sample_chip 0x3FC90000)) 64 128 {[0x3FC90000 := 77; 0x3FC90008 := 78]} (0, 0) =
      Good (metadata (sample_boot (sample_chip 0x3FC90000)) 64 (sample_image 0x3FC90000), m') /\
    m' !! 0x3FC90000 = Some 0x04030201 /\ m' !! 0x3FC90004 = Some 0x08070605 /\ m' !! 0x3FC90008 = Some 78.
Proof.
  destruct (bootloader_loads_segments (sample_boot (sample_chip 0x3FC90000)) (sample_chip 0x3FC90000) 64 128
              {[0x3FC90000 := 77; 0x3FC90008 := 78]} (0, 0) (sample_image 0x3FC90000))
    as (m' & E & Hw & Hr).
  - apply sample_boot_ready; [by apply bytes_decided|lia|reflexivity|vm_compute; discriminate|reflexivity|discriminate].
  - reflexivity.
  - discriminate.
  - discriminate.
  - constructor; [by apply sample_image_wf| |reflexivity|vm_compute; discriminate].
    constructor; [|constructor]. intros _ _. vm_compute. reflexivity.
  - split; [constructor|exact I].
  - exists m'. split; [exact E|]. split; [|split].
    + exact (Hw _ 0%nat 0x04030201 (or_introl eq_refl) eq_refl eq_refl).
    + exact (Hw _ 1%nat 0x08070605 (or_introl eq_refl) eq_refl eq_refl).
    + rewrite (Hr 0x3FC90008); [reflexivity|]. intros sg [<-|[]] [_ [_ H]]. discriminate H.
Defined.

(** C8: an image that passes the check of the application can stop the bootloader.
    If some loaded segment's address range passes 0x80000000, and the segments in
    front of it may be loaded, [esp_image_verify] accepts the image in the
    application, while [bootloader_load_image] ends in a failed assertion, so that
    the other slot is not tried. *)
Theorem wrapping_segment_stops_bootloader (ea eb : env) (c : list Z) (off psize : Z) (m : gmap Z Z) (o : Z * Z)
    (img : app_image) (pre : list (Z * list Z)) (sg : Z * list Z) (post : list (Z * list Z)) :
  ready ea c off psize -> ready eb c off psize -> ea.(build) = false -> eb.(build) = true ->
  image_wf off img -> stored ea c off img -> stored eb c off img ->
  Z.of_nat (length (encode ea img)) <= psize -> Z.of_nat (length (encode eb img)) <= psize ->
  img.(segs) = pre ++ sg :: post -> Forall (load_ok eb true) pre -> wraps eb sg ->
  esp_image_verify ea ESP_IMAGE_VERIFY off psize m o = Good (metadata ea off img, m) /\
  bootloader_load_image eb off psize m o = Assertion.
Proof.
  intros Ra Rb Ba Bb Hwf Hsa Hsb Hfa Hfb Hs Hpre Hw. split.
  - assert (V : verify_of ea ESP_IMAGE_VERIFY = true) by (unfold verify_of; by rewrite Ba).
    assert (Hl : Forall (load_ok ea (load_of ea ESP_IMAGE_VERIFY)) img.(segs)).
    { apply Forall_forall. intros s _ Hx. by rewrite Ba in Hx. }
    unfold esp_image_verify. rewrite (load_accepted ea c off psize _ m o img Ra V (Build_holds _ _ _ _ _ _ Hwf Hl Hsa Hfa)).
    do 2 f_equal. by apply app_ram.
  - unfold bootloader_load_image. rewrite Bb. destruct Rb.
    by apply (image_load_wraps eb c) with (img := img) (pre := pre) (sg := sg) (post := post); try done;
      unfold verify_of, load_of; rewrite Bb.
Qed.

Lemma wrapping_segment_stops_bootloader_witness :
  esp_image_verify (sample_app (sample_chip 0x7FFFFFFC)) ESP_IMAGE_VERIFY 64 128 ∅ (0, 0) =
    Good (metadata (sample_app (sample_chip 0x7FFFFFFC)) 64 (sample_image 0x7FFFFFFC), ∅) /\
  bootloader_load_image (sample_boot (sample_chip 0x7FFFFFFC)) 64 128 ∅ (0, 0) = Assertion.
Proof.
  apply (wrapping_segment_stops_bootloader _ _ (sample_chip 0x7FFFFFFC) 64 128 ∅ (0, 0) (sample_image 0x7FFFFFFC) []
           (0x7FFFFFFC, [1; 2; 3; 4; 5; 6; 7; 8]) []); try done.
  - apply sample_app_ready; try done. by apply bytes_decided.
  - apply sample_boot_ready; try done. by apply bytes_decided.
  - by apply sample_image_wf.
Defined.
End ImageCheck.
