(* ===== verification/TklFlash.v ===== *)
(** * Tuya's data storage: [tkl_flash.c]

    The TuyaOS flash interface on the "tuya" data partition: where keys, the
    key-value store and the file system lie in it, and reads, writes and erases
    at offsets of it. *)
From stdpp Require Import base list.
From Stdlib Require Import ZArith Lia.
From S2P Require Import Prelude Oprt Flash Partition.
Import Flash Partition.
Local Open Scope Z_scope.

Module TklFlash.

Definition PARTITION_SIZE : Z := Z.shiftl 1 12.
Definition FLH_BLOCK_SZ : Z := PARTITION_SIZE.
Definition SIMPLE_FLASH_KEY_ADDR : Z := 0x0.
Definition SIMPLE_FLASH_START : Z := SIMPLE_FLASH_KEY_ADDR + PARTITION_SIZE.
Definition SIMPLE_FLASH_SIZE : Z := 0x8000.
Definition UF_PARTITION_START : Z := SIMPLE_FLASH_START + SIMPLE_FLASH_SIZE.
Definition UF_PARTITION_SIZE : Z := 0x18000.

Inductive TUYA_FLASH_TYPE_E :=
| TUYA_FLASH_TYPE_BTL0 | TUYA_FLASH_TYPE_BTL1 | TUYA_FLASH_TYPE_STACK | TUYA_FLASH_TYPE_APP
| TUYA_FLASH_TYPE_OTA | TUYA_FLASH_TYPE_USER0 | TUYA_FLASH_TYPE_USER1 | TUYA_FLASH_TYPE_KV_DATA
| TUYA_FLASH_TYPE_KV_SWAP | TUYA_FLASH_TYPE_KV_KEY | TUYA_FLASH_TYPE_UF | TUYA_FLASH_TYPE_INFO
| TUYA_FLASH_TYPE_KV_UF | TUYA_FLASH_TYPE_KV_PROTECT | TUYA_FLASH_TYPE_RCD | TUYA_FLASH_TYPE_MAX.

Record TUYA_FLASH_PARTITION_T := mk_region {
  block_size : Z;
  start_addr : Z;
  region_size : Z;
}.

(** The regions in use of [TUYA_FLASH_BASE_INFO_T]. *)
Definition TUYA_FLASH_BASE_INFO_T : Type := list TUYA_FLASH_PARTITION_T.

(** [None] for an [info] that is NULL or left as it was. *)
Definition tkl_flash_get_one_type_info (type : TUYA_FLASH_TYPE_E) (info : bool)
  : Z * option TUYA_FLASH_BASE_INFO_T :=
  if negb info then (OPRT_INVALID_PARM, None)
  else match type with
  | TUYA_FLASH_TYPE_UF => (OPRT_OK, Some [mk_region PARTITION_SIZE UF_PARTITION_START UF_PARTITION_SIZE])
  | TUYA_FLASH_TYPE_KV_DATA => (OPRT_OK, Some [mk_region FLH_BLOCK_SZ SIMPLE_FLASH_START SIMPLE_FLASH_SIZE])
  | TUYA_FLASH_TYPE_KV_KEY => (OPRT_OK, Some [mk_region FLH_BLOCK_SZ SIMPLE_FLASH_KEY_ADDR FLH_BLOCK_SZ])
  | _ => (OPRT_INVALID_PARM, None)
  end.

(** The loaded partition table, where the application runs, and the driver's
    chunk length. *)
Record device := mk_device {
  parts : list esp_partition_t;
  running_address : Z;
  running_size : Z;
  chunk : nat;
}.

Section Operations.
Variable d : device.

Definition GET_TUYA_DATA_PARTITION : option esp_partition_t :=
  esp_partition_find_first d.(parts) ESP_PARTITION_TYPE_DATA ESP_PARTITION_SUBTYPE_ANY (Some tuya_label).

(** The bytes put at [dst], which is NULL when [dst] is false. *)
Definition tkl_flash_read (c : list Z) (addr : Z) (dst : bool) (size : Z) : Z * list Z :=
  if negb dst || (size =? 0) then (OPRT_INVALID_PARM, [])
  else match GET_TUYA_DATA_PARTITION with
  | None => (OPRT_COM_ERROR, [])
  | Some partition =>
      let '(err, bs) := esp_partition_read d.(chunk) c partition addr size in
      if esp_failed err then (OPRT_COM_ERROR, bs) else (OPRT_OK, bs)
  end.

(** [src] is the [size] bytes at the pointer, [None] for NULL.  The answer is
    [None] when the write protection aborts. *)
Definition tkl_flash_write (c : list Z) (addr : Z) (src : option (list Z)) : option (Z * list Z) :=
  match src with
  | None | Some [] => Some (OPRT_INVALID_PARM, c)
  | Some bs =>
      match GET_TUYA_DATA_PARTITION with
      | None => Some (OPRT_COM_ERROR, c)
      | Some partition =>
          '(err, c) ← esp_partition_write d.(running_address) d.(running_size) d.(chunk) c partition addr bs;
          Some (if esp_failed err then OPRT_COM_ERROR else OPRT_OK, c)
      end
  end.

Definition tkl_flash_erase (c : list Z) (addr size : Z) : option (Z * list Z) :=
  match GET_TUYA_DATA_PARTITION with
  | None => Some (OPRT_COM_ERROR, c)
  | Some partition =>
      '(err, c) ← esp_partition_erase_range d.(running_address) d.(running_size) c partition addr size;
      Some (if esp_failed err then OPRT_COM_ERROR else OPRT_OK, c)
  end.

Definition tkl_flash_lock (addr size : Z) : Z := OPRT_NOT_SUPPORTED.
Definition tkl_flash_unlock (addr size : Z) : Z := OPRT_NOT_SUPPORTED.

(** A client's accesses, one after the other. *)
Inductive access :=
| Read (addr : Z) (dst : bool) (size : Z)
| Write (addr : Z) (src : option (list Z))
| Erase (addr size : Z).

Definition run_access (c : list Z) (a : access) : option (list Z) :=
  match a with
  | Read _ _ _ => Some c
  | Write addr src => snd <$> tkl_flash_write c addr src
  | Erase addr size => snd <$> tkl_flash_erase c addr size
  end.

Fixpoint run_accesses (c : list Z) (l : list access) : option (list Z) :=
  match l with
  | [] => Some c
  | a :: l => c ← run_access c a; run_accesses c l
  end.

(** The end of an access as a 32-bit number. *)
Definition no_wrap (a : access) : Prop :=
  match a with
  | Read addr _ size | Erase addr size => 0 <= addr /\ 0 <= size /\ addr + size < 2 ^ 32
  | Write addr src => 0 <= addr /\ addr + Z.of_nat (length (default [] src)) < 2 ^ 32
  end.

(** A device as the partition table lays it out: the table has the "tuya"
    partition [p], it is well placed, and the application does not start right
    behind it. *)
Definition laid_out (p : esp_partition_t) (c : list Z) : Prop :=
  GET_TUYA_DATA_PARTITION = Some p /\ placed d.(running_address) d.(running_size) d.(chunk) p c /\
  not_followed d.(running_address) p.

(** The three operations inside the partition. *)
Lemma flash_read_inside p c a n :
  laid_out p c -> 0 <= a -> 0 < n -> a + n <= p.(size) ->
  tkl_flash_read c a true n = (OPRT_OK, slice c (Z.to_nat (p.(address) + a)) (Z.to_nat n)).
Proof.
  intros (Hf & L & Hnf) H0 Hn Han. assert (Hz : (n =? 0) = false) by (apply Z.eqb_neq; lia).
  unfold tkl_flash_read. by rewrite Hf, Hz, (part_read_inside _ _ _ _ _ _ _ L) by done.
Qed.

Lemma flash_write_inside p c a bs :
  laid_out p c -> 0 <= a -> bs <> [] -> a + Z.of_nat (length bs) <= p.(size) ->
  tkl_flash_write c a (Some bs) = Some (OPRT_OK, program c (Z.to_nat (p.(address) + a)) bs).
Proof.
  intros (Hf & L & Hnf) H0 Hne Han. unfold tkl_flash_write. rewrite Hf, (part_write_inside _ _ _ _ _ _ _ L) by done.
  by destruct bs.
Qed.

Lemma flash_erase_inside p c a n :
  laid_out p c -> 0 <= a -> 0 < n -> a + n <= p.(size) -> a mod sector_size = 0 -> n mod sector_size = 0 ->
  tkl_flash_erase c a n = Some (OPRT_OK, erase c (Z.to_nat (p.(address) + a)) (Z.to_nat n)).
Proof.
  intros (Hf & L & Hnf) H0 Hn Han Ha4 Hn4. unfold tkl_flash_erase.
  by rewrite Hf, (part_erase_inside _ _ _ _ _ _ _ L) by done.
Qed.

(** An access, wherever it aims, ends with the rest of the flash untouched. *)
Lemma write_isolated p c addr src :
  laid_out p c -> no_wrap (Write addr src) ->
  exists r c', tkl_flash_write c addr src = Some (r, c') /\ same_outside p c c'.
Proof.
  intros (Hf & L & Hnf) [H0 Hw]. destruct src as [[|b bs]|]; [by eexists _, _| |by eexists _, _].
  destruct (part_write_isolated _ _ _ p c addr (b :: bs) L Hnf H0 Hw) as (r & c' & E & H).
  unfold tkl_flash_write. rewrite Hf, E. simpl. eauto.
Qed.

Lemma erase_isolated p c addr n :
  laid_out p c -> no_wrap (Erase addr n) ->
  exists r c', tkl_flash_erase c addr n = Some (r, c') /\ same_outside p c c'.
Proof.
  intros (Hf & L & Hnf) (H0 & Hn & Hw).
  destruct (part_erase_isolated _ _ _ p c addr n L Hnf H0 Hn Hw) as (r & c' & E & H).
  unfold tkl_flash_erase. rewrite Hf, E. simpl. eauto.
Qed.

Lemma laid_out_outside p c c' : laid_out p c -> same_outside p c c' -> laid_out p c'.
Proof. intros (Hf & L & Hnf) [Hlen _]. split_and!; [done| |done]. by eapply placed_length. Qed.

Lemma access_isolated p c a :
  laid_out p c -> no_wrap a -> exists c', run_access c a = Some c' /\ same_outside p c c'.
Proof.
  intros L Hw. destruct a as [addr dst n|addr src|addr n]; simpl.
  - eauto using same_outside_refl.
  - destruct (write_isolated p c addr src L Hw) as (r & c' & -> & H). simpl. eauto.
  - destruct (erase_isolated p c addr n L Hw) as (r & c' & -> & H). simpl. eauto.
Qed.
End Operations.

(** A device that boots from the first slot of the firmware's table. *)
Definition tuya_device : device := mk_device tuya_partitions 0x10000 0x3d0000 4096.
Definition tuya_part : esp_partition_t := mk_partition 0x7d0000 0x28000 1 0xaa tuya_label false.

Lemma tuya_device_laid_out (c : list Z) :
  Z.of_nat (length c) = 0x800000 -> laid_out tuya_device tuya_part c.
Proof.
  intros Hc. split_and!; [reflexivity| |discriminate].
  constructor; rewrite ?Hc; simpl; unfold CONFIG_PARTITION_TABLE_OFFSET, ESP_PARTITION_TABLE_MAX_LEN;
    try reflexivity; try lia.
Qed.

(** C19: what Tuya's storage writes it reads back.  On a laid-out device, erasing
    whole sectors, writing bytes into them and reading the same range succeed,
    the read returns exactly the bytes written, and no byte outside the erased
    sectors has changed. *)
Theorem tkl_flash_roundtrip (d : device) (p : esp_partition_t) (c bs : list Z) (ea en a : Z) :
  laid_out d p c ->
  0 <= ea -> ea mod sector_size = 0 -> en mod sector_size = 0 -> ea + en <= p.(size) ->
  ea <= a -> a + Z.of_nat (length bs) <= ea + en -> bs <> [] -> Forall (fun b => 0 <= b <= 255) bs ->
  exists c1 c2,
    tkl_flash_erase d c ea en = Some (OPRT_OK, c1) /\
    tkl_flash_write d c1 a (Some bs) = Some (OPRT_OK, c2) /\
    tkl_flash_read d c2 a true (Z.of_nat (length bs)) = (OPRT_OK, bs) /\
    forall i, ~ (p.(address) + ea <= Z.of_nat i < p.(address) + ea + en) -> c2 !! i = c !! i.
Proof.
  intros L H0 Hea Hen Hin Ha Hb Hne Hbytes.
  assert (Hlen : (0 < length bs)%nat) by (destruct bs; [done|simpl; lia]).
  pose proof (proj1 (proj2 L)) as P. pose proof (pl_chip _ _ _ _ _ P) as Hchip. pose proof (pl_table _ _ _ _ _ P) as Htab.
  unfold CONFIG_PARTITION_TABLE_OFFSET, ESP_PARTITION_TABLE_MAX_LEN in Htab.
  set (c1 := erase c (Z.to_nat (p.(address) + ea)) (Z.to_nat en)).
  assert (L1 : laid_out d p c1) by (eapply laid_out_outside; [done|]; eapply erase_outside; [done|lia..]).
  assert (Hc1 : length c1 = length c) by (apply erase_length; lia).
  set (c2 := program c1 (Z.to_nat (p.(address) + a)) bs).
  assert (L2 : laid_out d p c2)
    by (eapply laid_out_outside; [done|]; eapply program_outside; [apply L1|lia..]).
  exists c1, c2. split_and!.
  - apply flash_erase_inside; auto. lia.
  - apply flash_write_inside; auto; lia.
  - rewrite (flash_read_inside d p) by (done || lia). f_equal. rewrite Nat2Z.id.
    apply program_erased; [lia| |done]. intros i Hi. unfold c1. rewrite erase_lookup by lia.
    destruct (Nat.leb_spec (Z.to_nat (p.(address) + ea)) i); [|lia].
    destruct (Nat.ltb_spec i (Z.to_nat (p.(address) + ea) + Z.to_nat en)); [done|lia].
  - intros i Hi. unfold c2. rewrite program_lookup by lia. unfold c1. rewrite erase_lookup by lia.
    destruct (Nat.leb_spec (Z.to_nat (p.(address) + a)) i), (Nat.ltb_spec i (Z.to_nat (p.(address) + a) + length bs)),
      (Nat.leb_spec (Z.to_nat (p.(address) + ea)) i),
      (Nat.ltb_spec i (Z.to_nat (p.(address) + ea) + Z.to_nat en)); simpl; lia || done.
Qed.

Lemma tkl_flash_roundtrip_witness :
  exists c1 c2,
    tkl_flash_erase tuya_device blank_chip 0x1000 0x2000 = Some (OPRT_OK, c1) /\
    tkl_flash_write tuya_device c1 0x1fff (Some [1; 2; 255]) = Some (OPRT_OK, c2) /\
    tkl_flash_read tuya_device c2 0x1fff true 3 = (OPRT_OK, [1; 2; 255]).
Proof.
  destruct (tkl_flash_roundtrip tuya_device tuya_part blank_chip [1; 2; 255]
              0x1000 0x2000 0x1fff (tuya_device_laid_out _ blank_chip_length))
    as (c1 & c2 & H1 & H2 & H3 & _); [lia|reflexivity|reflexivity|discriminate|lia|discriminate|discriminate| |].
  - repeat constructor; lia.
  - exact (ex_intro _ c1 (ex_intro _ c2 (conj H1 (conj H2 H3)))).
Defined.

(** C20: Tuya's storage cannot damage the rest of the flash.  However a client
    reads, writes and erases, as long as an access does not run past the 32-bit
    range, no access aborts the device and every byte outside the "tuya"
    partition keeps its value. *)
Theorem tkl_flash_isolated (d : device) (p : esp_partition_t) (accesses : list access) (c : list Z) :
  laid_out d p c -> Forall no_wrap accesses ->
  exists c', run_accesses d c accesses = Some c' /\ same_outside p c c'.
Proof.
  intros L Hw. revert c L. induction Hw as [|a l Ha Hl IH]; intros c L; simpl.
  - eauto using same_outside_refl.
  - destruct (access_isolated d p c a L Ha) as (c1 & -> & H1). simpl.
    destruct (IH c1) as (c2 & -> & H2); [by eapply laid_out_outside|]. eauto using same_outside_trans.
Qed.

Lemma tkl_flash_isolated_witness :
  exists c', run_accesses tuya_device blank_chip
               [Erase 0 0x28000; Write 0x27ffe (Some [1; 2]); Write 0x27ffe (Some [1; 2; 3])] = Some c' /\
             same_outside tuya_part blank_chip c'.
Proof.
  apply (tkl_flash_isolated tuya_device tuya_part); [apply tuya_device_laid_out, blank_chip_length|].
  repeat constructor; discriminate.
Defined.

(** The storage regions fit.  The region reported for keys, for the
    key-value store and for the file system is made of whole erase blocks, lies
    in the "tuya" partition of the firmware's table, and no two of different
    kinds overlap. *)
Theorem flash_regions_fit (t t' : TUYA_FLASH_TYPE_E) (r r' : TUYA_FLASH_PARTITION_T) :
  tkl_flash_get_one_type_info t true = (OPRT_OK, Some [r]) ->
  tkl_flash_get_one_type_info t' true = (OPRT_OK, Some [r']) ->
  r.(start_addr) mod r.(block_size) = 0 /\ r.(region_size) mod r.(block_size) = 0 /\
  r.(block_size) = sector_size /\ 0 <= r.(start_addr) /\ 0 < r.(region_size) /\
  r.(start_addr) + r.(region_size) <= tuya_part.(size) /\
  (t <> t' -> r.(start_addr) + r.(region_size) <= r'.(start_addr) \/
              r'.(start_addr) + r'.(region_size) <= r.(start_addr)).
Proof.
  destruct t; try done; intros [= <-]; destruct t'; try done; intros [= <-];
    split_and!; try done; intros ?; (by left) || (by right) || done.
Qed.

Lemma flash_regions_fit_witness :
  tkl_flash_get_one_type_info TUYA_FLASH_TYPE_UF true = (OPRT_OK, Some [mk_region 0x1000 0x9000 0x18000]) /\
  (0x9000 + 0x18000 <= 0x1000 \/ 0x1000 + 0x8000 <= 0x9000).
Proof.
  split; [reflexivity|].
  apply (flash_regions_fit TUYA_FLASH_TYPE_UF TUYA_FLASH_TYPE_KV_DATA (mk_region 0x1000 0x9000 0x18000)
           (mk_region 0x1000 0x1000 0x8000)); [reflexivity|reflexivity|discriminate].
Defined.
End TklFlash.
