(* ===== verification/MjpegTasks.v ===== *)
(** * The decoder's tasks: the rest of [MjpegCodec.cpp]

    The codec is two worker tasks, each with a queue, a mutex and two event bits,
    and a client that submits frames, calls [stop] and finally destroys the codec.
    A step is one call of the source; between two steps any task may run.  A heap
    pointer is a number, given out in increasing order; [free] records it.  A block
    on its way to the screen, a [JPEGDRAW] and its pixels, is one number.  The
    creation of either task and the allocation of the pixels may fail.  When the
    [JPEGDRAW] or the decoder object is refused the code writes through the null
    pointer and the chip resets: a run ends there, in one of the states below. *)
From stdpp Require Import base list.
From Stdlib Require Import Lia Sorted.
From S2P Require Import Prelude.
Local Open Scope nat_scope.

Module MjpegTasks.

Definition NUMBER_OF_DECODE_BUFFER : nat := 3.
Definition NUMBER_OF_DRAW_BUFFER : nat := 5.

(** An item of a queue: a buffer, or the exit signal (a null pointer). *)
Abbreviation item := (option nat) (only parsing).

(** Where a worker stands in its loop.  [Locked] to [Unlock], and [Break], run
    with the worker's mutex held. *)
Inductive wpc :=
| Missing               (* the task could not be created *)
| New                   (* created, first statement not yet run *)
| Recv                  (* in xQueueReceive *)
| Got (x : item)        (* at the lock_guard *)
| Locked (x : item)     (* clearing the finish bit *)
| Work (p : nat)        (* decoding, or drawing *)
| Set_                  (* buffer freed, setting the finish bit *)
| Unlock                (* end of the loop body *)
| Break                 (* leaving the loop *)
| Quit                  (* deleting the queue *)
| Deleted               (* setting the stopped bit *)
| Dead.

Inductive owner := Task | Client.

#[export] Instance owner_eq_dec : EqDecision owner.
Proof. solve_decision. Defined.

Record worker := mk_worker {
  pc : wpc;
  queue : list item;
  mutex : option owner;
  stopped : bool;
  finish : bool;
  exists_ : bool;
}.

Definition at_ (w : worker) (p : wpc) : worker := mk_worker p w.(queue) w.(mutex) w.(stopped) w.(finish) w.(exists_).
Definition lock_ (w : worker) (o : option owner) : worker := mk_worker w.(pc) w.(queue) o w.(stopped) w.(finish) w.(exists_).
Definition enqueue (w : worker) (x : item) : worker :=
  mk_worker w.(pc) (w.(queue) ++ [x]) w.(mutex) w.(stopped) w.(finish) w.(exists_).
Definition dequeue (w : worker) : worker :=
  mk_worker w.(pc) (tail w.(queue)) w.(mutex) w.(stopped) w.(finish) w.(exists_).
Definition set_finish (w : worker) (b : bool) : worker :=
  mk_worker w.(pc) w.(queue) w.(mutex) w.(stopped) b w.(exists_).
Definition set_stopped (w : worker) (b : bool) : worker :=
  mk_worker w.(pc) w.(queue) w.(mutex) b w.(finish) w.(exists_).
Definition delete_queue (w : worker) : worker :=
  mk_worker w.(pc) w.(queue) w.(mutex) w.(stopped) w.(finish) false.

(** The loop [decode_task] and [draw_task] share.  The middle argument is the
    buffer whose processing ends in the step. *)
Inductive wstep : worker -> option nat -> worker -> Prop :=
| w_start w : w.(pc) = New -> wstep w None (at_ (set_stopped w false) Recv)
| w_recv w x q : w.(pc) = Recv -> w.(queue) = x :: q -> wstep w None (at_ (dequeue w) (Got x))
| w_lock w x : w.(pc) = Got x -> w.(mutex) = None -> wstep w None (at_ (lock_ w (Some Task)) (Locked x))
| w_clear w p : w.(pc) = Locked (Some p) -> wstep w None (at_ (set_finish w false) (Work p))
| w_exit w : w.(pc) = Locked None -> wstep w None (at_ (set_finish w false) Break)
| w_done w p : w.(pc) = Work p -> wstep w (Some p) (at_ w Set_)
| w_set w : w.(pc) = Set_ -> wstep w None (at_ (set_finish w true) Unlock)
| w_unlock w : w.(pc) = Unlock -> wstep w None (at_ (lock_ w None) Recv)
| w_break w : w.(pc) = Break -> wstep w None (at_ (lock_ w None) Quit)
| w_delete w : w.(pc) = Quit -> wstep w None (at_ (delete_queue w) Deleted)
| w_stopped w : w.(pc) = Deleted -> wstep w None (at_ (set_stopped w true) Dead).

(** The client.  [Stopping e k]: in [stop], called by [exit] when [e]; the steps
    are the two locks, the two draining loops, [wait_processing] and the two
    unlocks.  [Exiting k]: the rest of [exit].  [Gone r]: the destructor has
    deleted the event group; [r] says whether [exit] returned true. *)
Inductive cpc :=
| Idle
| Sending (p : nat)
| Stopping (e : bool) (k : nat)
| Exiting (k : nat)
| Gone (r : bool).

Record config := mk_config {
  client : cpc;
  decode : worker;
  draw : worker;
  next : nat;
  freed : list nat;
  leaked : list nat;
  decoded : list nat;
  shown : list nat;
}.

Definition with_client (c : config) (x : cpc) : config :=
  mk_config x c.(decode) c.(draw) c.(next) c.(freed) c.(leaked) c.(decoded) c.(shown).
Definition with_decode (c : config) (w : worker) : config :=
  mk_config c.(client) w c.(draw) c.(next) c.(freed) c.(leaked) c.(decoded) c.(shown).
Definition with_draw (c : config) (w : worker) : config :=
  mk_config c.(client) c.(decode) w c.(next) c.(freed) c.(leaked) c.(decoded) c.(shown).
Definition alloc (c : config) : config :=
  mk_config c.(client) c.(decode) c.(draw) (S c.(next)) c.(freed) c.(leaked) c.(decoded) c.(shown).
Definition free (c : config) (x : item) : config :=
  match x with
  | None => c
  | Some p => mk_config c.(client) c.(decode) c.(draw) c.(next) (c.(freed) ++ [p]) c.(leaked) c.(decoded) c.(shown)
  end.
Definition leak (c : config) (p : nat) : config :=
  mk_config c.(client) c.(decode) c.(draw) c.(next) c.(freed) (c.(leaked) ++ [p]) c.(decoded) c.(shown).
Definition log_decoded (c : config) (p : nat) : config :=
  mk_config c.(client) c.(decode) c.(draw) c.(next) c.(freed) c.(leaked) (c.(decoded) ++ [p]) c.(shown).
Definition log_shown (c : config) (p : nat) : config :=
  mk_config c.(client) c.(decode) c.(draw) c.(next) c.(freed) c.(leaked) c.(decoded) (c.(shown) ++ [p]).

(** [MjpegCodec::running]. *)
Definition running (c : config) : bool := negb (c.(draw).(stopped) && c.(decode).(stopped)).

(** The condition [wait_processing] waits for. *)
Definition processed (c : config) : bool := c.(draw).(finish) && c.(decode).(finish).

(** A call by the client, the code's own steps, an allocation that is refused,
    the timeout of [wait_processing], and the timeouts of [exit]. *)
Inductive label := Request | Run | NoMemory | WaitTimeout | Late.

Inductive step : label -> config -> config -> Prop :=
(* the workers *)
| s_decode c w : wstep c.(decode) None w -> step Run c (with_decode c w)
| s_decoded c p w : wstep c.(decode) (Some p) w ->
    step Run c (free (log_decoded (with_decode c w) p) (Some p))
| s_block c p : c.(decode).(pc) = Work p -> length c.(draw).(queue) < NUMBER_OF_DRAW_BUFFER ->
    step Run c (alloc (with_draw c (enqueue c.(draw) (Some c.(next)))))
(* no pixels: the block is dropped, and its JPEGDRAW with it *)
| s_block_lost c p : c.(decode).(pc) = Work p -> step NoMemory c (alloc (leak c c.(next)))
| s_draw c w : wstep c.(draw) None w -> step Run c (with_draw c w)
| s_drawn c p w : wstep c.(draw) (Some p) w ->
    step Run c (free (log_shown (with_draw c w) p) (Some p))
(* decode_frame, on a buffer read_frame has just allocated *)
| s_frame c : c.(client) = Idle -> step Request c (alloc (with_client c (Sending c.(next))))
| s_send c p : c.(client) = Sending p -> length c.(decode).(queue) < NUMBER_OF_DECODE_BUFFER ->
    step Run c (with_client (with_decode c (enqueue c.(decode) (Some p))) Idle)
(* stop *)
| s_stop c : c.(client) = Idle -> step Request c (with_client c (Stopping false 0))
| s_lock_decode c e : c.(client) = Stopping e 0 -> c.(decode).(mutex) = None ->
    step Run c (with_client (with_decode c (lock_ c.(decode) (Some Client))) (Stopping e 1))
| s_lock_draw c e : c.(client) = Stopping e 1 -> c.(draw).(mutex) = None ->
    step Run c (with_client (with_draw c (lock_ c.(draw) (Some Client))) (Stopping e 2))
| s_drain_decode c e x q : c.(client) = Stopping e 2 -> c.(decode).(queue) = x :: q ->
    step Run c (free (with_decode c (dequeue c.(decode))) x)
| s_decode_drained c e : c.(client) = Stopping e 2 -> c.(decode).(queue) = [] ->
    step Run c (with_client c (Stopping e 3))
| s_drain_draw c e x q : c.(client) = Stopping e 3 -> c.(draw).(queue) = x :: q ->
    step Run c (free (with_draw c (dequeue c.(draw))) x)
| s_draw_drained c e : c.(client) = Stopping e 3 -> c.(draw).(queue) = [] ->
    step Run c (with_client c (Stopping e 4))
| s_waited c e : c.(client) = Stopping e 4 -> processed c = true ->
    step Run c (with_client c (Stopping e 5))
| s_wait_timeout c e : c.(client) = Stopping e 4 -> processed c = false ->
    step WaitTimeout c (with_client c (Stopping e 5))
| s_unlock_draw c e : c.(client) = Stopping e 5 ->
    step Run c (with_client (with_draw c (lock_ c.(draw) None)) (Stopping e 6))
| s_unlock_decode c e : c.(client) = Stopping e 6 ->
    step Run c (with_client (with_decode c (lock_ c.(decode) None)) (if e then Exiting 0 else Idle))
(* the destructor, and exit *)
| s_destroy c : c.(client) = Idle -> running c = true -> step Request c (with_client c (Stopping true 0))
| s_destroy_idle c : c.(client) = Idle -> running c = false -> step Request c (with_client c (Gone false))
| s_exit_decode c : c.(client) = Exiting 0 -> length c.(decode).(queue) < NUMBER_OF_DECODE_BUFFER ->
    step Run c (with_client (with_decode c (enqueue c.(decode) None)) (Exiting 1))
| s_exit_decode_late c : c.(client) = Exiting 0 -> step Late c (with_client c (Exiting 1))
| s_decode_stopped c : c.(client) = Exiting 1 -> c.(decode).(stopped) = true ->
    step Run c (with_client c (Exiting 2))
| s_decode_stopped_late c : c.(client) = Exiting 1 -> step Late c (with_client c (Gone false))
| s_exit_draw c : c.(client) = Exiting 2 -> length c.(draw).(queue) < NUMBER_OF_DRAW_BUFFER ->
    step Run c (with_client (with_draw c (enqueue c.(draw) None)) (Exiting 3))
| s_exit_draw_late c : c.(client) = Exiting 2 -> step Late c (with_client c (Exiting 3))
| s_draw_stopped c : c.(client) = Exiting 3 -> c.(draw).(stopped) = true ->
    step Run c (with_client c (Gone true))
| s_draw_stopped_late c : c.(client) = Exiting 3 -> step Late c (with_client c (Gone false)).

(** The constructor: both stopped bits set, the queues made, the tasks created; a
    creation that fails is only logged. *)
Definition new_worker (pass : bool) : worker := mk_worker (if pass then New else Missing) [] None true false true.
Definition MjpegCodec_new (decode_pass draw_pass : bool) : config :=
  mk_config Idle (new_worker decode_pass) (new_worker draw_pass) 0 [] [] [] [].

(** Runs whose steps have labels in [P]. *)
Inductive runs (P : label -> Prop) (c0 : config) : config -> Prop :=
| runs_here : runs P c0 c0
| runs_step l c c' : runs P c0 c -> P l -> step l c c' -> runs P c0 c'.

Definition reachable (c : config) : Prop := exists d g, runs (fun _ => True) (MjpegCodec_new d g) c.

(** ** A worker seen from outside *)

(** The items a worker still has to look at, the one in its hands first. *)
Definition hand (p : wpc) : list item :=
  match p with Got x | Locked x => [x] | Work p => [Some p] | _ => [] end.
Definition pending (w : worker) : list item := hand w.(pc) ++ w.(queue).
Definition owned (w : worker) : list nat := omap id (pending w).

Definition quitting (w : worker) : bool :=
  match w.(pc) with Break | Quit | Deleted | Dead => true | _ => false end.

Definition holds_lock (p : wpc) : bool :=
  match p with Locked _ | Work _ | Set_ | Unlock | Break => true | _ => false end.

Definition absent (p : wpc) : bool := match p with Missing | New | Dead => true | _ => false end.
Definition queue_gone (p : wpc) : bool := match p with Deleted | Dead => true | _ => false end.
Definition some {A} (l : list A) : bool := match l with [] => false | _ => true end.

(** What ties a worker's fields to where it stands; [busy] says whether the
    client holds its mutex, [done] what it has processed. *)
Record wok (w : worker) (busy : bool) (done : list nat) : Prop := {
  wok_task : bool_decide (w.(mutex) = Some Task) = holds_lock w.(pc);
  wok_client : bool_decide (w.(mutex) = Some Client) = busy;
  wok_stopped : w.(stopped) = absent w.(pc);
  wok_exists : w.(exists_) = negb (queue_gone w.(pc));
  wok_finish : match w.(pc) with
               | Missing | New | Recv | Got _ | Locked _ | Unlock => w.(finish) = some done
               | Set_ => some done = true
               | _ => True
               end;
}.

Lemma wstep_wok w o w' busy done :
  wstep w o w' -> wok w busy done -> wok w' busy (done ++ option_list o).
Proof.
  intros Hs [T C S X F].
  destruct Hs as [w P|w x q P Q|w x P M|w p P|w P|w p P|w P|w P|w P|w P|w P]; simpl; rewrite ?app_nil_r;
    rewrite P in *; constructor; simpl in *; rewrite ?P; simpl; try done;
    try (destruct w.(mutex) as [[]|]; simpl in *; congruence).
  by destruct done.
Qed.

(** A step keeps the pending items, or ends the processing of the first, or
    meets the exit signal. *)
Lemma wstep_pending w o w' :
  wstep w o w' ->
  (o = None /\ pending w' = pending w /\ quitting w' = quitting w) \/
  (exists p, o = Some p /\ pending w = Some p :: pending w' /\ quitting w = false /\ quitting w' = false) \/
  (o = None /\ pending w = None :: pending w' /\ quitting w = false /\ quitting w' = true).
Proof.
  intros Hs. destruct Hs as [w P|w x q P Q|w x P M|w p P|w P|w p P|w P|w P|w P|w P|w P];
    unfold pending, quitting; simpl; rewrite ?P, ?Q; simpl; eauto 8.
Qed.

Lemma wstep_owned w o w' : wstep w o w' -> owned w = option_list o ++ owned w'.
Proof.
  intros Hs. unfold owned. destruct (wstep_pending _ _ _ Hs) as [(-> & -> & _)|[(p & -> & -> & _)|(-> & -> & _)]]; done.
Qed.

(** No exit signal is on its way; or it is, as the last item, or was met. *)
Definition normal (w : worker) : Prop := quitting w = false /\ pending w = map Some (owned w).
Definition closing (w : worker) : Prop :=
  if quitting w then pending w = [] else pending w = map Some (owned w) ++ [None].

Lemma owned_of (w : worker) (l : list nat) (r : list item) :
  pending w = map Some l ++ r -> omap id r = [] -> owned w = l.
Proof.
  intros H Hr. unfold owned. rewrite H, omap_app, Hr, app_nil_r. clear H. induction l; [done|].
  simpl. by f_equal.
Qed.

Lemma normal_intro (w : worker) (l : list nat) :
  quitting w = false -> pending w = map Some l -> normal w /\ owned w = l.
Proof.
  intros Hq Hp. assert (Ho : owned w = l) by (apply (owned_of _ _ []); by rewrite ?app_nil_r).
  split; [split; [done|congruence]|done].
Qed.

Lemma wstep_normal w o w' : wstep w o w' -> normal w -> normal w'.
Proof.
  intros Hs [Hq Hp]. destruct (wstep_pending _ _ _ Hs) as [(-> & E & Eq)|[(p & -> & E & _ & Eq)|(-> & E & _)]].
  - apply (normal_intro _ (owned w)); congruence.
  - destruct (owned w) as [|p' l]; [by rewrite Hp in E|]. rewrite Hp in E. injection E as -> E.
    by apply (normal_intro _ l).
  - rewrite Hp in E. by destruct (owned w).
Qed.

Lemma wstep_closing w o w' : wstep w o w' -> closing w -> closing w'.
Proof.
  unfold closing. intros Hs Hc.
  destruct (wstep_pending _ _ _ Hs) as [(-> & E & Eq)|[(p & -> & E & Eq & Eq')|(-> & E & Eq & Eq')]]; rewrite Eq in *.
  - unfold owned. rewrite E. done.
  - rewrite Eq'. rewrite (wstep_owned _ _ _ Hs) in Hc. rewrite Hc in E. simpl in E. by injection E.
  - rewrite Eq'. rewrite Hc in E. destruct (owned w) as [|a l]; [|done]. simpl in E. by injection E.
Qed.

Lemma normal_enqueue w p : normal w -> normal (enqueue w (Some p)) /\ owned (enqueue w (Some p)) = owned w ++ [p].
Proof.
  intros [Hq Hp]. apply normal_intro; [done|]. unfold pending in *. simpl. rewrite app_assoc, Hp, map_app. done.
Qed.

Lemma closing_enqueue w : normal w -> closing (enqueue w None) /\ owned (enqueue w None) = owned w.
Proof.
  intros [Hq Hp]. assert (E : pending (enqueue w None) = map Some (owned w) ++ [None])
    by (unfold pending in *; simpl; by rewrite app_assoc, Hp).
  assert (Ho : owned (enqueue w None) = owned w) by (by apply (owned_of _ _ [None])).
  split; [|done]. unfold closing. replace (quitting (enqueue w None)) with (quitting w) by done.
  by rewrite Hq, Ho.
Qed.

(** Draining takes a buffer out of the middle of the pending items. *)
Lemma normal_dequeue w x q :
  normal w -> w.(queue) = x :: q ->
  normal (dequeue w) /\ exists p l1 l2, x = Some p /\ owned w = l1 ++ p :: l2 /\ owned (dequeue w) = l1 ++ l2.
Proof.
  intros [Hq Hp] E. unfold pending in Hp. rewrite E in Hp. symmetry in Hp.
  apply map_eq_app in Hp as (l1 & l & Hl & H1 & H2). destruct l as [|p l2]; [done|]. injection H2 as <- H2.
  destruct (normal_intro (dequeue w) (l1 ++ l2)) as [Hn Ho].
  - done.
  - unfold pending. simpl. rewrite E. simpl. by rewrite map_app, H1, H2.
  - split; [done|]. by exists p, l1, l2.
Qed.

(** ** Lists of buffers *)

Definition ordered (n : nat) (l : list nat) : Prop := StronglySorted lt l /\ Forall (fun p => p < n) l.

Lemma ordered_sublist n l l' : sublist l' l -> ordered n l -> ordered n l'.
Proof.
  intros Hs [Hsort Hb]. revert Hsort Hb. induction Hs as [|x l1 l2 Hs IH|x l1 l2 Hs IH]; intros Hsort Hb; [done| |].
  - apply StronglySorted_inv in Hsort as [Hsort Hx]. apply Forall_cons in Hb as [Hb0 Hb].
    destruct (IH Hsort Hb). split; constructor; try done.
    rewrite Forall_forall in *. intros y Hy. apply Hx. by eapply elem_of_sublist.
  - apply StronglySorted_inv in Hsort as [Hsort Hx]. apply Forall_cons in Hb as [Hb0 Hb]. auto.
Qed.

Lemma ordered_mono n l : ordered n l -> ordered (S n) l.
Proof. intros [Hs Hb]. split; [done|]. eapply Forall_impl; [done|]. simpl. lia. Qed.

Lemma ordered_push n l : ordered n l -> ordered (S n) (l ++ [n]).
Proof.
  intros H. destruct (ordered_mono _ _ H) as [_ Hb']. destruct H as [Hs Hb].
  split; [|rewrite Forall_app; split; [done|repeat constructor]].
  clear Hb'. induction Hs as [|x l Hs IH Hx]; simpl; [repeat constructor|].
  apply Forall_cons in Hb as [Hx0 Hb]. constructor; [auto|]. rewrite Forall_app. split; [done|by repeat constructor].
Qed.

Definition occ (p : nat) (l : list nat) : nat := count_occ Nat.eq_dec l p.

Arguments occ : simpl never.

Lemma occ_nil p : occ p [] = 0.
Proof. done. Qed.

Lemma occ_app p l l' : occ p (l ++ l') = occ p l + occ p l'.
Proof. apply count_occ_app. Qed.

Lemma occ_one p n : occ p [n] = if p =? n then 1 else 0.
Proof. unfold occ. simpl. destruct (Nat.eq_dec n p), (Nat.eqb_spec p n); congruence. Qed.

Lemma occ_cons p n l : occ p (n :: l) = occ p [n] + occ p l.
Proof. apply (occ_app p [n]). Qed.

(** ** The invariant *)

Definition sending (x : cpc) : list nat := match x with Sending p => [p] | _ => [] end.
Definition holds_decode (x : cpc) : bool := match x with Stopping _ k => (1 <=? k) && (k <=? 6) | _ => false end.
Definition holds_draw (x : cpc) : bool := match x with Stopping _ k => (2 <=? k) && (k <=? 5) | _ => false end.

(** What the client's progress says of the workers [d] and [g]. *)
Definition phase (x : cpc) (d g : worker) : Prop :=
  match x with
  | Idle | Sending _ => normal d /\ normal g
  | Stopping _ k =>
      normal d /\ normal g /\ (3 <= k -> d.(queue) = []) /\ (4 <= k -> g.(queue) = []) /\ k <= 6
  | Exiting 0 => normal d /\ d.(queue) = [] /\ normal g
  | Exiting 1 => (normal d \/ closing d) /\ omap id d.(queue) = [] /\ normal g
  | Exiting 2 => (normal d \/ closing d) /\ owned d = [] /\ normal g
  | Exiting 3 => (normal d \/ closing d) /\ owned d = [] /\ (normal g \/ closing g)
  | Exiting _ => False
  | Gone _ => (normal d \/ closing d) /\ (normal g \/ closing g /\ owned d = [])
  end.

Record inv (c : config) : Prop := {
  inv_decode : wok c.(decode) (holds_decode c.(client)) c.(decoded);
  inv_draw : wok c.(draw) (holds_draw c.(client)) c.(shown);
  inv_heap : forall p, occ p c.(freed) + occ p c.(leaked) + occ p (sending c.(client))
                       + occ p (owned c.(decode)) + occ p (owned c.(draw))
                       = if p <? c.(next) then 1 else 0;
  inv_frames : ordered c.(next) (c.(decoded) ++ owned c.(decode) ++ sending c.(client));
  inv_blocks : ordered c.(next) (c.(shown) ++ owned c.(draw));
  inv_phase : phase c.(client) c.(decode) c.(draw);
}.

Lemma wstep_queue w o w' : wstep w o w' -> w'.(queue) = w.(queue) \/ w'.(queue) = tail w.(queue).
Proof. intros []; simpl; auto. Qed.

Lemma phase_decode x d g o d' : wstep d o d' -> phase x d g -> phase x d' g.
Proof.
  intros Hs. pose proof (wstep_normal _ _ _ Hs) as Hn. pose proof (wstep_closing _ _ _ Hs) as Hc.
  assert (Ho : owned d = [] -> owned d' = [])
    by (rewrite (wstep_owned _ _ _ Hs); intros H; by apply app_eq_nil in H as [_ ?]).
  assert (Hq : d.(queue) = [] -> d'.(queue) = [])
    by (intros E; destruct (wstep_queue _ _ _ Hs) as [->| ->]; by rewrite E).
  assert (Hq' : omap id d.(queue) = [] -> omap id d'.(queue) = []).
  { intros E. destruct (wstep_queue _ _ _ Hs) as [->| ->]; [done|]. destruct d.(queue) as [|[]]; done. }
  destruct x as [| |e k|[|[|[|[|]]]]|]; simpl; tauto.
Qed.

Lemma phase_draw x d g o g' : wstep g o g' -> phase x d g -> phase x d g'.
Proof.
  intros Hs. pose proof (wstep_normal _ _ _ Hs) as Hn. pose proof (wstep_closing _ _ _ Hs) as Hc.
  assert (Hq : g.(queue) = [] -> g'.(queue) = [])
    by (intros E; destruct (wstep_queue _ _ _ Hs) as [->| ->]; by rewrite E).
  destruct x as [| |e k|[|[|[|[|]]]]|]; simpl; tauto.
Qed.

Lemma work_owned d p : d.(pc) = Work p -> owned d <> [].
Proof. unfold owned, pending. intros ->. done. Qed.

(** While the decoder works the draw queue is open. *)
Lemma phase_working x d g p done :
  d.(pc) = Work p -> wok d (holds_decode x) done -> phase x d g ->
  normal g /\ forall g', normal g' -> phase x d g'.
Proof.
  intros P W. pose proof (work_owned d p P) as Hne.
  assert (Hb : holds_decode x = false).
  { rewrite <- (wok_client _ _ _ W). pose proof (wok_task _ _ _ W) as T. rewrite P in T. simpl in T.
    apply bool_decide_eq_true in T. by rewrite T. }
  destruct x as [| |e k|[|[|[|[|]]]]|]; cbn [phase holds_decode] in *; try tauto.
  intros (Hd & Hg & H3 & H4 & Hk). split; [done|]. intros g' Hg'. split_and!; try done.
  intros Hk4. apply andb_false_iff in Hb. rewrite !Nat.leb_gt in Hb. lia.
Qed.

Lemma inv_new d g : inv (MjpegCodec_new d g).
Proof. destruct d, g; repeat constructor; done. Qed.

Lemma inv_decode_step c o w :
  wstep c.(decode) o w -> inv c ->
  inv (mk_config c.(client) w c.(draw) c.(next) (c.(freed) ++ option_list o) c.(leaked) (c.(decoded) ++ option_list o) c.(shown)).
Proof.
  intros Hs [D G H F B P]. pose proof (wstep_owned _ _ _ Hs) as Ho. constructor; simpl; auto.
  - by apply (wstep_wok _ _ _ _ _ Hs).
  - intros p. specialize (H p). rewrite Ho, occ_app in H. rewrite occ_app. lia.
  - rewrite Ho in F. by rewrite <- !app_assoc in *.
  - by apply (phase_decode _ _ _ _ _ Hs).
Qed.

Lemma inv_draw_step c o w :
  wstep c.(draw) o w -> inv c ->
  inv (mk_config c.(client) c.(decode) w c.(next) (c.(freed) ++ option_list o) c.(leaked) c.(decoded) (c.(shown) ++ option_list o)).
Proof.
  intros Hs [D G H F B P]. pose proof (wstep_owned _ _ _ Hs) as Ho. constructor; simpl; auto.
  - by apply (wstep_wok _ _ _ _ _ Hs).
  - intros p. specialize (H p). rewrite Ho, occ_app in H. rewrite occ_app. lia.
  - rewrite Ho in B. by rewrite <- !app_assoc in *.
  - by apply (phase_draw _ _ _ _ _ Hs).
Qed.

Lemma occ_fresh p n (k : nat) :
  k = (if p <? n then 1 else 0) -> k + occ p [n] = if p <? S n then 1 else 0.
Proof.
  intros ->. rewrite occ_one.
  destruct (Nat.ltb_spec p n), (Nat.ltb_spec p (S n)), (Nat.eqb_spec p n); lia.
Qed.

Lemma wok_enqueue w busy done x : wok w busy done -> wok (enqueue w x) busy done.
Proof. intros []. by constructor. Qed.

Lemma wok_dequeue w busy done : wok w busy done -> wok (dequeue w) busy done.
Proof. intros []. by constructor. Qed.

Lemma inv_block_step c p :
  c.(decode).(pc) = Work p -> inv c -> inv (alloc (with_draw c (enqueue c.(draw) (Some c.(next))))).
Proof.
  intros W [D G H F B P]. destruct (phase_working _ _ _ _ _ W D P) as [Hn Hph].
  destruct (normal_enqueue _ c.(next) Hn) as [Hn' Ho]. constructor; simpl; auto using wok_enqueue, ordered_mono.
  - intros q. rewrite Ho, occ_app. rewrite <- (occ_fresh q _ _ (H q)). lia.
  - rewrite Ho, app_assoc. by apply ordered_push.
Qed.

Lemma inv_lost_step c : inv c -> inv (alloc (leak c c.(next))).
Proof.
  intros [D G H F B P]. constructor; simpl; auto using ordered_mono.
  intros q. rewrite occ_app, <- (occ_fresh q _ _ (H q)). lia.
Qed.

(** The client moves on. *)
Lemma codec_inv_move c x :
  inv c -> holds_decode x = holds_decode c.(client) -> holds_draw x = holds_draw c.(client) ->
  sending x = sending c.(client) -> phase x c.(decode) c.(draw) -> inv (with_client c x).
Proof. intros [D G H F B P] E1 E2 E3 Hp. constructor; simpl; rewrite ?E1, ?E2, ?E3; done. Qed.

(** The client takes or releases a worker's mutex. *)
Lemma wok_lock w done : w.(mutex) = None -> wok w false done -> wok (lock_ w (Some Client)) true done.
Proof.
  intros M [T C S X F]. constructor; simpl; try done. by rewrite <- T, M.
Qed.

Lemma wok_unlock w done : wok w true done -> wok (lock_ w None) false done.
Proof.
  intros [T C S X F]. constructor; simpl; try done. apply bool_decide_eq_true in C. by rewrite <- T, C.
Qed.

Lemma inv_lock_decode c x o :
  inv c -> wok (lock_ c.(decode) o) (holds_decode x) c.(decoded) -> holds_draw x = holds_draw c.(client) ->
  sending x = sending c.(client) -> phase x c.(decode) c.(draw) ->
  inv (with_client (with_decode c (lock_ c.(decode) o)) x).
Proof. intros [D G H F B P] W E1 E2 Hp. constructor; simpl; rewrite ?E1, ?E2; done. Qed.

Lemma inv_lock_draw c x o :
  inv c -> wok (lock_ c.(draw) o) (holds_draw x) c.(shown) -> holds_decode x = holds_decode c.(client) ->
  sending x = sending c.(client) -> phase x c.(decode) c.(draw) ->
  inv (with_client (with_draw c (lock_ c.(draw) o)) x).
Proof. intros [D G H F B P] W E1 E2 Hp. constructor; simpl; rewrite ?E1, ?E2; done. Qed.

(** The client drains a queue. *)
Lemma drop_sublist {A} (a l1 l2 b : list A) (p : A) : sublist (a ++ (l1 ++ l2) ++ b) (a ++ (l1 ++ p :: l2) ++ b).
Proof.
  apply sublist_app; [done|]. apply sublist_app; [|done]. apply sublist_app; [done|]. by apply sublist_cons.
Qed.

Lemma inv_drain_decode c e x q :
  c.(client) = Stopping e 2 -> c.(decode).(queue) = x :: q -> inv c -> inv (free (with_decode c (dequeue c.(decode))) x).
Proof.
  intros Hc Hq [D G H F B P]. rewrite Hc in *. destruct P as (Pd & Pg & P3 & P4 & Pk).
  destruct (normal_dequeue _ _ _ Pd Hq) as (Hn & p & l1 & l2 & -> & Ho & Ho').
  constructor; simpl; rewrite ?Hc; auto using wok_dequeue.
  - intros n. specialize (H n). simpl in H. rewrite Ho, occ_app, occ_cons in H. rewrite Ho', !occ_app. simpl. lia.
  - rewrite Ho in F. rewrite Ho'. eapply ordered_sublist; [apply drop_sublist|exact F].
  - simpl. split_and!; auto; lia.
Qed.

Lemma inv_drain_draw c e x q :
  c.(client) = Stopping e 3 -> c.(draw).(queue) = x :: q -> inv c -> inv (free (with_draw c (dequeue c.(draw))) x).
Proof.
  intros Hc Hq [D G H F B P]. rewrite Hc in *. destruct P as (Pd & Pg & P3 & P4 & Pk).
  destruct (normal_dequeue _ _ _ Pg Hq) as (Hn & p & l1 & l2 & -> & Ho & Ho').
  constructor; simpl; rewrite ?Hc; auto using wok_dequeue.
  - intros n. specialize (H n). simpl in H. rewrite Ho, occ_app, occ_cons in H. rewrite Ho', !occ_app. simpl. lia.
  - rewrite Ho in B. rewrite Ho'. eapply ordered_sublist; [|exact B].
    pose proof (drop_sublist c.(shown) l1 l2 [] p) as E. by rewrite !app_nil_r in E.
  - simpl. split_and!; auto; lia.
Qed.

(** The client submits a frame, and sends the exit signals. *)
Lemma inv_frame c : c.(client) = Idle -> inv c -> inv (alloc (with_client c (Sending c.(next)))).
Proof.
  intros Hc [D G H F B P]. rewrite Hc in *. constructor; simpl; auto using ordered_mono.
  - intros p. rewrite <- (occ_fresh p _ _ (H p)). simpl. rewrite occ_nil. lia.
  - simpl in F. rewrite app_nil_r in F. rewrite app_assoc. by apply ordered_push.
Qed.

Lemma inv_send c p :
  c.(client) = Sending p -> inv c -> inv (with_client (with_decode c (enqueue c.(decode) (Some p))) Idle).
Proof.
  intros Hc [D G H F B P]. rewrite Hc in *. destruct P as [Pd Pg]. destruct (normal_enqueue _ p Pd) as [Hn Ho].
  constructor; simpl; auto using wok_enqueue.
  - intros q. specialize (H q). simpl in H. rewrite Ho, occ_app, occ_nil. lia.
  - rewrite Ho, app_nil_r. exact F.
Qed.

Lemma inv_exit_decode c :
  c.(client) = Exiting 0 -> inv c -> inv (with_client (with_decode c (enqueue c.(decode) None)) (Exiting 1)).
Proof.
  intros Hc [D G H F B P]. rewrite Hc in *. destruct P as (Pd & Pq & Pg).
  destruct (closing_enqueue _ Pd) as [Hn Ho]. constructor; simpl; rewrite ?Ho; auto using wok_enqueue.
  rewrite Pq. auto.
Qed.

Lemma inv_exit_draw c :
  c.(client) = Exiting 2 -> inv c -> inv (with_client (with_draw c (enqueue c.(draw) None)) (Exiting 3)).
Proof.
  intros Hc [D G H F B P]. rewrite Hc in *. destruct P as (Pd & Po & Pg).
  destruct (closing_enqueue _ Pg) as [Hn Ho]. constructor; simpl; rewrite ?Ho; auto using wok_enqueue.
Qed.

Lemma absent_owned d : absent d.(pc) = true -> omap id d.(queue) = [] -> owned d = [].
Proof. unfold owned, pending. destruct d.(pc); done. Qed.

Ltac phase_lia := intuition (first [done | lia | match goal with H : _ -> ?G |- ?G => apply H; lia end]).
Ltac client_moves Hc := rewrite Hc in *; apply codec_inv_move; rewrite ?Hc; simpl in *; try done; phase_lia.

Lemma codec_step_inv l c c' : step l c c' -> inv c -> inv c'.
Proof.
  intros Hs I. pose proof I as [D G _ _ _ P].
  destruct Hs as [c w Hw|c p w Hw|c p W _|c p W|c w Hw|c p w Hw|c Hc|c p Hc _|c Hc|c e Hc M|c e Hc M|c e x q Hc Q|c e Hc Q
    |c e x q Hc Q|c e Hc Q|c e Hc _|c e Hc _|c e Hc|c e Hc|c Hc _|c Hc _|c Hc _|c Hc|c Hc S|c Hc|c Hc _|c Hc|c Hc S|c Hc].
  all: try (client_moves Hc; fail).
  - pose proof (inv_decode_step c None w Hw I) as J. simpl in J. by rewrite !app_nil_r in J.
  - exact (inv_decode_step c (Some p) w Hw I).
  - by apply (inv_block_step c p).
  - by apply inv_lost_step.
  - pose proof (inv_draw_step c None w Hw I) as J. simpl in J. by rewrite !app_nil_r in J.
  - exact (inv_draw_step c (Some p) w Hw I).
  - by apply inv_frame.
  - by apply inv_send.
  - rewrite Hc in *. apply inv_lock_decode; rewrite ?Hc; simpl in *; try done; [by apply wok_lock|phase_lia].
  - rewrite Hc in *. apply inv_lock_draw; rewrite ?Hc; simpl in *; try done; [by apply wok_lock|phase_lia].
  - by apply (inv_drain_decode c e x q).
  - by apply (inv_drain_draw c e x q).
  - rewrite Hc in *. apply inv_lock_draw; rewrite ?Hc; simpl in *; try done; [by apply wok_unlock|phase_lia].
  - rewrite Hc in *. apply inv_lock_decode; rewrite ?Hc; simpl in *; try (by destruct e).
    + destruct e; by apply wok_unlock.
    + destruct e; simpl; phase_lia.
  - by apply inv_exit_decode.
  - rewrite Hc in *. apply codec_inv_move; rewrite ?Hc; simpl in *; try done. destruct P as (? & -> & ?). auto.
  - rewrite Hc in *. apply codec_inv_move; rewrite ?Hc; simpl in *; try done.
    destruct P as (? & Hq & ?). split_and!; auto. apply absent_owned; [by rewrite <- (wok_stopped _ _ _ D)|done].
  - by apply inv_exit_draw.
Qed.

Lemma runs_inv P c0 c : runs P c0 c -> inv c0 -> inv c.
Proof. intros H. induction H; eauto using codec_step_inv. Qed.

Lemma codec_reachable_inv c : reachable c -> inv c.
Proof. intros (d & g & H). exact (runs_inv _ _ _ H (inv_new d g)). Qed.


(** ** The exit *)

(** The task was created and has run its first statement. *)
Definition started (w : worker) : bool := match w.(pc) with Missing | New => false | _ => true end.

(** Beyond [inv], once both tasks run: [exit] passes a task only when it is dead. *)
Record exit_inv (c : config) : Prop := {
  ei_decode : started c.(decode) = true;
  ei_draw : started c.(draw) = true;
  ei_decode_dead : match c.(client) with Exiting 2 | Exiting 3 | Gone true => c.(decode).(pc) = Dead | _ => True end;
  ei_draw_dead : match c.(client) with Gone true => c.(draw).(pc) = Dead | _ => True end;
}.

Lemma wstep_started w o w' : wstep w o w' -> started w' = true /\ w.(pc) <> Dead.
Proof. intros []; split; (done || congruence). Qed.

Lemma absent_dead w busy done : wok w busy done -> started w = true -> w.(stopped) = true -> w.(pc) = Dead.
Proof. intros W Hn Hs. rewrite (wok_stopped _ _ _ W) in Hs. unfold started in Hn. by destruct w.(pc). Qed.

Lemma step_exit_inv l c c' : step l c c' -> inv c -> exit_inv c -> exit_inv c'.
Proof.
  intros Hs I [N1 N2 E1 E2].
  destruct Hs; try (match goal with H : wstep _ _ _ |- _ => destruct (wstep_started _ _ _ H) end);
    try (match goal with H : client _ = _ |- _ => rewrite H in E1, E2 end);
    constructor; simpl; try done;
    try (repeat match goal with |- context [match client ?c with _ => _ end] => destruct (client c) as [| | |[|[|[|[|]]]]|[]] end; done);
    try (by destruct e); try (by destruct x);
    try (destruct x; simpl; by match goal with H : client _ = _ |- _ => rewrite H end);
    eauto using absent_dead, inv_decode, inv_draw.
Qed.

Lemma runs_exit_inv P c0 c : runs P c0 c -> inv c0 -> exit_inv c0 -> inv c /\ exit_inv c.
Proof.
  intros H I0 E0. induction H as [|l c c' Hr [I E] Hl Hs]; [done|].
  eauto using codec_step_inv, step_exit_inv.
Qed.

Lemma dead_owned w : normal w \/ closing w -> w.(pc) = Dead -> owned w = [].
Proof.
  unfold normal, closing, quitting, owned. intros H P. rewrite P in H. destruct H as [[? _]|H]; [done|by rewrite H].
Qed.

(** ** Progress *)

(** A created task stays one. *)
Definition present (w : worker) : Prop := w.(pc) <> Missing.

Lemma step_present l c c' :
  step l c c' -> present c.(decode) -> present c.(draw) -> present c'.(decode) /\ present c'.(draw).
Proof.
  unfold present. intros Hs D G. destruct Hs; try done; try (destruct x; done);
    match goal with H : wstep _ _ _ |- _ => by inversion H end.
Qed.

Lemma worker_progress w busy done :
  present w -> wok w busy done ->
  (exists o w', wstep w o w') \/ (w.(pc) = Recv /\ w.(queue) = []) \/ (exists x, w.(pc) = Got x /\ busy = true) \/ w.(pc) = Dead.
Proof.
  unfold present. intros HM [T C _ _ _]. destruct w.(pc) as [| | |x|[p|]|p| | | | | |] eqn:P; try done; eauto using wstep.
  - destruct w.(queue) eqn:Q; eauto using wstep.
  - destruct w.(mutex) as [[]|] eqn:M; simpl in *; [done|eauto 6|eauto using wstep].
Qed.

(** Without the timeouts of [exit] its signals do arrive. *)
Definition signalled (c : config) : Prop :=
  match c.(client) with Exiting 1 => closing c.(decode) | Exiting 3 => closing c.(draw) | _ => True end.

Lemma step_signalled l c c' : l <> Late -> step l c c' -> inv c -> signalled c -> signalled c'.
Proof.
  unfold signalled. intros Hl Hs I S. destruct Hs; try done;
    try (match goal with H : client _ = _ |- _ => simpl; rewrite ?H in *; done end); simpl in *.
  - destruct (client c) as [| | |[|[|[|[|]]]]|]; eauto using wstep_closing.
  - destruct (client c) as [| | |[|[|[|[|]]]]|]; eauto using wstep_closing.
  - pose proof (phase_working _ _ _ _ _ H (inv_decode _ I) (inv_phase _ I)) as [Hg _].
    destruct (client c) as [| | |[|[|[|[|]]]]|] eqn:Hc; try done. destruct Hg as [Hq Hp].
    exfalso. unfold closing in S. rewrite Hq, Hp in S. apply (f_equal length) in S. rewrite length_app in S. simpl in S. lia.
  - destruct (client c) as [| | |[|[|[|[|]]]]|]; eauto using wstep_closing.
  - destruct (client c) as [| | |[|[|[|[|]]]]|]; eauto using wstep_closing.
  - destruct x; simpl; by rewrite H.
  - destruct x; simpl; by rewrite H.
  - by destruct e.
  - apply closing_enqueue. pose proof (inv_phase _ I) as P. rewrite H in P. apply P.
  - apply closing_enqueue. pose proof (inv_phase _ I) as P. rewrite H in P. apply P.
Qed.

(** Neither worker can move. *)
Definition idle (w : worker) (busy : bool) : Prop :=
  (w.(pc) = Recv /\ w.(queue) = []) \/ (exists x, w.(pc) = Got x /\ busy = true) \/ w.(pc) = Dead.

Lemma workers_progress c :
  present c.(decode) -> present c.(draw) -> inv c ->
  (exists c', step Run c c') \/ (idle c.(decode) (holds_decode c.(client)) /\ idle c.(draw) (holds_draw c.(client))).
Proof.
  intros MD MG I. destruct (worker_progress _ _ _ MD (inv_decode _ I)) as [(o & w & Hw)|D]; [left; destruct o; eauto using step|].
  destruct (worker_progress _ _ _ MG (inv_draw _ I)) as [(o & w & Hw)|G]; [left; destruct o; eauto using step|]. auto.
Qed.

Lemma idle_mutex w done : idle w false -> wok w false done -> w.(mutex) = None.
Proof.
  intros H [T C _ _ _]. destruct w.(mutex) as [[]|]; [|done|done].
  by destruct H as [[P _]|[(x & P & ?)|P]]; rewrite P in T.
Qed.

Lemma idle_normal w : idle w false -> normal w -> w.(queue) = [].
Proof.
  intros [[_ E]|[(x & _ & ?)|P]] [Hq _]; [done|done|]. unfold quitting in Hq. by rewrite P in Hq.
Qed.

Lemma idle_closing w busy done : idle w false -> closing w -> wok w busy done -> w.(stopped) = true.
Proof.
  intros H Hc W. rewrite (wok_stopped _ _ _ W). destruct H as [[P Q]|[(x & _ & ?)|P]]; [|done|by rewrite P].
  unfold closing, quitting, pending in Hc. rewrite P, Q in Hc. simpl in Hc. by destruct (map _ _).
Qed.

Lemma idle_pending w : idle w false -> normal w \/ closing w -> pending w = [].
Proof.
  unfold pending. intros [[P Q]|[(x & _ & ?)|P]] Hw; [by rewrite P, Q|done|].
  unfold normal, closing, quitting, pending in Hw. rewrite P in *. by destruct Hw as [[? _]|Hw].
Qed.

Lemma client_progress c :
  inv c -> signalled c ->
  idle c.(decode) (holds_decode c.(client)) -> idle c.(draw) (holds_draw c.(client)) ->
  (exists c', step Run c c') \/
  (exists e c', c.(client) = Stopping e 4 /\ processed c = false /\ step WaitTimeout c c') \/
  ((c.(client) = Idle \/ exists r, c.(client) = Gone r) /\ pending c.(decode) = [] /\ pending c.(draw) = []).
Proof.
  intros I S D G. pose proof (inv_phase _ I) as P. pose proof (inv_decode _ I) as WD. pose proof (inv_draw _ I) as WG.
  unfold signalled in S. destruct (client c) as [|p|e k|k|r] eqn:Hc; simpl in D, G, P, WD, WG.
  - right. right. destruct P. split_and!; eauto using idle_pending.
  - left. eexists. apply (s_send c p Hc). rewrite (idle_normal _ D) by apply P. simpl. unfold NUMBER_OF_DECODE_BUFFER. lia.
  - destruct k as [|[|[|[|[|[|[|]]]]]]]; [..|lia]; simpl in *.
    + left. eexists. apply (s_lock_decode c e Hc). eauto using idle_mutex.
    + left. eexists. apply (s_lock_draw c e Hc). eauto using idle_mutex.
    + left. destruct (queue (decode c)) eqn:Q; eauto using step.
    + left. destruct (queue (draw c)) eqn:Q; eauto using step.
    + destruct (processed c) eqn:Hp; eauto 9 using step.
    + eauto using step.
    + eauto using step.
  - left. destruct k as [|[|[|[|]]]]; simpl in *.
    + eexists. apply (s_exit_decode c Hc). rewrite (idle_normal _ D) by apply P. simpl. unfold NUMBER_OF_DECODE_BUFFER. lia.
    + eexists. apply (s_decode_stopped c Hc). eauto using idle_closing.
    + eexists. apply (s_exit_draw c Hc). rewrite (idle_normal _ G) by apply P. simpl. unfold NUMBER_OF_DRAW_BUFFER. lia.
    + eexists. apply (s_draw_stopped c Hc). eauto using idle_closing.
    + done.
  - right. right. destruct P as [Pd Pg]. split_and!; eauto using idle_pending. apply idle_pending; tauto.
Qed.

(** ** Example runs *)

Lemma runs_front P l c0 c1 c : P l -> step l c0 c1 -> runs P c1 c -> runs P c0 c.
Proof. intros Hl Hs H. induction H; [eapply runs_step; eauto using runs_here|eapply runs_step; eauto]. Qed.

Ltac goes s := eapply runs_front; [|s; reflexivity|]; [done|cbn].

(** Both tasks wait for work after one frame of two blocks, the first of them lost. *)
Definition waiting_worker : worker := mk_worker Recv [] None false true true.
Definition after_frame : config := mk_config Idle waiting_worker waiting_worker 3 [0; 2] [1] [0] [2].

Lemma after_frame_runs : runs (fun l => l <> Late) (MjpegCodec_new true true) after_frame.
Proof.
  goes ltac:(apply s_decode, w_start). goes ltac:(apply s_draw, w_start).
  goes ltac:(apply s_frame). goes ltac:(eapply s_send; [|repeat constructor]).
  goes ltac:(eapply s_decode, w_recv). goes ltac:(eapply s_decode, w_lock). goes ltac:(eapply s_decode, w_clear).
  goes ltac:(eapply s_block_lost). goes ltac:(eapply s_block; [|repeat constructor]). goes ltac:(eapply s_decoded, w_done).
  goes ltac:(apply s_decode, w_set). goes ltac:(apply s_decode, w_unlock).
  goes ltac:(eapply s_draw, w_recv). goes ltac:(eapply s_draw, w_lock). goes ltac:(eapply s_draw, w_clear).
  goes ltac:(eapply s_drawn, w_done). goes ltac:(apply s_draw, w_set). goes ltac:(apply s_draw, w_unlock).
  apply runs_here.
Qed.

Definition stopped_worker : worker := mk_worker Recv [] (Some Client) false true true.
Definition in_stop (e : bool) : config := mk_config (Stopping e 4) stopped_worker stopped_worker 3 [0; 2] [1] [0] [2].

Lemma in_stop_runs : runs (fun l => l <> Late) after_frame (in_stop true).
Proof.
  goes ltac:(eapply s_destroy). goes ltac:(eapply s_lock_decode). goes ltac:(eapply s_lock_draw).
  goes ltac:(eapply s_decode_drained). goes ltac:(eapply s_draw_drained). apply runs_here.
Qed.

Definition dead_worker : worker := mk_worker Dead [] None true false false.
Definition destroyed : config := mk_config (Gone true) dead_worker dead_worker 3 [0; 2] [1] [0] [2].

Lemma destroyed_runs : runs (fun l => l <> Late) (in_stop true) destroyed.
Proof.
  goes ltac:(eapply s_waited). goes ltac:(eapply s_unlock_draw). goes ltac:(eapply (s_unlock_decode _ true)).
  goes ltac:(eapply s_exit_decode; [|repeat constructor]).
  goes ltac:(eapply s_decode, w_recv). goes ltac:(eapply s_decode, w_lock). goes ltac:(eapply s_decode, w_exit).
  goes ltac:(eapply s_decode, w_break). goes ltac:(eapply s_decode, w_delete). goes ltac:(eapply s_decode, w_stopped).
  goes ltac:(eapply s_decode_stopped). goes ltac:(eapply s_exit_draw; [|repeat constructor]).
  goes ltac:(eapply s_draw, w_recv). goes ltac:(eapply s_draw, w_lock). goes ltac:(eapply s_draw, w_exit).
  goes ltac:(eapply s_draw, w_break). goes ltac:(eapply s_draw, w_delete). goes ltac:(eapply s_draw, w_stopped).
  goes ltac:(eapply s_draw_stopped). apply runs_here.
Qed.

Lemma runs_weaken (P Q : label -> Prop) c0 c : (forall l, P l -> Q l) -> runs P c0 c -> runs Q c0 c.
Proof. intros HPQ H. induction H; eauto using runs. Qed.

Lemma runs_trans P c0 c1 c2 : runs P c0 c1 -> runs P c1 c2 -> runs P c0 c2.
Proof. intros H1 H2. induction H2; eauto using runs. Qed.

Lemma after_frame_reachable : reachable after_frame.
Proof. exists true, true. eapply runs_weaken, after_frame_runs. done. Qed.

Lemma in_stop_reachable : reachable (in_stop true).
Proof. exists true, true. eapply runs_weaken, (runs_trans _ _ _ _ after_frame_runs in_stop_runs). done. Qed.

(** ** The properties *)





(** C26: nothing overtakes.  Frames are decoded in the order in which they were
    submitted, what is decoded, in work, queued and about to be sent following
    each other; blocks are drawn in the order in which they were decoded. *)
Theorem codec_in_order (c : config) :
  reachable c ->
  StronglySorted lt (c.(decoded) ++ owned c.(decode) ++ sending c.(client)) /\
  StronglySorted lt (c.(shown) ++ owned c.(draw)).
Proof. intros I%codec_reachable_inv. split; [apply (inv_frames _ I)|apply (inv_blocks _ I)]. Qed.

Lemma codec_in_order_witness :
  StronglySorted lt (after_frame.(decoded) ++ owned after_frame.(decode) ++ []) /\
  StronglySorted lt (after_frame.(shown) ++ owned after_frame.(draw)).
Proof. apply (codec_in_order after_frame), after_frame_reachable. Defined.

(** What [stop] waits for.  When it reaches [wait_processing] both queues are
    empty, neither task is inside its critical section, and the condition it
    waits for holds exactly when each task has completed at least one item: before
    the first frame the call always runs into its timeout. *)
Theorem codec_stop_waits (c : config) (e : bool) :
  reachable c -> c.(client) = Stopping e 4 ->
  c.(decode).(queue) = [] /\ c.(draw).(queue) = [] /\
  holds_lock c.(decode).(pc) = false /\ holds_lock c.(draw).(pc) = false /\
  processed c = some c.(shown) && some c.(decoded).
Proof.
  intros I%codec_reachable_inv Hc. pose proof (inv_decode _ I) as D. pose proof (inv_draw _ I) as G.
  pose proof (inv_phase _ I) as P. rewrite Hc in D, G, P. destruct P as ((Qd & _) & (Qg & _) & Hd & Hg & _).
  assert (Hfree : forall w done, wok w true done -> quitting w = false ->
                    holds_lock w.(pc) = false /\ w.(finish) = some done).
  { intros w done [T C _ _ F] Q. apply bool_decide_eq_true in C. rewrite C in T. simpl in T.
    unfold quitting in Q. by destruct w.(pc). }
  destruct (Hfree _ _ D Qd) as [Ld Fd]. destruct (Hfree _ _ G Qg) as [Lg Fg].
  split_and!; auto. unfold processed. congruence.
Qed.

Lemma codec_stop_waits_witness :
  (in_stop true).(client) = Stopping true 4 /\ processed (in_stop true) = true.
Proof. split; [reflexivity|]. apply (codec_stop_waits (in_stop true) true in_stop_reachable). reflexivity. Defined.

(** C25: a clean exit.  If both tasks were created and had started when the client
    destroyed the codec, and [exit] returned true, then both tasks have ended, every
    buffer has been freed exactly once, except the [JPEGDRAW]s of blocks whose
    pixels were refused, and nothing more can happen: the event group is deleted
    after its last use. *)
Theorem codec_exit_clean (c0 c : config) :
  reachable c0 -> c0.(client) = Idle -> started c0.(decode) = true -> started c0.(draw) = true ->
  runs (fun _ => True) c0 c -> c.(client) = Gone true ->
  c.(decode).(pc) = Dead /\ c.(draw).(pc) = Dead /\
  (forall p, occ p c.(freed) + occ p c.(leaked) = if p <? c.(next) then 1 else 0) /\
  (forall l c', ~ step l c c').
Proof.
  intros I0%codec_reachable_inv Hc0 N1 N2 Hr Hc.
  assert (E0 : exit_inv c0) by (constructor; rewrite ?Hc0; done).
  destruct (runs_exit_inv _ _ _ Hr I0 E0) as [I [_ _ E1 E2]]. rewrite Hc in E1, E2.
  pose proof (inv_phase _ I) as P. rewrite Hc in P. destruct P as [Pd Pg]. split_and!; auto.
  - intros p. pose proof (inv_heap _ I p) as H. rewrite Hc, (dead_owned _ Pd E1) in H.
    rewrite (dead_owned c.(draw)) in H by tauto. simpl in H. rewrite occ_nil in H. lia.
  - intros l c' Hs. destruct Hs; try congruence;
      match goal with H : wstep _ _ _ |- _ => destruct (wstep_started _ _ _ H); congruence end.
Qed.

Lemma codec_exit_clean_witness :
  destroyed.(decode).(pc) = Dead /\ (forall p, occ p [0; 2] + occ p [1] = if p <? 3 then 1 else 0).
Proof.
  destruct (codec_exit_clean after_frame destroyed) as (H1 & _ & H3 & _); try done.
  - apply after_frame_reachable.
  - eapply runs_weaken, (runs_trans _ _ _ _ in_stop_runs destroyed_runs). done.
Defined.

(** C24: no deadlock.  When both tasks could be created, and as long as the
    timeouts of [exit] do not strike, in every state either the code can go on by itself, or it is in [wait_processing] before
    a first item was completed, which its timeout ends, or there is nothing left to
    do: the client is idle or gone, and no item is pending. *)
Theorem codec_no_deadlock (c : config) :
  runs (fun l => l <> Late) (MjpegCodec_new true true) c ->
  (exists c', step Run c c') \/
  (exists e c', c.(client) = Stopping e 4 /\ processed c = false /\ step WaitTimeout c c') \/
  ((c.(client) = Idle \/ exists r, c.(client) = Gone r) /\ pending c.(decode) = [] /\ pending c.(draw) = []).
Proof.
  intros Hr. assert (H : (inv c /\ signalled c) /\ present c.(decode) /\ present c.(draw)).
  { induction Hr as [|l c c' Hr [[I S] [MD MG]] Hl Hs]; [split; [split; [apply inv_new|done]|done]|].
    split; [|eauto using step_present]. eauto using codec_step_inv, step_signalled. }
  destruct H as [[I S] [MD MG]]. destruct (workers_progress c MD MG I) as [?|[D G]]; [auto|]. by apply client_progress.
Qed.

Lemma codec_no_deadlock_witness :
  (exists c', step Run (in_stop true) c') \/
  (exists e c', (in_stop true).(client) = Stopping e 4 /\ processed (in_stop true) = false /\ step WaitTimeout (in_stop true) c') \/
  (((in_stop true).(client) = Idle \/ exists r, (in_stop true).(client) = Gone r) /\
   pending (in_stop true).(decode) = [] /\ pending (in_stop true).(draw) = []).
Proof. apply (codec_no_deadlock (in_stop true)), (runs_trans _ _ _ _ after_frame_runs in_stop_runs). Defined.

(** Without the decode task the fourth frame blocks the client for good. *)
Definition full_worker : worker := mk_worker Missing [Some 0; Some 1; Some 2] None true false true.

Lemma full_worker_step l c c' :
  step l c c' -> c.(client) = Sending 3 -> c.(decode) = full_worker ->
  c'.(client) = Sending 3 /\ c'.(decode) = full_worker.
Proof.
  intros Hs Hc Hd. destruct Hs; simpl in *; try congruence; try done;
    try match goal with H : wstep _ _ _ |- _ => rewrite Hd in H; by inversion H end.
  rewrite Hd in *. simpl in *. unfold NUMBER_OF_DECODE_BUFFER in *. lia.
Qed.

Lemma no_decode_task_blocks (g : bool) :
  exists c, runs (fun _ => True) (MjpegCodec_new false g) c /\ c.(client) = Sending 3 /\
    forall c', runs (fun _ => True) c c' -> c'.(client) = Sending 3.
Proof.
  exists (mk_config (Sending 3) full_worker (new_worker g) 4 [] [] [] []). split_and!; [|done|].
  - do 3 (goes ltac:(apply s_frame); goes ltac:(eapply s_send; [|cbn; unfold NUMBER_OF_DECODE_BUFFER; lia])).
    goes ltac:(apply s_frame). apply runs_here.
  - intros c' Hr. assert (H : c'.(client) = Sending 3 /\ c'.(decode) = full_worker); [|apply H].
    induction Hr as [|l c1 c2 _ [Hc Hd] _ Hs]; [done|]. eauto using full_worker_step.
Qed.

(** Destroying the codec before its tasks have run: [running] is false, the
    event group is deleted, and the tasks then use it. *)
Lemma early_destroy :
  exists c, reachable c /\ c.(client) = Gone false /\ exists c', step Run c c' /\ c'.(decode).(pc) = Recv.
Proof.
  exists (with_client (MjpegCodec_new true true) (Gone false)). split_and!; [|done|].
  - exists true, true. eapply runs_step; [apply runs_here|done|]. by apply s_destroy_idle.
  - eexists. split; [apply s_decode, w_start; reflexivity|done].
Qed.
End MjpegTasks.
