(* ===== verification/Lwip.v ===== *)
(** * IPv4 addresses: lwIP's [ip4_addr.c], [ip.c] and [def.c]

    Byte order, and the conversion of addresses to and from dotted strings.  A
    C string is the list of its characters without the terminating NUL. *)
From stdpp Require Import base list.
From Stdlib Require Import ZArith Lia.
From S2P Require Import Prelude Oprt.
Local Open Scope Z_scope.

Module Lwip.

Definition PP_HTONS (x : Z) : Z :=
  u16 (Z.lor (Z.shiftl (Z.land x 0x00ff) 8) (Z.shiftr (Z.land x 0xff00) 8)).
Definition PP_HTONL (x : Z) : Z :=
  Z.lor (Z.lor (Z.lor (u32 (Z.shiftl (Z.land x 0x000000ff) 24)) (u32 (Z.shiftl (Z.land x 0x0000ff00) 8)))
               (Z.shiftr (Z.land x 0x00ff0000) 8)) (Z.shiftr (Z.land x 0xff000000) 24).
Definition lwip_htons := PP_HTONS.
Definition lwip_htonl := PP_HTONL.
Definition lwip_ntohl := PP_HTONL.
Definition lwip_ntohs := PP_HTONS.

(** ** Reading an address *)

Definition IPADDR_NONE : Z := 0xffffffff.

(** [*cp]. *)
Definition char_at (cp : list Z) : Z := match cp with [] => 0 | c :: _ => c end.

Definition in_range (c lo up : Z) : bool := (lo <=? c) && (c <=? up).
Definition lwip_isdigit (c : Z) : bool := in_range c 0x30 0x39.
Definition lwip_isxdigit (c : Z) : bool := lwip_isdigit c || in_range c 0x61 0x66 || in_range c 0x41 0x46.
Definition lwip_islower (c : Z) : bool := in_range c 0x61 0x7a.
Definition lwip_isspace (c : Z) : bool :=
  (c =? 0x20) || (c =? 0x0c) || (c =? 0x0a) || (c =? 0x0d) || (c =? 0x09) || (c =? 0x0b).

(** The inner loop of [ip4addr_aton]: the digits of one part. *)
Fixpoint number (base val : Z) (cp : list Z) : Z * list Z :=
  match cp with
  | [] => (val, [])
  | c :: cp' =>
      if lwip_isdigit c then number base (u32 (u32 (val * base) + u32 (c - 0x30))) cp'
      else if (base =? 16) && lwip_isxdigit c then
        number base (Z.lor (u32 (Z.shiftl val 4)) (u32 (c + 10 - (if lwip_islower c then 0x61 else 0x41)))) cp'
      else (val, cp)
  end.

(** One part, with its base. *)
Definition part (cp : list Z) : option (Z * list Z) :=
  let c := char_at cp in
  if negb (lwip_isdigit c) then None
  else if c =? 0x30 then
    let cp := tail cp in
    let c := char_at cp in
    if (c =? 0x78) || (c =? 0x58) then Some (number 16 0 (tail cp)) else Some (number 8 0 cp)
  else Some (number 10 0 cp).

(** The outer loop; [room] is the number of parts that may still be stored. *)
Fixpoint parts_loop (room : nat) (parts : list Z) (cp : list Z) : option (list Z * Z * list Z) :=
  match part cp with
  | None => None
  | Some (val, cp) =>
      if char_at cp =? 0x2e then
        match room with
        | O => None
        | S room => parts_loop room (parts ++ [val]) (tail cp)
        end
      else Some (parts, val, cp)
  end.

(** [ip4addr_aton]: the address in network order, [None] for 0. *)
Definition ip4addr_aton (cp : list Z) : option Z :=
  match parts_loop 3 [] cp with
  | None => None
  | Some (parts, val, cp) =>
      let c := char_at cp in
      if negb (c =? 0) && negb (lwip_isspace c) then None
      else
        val ← match parts with
              | [] => Some val
              | [p0] =>
                  if 0xffffff <? val then None else if 0xff <? p0 then None
                  else Some (Z.lor val (u32 (Z.shiftl p0 24)))
              | [p0; p1] =>
                  if 0xffff <? val then None else if (0xff <? p0) || (0xff <? p1) then None
                  else Some (Z.lor val (Z.lor (u32 (Z.shiftl p0 24)) (Z.shiftl p1 16)))
              | [p0; p1; p2] =>
                  if 0xff <? val then None else if (0xff <? p0) || (0xff <? p1) || (0xff <? p2) then None
                  else Some (Z.lor val (Z.lor (Z.lor (u32 (Z.shiftl p0 24)) (Z.shiftl p1 16)) (Z.shiftl p2 8)))
              | _ => Some val
              end;
        Some (lwip_htonl val)
  end.

(** [ipaddr_addr], which is [inet_addr]. *)
Definition ipaddr_addr (cp : list Z) : Z := match ip4addr_aton cp with Some val => val | None => IPADDR_NONE end.

(** ** Writing an address *)

Definition IP4ADDR_STRLEN_MAX : nat := 16.

(** The digits of a byte, the last one first; a byte has at most three. *)
Fixpoint inv (fuel : nat) (ap : Z) : list Z :=
  match fuel with
  | O => []
  | S fuel => (0x30 + ap mod 10) :: (if ap / 10 =? 0 then [] else inv fuel (ap / 10))
  end.

(** [*rp++ = c] with the check of the length. *)
Definition put (buflen : nat) (buf : list Z) (c : Z) : option (list Z) :=
  if (buflen <=? length buf)%nat then None else Some (buf ++ [c]).

Fixpoint puts (buflen : nat) (buf cs : list Z) : option (list Z) :=
  match cs with
  | [] => Some buf
  | c :: cs => buf ← put buflen buf c; puts buflen buf cs
  end.

(** The bytes of a word in memory. *)
Definition byte_of (s_addr : Z) (n : nat) : Z := s_addr / 2 ^ (8 * Z.of_nat n) mod 256.

Definition ip4addr_ntoa_r (s_addr : Z) (buflen : nat) : option (list Z) :=
  buf ← puts buflen [] (rev (inv 3 (byte_of s_addr 0)));
  buf ← put buflen buf 0x2e;
  buf ← puts buflen buf (rev (inv 3 (byte_of s_addr 1)));
  buf ← put buflen buf 0x2e;
  buf ← puts buflen buf (rev (inv 3 (byte_of s_addr 2)));
  buf ← put buflen buf 0x2e;
  buf ← puts buflen buf (rev (inv 3 (byte_of s_addr 3)));
  buf ← put buflen buf 0x2e;
  Some (take (length buf - 1) buf).

Definition ip4addr_ntoa (s_addr : Z) : option (list Z) := ip4addr_ntoa_r s_addr IP4ADDR_STRLEN_MAX.

Definition IPADDR_TYPE_V6 : Z := 6.

(** [ipaddr_ntoa] of an address with the type byte [ty]; [ip6addr_ntoa] writes
    IPv6 addresses. *)
Definition ipaddr_ntoa (ip6addr_ntoa : option (list Z)) (s_addr ty : Z) : option (list Z) :=
  if ty =? IPADDR_TYPE_V6 then ip6addr_ntoa else ip4addr_ntoa s_addr.

(** ** Byte order *)

Lemma htonl_bytes a b c d :
  0 <= a < 256 -> 0 <= b < 256 -> 0 <= c < 256 -> 0 <= d < 256 ->
  PP_HTONL (a * 2 ^ 24 + b * 2 ^ 16 + c * 2 ^ 8 + d) = d * 2 ^ 24 + c * 2 ^ 16 + b * 2 ^ 8 + a.
Proof.
  intros Ha Hb Hc Hd. set (x := a * 2 ^ 24 + b * 2 ^ 16 + c * 2 ^ 8 + d). unfold PP_HTONL.
  assert (E0 : Z.land x 0x000000ff = d).
  { replace 0xff with (Z.shiftl 255 0) by done. rewrite land_field by lia. unfold x.
    replace (_ / 2 ^ 0) with (d + (a * 2 ^ 16 + b * 2 ^ 8 + c) * 256) by (rewrite Z.pow_0_r, Z.div_1_r; lia).
    rewrite Z_mod_plus_full, Z.mod_small by lia. lia. }
  assert (E1 : Z.land x 0x0000ff00 = c * 2 ^ 8).
  { replace 0xff00 with (Z.shiftl 255 8) by done. rewrite land_field by lia. unfold x.
    replace (_ / 2 ^ 8) with (c + (a * 2 ^ 8 + b) * 256)
      by (apply (Z.div_unique _ _ _ d); lia). rewrite Z_mod_plus_full, Z.mod_small by lia. lia. }
  assert (E2 : Z.land x 0x00ff0000 = b * 2 ^ 16).
  { replace 0xff0000 with (Z.shiftl 255 16) by done. rewrite land_field by lia. unfold x.
    replace (_ / 2 ^ 16) with (b + a * 256)
      by (apply (Z.div_unique _ _ _ (c * 2 ^ 8 + d)); lia). rewrite Z_mod_plus_full, Z.mod_small by lia. lia. }
  assert (E3 : Z.land x 0xff000000 = a * 2 ^ 24).
  { replace 0xff000000 with (Z.shiftl 255 24) by done. rewrite land_field by lia. unfold x.
    replace (_ / 2 ^ 24) with a
      by (apply (Z.div_unique _ _ _ (b * 2 ^ 16 + c * 2 ^ 8 + d)); lia). rewrite Z.mod_small by lia. lia. }
  rewrite E0, E1, E2, E3. rewrite !Z.shiftl_mul_pow2, !Z.shiftr_div_pow2 by lia.
  replace (b * 2 ^ 16 / 2 ^ 8) with (b * 2 ^ 8) by (apply (Z.div_unique _ _ _ 0); lia).
  rewrite (Z.div_mul a) by lia. replace (c * 2 ^ 8 * 2 ^ 8) with (c * 2 ^ 16) by lia.
  rewrite !u32_small by lia.
  rewrite lor_field by lia. replace (d * 2 ^ 24 + c * 2 ^ 16) with ((d * 2 ^ 8 + c) * 2 ^ 16) by lia.
  rewrite lor_field by lia.
  replace ((d * 2 ^ 8 + c) * 2 ^ 16 + b * 2 ^ 8) with ((d * 2 ^ 16 + c * 2 ^ 8 + b) * 2 ^ 8) by lia.
  rewrite lor_field by lia. lia.
Qed.

Lemma word_bytes x :
  0 <= x < 2 ^ 32 ->
  exists a b c d, 0 <= a < 256 /\ 0 <= b < 256 /\ 0 <= c < 256 /\ 0 <= d < 256 /\
    x = a * 2 ^ 24 + b * 2 ^ 16 + c * 2 ^ 8 + d.
Proof.
  intros Hx. exists (x / 2 ^ 24), (x / 2 ^ 16 mod 256), (x / 2 ^ 8 mod 256), (x mod 256).
  pose proof (Z.mod_pos_bound (x / 2 ^ 16) 256 ltac:(lia)). pose proof (Z.mod_pos_bound (x / 2 ^ 8) 256 ltac:(lia)).
  pose proof (Z.mod_pos_bound x 256 ltac:(lia)).
  assert (0 <= x / 2 ^ 24 < 256) by (split; [apply Z.div_pos; lia|apply Z.div_lt_upper_bound; lia]).
  assert (E1 : x = 256 * (x / 2 ^ 8) + x mod 256) by (apply Z.div_mod; lia).
  assert (E2 : x / 2 ^ 8 = 256 * (x / 2 ^ 8 / 256) + (x / 2 ^ 8) mod 256) by (apply Z.div_mod; lia).
  assert (E3 : x / 2 ^ 16 = 256 * (x / 2 ^ 16 / 256) + (x / 2 ^ 16) mod 256) by (apply Z.div_mod; lia).
  rewrite Z.div_div in E2, E3 by lia. change (2 ^ 8 * 256) with (2 ^ 16) in E2. change (2 ^ 16 * 256) with (2 ^ 24) in E3.
  lia.
Qed.

(** Converting twice gives the number back. *)
Lemma htonl_htonl x : 0 <= x < 2 ^ 32 -> PP_HTONL (PP_HTONL x) = x.
Proof.
  intros (a & b & c & d & Ha & Hb & Hc & Hd & ->)%word_bytes. rewrite !htonl_bytes by lia. lia.
Qed.

Lemma htons_bytes a b : 0 <= a < 256 -> 0 <= b < 256 -> PP_HTONS (a * 2 ^ 8 + b) = b * 2 ^ 8 + a.
Proof.
  intros Ha Hb. unfold PP_HTONS.
  replace 0xff with (Z.shiftl 255 0) by done. replace 0xff00 with (Z.shiftl 255 8) by done.
  rewrite !land_field by lia. replace ((a * 2 ^ 8 + b) / 2 ^ 8) with a by (apply (Z.div_unique _ _ _ b); lia).
  replace ((a * 2 ^ 8 + b) / 2 ^ 0) with (b + a * 256) by (rewrite Z.pow_0_r, Z.div_1_r; lia).
  rewrite Z_mod_plus_full, !Z.mod_small by lia. rewrite Z.shiftl_mul_pow2, Z.shiftr_div_pow2 by lia.
  rewrite Z.div_mul, Z.pow_0_r, Z.mul_1_r, lor_field by lia. apply u16_small. lia.
Qed.

Lemma htons_htons x : 0 <= x < 2 ^ 16 -> PP_HTONS (PP_HTONS x) = x.
Proof.
  intros Hx. pose proof (Z.div_mod x 256 ltac:(lia)). pose proof (Z.mod_pos_bound x 256 ltac:(lia)).
  assert (0 <= x / 256 < 256) by (split; [apply Z.div_pos; lia|apply Z.div_lt_upper_bound; lia]).
  replace x with (x / 256 * 2 ^ 8 + x mod 256) at 1 by lia. rewrite !htons_bytes by lia. lia.
Qed.

Lemma byte_of_word a b c d :
  0 <= a < 256 -> 0 <= b < 256 -> 0 <= c < 256 -> 0 <= d < 256 ->
  let x := a * 2 ^ 24 + b * 2 ^ 16 + c * 2 ^ 8 + d in
  byte_of x 0 = d /\ byte_of x 1 = c /\ byte_of x 2 = b /\ byte_of x 3 = a.
Proof.
  intros Ha Hb Hc Hd x. unfold byte_of. cbn [Z.of_nat]. rewrite Z.mul_0_r, Z.pow_0_r, Z.div_1_r.
  change (2 ^ (8 * Z.of_nat 1)) with (2 ^ 8). change (2 ^ (8 * Z.of_nat 2)) with (2 ^ 16).
  change (2 ^ (8 * Z.of_nat 3)) with (2 ^ 24). unfold x. split_and!.
  - replace (a * 2 ^ 24 + b * 2 ^ 16 + c * 2 ^ 8 + d) with (d + (a * 2 ^ 16 + b * 2 ^ 8 + c) * 256) by lia.
    rewrite Z_mod_plus_full. by apply Z.mod_small.
  - replace (_ / 2 ^ 8) with (c + (a * 2 ^ 8 + b) * 256) by (apply (Z.div_unique _ _ _ d); lia).
    rewrite Z_mod_plus_full. by apply Z.mod_small.
  - replace (_ / 2 ^ 16) with (b + a * 256) by (apply (Z.div_unique _ _ _ (c * 2 ^ 8 + d)); lia).
    rewrite Z_mod_plus_full. by apply Z.mod_small.
  - replace (_ / 2 ^ 24) with a by (apply (Z.div_unique _ _ _ (b * 2 ^ 16 + c * 2 ^ 8 + d)); lia).
    by apply Z.mod_small.
Qed.

(** ** Decimal bytes *)

Definition dec (b : Z) : list Z := rev (inv 3 b).

(** A property of the 256 bytes that evaluates to true. *)
Lemma all_bytes (f : Z -> bool) : forallb f (map Z.of_nat (seq 0 256)) = true -> forall b, 0 <= b < 256 -> f b = true.
Proof.
  intros H b Hb. rewrite forallb_forall in H. apply H. apply in_map_iff. exists (Z.to_nat b).
  split; [lia|]. apply in_seq. lia.
Qed.

Lemma dec_length b : 0 <= b < 256 -> (1 <= length (dec b) <= 3)%nat.
Proof.
  intros Hb. assert (E : (1 <=? length (dec b))%nat && (length (dec b) <=? 3)%nat = true)
    by (revert b Hb; apply all_bytes; vm_compute; reflexivity).
  apply andb_prop in E as [E1 E2]. by split; apply Nat.leb_le.
Qed.

(** Where a number ends. *)
Definition ends (rest : list Z) : Prop := lwip_isdigit (char_at rest) = false /\ char_at rest <> 0x78 /\ char_at rest <> 0x58.

Lemma number_ends base val rest : ends rest -> base <> 16 -> number base val rest = (val, rest).
Proof.
  intros (Hd & _) Hb. destruct rest as [|c rest]; [done|]. simpl in *. rewrite Hd.
  by rewrite (proj2 (Z.eqb_neq base 16) Hb).
Qed.

Lemma number_app base val ds rest :
  base <> 16 -> forallb lwip_isdigit ds = true -> ends rest ->
  number base val (ds ++ rest) = (fst (number base val ds), rest).
Proof.
  intros Hb. revert val. induction ds as [|c ds IH]; intros val Hds Hr; [by apply number_ends|].
  cbn [forallb] in Hds. apply andb_prop in Hds as [Hc Hds]. simpl. rewrite Hc. by apply IH.
Qed.

Lemma part_dec b rest : 0 <= b < 256 -> ends rest -> part (dec b ++ rest) = Some (b, rest).
Proof.
  intros Hb Hr. destruct (decide (b = 0)) as [->|Hnz].
  - simpl. destruct Hr as (Hd & Hx & HX). unfold part. simpl.
    rewrite (proj2 (Z.eqb_neq _ _) Hx), (proj2 (Z.eqb_neq _ _) HX). cbn [orb]. by rewrite number_ends.
  - assert (E : forallb lwip_isdigit (dec b) && negb (char_at (dec b) =? 0x30) &&
                (fst (number 10 0 (dec b)) =? b) || (b =? 0) = true)
      by (clear Hnz; revert b Hb; apply all_bytes; vm_compute; reflexivity).
    rewrite (proj2 (Z.eqb_neq b 0) Hnz), orb_false_r in E. apply andb_prop in E as [E Ev].
    apply andb_prop in E as [Ed E0]. apply Z.eqb_eq in Ev. apply negb_true_iff in E0.
    pose proof (dec_length b Hb). unfold part.
    assert (Ec : char_at (dec b ++ rest) = char_at (dec b)) by (destruct (dec b); [simpl in *; lia|done]).
    rewrite Ec, E0. replace (lwip_isdigit (char_at (dec b))) with true.
    + cbn [negb]. rewrite number_app by done. by rewrite Ev.
    + destruct (dec b); [simpl in *; lia|]. cbn [forallb] in Ed. apply andb_prop in Ed as [Ed _]. symmetry. exact Ed.
Qed.

Lemma ends_dot rest : ends (0x2e :: rest).
Proof. done. Qed.

Lemma ends_nil : ends [].
Proof. done. Qed.

(** ** Writing *)

Lemma puts_fits buflen cs : forall buf, (length buf + length cs <= buflen)%nat -> puts buflen buf cs = Some (buf ++ cs).
Proof.
  induction cs as [|c cs IH]; intros buf Hl; simpl; [by rewrite app_nil_r|].
  unfold put. destruct (Nat.leb_spec buflen (length buf)); [simpl in Hl; lia|]. simpl.
  rewrite IH by (rewrite length_app; simpl in *; lia). by rewrite <- app_assoc.
Qed.

Lemma put_fits buflen c buf : (length buf + 1 <= buflen)%nat -> put buflen buf c = Some (buf ++ [c]).
Proof. intros. unfold put. destruct (Nat.leb_spec buflen (length buf)); [lia|done]. Qed.

Definition dotted (a b c d : Z) : list Z := dec a ++ 0x2e :: dec b ++ 0x2e :: dec c ++ 0x2e :: dec d.

Lemma ntoa_dotted a b c d :
  0 <= a < 256 -> 0 <= b < 256 -> 0 <= c < 256 -> 0 <= d < 256 ->
  ip4addr_ntoa (a * 2 ^ 24 + b * 2 ^ 16 + c * 2 ^ 8 + d) = Some (dotted d c b a).
Proof.
  intros Ha Hb Hc Hd. destruct (byte_of_word a b c d Ha Hb Hc Hd) as (E0 & E1 & E2 & E3).
  unfold ip4addr_ntoa, ip4addr_ntoa_r. rewrite E0, E1, E2, E3.
  change (rev (inv 3 a)) with (dec a). change (rev (inv 3 b)) with (dec b).
  change (rev (inv 3 c)) with (dec c). change (rev (inv 3 d)) with (dec d).
  pose proof (dec_length a Ha). pose proof (dec_length b Hb). pose proof (dec_length c Hc). pose proof (dec_length d Hd).
  unfold IP4ADDR_STRLEN_MAX.
  repeat (first [rewrite puts_fits by (rewrite ?length_app; simpl; lia)
                |rewrite put_fits by (rewrite ?length_app; simpl; lia)]; cbn [mbind option_bind]).
  f_equal. rewrite length_app. simpl. rewrite Nat.add_sub, take_app_length.
  unfold dotted. by rewrite <- !app_assoc.
Qed.

Lemma aton_dotted a b c d :
  0 <= a < 256 -> 0 <= b < 256 -> 0 <= c < 256 -> 0 <= d < 256 ->
  ip4addr_aton (dotted a b c d) = Some (lwip_htonl (a * 2 ^ 24 + b * 2 ^ 16 + c * 2 ^ 8 + d)).
Proof.
  intros Ha Hb Hc Hd. unfold ip4addr_aton, dotted.
  cbn [parts_loop]. rewrite part_dec by (done || apply ends_dot). cbn -[part dec Z.lor Z.shiftl lwip_htonl Z.ltb].
  rewrite part_dec by (done || apply ends_dot). cbn -[part dec Z.lor Z.shiftl lwip_htonl Z.ltb].
  rewrite part_dec by (done || apply ends_dot). cbn -[part dec Z.lor Z.shiftl lwip_htonl Z.ltb].
  rewrite <- (app_nil_r (dec d)), part_dec by (done || apply ends_nil). cbn -[Z.lor Z.shiftl lwip_htonl Z.ltb].
  rewrite !(proj2 (Z.ltb_ge _ _)) by lia. cbn -[Z.lor Z.shiftl lwip_htonl Z.ltb]. f_equal. f_equal.
  rewrite !Z.shiftl_mul_pow2, u32_small by lia.
  rewrite (lor_field a) by lia. replace (a * 2 ^ 24 + b * 2 ^ 16) with ((a * 2 ^ 8 + b) * 2 ^ 16) by lia.
  rewrite lor_field by lia. rewrite Z.lor_comm.
  replace ((a * 2 ^ 8 + b) * 2 ^ 16 + c * 2 ^ 8) with ((a * 2 ^ 16 + b * 2 ^ 8 + c) * 2 ^ 8) by lia.
  rewrite lor_field by lia. lia.
Qed.
End Lwip.
