(* ===== verification/Network.v ===== *)
(** * The socket adapter: [tkl_network.c]

    Wrappers of lwIP's sockets.  Addresses and ports are in host order for the
    callers and in network order for the sockets.  A pointer argument that may be
    NULL is a bool or an option; data put through an output pointer is part of the
    answer.  The constants of [errno.h] are those of the C library, where
    [EWOULDBLOCK] is [EAGAIN]. *)
From stdpp Require Import base list.
From Stdlib Require Import ZArith Lia.
From S2P Require Import Prelude Oprt Lwip.
Import Lwip.
Local Open Scope Z_scope.

Module Network.

Definition UNW_SUCCESS : Z := 0.
Definition UNW_FAIL : Z := -1.
Definition UNW_EINTR : Z := -2.
Definition UNW_EAGAIN : Z := -4.
Definition UNW_EWOULDBLOCK : Z := -12.
Definition EINTR : Z := 4.
Definition EAGAIN : Z := 11.
Definition EWOULDBLOCK : Z := EAGAIN.

(** [unw_errno_trans]: the C library's number and Tuya's. *)
Definition unw_errno_trans : list (Z * Z) :=
  [(EINTR, UNW_EINTR); (9, -3); (EAGAIN, UNW_EAGAIN); (14, -5); (16, -6); (22, -7); (23, -8); (24, -9); (28, -10);
   (32, -11); (EWOULDBLOCK, UNW_EWOULDBLOCK); (108, -13); (109, -14); (112, -15); (125, -16); (115, -17); (114, -18);
   (126, -19); (104, -20); (105, -21); (127, -22); (128, -23); (116, -24); (111, -25); (117, -26); (118, -27);
   (12, -28); (122, -29)].

Record sockaddr_in := mk_sockaddr {
  sin_family : Z;
  sin_port : Z;
  s_addr : Z;
}.

Definition AF_INET : Z := 2.
Definition SOCK_STREAM : Z := 1.
Definition SOCK_DGRAM : Z := 2.
Definition SOCK_RAW : Z := 3.
Definition IPPROTO_ICMP : Z := 1.
Definition IPPROTO_TCP : Z := 6.
Definition SOL_SOCKET : Z := 0xfff.
Definition SO_REUSEADDR : Z := 0x0004.
Definition SO_KEEPALIVE : Z := 0x0008.
Definition SO_BROADCAST : Z := 0x0020.
Definition SO_SNDBUF : Z := 0x1001.
Definition SO_RCVBUF : Z := 0x1002.
Definition SO_SNDTIMEO : Z := 0x1005.
Definition SO_RCVTIMEO : Z := 0x1006.
Definition TCP_NODELAY : Z := 0x01.
Definition TCP_KEEPIDLE : Z := 0x03.
Definition TCP_KEEPINTVL : Z := 0x04.
Definition TCP_KEEPCNT : Z := 0x05.
Definition O_NONBLOCK : Z := 0x4000.

Inductive TUYA_PROTOCOL_TYPE_E := PROTOCOL_TCP | PROTOCOL_UDP | PROTOCOL_RAW.
Inductive TUYA_TRANS_TYPE_E := TRANS_RECV | TRANS_SEND.

(** An option's value: an [int], a [struct timeval], or the caller's bytes. *)
Inductive optval := OptInt (v : Z) | OptTime (sec usec : Z) | OptBytes (b : list Z).

(** The socket calls.  A set of descriptors is the number with their bits. *)
Inductive NetE : Type -> Type :=
| get_errno : NetE Z
| socket (domain type protocol : Z) : NetE Z
| connect (fd : Z) (a : sockaddr_in) : NetE Z
| connect_bytes (fd : Z) (a : list Z) : NetE Z
| bind_ (fd : Z) (a : sockaddr_in) : NetE Z
| listen (fd backlog : Z) : NetE Z
| accept (fd : Z) : NetE (Z * sockaddr_in)
| send (fd : Z) (buf : list Z) : NetE Z
| sendto (fd : Z) (buf : list Z) (a : sockaddr_in) : NetE Z
| recv (fd nbytes : Z) : NetE (Z * list Z)
| recvfrom (fd nbytes : Z) : NetE (Z * list Z * sockaddr_in)
| select (maxfd : Z) (r w e : option Z) (timeout : option (Z * Z)) : NetE (Z * (option Z * option Z * option Z))
| close (fd : Z) : NetE Z
| shutdown (fd how : Z) : NetE Z
| fcntl_getfl (fd : Z) : NetE Z
| fcntl_setfl (fd flags : Z) : NetE Z
| setsockopt (fd level optname : Z) (v : optval) : NetE Z
| getsockopt (fd level optname : Z) : NetE (Z * list Z)
| getsockname (fd : Z) : NetE (Z * sockaddr_in)
| gethostbyname (domain : list Z) : NetE (option Z)
| system_sleep (ms : Z) : NetE unit.

(** ** Errors and addresses *)

Fixpoint errno_lookup (t : list (Z * Z)) (sys_err : Z) : Z :=
  match t with
  | [] => -100 - sys_err
  | (e, priv) :: t => if e =? sys_err then priv else errno_lookup t sys_err
  end.

Definition tkl_net_get_errno : prog NetE Z :=
  do sys_err <- call get_errno; Ret (errno_lookup unw_errno_trans sys_err).

Definition tkl_net_addr (ip : option (list Z)) : Z :=
  match ip with None => 0xFFFFFFFF | Some ip => ipaddr_addr ip end.

Definition tkl_net_str2addr (ip : option (list Z)) : Z :=
  match ip with None => 0xFFFFFFFF | Some ip => lwip_ntohl (ipaddr_addr ip) end.

(** The address is put into a plain [unsigned int] and read as an [ip_addr_t]:
    the type byte [ty] is whatever lies behind it on the stack. *)
Definition tkl_net_addr2str (ip6addr_ntoa : option (list Z)) (ty : Z) (ipaddr : Z) : option (list Z) :=
  ipaddr_ntoa ip6addr_ntoa (lwip_htonl ipaddr) ty.

(** ** Sets of descriptors *)

Definition bad_fd (fd : Z) : Z := -3000 + fd.

Definition tkl_net_fd_set (fd : Z) (fds : option Z) : Z * option Z :=
  match fds with
  | Some s => if fd <? 0 then (bad_fd fd, fds) else (UNW_SUCCESS, Some (Z.setbit s fd))
  | None => (bad_fd fd, None)
  end.

Definition tkl_net_fd_clear (fd : Z) (fds : option Z) : Z * option Z :=
  match fds with
  | Some s => if fd <? 0 then (bad_fd fd, fds) else (UNW_SUCCESS, Some (Z.clearbit s fd))
  | None => (bad_fd fd, None)
  end.

Definition tkl_net_fd_isset (fd : Z) (fds : option Z) : Z :=
  match fds with
  | Some s => if fd <? 0 then bad_fd fd else Z.b2z (Z.testbit s fd)
  | None => bad_fd fd
  end.

Definition tkl_net_fd_zero (fds : option Z) : Z * option Z :=
  match fds with Some _ => (UNW_SUCCESS, Some 0) | None => (i32 0xFFFFFFFF, None) end.

Definition tkl_net_select (maxfd : Z) (readfds writefds errorfds : option Z) (ms_timeout : Z)
  : prog NetE (Z * (option Z * option Z * option Z)) :=
  if maxfd <=? 0 then Ret (-3000 + maxfd, (readfds, writefds, errorfds))
  else
    let timeout := (ms_timeout / 1000, (ms_timeout mod 1000) * 1000) in
    call (select maxfd readfds writefds errorfds (if negb (ms_timeout =? 0) then Some timeout else None)).

(** ** Connections *)

Definition guarded {A} (fd : Z) (k : prog NetE A) (bad : Z -> A) : prog NetE A :=
  if fd <? 0 then Ret (bad (bad_fd fd)) else k.

Definition inet (addr port : Z) : sockaddr_in := mk_sockaddr AF_INET (lwip_htons port) (lwip_htonl addr).

Definition tkl_net_close (fd : Z) : prog NetE Z := guarded fd (call (close fd)) id.
Definition tkl_net_shutdown (fd how : Z) : prog NetE Z := guarded fd (call (shutdown fd how)) id.

Definition tkl_net_socket_create (type : TUYA_PROTOCOL_TYPE_E) : prog NetE Z :=
  match type with
  | PROTOCOL_TCP => call (socket AF_INET SOCK_STREAM IPPROTO_TCP)
  | PROTOCOL_RAW => call (socket AF_INET SOCK_RAW IPPROTO_ICMP)
  | PROTOCOL_UDP => call (socket AF_INET SOCK_DGRAM 0)
  end.

Definition tkl_net_connect (fd addr port : Z) : prog NetE Z := guarded fd (call (connect fd (inet addr port))) id.
Definition tkl_net_connect_raw (fd : Z) (p_socket_addr : list Z) : prog NetE Z :=
  guarded fd (call (connect_bytes fd p_socket_addr)) id.
Definition tkl_net_bind (fd addr port : Z) : prog NetE Z := guarded fd (call (bind_ fd (inet addr port))) id.

Definition tkl_net_socket_bind (fd : Z) (ip : option (list Z)) : prog NetE Z :=
  match ip with
  | None => Ret (-3000)
  | Some ip =>
      do ret <- call (bind_ fd (mk_sockaddr AF_INET 0 (ipaddr_addr ip)));
      Ret (if negb (ret =? 0) then UNW_FAIL else UNW_SUCCESS)
  end.

Definition tkl_net_listen (fd backlog : Z) : prog NetE Z := guarded fd (call (listen fd backlog)) id.

(** The new descriptor, and the peer when the call succeeded (both output
    pointers given). *)
Definition tkl_net_accept (fd : Z) : prog NetE (Z * option (Z * Z)) :=
  guarded fd
    (do '(cfd, a) <- call (accept fd);
     if cfd <? 0 then Ret (UNW_FAIL, None)
     else Ret (cfd, Some (lwip_ntohl a.(s_addr), lwip_ntohs a.(sin_port))))
    (fun e => (e, None)).

(** ** Data *)

(** A buffer of [nbytes] bytes; NULL is [None]. *)
Definition no_buffer (buf : option (list Z)) : bool := match buf with None | Some [] => true | _ => false end.

Definition tkl_net_send (fd : Z) (buf : option (list Z)) : prog NetE Z :=
  if (fd <? 0) || no_buffer buf then Ret (bad_fd fd) else call (send fd (default [] buf)).

Definition tkl_net_send_to (fd : Z) (buf : option (list Z)) (addr port : Z) : prog NetE Z :=
  if (fd <? 0) || no_buffer buf then Ret (bad_fd fd) else call (sendto fd (default [] buf) (inet addr port)).

Definition tkl_net_recv (fd : Z) (buf : bool) (nbytes : Z) : prog NetE (Z * list Z) :=
  if (fd <? 0) || negb buf || (nbytes =? 0) then Ret (bad_fd fd, [])
  else
    do '(ret, (_, _, exceptfds)) <- call (select (fd + 1) (Some (Z.setbit 0 fd)) None (Some (Z.setbit 0 fd)) None);
    if ret <? 0 then Ret (-2, [])
    else if Z.testbit (default 0 exceptfds) fd then Ret (-4, [])
    else call (recv fd nbytes).

(** The loop of [tkl_net_recv_nd_size], whose unsigned count becomes the [int] it
    returns; [None] when [fuel] calls of [recv] did not
    end it. *)
Fixpoint recv_loop (fuel : nat) (fd nd_size rd_size : Z) (buf : list Z) : prog NetE (option (Z * list Z)) :=
  if negb (rd_size <? nd_size) then Ret (Some (i32 rd_size, buf))
  else
    match fuel with
    | O => Ret None
    | S fuel =>
        do '(ret, bs) <- call (recv fd (nd_size - rd_size));
        if ret <=? 0 then
          do err <- tkl_net_get_errno;
          if (UNW_EWOULDBLOCK =? err) || (UNW_EINTR =? err) || (UNW_EAGAIN =? err) then
            call (system_sleep 10) >> recv_loop fuel fd nd_size rd_size buf
          else Ret (Some (-2, buf))
        else recv_loop fuel fd nd_size (rd_size + ret) (buf ++ bs)
    end.

Definition tkl_net_recv_nd_size (fuel : nat) (fd : Z) (buf : bool) (buf_size nd_size : Z)
  : prog NetE (option (Z * list Z)) :=
  if (fd <? 0) || negb buf || (buf_size =? 0) || (nd_size =? 0) || (buf_size <? nd_size) then Ret (Some (bad_fd fd, []))
  else recv_loop fuel fd nd_size 0 [].

Definition tkl_net_recvfrom (fd : Z) (buf : bool) (nbytes : Z) : prog NetE (Z * list Z * option (Z * Z)) :=
  if (fd <? 0) || negb buf || (nbytes =? 0) then Ret (bad_fd fd, [], None)
  else
    do '(ret, bs, a) <- call (recvfrom fd nbytes);
    if ret <=? 0 then Ret (ret, bs, None)
    else Ret (ret, bs, Some (lwip_ntohl a.(s_addr), lwip_ntohs a.(sin_port))).

(** ** Options *)

Definition failed (ret : Z) : Z := if negb (ret =? 0) then UNW_FAIL else UNW_SUCCESS.

Definition tkl_net_get_nonblock (fd : Z) : prog NetE Z :=
  guarded fd
    (do fl <- call (fcntl_getfl fd);
     if negb (Z.land fl O_NONBLOCK =? O_NONBLOCK) then Ret 0
     else
       do e <- call get_errno;
       Ret (if (e =? EAGAIN) || (e =? EWOULDBLOCK) then 1 else 0)) id.

Definition tkl_net_set_block (fd : Z) (block : bool) : prog NetE Z :=
  guarded fd
    (do flags <- call (fcntl_getfl fd);
     let flags := if block then Z.land flags (Z.lnot O_NONBLOCK) else Z.lor flags O_NONBLOCK in
     do ret <- call (fcntl_setfl fd flags);
     Ret (if ret <? 0 then UNW_FAIL else UNW_SUCCESS)) id.

(** C's division truncates. *)
Definition tkl_net_set_timeout (fd ms_timeout : Z) (type : TUYA_TRANS_TYPE_E) : prog NetE Z :=
  guarded fd
    (do ret <- call (setsockopt fd SOL_SOCKET (match type with TRANS_RECV => SO_RCVTIMEO | TRANS_SEND => SO_SNDTIMEO end)
                       (OptTime (Z.quot ms_timeout 1000) (Z.rem ms_timeout 1000 * 1000)));
     Ret (failed ret)) id.

Definition tkl_net_set_bufsize (fd buf_size : Z) (type : TUYA_TRANS_TYPE_E) : prog NetE Z :=
  guarded fd
    (do ret <- call (setsockopt fd SOL_SOCKET (match type with TRANS_RECV => SO_RCVBUF | TRANS_SEND => SO_SNDBUF end)
                       (OptInt buf_size));
     Ret (failed ret)) id.

Definition set_flag (fd level optname : Z) : prog NetE Z :=
  guarded fd (do ret <- call (setsockopt fd level optname (OptInt 1)); Ret (failed ret)) id.

Definition tkl_net_set_reuse (fd : Z) : prog NetE Z := set_flag fd SOL_SOCKET SO_REUSEADDR.
Definition tkl_net_disable_nagle (fd : Z) : prog NetE Z := set_flag fd IPPROTO_TCP TCP_NODELAY.
Definition tkl_net_set_boardcast (fd : Z) : prog NetE Z := set_flag fd SOL_SOCKET SO_BROADCAST.
Definition tkl_net_set_broadcast (fd : Z) : prog NetE Z := set_flag fd SOL_SOCKET SO_BROADCAST.

Definition tkl_net_set_keepalive (fd : Z) (alive : bool) (idle intr cnt : Z) : prog NetE Z :=
  guarded fd
    (do r1 <- call (setsockopt fd SOL_SOCKET SO_KEEPALIVE (OptInt (Z.b2z alive)));
     do r2 <- call (setsockopt fd IPPROTO_TCP TCP_KEEPIDLE (OptInt (i32 idle)));
     do r3 <- call (setsockopt fd IPPROTO_TCP TCP_KEEPINTVL (OptInt (i32 intr)));
     do r4 <- call (setsockopt fd IPPROTO_TCP TCP_KEEPCNT (OptInt (i32 cnt)));
     Ret (failed (Z.lor (Z.lor (Z.lor (Z.lor 0 r1) r2) r3) r4))) id.

Definition tkl_net_gethostbyname (domain : option (list Z)) (addr : bool) : prog NetE (Z * option Z) :=
  match domain with
  | None => Ret (OPRT_OS_ADAPTER_INVALID_PARM, None)
  | Some domain =>
      if negb addr then Ret (OPRT_OS_ADAPTER_INVALID_PARM, None)
      else
        do h <- call (gethostbyname domain);
        Ret (match h with None => (UNW_FAIL, None) | Some a => (UNW_SUCCESS, Some (lwip_ntohl a)) end)
  end.

Definition tkl_net_get_socket_ip (fd : Z) : prog NetE (Z * option Z) :=
  do '(ret, a) <- call (getsockname fd);
  Ret (if negb (ret =? 0) then (OPRT_COM_ERROR, None) else (OPRT_OK, Some (lwip_ntohl a.(s_addr)))).

Definition tkl_net_set_cloexec (fd : Z) : Z := OPRT_OK.
Definition tkl_net_setsockopt (fd level optname : Z) (v : list Z) : prog NetE Z := call (setsockopt fd level optname (OptBytes v)).
Definition tkl_net_getsockopt (fd level optname : Z) : prog NetE (Z * list Z) := call (getsockopt fd level optname).

(** ** A stream socket

    [recv] hands out bytes of the peer's stream in pieces of the network's
    choosing, or fails, or reports the end of the stream without touching
    [errno]. *)
Inductive answer :=
| Bytes (k : nat)
| Failed (errno : Z)
| Eof.

Record stream_socket := mk_stream {
  stream : list Z;
  plan : list answer;
  errno : Z;
}.

Definition on_stream (X : Type) (e : NetE X) : stream_socket -> option (X * stream_socket) :=
  match e in NetE X return stream_socket -> option (X * stream_socket) with
  | recv _ nbytes => fun s =>
      match s.(plan) with
      | [] => None
      | Bytes k :: plan =>
          let bs := take (Nat.min k (Z.to_nat nbytes)) s.(stream) in
          Some ((Z.of_nat (length bs), bs), mk_stream (drop (length bs) s.(stream)) plan s.(errno))
      | Failed e :: plan => Some ((-1, []), mk_stream s.(stream) plan e)
      | Eof :: plan => Some ((0, []), mk_stream s.(stream) plan s.(errno))
      end
  | get_errno => fun s => Some (s.(errno), s)
  | system_sleep _ => fun s => Some (tt, s)
  | _ => fun _ => None
  end.

(** Pieces of at least a byte and failures that are worth another try. *)
Definition goes_on (a : answer) : Prop :=
  match a with Bytes k => (0 < k)%nat | Failed e => e = EAGAIN \/ e = EINTR | Eof => False end.

Definition offered (a : answer) : nat := match a with Bytes k => k | _ => 0 end.

Lemma recv_loop_done fuel fd (nd : Z) buf s :
  interp on_stream (recv_loop fuel fd nd nd buf) s = Some (Some (i32 nd, buf), s).
Proof. destruct fuel; simpl; by rewrite Z.ltb_irrefl. Qed.

Lemma recv_loop_exact fd :
  forall pl str err rd nd buf,
  Forall goes_on pl -> (nd - rd <= sum_list_with offered pl)%nat -> (rd <= nd)%nat -> (nd - rd <= length str)%nat ->
  exists pl' err', interp on_stream (recv_loop (length pl) fd (Z.of_nat nd) (Z.of_nat rd) buf) (mk_stream str pl err) =
    Some (Some (i32 (Z.of_nat nd), buf ++ take (nd - rd) str), mk_stream (drop (nd - rd) str) pl' err').
Proof.
  induction pl as [|a pl IH]; intros str err rd nd buf Hg Ho Hrd Hs; simpl in Ho;
    (destruct (decide (rd = nd)) as [->|Hne];
     [rewrite recv_loop_done, Nat.sub_diag, app_nil_r; by eexists _, _|]); [lia|].
  apply Forall_cons in Hg as [Ha Hg]. cbn [length recv_loop].
  destruct (Z.ltb_spec (Z.of_nat rd) (Z.of_nat nd)) as [Hlt|Hge]; [|lia].
  destruct a as [k|e|]; [| |done]; cbn in Ho |- *.
  - set (n := Nat.min k (Z.to_nat (Z.of_nat nd - Z.of_nat rd))).
    assert (Hn : length (take n str) = n) by (rewrite length_take; lia). rewrite Hn.
    destruct (Z.leb_spec (Z.of_nat n) 0) as [Hz|Hz]; [simpl in Ha; lia|].
    destruct (IH (drop n str) err (rd + n)%nat nd (buf ++ take n str)) as (pl' & err' & E); try done; try lia.
    { rewrite length_drop. lia. }
    rewrite Nat2Z.inj_add in E. exists pl', err'. rewrite E, <- app_assoc, take_take_drop, drop_drop.
    replace (n + (nd - (rd + n)))%nat with (nd - rd)%nat by lia. done.
  - destruct (IH str e rd nd buf) as (pl' & err' & E); try done; try lia.
    exists pl', err'. destruct Ha as [-> | ->]; cbn; exact E.
Qed.

(** ** The properties *)

(** Addresses survive the way to text and back.  Every IPv4 address is
    written as a string of at most 15 characters that reads back as the same
    address, provided the byte that happens to lie where an [ip_addr_t] has its
    type does not say IPv6. *)
Theorem net_addr_roundtrip (ip6addr_ntoa : option (list Z)) (ty ip : Z) :
  0 <= ip < 2 ^ 32 -> ty <> IPADDR_TYPE_V6 ->
  exists str, tkl_net_addr2str ip6addr_ntoa ty ip = Some str /\ (length str <= 15)%nat /\
    tkl_net_str2addr (Some str) = ip /\ tkl_net_addr (Some str) = lwip_htonl ip.
Proof.
  intros (a & b & c & d & Ha & Hb & Hc & Hd & ->)%word_bytes Hty. exists (dotted a b c d).
  unfold tkl_net_addr2str, ipaddr_ntoa, tkl_net_str2addr, tkl_net_addr, ipaddr_addr.
  rewrite (proj2 (Z.eqb_neq _ _) Hty). rewrite aton_dotted by done. split_and!.
  - unfold lwip_htonl. rewrite htonl_bytes by done. by apply ntoa_dotted.
  - pose proof (dec_length a Ha). pose proof (dec_length b Hb). pose proof (dec_length c Hc). pose proof (dec_length d Hd).
    unfold dotted. repeat (rewrite length_app; simpl length). lia.
  - apply htonl_htonl. lia.
  - done.
Qed.

Lemma net_addr_roundtrip_witness :
  exists str, tkl_net_addr2str None 0 0xC0A80001 = Some str /\ tkl_net_str2addr (Some str) = 0xC0A80001.
Proof.
  destruct (net_addr_roundtrip None 0 0xC0A80001) as (str & H1 & _ & H2 & _); [lia|discriminate|].
  exists str. split; [exact H1|exact H2].
Defined.

(** C30: [tkl_net_recv_nd_size] returns exactly the bytes asked for.  As long as
    the peer's stream has them, and however the network cuts them into pieces and
    interrupts with retryable errors, the call ends, returns [nd_size] (as an [int],
    which is [nd_size] itself below 2^31), the buffer holds the next [nd_size] bytes, and what follows is left unread. *)
Theorem recv_nd_size_exact (fd : Z) (buf_size : Z) (nd : nat) (s : stream_socket) :
  0 <= fd -> (0 < nd)%nat -> Z.of_nat nd <= buf_size ->
  Forall goes_on s.(plan) -> (nd <= sum_list_with offered s.(plan))%nat -> (nd <= length s.(stream))%nat ->
  exists s', interp on_stream (tkl_net_recv_nd_size (length s.(plan)) fd true buf_size (Z.of_nat nd)) s =
    Some (Some (i32 (Z.of_nat nd), take nd s.(stream)), s') /\ s'.(stream) = drop nd s.(stream).
Proof.
  intros Hfd Hnd Hbuf Hg Ho Hs. destruct s as [str pl err]. simpl in *.
  destruct (recv_loop_exact fd pl str err 0 nd [] Hg) as (pl' & err' & E); try lia.
  rewrite Nat.sub_0_r in E. simpl in E. exists (mk_stream (drop nd str) pl' err'). split; [|done].
  unfold tkl_net_recv_nd_size. destruct (Z.ltb_spec fd 0); [lia|]. destruct (Z.eqb_spec buf_size 0); [lia|].
  destruct (Z.eqb_spec (Z.of_nat nd) 0); [lia|]. destruct (Z.ltb_spec buf_size (Z.of_nat nd)); [lia|]. exact E.
Qed.

Lemma recv_nd_size_exact_witness :
  exists s', interp on_stream (tkl_net_recv_nd_size 4 3 true 8 4)
               (mk_stream [1; 2; 3; 4; 5] [Bytes 1; Failed EAGAIN; Bytes 2; Bytes 9] 0) =
             Some (Some (4, [1; 2; 3; 4]), s') /\ s'.(stream) = [5].
Proof.
  apply (recv_nd_size_exact 3 8 4 (mk_stream [1; 2; 3; 4; 5] [Bytes 1; Failed EAGAIN; Bytes 2; Bytes 9] 0)); simpl; try lia.
  repeat constructor; simpl; auto; lia.
Defined.

(** At the end of the stream [recv] leaves [errno] alone: if the last failure was
    [EAGAIN] the loop sleeps and tries again without end. *)
Lemma recv_nd_size_spins (fd nd : Z) (n : nat) (str : list Z) :
  0 < nd -> interp on_stream (recv_loop n fd nd 0 []) (mk_stream str (repeat Eof n) EAGAIN) =
            Some (None, mk_stream str [] EAGAIN).
Proof.
  intros Hnd. induction n as [|n IH]; cbn [recv_loop repeat]; destruct (Z.ltb_spec 0 nd); try lia; [done|]. cbn. exact IH.
Qed.

(** The number behind a code of [tkl_net_get_errno]. *)
Definition errno_of (code : Z) : Z :=
  if code <=? -100 then -100 - code
  else match List.find (fun p => snd p =? code) unw_errno_trans with Some p => fst p | None => 0 end.

Lemma errno_lookup_other t e : ~ In e (map fst t) -> errno_lookup t e = -100 - e.
Proof.
  induction t as [|[k v] t IH]; simpl; [done|]. intros Hn. destruct (Z.eqb_spec k e); [naive_solver|]. auto.
Qed.

(** Error codes tell errors apart.  [tkl_net_get_errno] gives a negative code
    for every error number, and different numbers get different codes. *)
Theorem net_errno_injective (e e' : Z) :
  0 <= e -> 0 <= e' ->
  errno_lookup unw_errno_trans e < 0 /\
  (errno_lookup unw_errno_trans e = errno_lookup unw_errno_trans e' -> e = e').
Proof.
  assert (Hinv : forall n, 0 <= n -> errno_of (errno_lookup unw_errno_trans n) = n /\ errno_lookup unw_errno_trans n < 0).
  { intros n Hn. destruct (in_dec Z.eq_dec n (map fst unw_errno_trans)) as [Hin|Hout].
    - assert (E : forallb (fun n => (errno_of (errno_lookup unw_errno_trans n) =? n) && (errno_lookup unw_errno_trans n <? 0))
                    (map fst unw_errno_trans) = true) by reflexivity.
      rewrite forallb_forall in E. apply E, andb_prop in Hin as [E1 E2]. by apply Z.eqb_eq in E1; apply Z.ltb_lt in E2.
    - rewrite errno_lookup_other by done. unfold errno_of. destruct (Z.leb_spec (-100 - n) (-100)); lia. }
  intros He He'. destruct (Hinv e He) as [E1 E2]. destruct (Hinv e' He') as [E1' _]. split; [done|]. congruence.
Qed.

Lemma net_errno_injective_witness :
  errno_lookup unw_errno_trans EAGAIN = UNW_EAGAIN /\ errno_lookup unw_errno_trans EAGAIN < 0.
Proof. split; [reflexivity|]. apply (net_errno_injective EAGAIN 0); discriminate. Defined.

(** The socket addresses a run hands out, and those it gets. *)
Definition sent_to (e : event NetE) : option sockaddr_in :=
  match e with
  | @Ev _ _ (connect _ a) _ | @Ev _ _ (bind_ _ a) _ | @Ev _ _ (sendto _ _ a) _ => Some a
  | _ => None
  end.
Definition peer_of (e : event NetE) : option sockaddr_in :=
  match e with
  | @Ev _ X f x =>
      match f in NetE X return X -> option sockaddr_in with
      | accept _ => fun x => Some (snd x)
      | recvfrom _ _ => fun x => Some (snd x)
      | _ => fun _ => None
      end x
  end.

(** Peers keep their address.  [tkl_net_connect], [tkl_net_bind] and
    [tkl_net_send_to] use one socket address for an address and a port, and
    [tkl_net_accept] and [tkl_net_recvfrom] report that address and port for a
    peer that has it. *)
Theorem net_peer_address (fd nbytes addr port : Z) (data : list Z) :
  0 <= fd -> 0 < nbytes -> data <> [] -> 0 <= addr < 2 ^ 32 -> 0 <= port < 2 ^ 16 ->
  always (tkl_net_connect fd addr port) (fun l _ => omap sent_to l = [inet addr port]) /\
  always (tkl_net_bind fd addr port) (fun l _ => omap sent_to l = [inet addr port]) /\
  always (tkl_net_send_to fd (Some data) addr port) (fun l _ => omap sent_to l = [inet addr port]) /\
  always (tkl_net_accept fd) (fun l o =>
    omap peer_of l = [inet addr port] -> forall cfd p, o = Done (cfd, p) -> 0 <= cfd -> p = Some (addr, port)) /\
  always (tkl_net_recvfrom fd true nbytes) (fun l o =>
    omap peer_of l = [inet addr port] -> forall ret bs p, o = Done (ret, bs, p) -> 0 < ret -> p = Some (addr, port)).
Proof.
  intros Hfd Hn Hd Ha Hp.
  assert (Efd : (fd <? 0) = false) by (apply Z.ltb_ge; lia). assert (En : (nbytes =? 0) = false) by (apply Z.eqb_neq; lia).
  assert (Eaddr : lwip_ntohl (lwip_htonl addr) = addr) by (by apply htonl_htonl).
  assert (Eport : lwip_ntohs (lwip_htons port) = port) by (by apply htons_htons).
  unfold tkl_net_connect, tkl_net_bind, tkl_net_send_to, tkl_net_accept, tkl_net_recvfrom, guarded.
  rewrite Efd, En. destruct data as [|x data]; [done|]. split_and!; apply wp_always; try done.
  - intros [cfd a]. simpl. destruct (Z.ltb_spec cfd 0); simpl; intros [= ->] cfd' p [= <- <-] Hc; [done|].
    simpl. by rewrite Eaddr, Eport.
  - intros [[ret bs] a]. simpl. destruct (Z.leb_spec ret 0); simpl; intros [= ->] ret' bs' p [= <- <- <-] Hr; [lia|].
    simpl. by rewrite Eaddr, Eport.
Qed.

Lemma net_peer_address_witness :
  always (tkl_net_recvfrom 3 true 64) (fun l o =>
    omap peer_of l = [inet 0x7F000001 6668] -> forall ret bs p, o = Done (ret, bs, p) -> 0 < ret -> p = Some (0x7F000001, 6668)).
Proof. apply (net_peer_address 3 64 0x7F000001 6668 [1]); [lia|lia|discriminate|lia|lia]. Defined.
End Network.
