(* ===== verification/TlsSockets.v ===== *)
(** * The sockets of TLS: [net_sockets.c]

    What mbed TLS calls to open, accept, use and close connections, and its check of the
    protocol names.  A context is the descriptor it holds, -1 when it holds none; the
    functions that change a context return it.  The socket calls are those of
    [Network] and a few more, with arbitrary answers.  [errno] is read once
    for a failed call, since nothing is called between the reads of the code.
    [CONFIG_LWIP_SO_REUSE] is set. *)
From stdpp Require Import base list gmap sets.
From Stdlib Require Import ZArith Lia.
From S2P Require Import Prelude Oprt Network.
Import Network.
Local Open Scope Z_scope.

Module TlsSockets.

Definition MBEDTLS_ERR_NET_SOCKET_FAILED : Z := -0x0042.
Definition MBEDTLS_ERR_NET_CONNECT_FAILED : Z := -0x0044.
Definition MBEDTLS_ERR_NET_BIND_FAILED : Z := -0x0046.
Definition MBEDTLS_ERR_NET_LISTEN_FAILED : Z := -0x0048.
Definition MBEDTLS_ERR_NET_ACCEPT_FAILED : Z := -0x004A.
Definition MBEDTLS_ERR_NET_RECV_FAILED : Z := -0x004C.
Definition MBEDTLS_ERR_NET_SEND_FAILED : Z := -0x004E.
Definition MBEDTLS_ERR_NET_CONN_RESET : Z := -0x0050.
Definition MBEDTLS_ERR_NET_UNKNOWN_HOST : Z := -0x0052.
Definition MBEDTLS_ERR_NET_BUFFER_TOO_SMALL : Z := -0x0043.
Definition MBEDTLS_ERR_NET_INVALID_CONTEXT : Z := -0x0045.
Definition MBEDTLS_ERR_SSL_WANT_READ : Z := -0x6900.
Definition MBEDTLS_ERR_SSL_WANT_WRITE : Z := -0x6880.
Definition MBEDTLS_ERR_SSL_TIMEOUT : Z := -0x6800.
Definition MBEDTLS_ERR_SSL_BAD_INPUT_DATA : Z := -0x7100.
Definition MBEDTLS_SSL_MAX_ALPN_NAME_LEN : Z := 255.
Definition MBEDTLS_SSL_MAX_ALPN_LIST_LEN : Z := 65535.
Definition MBEDTLS_NET_LISTEN_BACKLOG : Z := 10.
Definition MBEDTLS_NET_PROTO_TCP : Z := 0.
Definition MBEDTLS_NET_PROTO_UDP : Z := 1.
Definition AF_UNSPEC : Z := 0.
Definition IPPROTO_UDP : Z := 17.
Definition SO_TYPE : Z := 0x1008.
Definition EPIPE : Z := 32.
Definition ECONNRESET : Z := 104.

(** [ai_addr] as bytes, [ai_addrlen] of them: the address is of either family. *)
Record addrinfo := mk_addrinfo { ai_family : Z; ai_socktype : Z; ai_protocol : Z; ai_addr : list Z }.

(** The further calls.  [getaddrinfo] answers a list unless it fails; [getsockopt_int]
    an option that is an [int]; [recvfrom_peek] leaves the message in the queue. *)
Inductive TlsE : Type -> Type :=
| sock {X} (e : NetE X) : TlsE X
| getaddrinfo (host : option (list Z)) (port : list Z) (hints : addrinfo) : TlsE (option (list addrinfo))
| freeaddrinfo : TlsE unit
| bind_bytes (fd : Z) (a : list Z) : TlsE Z
| getsockopt_int (fd level optname : Z) : TlsE (Z * Z)
| recvfrom_peek (fd nbytes : Z) : TlsE (Z * sockaddr_in)
| read (fd nbytes : Z) : TlsE (Z * list Z)
| write (fd : Z) (buf : list Z) : TlsE Z.

Abbreviation tls := (prog TlsE).

Definition net_prepare : Z := 0.
Definition mbedtls_net_init : Z := -1.

Definition hints_for (proto : Z) : addrinfo :=
  if proto =? MBEDTLS_NET_PROTO_UDP then mk_addrinfo AF_UNSPEC SOCK_DGRAM IPPROTO_UDP []
  else mk_addrinfo AF_UNSPEC SOCK_STREAM IPPROTO_TCP [].

(** ** Opening *)

(** The addresses from [addr_list] on; [ret] and [ctx] so far. *)
Fixpoint connect_loop (addr_list : list addrinfo) (ctx ret : Z) : tls (Z * Z) :=
  match addr_list with
  | [] => Ret (ctx, ret)
  | cur :: rest =>
      do fd <- call (sock (socket cur.(ai_family) cur.(ai_socktype) cur.(ai_protocol)));
      if fd <? 0 then connect_loop rest ctx MBEDTLS_ERR_NET_SOCKET_FAILED
      else
        do r <- call (sock (connect_bytes fd cur.(ai_addr)));
        if r =? 0 then Ret (fd, 0)
        else
          call (sock (close fd)) >>
          connect_loop rest ctx MBEDTLS_ERR_NET_CONNECT_FAILED
  end.

Definition mbedtls_net_connect (ctx : Z) (host : option (list Z)) (port : list Z) (proto : Z) : tls (Z * Z) :=
  if negb (net_prepare =? 0) then Ret (ctx, net_prepare)
  else
    do addr_list <- call (getaddrinfo host port (hints_for proto));
    match addr_list with
    | None => Ret (ctx, MBEDTLS_ERR_NET_UNKNOWN_HOST)
    | Some addr_list =>
        do r <- connect_loop addr_list ctx MBEDTLS_ERR_NET_UNKNOWN_HOST;
        call freeaddrinfo >> Ret r
    end.

(** [serv_addr->sin_addr.s_addr] lies four bytes into the address. *)
Definition any_interface (a : list Z) : list Z := store_at a 4 [0; 0; 0; 0].

Fixpoint bind_loop (proto : Z) (addr_list : list addrinfo) (ctx ret : Z) : tls (Z * Z) :=
  match addr_list with
  | [] => Ret (ctx, ret)
  | cur :: rest =>
      do fd <- call (sock (socket cur.(ai_family) cur.(ai_socktype) cur.(ai_protocol)));
      if fd <? 0 then bind_loop proto rest ctx MBEDTLS_ERR_NET_SOCKET_FAILED
      else
        do r <- call (sock (setsockopt fd SOL_SOCKET SO_REUSEADDR (OptInt 1)));
        if negb (r =? 0) then call (sock (close fd)) >> bind_loop proto rest ctx MBEDTLS_ERR_NET_SOCKET_FAILED
        else
          do r <- call (bind_bytes fd (any_interface cur.(ai_addr)));
          if negb (r =? 0) then call (sock (close fd)) >> bind_loop proto rest ctx MBEDTLS_ERR_NET_BIND_FAILED
          else
            do r <- (if proto =? MBEDTLS_NET_PROTO_TCP then call (sock (listen fd MBEDTLS_NET_LISTEN_BACKLOG)) else Ret 0);
            if negb (r =? 0) then call (sock (close fd)) >> bind_loop proto rest ctx MBEDTLS_ERR_NET_LISTEN_FAILED
            else Ret (fd, 0)
  end.

Definition mbedtls_net_bind (ctx : Z) (bind_ip : option (list Z)) (port : list Z) (proto : Z) : tls (Z * Z) :=
  if negb (net_prepare =? 0) then Ret (ctx, net_prepare)
  else
    do addr_list <- call (getaddrinfo bind_ip port (hints_for proto));
    match addr_list with
    | None => Ret (ctx, MBEDTLS_ERR_NET_UNKNOWN_HOST)
    | Some addr_list =>
        do r <- bind_loop proto addr_list ctx MBEDTLS_ERR_NET_UNKNOWN_HOST;
        call freeaddrinfo >> Ret r
    end.

(** ** Accepting *)

Definition net_would_block (errno : Z) : bool := (errno =? EAGAIN).

(** The listening context, the client's, the length and the address stored, and the
    return value.  [client_ip]: whether the caller wants the address, in a buffer of
    [buf_size] bytes. *)
Record accepted := mk_accepted { bind_ctx : Z; client_ctx : Z; ip_len : option Z; ip : option Z; ret : Z }.

Definition refused (bind_ctx client_ctx ret : Z) : accepted := mk_accepted bind_ctx client_ctx None None ret.

Definition give_ip (bind_ctx client_ctx : Z) (client_addr : sockaddr_in) (client_ip : bool) (buf_size : Z) : accepted :=
  if client_ip then
    if buf_size <? 4 then mk_accepted bind_ctx client_ctx (Some 4) None MBEDTLS_ERR_NET_BUFFER_TOO_SMALL
    else mk_accepted bind_ctx client_ctx (Some 4) (Some client_addr.(s_addr)) 0
  else mk_accepted bind_ctx client_ctx None None 0.

(** The datagram branch after a message has arrived: the listening socket becomes the
    client's and a new one is bound to its address. *)
Definition hijack (bind_ctx client_ctx : Z) (client_addr : sockaddr_in) (client_ip : bool) (buf_size : Z) : tls accepted :=
  do r <- call (sock (connect bind_ctx client_addr));
  if negb (r =? 0) then Ret (refused bind_ctx client_ctx MBEDTLS_ERR_NET_ACCEPT_FAILED)
  else
    let client_ctx := bind_ctx in
    do '(r, local_addr) <- call (sock (getsockname client_ctx));
    if negb (r =? 0) then Ret (refused (-1) client_ctx MBEDTLS_ERR_NET_SOCKET_FAILED)
    else
      do bind_ctx <- call (sock (socket AF_INET SOCK_DGRAM IPPROTO_UDP));
      if bind_ctx <? 0 then Ret (refused bind_ctx client_ctx MBEDTLS_ERR_NET_SOCKET_FAILED)
      else
        do r <- call (sock (setsockopt bind_ctx SOL_SOCKET SO_REUSEADDR (OptInt 1)));
        if negb (r =? 0) then Ret (refused bind_ctx client_ctx MBEDTLS_ERR_NET_SOCKET_FAILED)
        else
          do r <- call (sock (bind_ bind_ctx local_addr));
          if negb (r =? 0) then Ret (refused bind_ctx client_ctx MBEDTLS_ERR_NET_BIND_FAILED)
          else Ret (give_ip bind_ctx client_ctx client_addr client_ip buf_size).

Definition mbedtls_net_accept (bind_ctx client_ctx : Z) (client_ip : bool) (buf_size : Z) : tls accepted :=
  do '(r, type) <- call (getsockopt_int bind_ctx SOL_SOCKET SO_TYPE);
  if negb (r =? 0) || (negb (type =? SOCK_STREAM) && negb (type =? SOCK_DGRAM)) then
    Ret (refused bind_ctx client_ctx MBEDTLS_ERR_NET_ACCEPT_FAILED)
  else
    do '(ret, client_addr, client_ctx) <-
      (if type =? SOCK_STREAM then
         do '(fd, client_addr) <- call (sock (accept bind_ctx));
         Ret (fd, client_addr, fd)
       else
         do '(n, client_addr) <- call (recvfrom_peek bind_ctx 1);
         Ret (n, client_addr, client_ctx));
    if ret <? 0 then
      do errno <- call (sock get_errno);
      Ret (refused bind_ctx client_ctx
             (if net_would_block errno then MBEDTLS_ERR_SSL_WANT_READ else MBEDTLS_ERR_NET_ACCEPT_FAILED))
    else if negb (type =? SOCK_STREAM) then hijack bind_ctx client_ctx client_addr client_ip buf_size
    else Ret (give_ip bind_ctx client_ctx client_addr client_ip buf_size).

(** ** Using and closing *)

Definition mbedtls_net_set_block (ctx : Z) : tls Z :=
  do flags <- call (sock (fcntl_getfl ctx)); call (sock (fcntl_setfl ctx (Z.land flags (Z.lnot O_NONBLOCK)))).

Definition mbedtls_net_set_nonblock (ctx : Z) : tls Z :=
  do flags <- call (sock (fcntl_getfl ctx)); call (sock (fcntl_setfl ctx (Z.lor flags O_NONBLOCK))).

Definition mbedtls_net_usleep (usec : Z) : tls unit :=
  do _ <- call (sock (select 0 None None None (Some (usec / 1000000, usec mod 1000000)))); Ret tt.

(** What the failure of a call means: try again, reset, or [failed]. *)
Definition failure (want failed errno : Z) : Z :=
  if net_would_block errno then want
  else if (errno =? EPIPE) || (errno =? ECONNRESET) then MBEDTLS_ERR_NET_CONN_RESET
  else if errno =? EINTR then want
  else failed.

Definition mbedtls_net_recv (ctx len : Z) : tls (Z * list Z) :=
  if ctx <? 0 then Ret (MBEDTLS_ERR_NET_INVALID_CONTEXT, [])
  else
    do '(ret, buf) <- call (read ctx len);
    if ret <? 0 then
      do errno <- call (sock get_errno);
      Ret (failure MBEDTLS_ERR_SSL_WANT_READ MBEDTLS_ERR_NET_RECV_FAILED errno, [])
    else Ret (ret, buf).

Definition mbedtls_net_recv_timeout (ctx len timeout : Z) : tls (Z * list Z) :=
  if ctx <? 0 then Ret (MBEDTLS_ERR_NET_INVALID_CONTEXT, [])
  else
    let tv := (timeout / 1000, timeout mod 1000 * 1000) in
    do '(ret, _) <- call (sock (select (ctx + 1) (Some (Z.setbit 0 ctx)) None None (if timeout =? 0 then None else Some tv)));
    if ret =? 0 then Ret (MBEDTLS_ERR_SSL_TIMEOUT, [])
    else if ret <? 0 then
      do errno <- call (sock get_errno);
      Ret (if errno =? EINTR then MBEDTLS_ERR_SSL_WANT_READ else MBEDTLS_ERR_NET_RECV_FAILED, [])
    else mbedtls_net_recv ctx len.

Definition mbedtls_net_send (ctx : Z) (buf : list Z) : tls Z :=
  if ctx <? 0 then Ret MBEDTLS_ERR_NET_INVALID_CONTEXT
  else
    do ret <- call (write ctx buf);
    if ret <? 0 then
      do errno <- call (sock get_errno);
      Ret (failure MBEDTLS_ERR_SSL_WANT_WRITE MBEDTLS_ERR_NET_SEND_FAILED errno)
    else Ret ret.

Definition mbedtls_net_free (ctx : Z) : tls Z :=
  if ctx =? -1 then Ret ctx
  else
    call (sock (shutdown ctx 2)) >> call (sock (close ctx)) >> Ret (-1).

(** The loop over the names; [tot_len] is a [size_t]. *)
Fixpoint alpn_loop (protos : list (list Z)) (tot_len : Z) : bool :=
  match protos with
  | [] => true
  | p :: protos =>
      let cur_len := Z.of_nat (length p) in
      let tot_len := u32 (tot_len + cur_len) in
      if (cur_len =? 0) || (MBEDTLS_SSL_MAX_ALPN_NAME_LEN <? cur_len) || (MBEDTLS_SSL_MAX_ALPN_LIST_LEN <? tot_len) then false
      else alpn_loop protos tot_len
  end.

(** The list the configuration has, before and after. *)
Definition mbedtls_ssl_conf_alpn_protocols (alpn_list : option (list (list Z))) (protos : list (list Z))
  : option (list (list Z)) * Z :=
  if alpn_loop protos 0 then (Some protos, 0) else (alpn_list, MBEDTLS_ERR_SSL_BAD_INPUT_DATA).

(** ** A client with several contexts *)

Inductive tls_op :=
| Connect (i : nat) (host : option (list Z)) (port : list Z) (proto : Z)
| Bind (i : nat) (bind_ip : option (list Z)) (port : list Z) (proto : Z)
| Accept (i j : nat) (client_ip : bool) (buf_size : Z)
| SetBlock (i : nat) (block : bool)
| Recv (i : nat) (len : Z)
| RecvTimeout (i : nat) (len timeout : Z)
| Send (i : nat) (buf : list Z)
| Free (i : nat).

(** The operation on contexts [i] and, for [Accept], [j].  The client opens a connection
    only in a context that holds none, since the functions overwrite the descriptor. *)
Definition tls_step (o : tls_op) (ctxs : list Z) : tls (list Z) :=
  let ctx i := default (-1) (ctxs !! i) in
  let unused i := bool_decide (ctxs !! i = Some (-1)) in
  match o with
  | Connect i host port proto =>
      if unused i then do r <- mbedtls_net_connect (-1) host port proto; Ret (<[i := r.1]> ctxs) else Ret ctxs
  | Bind i bind_ip port proto =>
      if unused i then do r <- mbedtls_net_bind (-1) bind_ip port proto; Ret (<[i := r.1]> ctxs) else Ret ctxs
  | Accept i j client_ip buf_size =>
      match ctxs !! i with
      | Some fd =>
          if unused j && negb (i =? j)%nat then
            do r <- mbedtls_net_accept fd (-1) client_ip buf_size; Ret (<[i := r.(bind_ctx)]> (<[j := r.(client_ctx)]> ctxs))
          else Ret ctxs
      | None => Ret ctxs
      end
  | SetBlock i block => do _ <- (if block then mbedtls_net_set_block (ctx i) else mbedtls_net_set_nonblock (ctx i)); Ret ctxs
  | Recv i len => do _ <- mbedtls_net_recv (ctx i) len; Ret ctxs
  | RecvTimeout i len timeout => do _ <- mbedtls_net_recv_timeout (ctx i) len timeout; Ret ctxs
  | Send i buf => do _ <- mbedtls_net_send (ctx i) buf; Ret ctxs
  | Free i => do fd <- mbedtls_net_free (ctx i); Ret (<[i := fd]> ctxs)
  end.

Fixpoint tls_run (os : list tls_op) (ctxs : list Z) : tls (list Z) :=
  match os with
  | [] => Ret ctxs
  | o :: os => do ctxs <- tls_step o ctxs; tls_run os ctxs
  end.

(** ** What is open *)

(** The sockets that are open and the number of address lists. *)
Record held := mk_held { fds : gset Z; lists : nat }.

(** [Lied]: an answer the platform does not give, a new descriptor that is open already
    or below -1.  [Misused]: a descriptor is used that is not open, or a list is freed that
    is not there. *)
Inductive status := Lied | Misused | Holds (h : held).

Definition new_fd (fd : Z) (h : held) : status :=
  if fd =? -1 then Holds h
  else if (fd <? -1) || bool_decide (fd ∈ h.(fds)) then Lied
  else Holds (mk_held ({[fd]} ∪ h.(fds)) h.(lists)).

(** A call on [fd], after which [k] holds; it may also be made on -1, and then [bad] holds. *)
Definition use (fd : Z) (h : held) (k bad : status) : status :=
  if bool_decide (fd ∈ h.(fds)) then k else if fd =? -1 then bad else Misused.

Definition touch_sock {X} (e : NetE X) : X -> held -> status :=
  match e in NetE X return X -> held -> status with
  | socket _ _ _ => new_fd
  | accept fd => fun r h => use fd h (new_fd r.1 h) (if r.1 =? -1 then Holds h else Lied)
  | close fd => fun _ h => use fd h (Holds (mk_held (h.(fds) ∖ {[fd]}) h.(lists))) (Holds h)
  | connect fd _ | connect_bytes fd _ | bind_ fd _ | listen fd _ | send fd _ | sendto fd _ _ | shutdown fd _
  | fcntl_getfl fd | fcntl_setfl fd _ | setsockopt fd _ _ _ => fun _ h => use fd h (Holds h) (Holds h)
  | recv fd _ | getsockopt fd _ _ => fun _ h => use fd h (Holds h) (Holds h)
  | recvfrom fd _ => fun _ h => use fd h (Holds h) (Holds h)
  | getsockname fd => fun _ h => use fd h (Holds h) (Holds h)
  | select maxfd _ _ _ _ => fun _ h => use (maxfd - 1) h (Holds h) (Holds h)
  | get_errno => fun _ h => Holds h
  | gethostbyname _ => fun _ h => Holds h
  | system_sleep _ => fun _ h => Holds h
  end.

Definition touch {X} (e : TlsE X) : X -> held -> status :=
  match e in TlsE X return X -> held -> status with
  | sock e => touch_sock e
  | getaddrinfo _ _ _ => fun r h => Holds (match r with Some _ => mk_held h.(fds) (S h.(lists)) | None => h end)
  | freeaddrinfo => fun _ h => match h.(lists) with S n => Holds (mk_held h.(fds) n) | O => Misused end
  | bind_bytes fd _ | write fd _ => fun _ h => use fd h (Holds h) (Holds h)
  | getsockopt_int fd _ _ => fun _ h => use fd h (Holds h) (Holds h)
  | recvfrom_peek fd _ => fun _ h => use fd h (Holds h) (Holds h)
  | read fd _ => fun _ h => use fd h (Holds h) (Holds h)
  end.

(** What is open after the calls of a log. *)
Fixpoint track (l : list (event TlsE)) (h : held) : status :=
  match l with
  | [] => Holds h
  | Ev e x :: l => match touch e x h with Holds h => track l h | s => s end
  end.

Fixpoint owns {A} (p : tls A) (h : held) (Q : A -> held -> Prop) : Prop :=
  match p with
  | Ret a => Q a h
  | Halt _ => False
  | Vis e k => forall x, match touch e x h with Lied => True | Misused => False | Holds h => owns (k x) h Q end
  end.

Definition kept {A} (h : held) (Q : A -> held -> Prop) (l : list (event TlsE)) (o : outcome A) : Prop :=
  match track l h with
  | Lied => True
  | Misused => False
  | Holds h => match o with Done a => Q a h | Stopped _ => False end
  end.

Lemma wp_trivial {A} (p : tls A) : wp p (fun _ _ => True).
Proof. induction p; cbn; auto. Qed.

Lemma owns_wp {A} (p : tls A) h Q : owns p h Q -> wp p (kept h Q).
Proof.
  revert h. induction p as [a|c|X e k IH]; intros h; cbn; [done|done|]. intros H x. specialize (H x).
  unfold kept in *. cbn [track]. destruct (touch e x h) as [| |h'] eqn:E; [| |].
  - eapply wp_mono; [|apply (wp_trivial (k x))]. done.
  - done.
  - apply IH, H.
Qed.

Lemma owns_bind {A B} (p : tls A) (f : A -> tls B) h Q : owns p h (fun a h => owns (f a) h Q) -> owns (bind p f) h Q.
Proof.
  revert h. induction p as [a|c|X e k IH]; intros h; cbn; [done|done|]. intros H x. specialize (H x).
  destruct (touch e x h); [done|done|]. by apply IH.
Qed.

Lemma owns_mono {A} (p : tls A) h (Q R : A -> held -> Prop) : (forall a h, Q a h -> R a h) -> owns p h Q -> owns p h R.
Proof.
  intros HQ. revert h. induction p as [a|c|X e k IH]; intros h; cbn; [apply HQ|done|]. intros H x. specialize (H x).
  destruct (touch e x h); [done|done|]. by apply IH.
Qed.

(** A function that opens or closes nothing. *)
Lemma owns_use {A B} (p : tls A) (b : B) h Q :
  owns p h (fun _ h' => h' = h) -> Q b h -> owns (bind p (fun _ => Ret b)) h Q.
Proof. intros Hp HQ. apply owns_bind. eapply owns_mono; [|exact Hp]. cbn. by intros a h' ->. Qed.

(** What a function that opens a connection leaves: the context, the return value and the sockets. *)
Definition opens (h : held) (r : Z * Z) (h' : held) : Prop :=
  (r.1 = -1 /\ r.2 <> 0 /\ h' = h) \/
  (0 <= r.1 /\ (r.1 ∉ h.(fds)) /\ r.2 = 0 /\ h' = mk_held ({[r.1]} ∪ h.(fds)) h.(lists)).

Lemma owns_socket {A} (d t p : Z) (f : Z -> tls A) h Q :
  owns (f (-1)) h Q ->
  (forall fd, 0 <= fd -> fd ∉ h.(fds) -> owns (f fd) (mk_held ({[fd]} ∪ h.(fds)) h.(lists)) Q) ->
  owns (bind (call (sock (socket d t p))) f) h Q.
Proof.
  intros H1 H2 fd. cbn [touch touch_sock]. unfold new_fd. destruct (fd =? -1) eqn:E1; bool_to_prop; [by subst|].
  destruct (fd <? -1) eqn:E2; [done|]. cbn [orb]. case_bool_decide; [done|]. bool_to_prop. apply H2; [lia|done].
Qed.

Lemma close_new (fd : Z) (h : held) : fd ∉ h.(fds) -> mk_held (({[fd]} ∪ h.(fds)) ∖ {[fd]}) h.(lists) = h.
Proof.
  intros H. destruct h as [s n]. cbn [fds lists] in *. f_equal. apply set_eq. intros x.
  rewrite elem_of_difference, elem_of_union, !elem_of_singleton. split; [by intros [[->|?] ?]|]. intros Hx. split; [by right|]. by intros ->.
Qed.

Lemma owns_close_new {A} (fd : Z) (f : Z -> tls A) h Q :
  fd ∉ h.(fds) -> (forall x, owns (f x) h Q) ->
  owns (bind (call (sock (close fd))) f) (mk_held ({[fd]} ∪ h.(fds)) h.(lists)) Q.
Proof.
  intros Hn H x. cbn [touch touch_sock]. unfold use. rewrite bool_decide_eq_true_2 by set_solver. cbn [fds lists].
  rewrite close_new by done. apply H.
Qed.

(** A descriptor that may be used: open, or -1. *)
Definition usable (fd : Z) (h : held) : Prop := fd ∈ h.(fds) \/ fd = -1.

Lemma use_usable (fd : Z) (h : held) (s : status) : usable fd h -> use fd h s s = s.
Proof. intros [H|H]; unfold use; [by rewrite bool_decide_eq_true_2|]. subst. by case_bool_decide. Qed.

Lemma usable_new (fd : Z) (s : gset Z) (n : nat) : usable fd (mk_held ({[fd]} ∪ s) n).
Proof. left. set_solver. Qed.

#[local] Hint Resolve usable_new : core.

(** A call that uses an open descriptor. *)
Ltac own_use := let x := fresh "x" in intros x; cbn [touch touch_sock]; rewrite use_usable by auto.

Ltac own_step :=
  match goal with
  | |- owns (bind (call (sock (socket _ _ _))) _) _ _ => apply owns_socket; [|intros ? ? ?]
  | |- owns (bind (call (sock (close _))) _) _ _ => apply owns_close_new; [done|intros _]
  | |- owns (bind (call (sock get_errno)) _) _ _ => intro; cbn [touch touch_sock]
  | |- owns (bind (call _) _) _ _ => own_use; cbn [bind]
  | |- owns (call _) _ _ => own_use
  | |- owns (Vis _ _) _ _ => own_use
  | |- owns (bind (Ret _) _) _ _ => cbn [bind]
  | |- owns (match ?x with _ => _ end) _ _ => destruct x eqn:?
  | |- owns (bind (match ?x with _ => _ end) _) _ _ => destruct x eqn:?
  end.

Lemma connect_loop_owns (addr_list : list addrinfo) (r : Z) (h : held) : r <> 0 -> owns (connect_loop addr_list (-1) r) h (opens h).
Proof.
  revert r. induction addr_list as [|cur rest IH]; intros r Hr; cbn [connect_loop]; [by left|].
  repeat own_step; try (by apply IH); bool_to_prop; try lia. right. by cbn.
Qed.

Lemma bind_loop_owns (proto : Z) (addr_list : list addrinfo) (r : Z) (h : held) :
  r <> 0 -> owns (bind_loop proto addr_list (-1) r) h (opens h).
Proof.
  revert r. induction addr_list as [|cur rest IH]; intros r Hr; cbn [bind_loop]; [by left|].
  repeat own_step; try (by apply IH); bool_to_prop; try lia; try (right; by cbn).
Qed.

(** A list of addresses is freed after the loop [p] over it. *)
Lemma list_freed (host : option (list Z)) (port : list Z) (hints : addrinfo) (p : list addrinfo -> tls (Z * Z)) (h : held) :
  (forall l h, owns (p l) h (opens h)) ->
  owns (do addr_list <- call (getaddrinfo host port hints);
        match addr_list with
        | None => Ret (-1, MBEDTLS_ERR_NET_UNKNOWN_HOST)
        | Some addr_list => do r <- p addr_list; call freeaddrinfo >> Ret r
        end) h (opens h).
Proof.
  intros Hp [l|]; cbn [touch bind]; [|by left]. apply owns_bind. eapply owns_mono; [|apply Hp].
  intros r h' [(H1 & H2 & ->)|(H1 & H2 & H3 & ->)] x; cbn [touch lists]; [left|right]; destruct h; auto.
Qed.

Lemma connect_owns (host : option (list Z)) (port : list Z) (proto : Z) (h : held) :
  owns (mbedtls_net_connect (-1) host port proto) h (opens h).
Proof. apply list_freed. intros l h'. by apply connect_loop_owns. Qed.

Lemma bind_owns (bind_ip : option (list Z)) (port : list Z) (proto : Z) (h : held) :
  owns (mbedtls_net_bind (-1) bind_ip port proto) h (opens h).
Proof. apply list_freed. intros l h'. by apply bind_loop_owns. Qed.

(** [fd] is a new socket, or none. *)
Definition perhaps_new (h : held) (fd : Z) (h' : held) : Prop :=
  (fd = -1 /\ h' = h) \/ (0 <= fd /\ (fd ∉ h.(fds)) /\ h' = mk_held ({[fd]} ∪ h.(fds)) h.(lists)).

(** The listening context keeps its socket and the client gets a new one, or the client
    gets the socket and the listening context a new one. *)
Definition accepts (fd : Z) (h : held) (r : accepted) (h' : held) : Prop :=
  (r.(bind_ctx) = fd /\ perhaps_new h r.(client_ctx) h') \/ (r.(client_ctx) = fd /\ perhaps_new h r.(bind_ctx) h').

Lemma give_ip_ctxs (b c : Z) (a : sockaddr_in) (client_ip : bool) (buf_size : Z) :
  (give_ip b c a client_ip buf_size).(bind_ctx) = b /\ (give_ip b c a client_ip buf_size).(client_ctx) = c.
Proof. unfold give_ip. destruct client_ip; [destruct (buf_size <? 4)|]; done. Qed.

Lemma hijack_owns (fd : Z) (a : sockaddr_in) (client_ip : bool) (buf_size : Z) (h : held) :
  usable fd h -> owns (hijack fd (-1) a client_ip buf_size) h (accepts fd h).
Proof.
  intros Hu. unfold hijack. repeat own_step; cbn [owns]; unfold accepts, perhaps_new;
    rewrite ?(proj1 (give_ip_ctxs _ _ _ _ _)), ?(proj2 (give_ip_ctxs _ _ _ _ _)); cbn; bool_to_prop; try lia; auto 10.
Qed.

Lemma owns_accept {A} (fd : Z) (f : Z * sockaddr_in -> tls A) (h : held) Q :
  usable fd h -> (forall c a h', perhaps_new h c h' -> owns (f (c, a)) h' Q) -> owns (bind (call (sock (accept fd))) f) h Q.
Proof.
  intros Hu H [c a]. cbn [touch touch_sock]. unfold use. destruct (bool_decide (fd ∈ fds h)) eqn:Ed.
  - apply bool_decide_eq_true in Ed. unfold new_fd. cbn [fst]. destruct (c =? -1) eqn:E1; bool_to_prop; [apply H; by left|].
    destruct (c <? -1) eqn:E2; [done|]. cbn [orb]. case_bool_decide; [done|]. bool_to_prop. apply H. right. split_and!; [lia|done|done].
  - apply bool_decide_eq_false in Ed. destruct Hu as [?| ->]; [done|]. cbn [Z.eqb Pos.eqb fst].
    destruct (c =? -1) eqn:E1; [|done]. bool_to_prop. apply H. by left.
Qed.

Lemma accept_owns (fd : Z) (client_ip : bool) (buf_size : Z) (h : held) :
  usable fd h -> owns (mbedtls_net_accept fd (-1) client_ip buf_size) h (accepts fd h).
Proof.
  intros Hu. unfold mbedtls_net_accept. own_step. destruct x as [r type].
  assert (Hn : perhaps_new h (-1) h) by by left.
  destruct (negb (r =? 0) || _); [by left|]. destruct (type =? SOCK_STREAM); apply owns_bind.
  - apply owns_accept; [done|]. intros c a h' Hc. cbn [bind owns negb]. destruct (c <? 0).
    + intros e. by left.
    + left. by rewrite (proj1 (give_ip_ctxs _ _ _ _ _)), (proj2 (give_ip_ctxs _ _ _ _ _)).
  - own_use. destruct x as [n a]. cbn [bind owns negb]. destruct (n <? 0); [intros e; by left|]. by apply hijack_owns.
Qed.

(** ** Ownership *)

(** The open sockets are those of the contexts, each of one context, and no list of
    addresses is left. *)
Record owned (ctxs : list Z) (h : held) : Prop := mk_owned {
  owned_lists : h.(lists) = O;
  owned_open : forall fd, fd ∈ h.(fds) <-> 0 <= fd /\ exists i, ctxs !! i = Some fd;
  owned_low : forall i fd, ctxs !! i = Some fd -> -1 <= fd;
  owned_once : forall i j fd, 0 <= fd -> ctxs !! i = Some fd -> ctxs !! j = Some fd -> i = j;
}.

Lemma owned_usable (ctxs : list Z) (h : held) (i : nat) : owned ctxs h -> usable (default (-1) (ctxs !! i)) h.
Proof.
  intros Ho. destruct (ctxs !! i) as [fd|] eqn:E; [|by right]. cbn. pose proof (owned_low _ _ Ho i fd E).
  destruct (decide (fd = -1)); [by right|]. left. apply (owned_open _ _ Ho). split; [lia|eauto].
Qed.

(** Lookups in an updated list of contexts. *)
Ltac ctx_lookups :=
  repeat match goal with
  | H : <[_ := _]> _ !! _ = Some _ |- _ => apply list_lookup_insert_Some in H as [(? & ? & ?)|(? & ?)]
  end.

Lemma owned_put (ctxs : list Z) (h h' : held) (i : nat) (fd : Z) :
  owned ctxs h -> ctxs !! i = Some (-1) -> perhaps_new h fd h' -> owned (<[i := fd]> ctxs) h'.
Proof.
  intros Ho Hi [[-> ->]|(H1 & H2 & ->)]; [by rewrite list_insert_id|]. destruct Ho as [Hl Hopen Hlow Honce].
  assert (Hn : forall k, ctxs !! k <> Some fd) by (intros k Hk; apply H2, Hopen; eauto). split; cbn [fds lists].
  - done.
  - intros x. rewrite elem_of_union, elem_of_singleton, Hopen. split.
    + intros [->|[? [k Hk]]]; split; [done|exists i; apply list_lookup_insert_eq; by eapply lookup_lt_Some|done|].
      exists k. rewrite list_lookup_insert_ne; [done|]. intros ->. rewrite Hi in Hk. injection Hk as <-. lia.
    + intros [? [k Hk]]. ctx_lookups; [by left|right; eauto].
  - intros k x Hk. ctx_lookups; [lia|eauto].
  - intros k k' x Hx Hk Hk'. ctx_lookups; subst; [done|by edestruct Hn|by edestruct Hn|eauto].
Qed.

Lemma owned_move (ctxs : list Z) (h : held) (i j : nat) (fd : Z) :
  owned ctxs h -> ctxs !! i = Some fd -> ctxs !! j = Some (-1) -> i <> j -> owned (<[i := -1]> (<[j := fd]> ctxs)) h.
Proof.
  intros Ho Hi Hj Hij. destruct Ho as [Hl Hopen Hlow Honce]. split; [done| | |].
  - intros x. rewrite Hopen. split; intros [? [k Hk]]; (split; [done|]).
    + destruct (decide (k = i)) as [->|].
      * exists j. rewrite list_lookup_insert_ne by done. rewrite list_lookup_insert_eq by (by eapply lookup_lt_Some). congruence.
      * exists k. rewrite !list_lookup_insert_ne; [done| |done]. intros ->. rewrite Hj in Hk. injection Hk as <-. lia.
    + ctx_lookups; subst; [lia|eauto|eauto].
  - intros k x Hk. ctx_lookups; subst; [lia|eauto|eauto].
  - intros k k' x Hx Hk Hk'. ctx_lookups; subst; try lia; try done; try (by eapply Honce);
      match goal with H : i <> ?n |- _ => destruct H; by eapply Honce end.
Qed.

Lemma owned_drop (ctxs : list Z) (h : held) (i : nat) (fd : Z) :
  owned ctxs h -> ctxs !! i = Some fd -> fd ∈ h.(fds) -> owned (<[i := -1]> ctxs) (mk_held (h.(fds) ∖ {[fd]}) h.(lists)).
Proof.
  intros Ho Hi Hfd. destruct Ho as [Hl Hopen Hlow Honce]. apply Hopen in Hfd as [H0 _]. split; cbn [fds lists]; [done| | |].
  - intros x. rewrite elem_of_difference, elem_of_singleton, Hopen. split.
    + intros [[? [k Hk]] ?]. split; [done|]. exists k. rewrite list_lookup_insert_ne; [done|]. intros ->. congruence.
    + intros [? [k Hk]]. ctx_lookups; [lia|]. split; [split; eauto|]. intros ->. by eauto.
  - intros k x Hk. ctx_lookups; [lia|eauto].
  - intros k k' x Hx Hk Hk'. ctx_lookups; subst; try lia; eauto.
Qed.

Lemma recv_keeps (fd len : Z) (h : held) : usable fd h -> owns (mbedtls_net_recv fd len) h (fun _ h' => h' = h).
Proof. intros Hu. unfold mbedtls_net_recv. by repeat own_step. Qed.

Lemma recv_timeout_keeps (fd len timeout : Z) (h : held) :
  usable fd h -> owns (mbedtls_net_recv_timeout fd len timeout) h (fun _ h' => h' = h).
Proof.
  intros Hu. unfold mbedtls_net_recv_timeout. destruct (fd <? 0); [done|]. intros [r s]. cbn [touch touch_sock].
  replace (fd + 1 - 1) with fd by lia. rewrite use_usable by done. cbn [bind].
  destruct (r =? 0); [done|]. destruct (r <? 0); [by repeat own_step|]. by apply recv_keeps.
Qed.

Lemma send_keeps (fd : Z) (buf : list Z) (h : held) : usable fd h -> owns (mbedtls_net_send fd buf) h (fun _ h' => h' = h).
Proof. intros Hu. unfold mbedtls_net_send. by repeat own_step. Qed.

Lemma set_block_keeps (fd : Z) (block : bool) (h : held) :
  usable fd h -> owns (if block then mbedtls_net_set_block fd else mbedtls_net_set_nonblock fd) h (fun _ h' => h' = h).
Proof. intros Hu. unfold mbedtls_net_set_block, mbedtls_net_set_nonblock. destruct block; by repeat own_step. Qed.

Lemma free_owned (ctxs : list Z) (i : nat) (h : held) :
  owned ctxs h -> owns (mbedtls_net_free (default (-1) (ctxs !! i))) h (fun fd h' => owned (<[i := fd]> ctxs) h').
Proof.
  intros Ho. pose proof (owned_usable _ _ i Ho) as Hu. unfold mbedtls_net_free.
  destruct (ctxs !! i) as [fd|] eqn:Hi; cbn [default from_option id] in *; cycle 1.
  { cbn [Z.eqb Pos.eqb owns]. rewrite list_insert_ge; [done|]. by apply lookup_ge_None. }
  destruct (fd =? -1) eqn:E; bool_to_prop; [subst; cbn [owns]; by rewrite list_insert_id|].
  destruct Hu as [Hu| ->]; [|lia]. do 2 (intros ?; cbn [touch touch_sock]; unfold use; rewrite bool_decide_eq_true_2 by done; cbn [bind]).
  by apply owned_drop.
Qed.

Lemma open_owned (ctxs : list Z) (i : nat) (h : held) (p : tls (Z * Z)) :
  owned ctxs h -> ctxs !! i = Some (-1) -> owns p h (opens h) -> owns (do r <- p; Ret (<[i := r.1]> ctxs)) h owned.
Proof.
  intros Ho Hi Hp. apply owns_bind. eapply owns_mono; [|exact Hp]. intros r h' Hr. apply (owned_put _ _ _ _ _ Ho Hi).
  destruct Hr as [(? & _ & ?)|(? & ? & _ & ?)]; [by left|by right].
Qed.

Lemma accept_owned (ctxs : list Z) (i j : nat) (fd : Z) (client_ip : bool) (buf_size : Z) (h : held) :
  owned ctxs h -> ctxs !! i = Some fd -> ctxs !! j = Some (-1) -> i <> j ->
  owns (do r <- mbedtls_net_accept fd (-1) client_ip buf_size; Ret (<[i := r.(bind_ctx)]> (<[j := r.(client_ctx)]> ctxs))) h owned.
Proof.
  intros Ho Hi Hj Hij. apply owns_bind. eapply owns_mono.
  2:{ apply accept_owns. pose proof (owned_usable _ _ i Ho) as Hu. by rewrite Hi in Hu. }
  intros r h' [[-> Hn]|[-> Hn]]; cbn [owns].
  - rewrite list_insert_id; [by eapply owned_put|]. by rewrite list_lookup_insert_ne.
  - rewrite <- (list_insert_insert_eq (<[j := fd]> ctxs) i (bind_ctx r) (-1)). apply (owned_put _ h); [by apply owned_move| |done].
    rewrite list_lookup_insert_eq; [done|]. rewrite length_insert. by eapply lookup_lt_Some.
Qed.

Lemma step_owned (o : tls_op) (ctxs : list Z) (h : held) : owned ctxs h -> owns (tls_step o ctxs) h owned.
Proof.
  intros Ho. pose proof (fun i => owned_usable ctxs h i Ho) as Hu. destruct o; cbn [tls_step].
  - case_bool_decide; [|done]. by apply open_owned; [| |apply connect_owns].
  - case_bool_decide; [|done]. by apply open_owned; [| |apply bind_owns].
  - destruct (ctxs !! i) eqn:Hi; [|done]. case_bool_decide; [|done]. destruct (Nat.eqb_spec i j); [done|]. by apply accept_owned.
  - apply owns_use; [by apply set_block_keeps|done].
  - apply owns_use; [by apply recv_keeps|done].
  - apply owns_use; [by apply recv_timeout_keeps|done].
  - apply owns_use; [by apply send_keeps|done].
  - apply owns_bind. by apply free_owned.
Qed.

(** C31: Whatever a client does with [n] contexts, and whatever fails, the functions use no
    descriptor after it has been closed, close none twice and free each list of addresses once;
    and afterwards the open sockets are just those of the contexts, each
    of one context, so that freeing the contexts closes all. *)
Theorem sockets_owned (os : list tls_op) (n : nat) :
  always (tls_run os (replicate n mbedtls_net_init)) (kept (mk_held ∅ 0) owned).
Proof.
  apply wp_always, owns_wp. assert (H0 : owned (replicate n mbedtls_net_init) (mk_held ∅ 0)).
  { assert (Hr : forall i fd, replicate n mbedtls_net_init !! i = Some fd -> fd = -1) by (intros i fd [-> _]%lookup_replicate; done).
    split; [done| |intros i fd H%Hr; lia|intros i j fd Hf H%Hr; lia]. intros fd. cbn. split; [set_solver|]. intros [Hf [i H%Hr]]. lia. }
  revert H0. generalize (replicate n mbedtls_net_init), (mk_held ∅ 0).
  induction os as [|o os IH]; intros ctxs h Ho; [done|]. cbn [tls_run]. apply owns_bind.
  eapply owns_mono; [|by apply step_owned]. intros c h'. apply IH.
Qed.

(** ** Waiting and protocol names *)

Definition waits_for (ev : event TlsE) : option (option (Z * Z)) :=
  match ev with Ev e _ => match e with sock (select _ _ _ _ timeout) => Some timeout | _ => None end end.

(** [mbedtls_net_recv_timeout] waits once, for just the milliseconds it is given, or
    without limit for 0, and reads only when there is something to read. *)
Lemma recv_waits (ctx len timeout : Z) :
  0 <= ctx -> 0 <= timeout ->
  always (mbedtls_net_recv_timeout ctx len timeout) (fun l _ => exists t, omap waits_for l = [t] /\
    match t with
    | None => timeout = 0
    | Some (sec, usec) => 0 < timeout /\ sec * 1000000 + usec = timeout * 1000 /\ 0 <= usec < 1000000
    end).
Proof.
  intros Hc Ht. apply wp_always. unfold mbedtls_net_recv_timeout, mbedtls_net_recv. pose proof (Z.div_mod timeout 1000).
  pose proof (Z.mod_pos_bound timeout 1000). destruct (timeout =? 0) eqn:Et; prog_steps; bool_to_prop; try lia; (eexists; split; [reflexivity|]); cbn; try lia.
Qed.

(** A list of protocol names is accepted just when every name has 1 to 255 bytes and all
    together at most 65535; otherwise the configuration is unchanged. *)
Lemma alpn_exact (old : option (list (list Z))) (protos : list (list Z)) :
  mbedtls_ssl_conf_alpn_protocols old protos =
    if bool_decide (Forall (fun p => 1 <= length p <= 255)%nat protos /\ Z.of_nat (sum_list (length <$> protos)) <= 65535)
    then (Some protos, 0) else (old, MBEDTLS_ERR_SSL_BAD_INPUT_DATA).
Proof.
  unfold mbedtls_ssl_conf_alpn_protocols. enough (H : forall t, 0 <= t <= 65535 -> alpn_loop protos t =
    bool_decide (Forall (fun p => 1 <= length p <= 255)%nat protos /\ t + Z.of_nat (sum_list (length <$> protos)) <= 65535)).
  { by rewrite H, Z.add_0_l by lia. }
  induction protos as [|p protos IH]; intros t Ht; cbn [alpn_loop fmap list_fmap sum_list_with id].
  { rewrite bool_decide_eq_true_2; [done|]. split; [constructor|cbn; lia]. }
  unfold MBEDTLS_SSL_MAX_ALPN_NAME_LEN, MBEDTLS_SSL_MAX_ALPN_LIST_LEN.
  destruct (decide (1 <= length p <= 255)%nat) as [Hp|Hp]; cycle 1.
  { rewrite bool_decide_eq_false_2 by (intros [Hf _]; inversion Hf; lia).
    destruct (Z.of_nat (length p) =? 0) eqn:E1, (255 <? Z.of_nat (length p)) eqn:E2; bool_to_prop; try done; lia. }
  rewrite u32_small by lia. destruct (Z.of_nat (length p) =? 0) eqn:E1, (255 <? Z.of_nat (length p)) eqn:E2; bool_to_prop; try lia.
  destruct (65535 <? _) eqn:E3; bool_to_prop; cbn [orb].
  - rewrite bool_decide_eq_false_2; [done|]. intros [_ ?]. lia.
  - rewrite IH by lia. apply bool_decide_ext. rewrite Forall_cons. intuition lia.
Qed.

End TlsSockets.
