(* ===== verification/Iot.v ===== *)
(** * The cloud connection: [IOT.cpp] and the callbacks of [device_interface.cpp]

    Data points exchanged with the cloud, the credentials, and the device's
    start.  The property store, the user interface, the SDK's reporting calls and
    the credential stores are platform calls. *)
From stdpp Require Import base list.
From Stdlib Require Import ZArith Lia.
From S2P Require Import Prelude Oprt.
Local Open Scope Z_scope.

(** The data points ([enum Dp]) and the properties they stand for. *)
Module Dp.
Inductive t :=
| brightness | has_pot | ambient_light | temperature | humidity | watering_status | ip | water_level | charging
| touch_enable | touching | color | ear_sensitivity | pot_sensitivity | evolve_status | sys_cmd | plant_type
| battery_percent | soil_moisture | plant_auto_detect | water_manual_calib | ear_enable | pomodoro
| left_touch_switch | right_touch_switch | plant_touch_switch | use_fahrenheit | enable_night_sleep | enable_sleep
| night_sleep_start | night_sleep_period | auto_brightness | use_12h_mode | custom_anim_last_t | light_status
| temperature_status | humidity_status | enable_location_weather | longitude | latitude | language
| ambient_light_history | battery_percent_history | soil_moisture_history | humidity_history | temperature_history
| water_level_history | soil_status | tu_over.
End Dp.

Module Props.
Inductive t :=
| brightness | has_pot | ambient_light | temperature | humidity | charging | water_level | touch_enable
| ear_sensitivity | pot_sensitivity | evolve_status | battery_percent | soil_moisture | plant_auto_detect
| water_manual_calib | ear_enable | plant_type | color | pomodoro | watering_status | use_fahrenheit
| enable_night_sleep | enable_sleep | night_sleep_start | night_sleep_period | auto_brightness | use_12h_mode
| custom_anim_last_t | light_status | temperature_status | humidity_status | soil_status | enable_location_weather
| longitude | latitude | language | ambient_light_history | battery_percent_history | soil_moisture_history
| humidity_history | temperature_history | water_level_history | tutorial_complete
| manual_has_pot | language_changed | ota_status | force_evolve.
End Props.

Module Iot.

#[export] Instance prop_eq_dec : EqDecision Props.t.
Proof. solve_decision. Defined.
#[export] Instance dp_eq_dec : EqDecision Dp.t.
Proof. solve_decision. Defined.

Definition dp_id (d : Dp.t) : Z :=
  match d with
  | Dp.brightness => 101 | Dp.has_pot => 102 | Dp.ambient_light => 103 | Dp.temperature => 104 | Dp.humidity => 105
  | Dp.watering_status => 106 | Dp.ip => 107 | Dp.water_level => 108 | Dp.charging => 109 | Dp.touch_enable => 110
  | Dp.touching => 111 | Dp.color => 113 | Dp.ear_sensitivity => 115 | Dp.pot_sensitivity => 116
  | Dp.evolve_status => 117 | Dp.sys_cmd => 118 | Dp.plant_type => 119 | Dp.battery_percent => 121
  | Dp.soil_moisture => 122 | Dp.plant_auto_detect => 123 | Dp.water_manual_calib => 124 | Dp.ear_enable => 125
  | Dp.pomodoro => 126 | Dp.left_touch_switch => 127 | Dp.right_touch_switch => 128 | Dp.plant_touch_switch => 129
  | Dp.use_fahrenheit => 130 | Dp.enable_night_sleep => 131 | Dp.enable_sleep => 132 | Dp.night_sleep_start => 133
  | Dp.night_sleep_period => 134 | Dp.auto_brightness => 135 | Dp.use_12h_mode => 136 | Dp.custom_anim_last_t => 137
  | Dp.light_status => 138 | Dp.temperature_status => 139 | Dp.humidity_status => 140
  | Dp.enable_location_weather => 141 | Dp.longitude => 142 | Dp.latitude => 143 | Dp.language => 144
  | Dp.ambient_light_history => 145 | Dp.battery_percent_history => 146 | Dp.soil_moisture_history => 147
  | Dp.humidity_history => 148 | Dp.temperature_history => 149 | Dp.water_level_history => 150
  | Dp.soil_status => 151 | Dp.tu_over => 152
  end.

(** The type of a data point; the cloud may send others too. *)
Inductive DP_PROP_TP_E := PROP_BOOL | PROP_VALUE | PROP_STR | PROP_ENUM | PROP_BITMAP.

Inductive dp_value := DpBool (b : bool) | DpValue (v : Z) | DpStr (s : list Z) | DpEnum (v : Z).

Record TY_OBJ_DP_S := mk_dp {
  dpid : Z;
  dp_type : DP_PROP_TP_E;
  value : dp_value;
  time_stamp : Z;
}.

Record dp_type_t := mk_type { dp : Dp.t; type : DP_PROP_TP_E; factor : Z }.

(** [init_dp_data]. *)
Definition tuya_dp_map : list (Props.t * dp_type_t) :=
  [(Props.brightness, mk_type Dp.brightness PROP_VALUE 1);
   (Props.has_pot, mk_type Dp.has_pot PROP_BOOL 1);
   (Props.ambient_light, mk_type Dp.ambient_light PROP_VALUE 1);
   (Props.temperature, mk_type Dp.temperature PROP_VALUE 10);
   (Props.humidity, mk_type Dp.humidity PROP_VALUE 1);
   (Props.charging, mk_type Dp.charging PROP_BOOL 1);
   (Props.water_level, mk_type Dp.water_level PROP_VALUE 1);
   (Props.touch_enable, mk_type Dp.touch_enable PROP_BOOL 1);
   (Props.ear_sensitivity, mk_type Dp.ear_sensitivity PROP_VALUE 1);
   (Props.pot_sensitivity, mk_type Dp.pot_sensitivity PROP_VALUE 1);
   (Props.evolve_status, mk_type Dp.evolve_status PROP_VALUE 1);
   (Props.battery_percent, mk_type Dp.battery_percent PROP_VALUE 1);
   (Props.soil_moisture, mk_type Dp.soil_moisture PROP_VALUE 1);
   (Props.plant_auto_detect, mk_type Dp.plant_auto_detect PROP_BOOL 1);
   (Props.water_manual_calib, mk_type Dp.water_manual_calib PROP_BOOL 1);
   (Props.ear_enable, mk_type Dp.ear_enable PROP_BOOL 1);
   (Props.plant_type, mk_type Dp.plant_type PROP_VALUE 1);
   (Props.color, mk_type Dp.color PROP_VALUE 1);
   (Props.pomodoro, mk_type Dp.pomodoro PROP_VALUE 1);
   (Props.watering_status, mk_type Dp.watering_status PROP_VALUE 1);
   (Props.use_fahrenheit, mk_type Dp.use_fahrenheit PROP_BOOL 1);
   (Props.enable_night_sleep, mk_type Dp.enable_night_sleep PROP_BOOL 1);
   (Props.enable_sleep, mk_type Dp.enable_sleep PROP_BOOL 1);
   (Props.night_sleep_start, mk_type Dp.night_sleep_start PROP_VALUE 1);
   (Props.night_sleep_period, mk_type Dp.night_sleep_period PROP_VALUE 1);
   (Props.auto_brightness, mk_type Dp.auto_brightness PROP_BOOL 1);
   (Props.use_12h_mode, mk_type Dp.use_12h_mode PROP_BOOL 1);
   (Props.custom_anim_last_t, mk_type Dp.custom_anim_last_t PROP_VALUE 1);
   (Props.light_status, mk_type Dp.light_status PROP_VALUE 1);
   (Props.temperature_status, mk_type Dp.temperature_status PROP_VALUE 1);
   (Props.humidity_status, mk_type Dp.humidity_status PROP_VALUE 1);
   (Props.soil_status, mk_type Dp.soil_status PROP_VALUE 1);
   (Props.enable_location_weather, mk_type Dp.enable_location_weather PROP_BOOL 1);
   (Props.longitude, mk_type Dp.longitude PROP_VALUE 1);
   (Props.latitude, mk_type Dp.latitude PROP_VALUE 1);
   (Props.language, mk_type Dp.language PROP_VALUE 1);
   (Props.ambient_light_history, mk_type Dp.ambient_light_history PROP_VALUE 1);
   (Props.battery_percent_history, mk_type Dp.battery_percent_history PROP_VALUE 1);
   (Props.soil_moisture_history, mk_type Dp.soil_moisture_history PROP_VALUE 1);
   (Props.humidity_history, mk_type Dp.humidity_history PROP_VALUE 1);
   (Props.temperature_history, mk_type Dp.temperature_history PROP_VALUE 10);
   (Props.water_level_history, mk_type Dp.water_level_history PROP_VALUE 1);
   (Props.tutorial_complete, mk_type Dp.tu_over PROP_VALUE 1)].

(** What [process_sys_cmd] asks the other parts of the device to do. *)
Inductive sys_action :=
| reset_water_level_calib | calibrate_water_level | calibrate_touch (ms : Z) | check_evolve_update
| ui_set_action (apply : bool) | reset_soil_sensor_calib_info | tap_front | tap_left | tap_right | upload_log
| anim_play | anim_stop | anim_next | anim_single | anim_rotate | anim_random | restore_to_factory.

Inductive sys_condition := DATA_REPORTED.

(** The record [GW_WORK_STAT_MAG_S] as far as it is read. *)
Record gw_wsm := mk_wsm { ssid : list Z; nc_tp : Z; md : Z }.

Inductive ui := UI_BOOT | UI_PROV_TIP | UI_LOADING.

Inductive IotE : Type -> Type :=
| Prop_set (p : Props.t) (v : Z) (flags : list bool) : IotE unit
| Prop_get_int (p : Props.t) : IotE Z
| Prop_get_bool (p : Props.t) : IotE bool
| Prop_ready (p : Props.t) : IotE bool
| dev_report_dp_json_async (dps : list TY_OBJ_DP_S) : IotE unit
| dev_report_dp_json_async_force (dps : list TY_OBJ_DP_S) : IotE Z
| Sys_set_condition (c : sys_condition) : IotE unit
| Language_check_change (v : Z) (first : bool) : IotE unit
| set_level_calibration (v : Z) : IotE unit
| show_temp_text : IotE unit
| act (a : sys_action) : IotE unit
| millis : IotE Z
| vTaskDelay (ticks : Z) : IotE unit
| ip_description : IotE (list Z)
| factory_register : IotE (option (list Z * list Z * Z))
| nvs_get_id : IotE (list Z)
| nvs_get_key : IotE (list Z)
| sd_get_id : IotE (list Z)
| sd_get_key : IotE (list Z)
| sd_store_credentials (id key : list Z) : IotE unit
| nvs_store_credentials (id key : list Z) : IotE unit
| wd_gw_wsm_read : IotE (Z * gw_wsm)
| esp_bt_controller_mem_release : IotE Z
| load_ui (u : ui) : IotE unit
| set_in_provision (b : bool) : IotE unit
| unregister_button_tap : IotE unit.

(** The members of [IOT]. *)
Record IOT := mk_IOT {
  m_uuid : list Z;
  m_authkey : list Z;
  m_connected : bool;
  pass_provision : bool;
  time_sync_timestamp : Z;
  time_sync_sys_time : Z;
}.

Definition IOT_new : IOT := mk_IOT [] [] false false 0 0.

Definition set_uuid_authkey (o : IOT) (u k : list Z) : IOT :=
  mk_IOT u k o.(m_connected) o.(pass_provision) o.(time_sync_timestamp) o.(time_sync_sys_time).
Definition set_connection_status (o : IOT) (v : bool) : IOT :=
  mk_IOT o.(m_uuid) o.(m_authkey) v o.(pass_provision) o.(time_sync_timestamp) o.(time_sync_sys_time).
Definition ensure_pass_provision (o : IOT) (en : bool) : IOT :=
  mk_IOT o.(m_uuid) o.(m_authkey) o.(m_connected) en o.(time_sync_timestamp) o.(time_sync_sys_time).
Definition set_time_sync (o : IOT) (timestamp sys_time : Z) : IOT :=
  mk_IOT o.(m_uuid) o.(m_authkey) o.(m_connected) o.(pass_provision) timestamp sys_time.

(** ** Commands from the cloud *)

(** The codes of [enum sys_cmd]; codes that do nothing are [None]. *)
Definition sys_cmd_action (cmd : Z) : option sys_action :=
  match cmd with
  | 5 => Some reset_water_level_calib
  | 6 => Some calibrate_water_level
  | 7 => Some (calibrate_touch 100)
  | 8 => Some check_evolve_update
  | 9 => Some (ui_set_action true)
  | 10 => Some (ui_set_action false)
  | 12 => Some reset_soil_sensor_calib_info
  | 13 => Some tap_front
  | 14 => Some tap_left
  | 15 => Some tap_right
  | 16 => Some upload_log
  | 17 => Some anim_play
  | 18 => Some anim_stop
  | 19 => Some anim_next
  | 20 => Some anim_single
  | 21 => Some anim_rotate
  | 22 => Some anim_random
  | 99 => Some restore_to_factory
  | _ => None
  end.

Definition process_sys_cmd (cmd : Z) : prog IotE unit :=
  match sys_cmd_action cmd with Some a => call (act a) | None => Ret tt end.

(** The flags of most calls of [Prop::set]. *)
Definition store_prop (p : Props.t) (v : Z) : prog IotE bool := call (Prop_set p v [true; false; true]) >> Ret true.

(** [None] is a number that is no data point. *)
Definition dp_handler (d : option Dp.t) (v : Z) : prog IotE bool :=
  match d with
  | Some Dp.brightness => store_prop Props.brightness v
  | Some Dp.has_pot => store_prop Props.manual_has_pot v
  | Some Dp.touch_enable => store_prop Props.touch_enable v
  | Some Dp.ear_sensitivity => store_prop Props.ear_sensitivity v
  | Some Dp.pot_sensitivity => store_prop Props.pot_sensitivity v
  | Some Dp.evolve_status => Ret false
  | Some Dp.sys_cmd => process_sys_cmd v >> Ret false
  | Some Dp.plant_auto_detect => store_prop Props.plant_auto_detect v
  | Some Dp.water_manual_calib =>
      do pot_in <- (if v =? 0 then Ret false else call (Prop_get_bool Props.has_pot));
      if pot_in : bool then
        call (Prop_set Props.water_manual_calib 0 [true; false]) >> call show_temp_text >> Ret false
      else call (set_level_calibration v) >> Ret true
  | Some Dp.ear_enable => store_prop Props.ear_enable v
  | Some Dp.plant_type => store_prop Props.plant_type v
  | Some Dp.enable_sleep => store_prop Props.enable_sleep v
  | Some Dp.auto_brightness => store_prop Props.auto_brightness v
  | Some Dp.enable_night_sleep => store_prop Props.enable_night_sleep v
  | Some Dp.use_fahrenheit => store_prop Props.use_fahrenheit v
  | Some Dp.use_12h_mode => store_prop Props.use_12h_mode v
  | Some Dp.night_sleep_start => store_prop Props.night_sleep_start v
  | Some Dp.night_sleep_period => store_prop Props.night_sleep_period v
  | Some Dp.custom_anim_last_t => store_prop Props.custom_anim_last_t v
  | Some Dp.enable_location_weather => store_prop Props.enable_location_weather v
  | Some Dp.longitude => store_prop Props.longitude v
  | Some Dp.latitude => store_prop Props.latitude v
  | Some Dp.language =>
      do changed <- call (Prop_get_int Props.language_changed);
      if changed =? 0 then
        call (Prop_set Props.language_changed 1 [false; false; true]) >> call (Language_check_change v true) >> Ret true
      else call (Language_check_change v false) >> Ret true
  | Some Dp.color => store_prop Props.color v
  | _ => Ret false
  end.

Definition all_dps : list Dp.t :=
  [Dp.brightness; Dp.has_pot; Dp.ambient_light; Dp.temperature; Dp.humidity; Dp.watering_status; Dp.ip; Dp.water_level;
   Dp.charging; Dp.touch_enable; Dp.touching; Dp.color; Dp.ear_sensitivity; Dp.pot_sensitivity; Dp.evolve_status;
   Dp.sys_cmd; Dp.plant_type; Dp.battery_percent; Dp.soil_moisture; Dp.plant_auto_detect; Dp.water_manual_calib;
   Dp.ear_enable; Dp.pomodoro; Dp.left_touch_switch; Dp.right_touch_switch; Dp.plant_touch_switch; Dp.use_fahrenheit;
   Dp.enable_night_sleep; Dp.enable_sleep; Dp.night_sleep_start; Dp.night_sleep_period; Dp.auto_brightness;
   Dp.use_12h_mode; Dp.custom_anim_last_t; Dp.light_status; Dp.temperature_status; Dp.humidity_status;
   Dp.enable_location_weather; Dp.longitude; Dp.latitude; Dp.language; Dp.ambient_light_history;
   Dp.battery_percent_history; Dp.soil_moisture_history; Dp.humidity_history; Dp.temperature_history;
   Dp.water_level_history; Dp.soil_status; Dp.tu_over].

(** The cast [(Dp) dpid]. *)
Definition Dp_of (id : Z) : option Dp.t := List.find (fun d => dp_id d =? id) all_dps.

(** The number a data point carries, as [dp_value] or [dp_bool]. *)
Definition number_of (v : dp_value) : Z :=
  match v with DpBool b => Z.b2z b | DpValue v => v | DpEnum v => v | DpStr _ => 0 end.

(** The loop of [dev_obj_dp_cb]: its index is an [UCHAR_T], its bound an [UINT_T].
    [Some true] when every data point was accepted, [Some false] when one was
    refused, [None] when [fuel] rounds did not end it. *)
Fixpoint dp_loop (fuel : nat) (dps : list TY_OBJ_DP_S) (i : Z) : prog IotE (option bool) :=
  if negb (i <? Z.of_nat (length dps)) then Ret (Some true)
  else
    match fuel with
    | O => Ret None
    | S fuel =>
        match dps !! Z.to_nat i with
        | None => Ret None
        | Some d =>
            match d.(dp_type) with
            | PROP_VALUE | PROP_BOOL =>
                do ret <- dp_handler (Dp_of d.(dpid)) (number_of d.(value));
                if ret : bool then dp_loop fuel dps (u8 (i + 1)) else Ret (Some false)
            | _ => dp_loop fuel dps (u8 (i + 1))
            end
        end
    end.

Definition dev_obj_dp_cb (fuel : nat) (dps : list TY_OBJ_DP_S) : prog IotE (option unit) :=
  do r <- dp_loop fuel dps 0;
  match r with
  | None => Ret None
  | Some false => Ret (Some tt)
  | Some true => call (dev_report_dp_json_async dps) >> Ret (Some tt)
  end.

(** ** Reports to the cloud *)

Definition report_dp (o : IOT) (d : Dp.t) (ty : DP_PROP_TP_E) (v : dp_value) : prog IotE bool :=
  if o.(m_connected) then call (dev_report_dp_json_async [mk_dp (dp_id d) ty v 0]) >> Ret true else Ret false.

Definition find_dp (p : Props.t) : option dp_type_t :=
  snd <$> List.find (fun e => bool_decide (fst e = p)) tuya_dp_map.

(** The value of a property as its data point reports it. *)
Definition prop_value (p : Props.t) (t : dp_type_t) : prog IotE TY_OBJ_DP_S :=
  match t.(type) with
  | PROP_BOOL => do b <- call (Prop_get_bool p); Ret (mk_dp (dp_id t.(dp)) t.(type) (DpBool b) 0)
  | _ => do v <- call (Prop_get_int p); Ret (mk_dp (dp_id t.(dp)) t.(type) (DpValue (i32 (v * t.(factor)))) 0)
  end.

Definition report_prop (o : IOT) (p : Props.t) : prog IotE bool :=
  if o.(m_connected) then
    match find_dp p with
    | None => Ret false
    | Some t => do d <- prop_value p t; call (dev_report_dp_json_async [d]) >> Ret true
    end
  else Ret false.

(** The payload of [report_all_prop]; [entries] is the map in its iteration order. *)
Fixpoint payload (entries : list (Props.t * dp_type_t)) : prog IotE (list TY_OBJ_DP_S) :=
  match entries with
  | [] => Ret []
  | (p, t) :: entries =>
      do ready <- call (Prop_ready p);
      if negb ready then payload entries
      else if bool_decide (p = Props.pomodoro) then payload entries
      else do d <- prop_value p t; do ds <- payload entries; Ret (d :: ds)
  end.

Definition report_all_prop (o : IOT) (entries : list (Props.t * dp_type_t)) : prog IotE bool :=
  if o.(m_connected) then
    do ds <- payload entries;
    do ret <- call (dev_report_dp_json_async_force ds);
    (if ret =? OPRT_OK then call (Sys_set_condition DATA_REPORTED) else Ret tt) >> Ret true
  else Ret false.

Definition report_ip (o : IOT) : prog IotE unit :=
  if o.(m_connected) then do s <- call ip_description; report_dp o Dp.ip PROP_STR (DpStr s) >> Ret tt else Ret tt.

Definition report_touch_status (o : IOT) (status : Z) : prog IotE unit :=
  report_dp o Dp.touching PROP_ENUM (DpEnum status) >> Ret tt.

Definition touch_switch_upload (o : IOT) (d : Dp.t) (v : bool) : prog IotE unit :=
  report_dp o d PROP_BOOL (DpBool v) >> Ret tt.

Definition report_pomodoro (o : IOT) : prog IotE IOT :=
  do p <- call (Prop_get_int Props.pomodoro);
  if (p =? 0) || o.(pass_provision) then
    do p <- call (Prop_get_int Props.pomodoro);
    report_dp o Dp.pomodoro PROP_VALUE (DpValue p) >> Ret (ensure_pass_provision o false)
  else Ret o.

(** The states of an update as [Prop::ota_status] keeps them are numbers of the
    firmware's headers. *)
Definition connect_cb (ota_success no_ota : Z) (o : IOT) (entries : list (Props.t * dp_type_t)) : prog IotE IOT :=
  report_all_prop o entries >> report_ip o >>
  do o <- report_pomodoro o;
  do status <- call (Prop_get_int Props.ota_status);
  (if status =? ota_success then call (Prop_set Props.force_evolve 1 [true; false]) >> call (act check_evolve_update)
   else Ret tt) >>
  call (Prop_set Props.ota_status no_ota [true; false; true; true]) >> Ret o.

Definition get_synced_timestamp (o : IOT) : prog IotE Z :=
  do ms <- call millis;
  Ret (u32 (u32 (ms / 1000 - o.(time_sync_sys_time)) + o.(time_sync_timestamp))).

(** ** Credentials and start *)

Definition register_in_cloud : prog IotE bool :=
  do r <- call factory_register;
  match r with
  | Some (uuid, key, color) =>
      call (sd_store_credentials key uuid) >> call (Prop_set Props.color color [true; false; true]) >> Ret true
  | None => Ret false
  end.

Fixpoint register_attempts (n : nat) : prog IotE unit :=
  match n with
  | O => Ret tt
  | S n => do ok <- register_in_cloud; if ok : bool then Ret tt else call (vTaskDelay 1000) >> register_attempts n
  end.

Definition get_uid_authkey (o : IOT) : prog IotE unit :=
  match o.(m_uuid), o.(m_authkey) with
  | [], _ | _, [] => register_attempts 3
  | _, _ => Ret tt
  end.

(** [has_credentials] decides whether an id and a key are usable. *)
Definition get_credentials (has_credentials : list Z -> list Z -> bool) (o : IOT) : prog IotE (IOT * bool) :=
  do nvs_uuid <- call nvs_get_id;
  do nvs_authkey <- call nvs_get_key;
  do sd_uuid <- call sd_get_id;
  do sd_authkey <- call sd_get_key;
  let in_nvs := has_credentials nvs_uuid nvs_authkey in
  let in_sd := has_credentials sd_uuid sd_authkey in
  if negb in_nvs && negb in_sd then Ret (o, false)
  else if in_nvs && in_sd then
    (if negb (bool_decide (nvs_uuid = sd_uuid)) || negb (bool_decide (nvs_authkey = sd_authkey))
     then call (sd_store_credentials nvs_uuid nvs_authkey) else Ret tt) >>
    Ret (set_uuid_authkey o nvs_uuid nvs_authkey, true)
  else if in_nvs then
    call (sd_store_credentials nvs_uuid nvs_authkey) >> Ret (set_uuid_authkey o nvs_uuid nvs_authkey, true)
  else
    call (nvs_store_credentials sd_uuid sd_authkey) >> Ret (set_uuid_authkey o sd_uuid sd_authkey, true).

Definition GWNS_UNCFG_AP : Z := 2.
Definition GWM_NORMAL : Z := 0.

(** [tuya_dev_init_event_cb]; [ESP_ERROR_CHECK] aborts on an error. *)
Definition tuya_dev_init_event_cb (o : IOT) : prog IotE (IOT * Z) :=
  do '(op_ret, wsm) <- call wd_gw_wsm_read;
  if negb (op_ret =? OPRT_OK) then Ret (o, op_ret)
  else
    do tutorial <- call (Prop_get_bool Props.tutorial_complete);
    if (tutorial && negb (bool_decide (wsm.(ssid) = []))) && ((GWNS_UNCFG_AP <? wsm.(nc_tp)) && (wsm.(md) =? GWM_NORMAL)) then
      do r <- call esp_bt_controller_mem_release;
      assert_ (r =? ESP_OK) >> call (load_ui UI_BOOT) >> Ret (o, OPRT_OK)
    else
      call (set_in_provision true) >> call unregister_button_tap >> call (load_ui UI_PROV_TIP) >>
      Ret (ensure_pass_provision o true, OPRT_OK).

(** ** Data points from the cloud *)

(** The data points one after the other, up to the first that is refused. *)
Fixpoint dp_seq (dps : list TY_OBJ_DP_S) : prog IotE bool :=
  match dps with
  | [] => Ret true
  | d :: dps =>
      match d.(dp_type) with
      | PROP_VALUE | PROP_BOOL =>
          do ret <- dp_handler (Dp_of d.(dpid)) (number_of d.(value)); if ret : bool then dp_seq dps else Ret false
      | _ => dp_seq dps
      end
  end.

Lemma dp_loop_seq (s : env IotE) (dps : list TY_OBJ_DP_S) :
  (length dps <= 255)%nat ->
  forall rest pre h fuel, dps = pre ++ rest -> (length rest <= fuel)%nat ->
  exec s h (dp_loop fuel dps (Z.of_nat (length pre))) = exec s h (bind (dp_seq rest) (fun b => Ret (Some b))).
Proof.
  intros Hlen. induction rest as [|d rest IH]; intros pre h fuel Hd Hf.
  - rewrite app_nil_r in Hd. subst pre. destruct fuel; simpl; by rewrite Z.ltb_irrefl.
  - assert (Hpre : (length pre < length dps)%nat) by (rewrite Hd, length_app; simpl; lia).
    destruct fuel as [|fuel]; [simpl in Hf; lia|]. cbn [dp_loop dp_seq].
    rewrite (proj2 (Z.ltb_lt _ _)) by lia. cbn [negb]. rewrite Nat2Z.id, Hd, list_lookup_middle by done. rewrite <- Hd.
    assert (Hi : u8 (Z.of_nat (length pre) + 1) = Z.of_nat (length (pre ++ [d]))).
    { rewrite length_app. simpl. rewrite u8_small by lia. lia. }
    assert (Hnext : forall h, exec s h (dp_loop fuel dps (u8 (Z.of_nat (length pre) + 1))) =
                              exec s h (bind (dp_seq rest) (fun b => Ret (Some b)))).
    { intros h'. rewrite Hi. apply IH; [by rewrite <- app_assoc|simpl in Hf; lia]. }
    destruct d.(dp_type); try apply Hnext; rewrite exec_bind_assoc; apply exec_bind_ext; intros h' [|]; try apply Hnext; done.
Qed.

(** C32: commands from the cloud.  A message of at most 255 data points is
    handled point by point in its order, up to the first one that is refused; it
    is echoed to the cloud exactly when none was refused, and the callback
    returns. *)
Theorem dev_obj_dp_cb_in_order (dps : list TY_OBJ_DP_S) (s : env IotE) (h : list (event IotE)) :
  (length dps <= 255)%nat ->
  exec s h (dev_obj_dp_cb (length dps) dps) =
  exec s h (do ok <- dp_seq dps;
            (if ok : bool then call (dev_report_dp_json_async dps) else Ret tt) >> Ret (Some tt)).
Proof.
  intros Hlen. unfold dev_obj_dp_cb. rewrite exec_bind.
  pose proof (dp_loop_seq s dps Hlen dps [] h (length dps) eq_refl (le_n _)) as E. change (Z.of_nat (length [])) with 0 in E.
  rewrite E, <- exec_bind, exec_bind_assoc.
  apply exec_bind_ext. by intros h' [|].
Qed.

Definition no_answers : env IotE :=
  fun _ X e =>
    match e in IotE X return X with
    | Prop_get_int _ | millis | dev_report_dp_json_async_force _ | esp_bt_controller_mem_release => 0
    | Prop_get_bool _ | Prop_ready _ => false
    | ip_description | nvs_get_id | nvs_get_key | sd_get_id | sd_get_key => []
    | factory_register => None
    | wd_gw_wsm_read => (0, mk_wsm [] 0 0)
    | _ => tt
    end.

Lemma dev_obj_dp_cb_in_order_witness :
  exec no_answers [] (dev_obj_dp_cb 2 [mk_dp 101 PROP_VALUE (DpValue 7) 0; mk_dp 118 PROP_VALUE (DpValue 99) 0]) =
  ([Ev (Prop_set Props.brightness 7 [true; false; true]) tt; Ev (act restore_to_factory) tt], Done (Some tt)).
Proof.
  etransitivity.
  - apply (dev_obj_dp_cb_in_order [mk_dp 101 PROP_VALUE (DpValue 7) 0; mk_dp 118 PROP_VALUE (DpValue 99) 0]).
    simpl. lia.
  - reflexivity.
Defined.

(** With 256 data points or more the index wraps around and the loop does not
    end, here for points it only skips. *)
Lemma dev_obj_dp_cb_wraps (dps : list TY_OBJ_DP_S) :
  (256 <= length dps)%nat -> Forall (fun d => d.(dp_type) = PROP_STR) dps ->
  forall fuel i, 0 <= i < 256 -> dp_loop fuel dps i = Ret None.
Proof.
  intros Hlen Hall. induction fuel as [|fuel IH]; intros i Hi; cbn [dp_loop];
    rewrite (proj2 (Z.ltb_lt _ _)) by lia; cbn [negb]; [done|].
  destruct (lookup_lt_is_Some_2 dps (Z.to_nat i)) as [d Hd]; [lia|]. rewrite Hd.
  rewrite Forall_lookup in Hall. rewrite (Hall _ _ Hd). apply IH, u8_range.
Qed.

(** The data points a run changes the properties of. *)
Definition touched (e : event IotE) : option Props.t :=
  match e with @Ev _ _ (Prop_set p _ _) _ => Some p | _ => None end.

(** The two directions agree.  Handling a data point changes at most one
    property, and that property is the one reported under the same data point;
    the pot switch, which sets its manual override, and the flag of the first
    language choice are the exceptions. *)
Theorem dp_handler_consistent (d : Dp.t) (v : Z) :
  always (dp_handler (Some d) v) (fun l _ =>
    omap touched l = [] \/ exists p, omap touched l = [p] /\
      (dp <$> find_dp p = Some d \/ (d, p) = (Dp.has_pot, Props.manual_has_pot) \/ (d, p) = (Dp.language, Props.language_changed))).
Proof.
  apply wp_always.
  destruct d; cbn; try (intros _; right; eexists; split; [reflexivity|]; (left; reflexivity) || (right; left; reflexivity));
    try (left; reflexivity).
  - unfold process_sys_cmd. destruct (sys_cmd_action v); cbn; by left.
  - destruct (v =? 0); cbn.
    + intros _. by left.
    + intros [|]; cbn; [intros _ _; right; eexists; split; [reflexivity|left; reflexivity]|intros _; by left].
  - intros x. destruct (x =? 0); cbn; intros _.
    + intros _. right. eexists. split; [reflexivity|]. right. right. reflexivity.
    + by left.
Qed.

(** ** Reports *)

Definition reported (e : event IotE) : option (list TY_OBJ_DP_S) :=
  match e with
  | @Ev _ _ (dev_report_dp_json_async ds) _ | @Ev _ _ (dev_report_dp_json_async_force ds) _ => Some ds
  | _ => None
  end.

(** The numbers of the data points that may be in a full report. *)
Definition reportable (entries : list (Props.t * dp_type_t)) : list Z :=
  map (fun e => dp_id (snd e).(dp)) (filter (fun e => fst e <> Props.pomodoro) entries).

Definition gathered (ids : list Z) (l : list (event IotE)) (o : outcome (list TY_OBJ_DP_S)) : Prop :=
  omap reported l = [] /\ exists ds, o = Done ds /\ sublist (map dpid ds) ids.

Lemma prop_value_spec (p : Props.t) (t : dp_type_t) :
  wp (prop_value p t) (fun l o => omap reported l = [] /\ exists d, o = Done d /\ d.(dpid) = dp_id t.(dp)).
Proof. unfold prop_value. destruct t.(type); cbn; intros x; split; eauto. Qed.

Lemma payload_gathers (entries : list (Props.t * dp_type_t)) : wp (payload entries) (gathered (reportable entries)).
Proof.
  induction entries as [|[p t] entries IH]; cbn [payload]; [cbn; split; [done|]; exists []; split; [done|constructor]|].
  unfold reportable. rewrite filter_cons. cbn [fst bind call wp]. intros ready. rewrite bool_decide_decide.
  assert (Hskip : forall ids, sublist (reportable entries) ids ->
            wp (payload entries) (fun l o => gathered ids (Ev (Prop_ready p) ready :: l) o)).
  { intros ids Hids. eapply wp_mono, IH. intros l o [Hl (ds & -> & Hds)]. split; [done|]. exists ds. split; [done|].
    by etransitivity. }
  destruct (decide (p = Props.pomodoro)) as [->|Hp].
  - rewrite decide_False by tauto. destruct ready; by apply Hskip.
  - rewrite decide_True by done. cbn [map snd]. destruct ready; cbn [negb]; [|by apply Hskip, sublist_cons].
    eapply wp_call; [apply prop_value_spec| |by intros l h [_ (d & ? & _)]].
    intros l d [Hl (d' & [= <-] & Hd)]. eapply wp_call; [exact IH| |by intros l' h [_ (ds & ? & _)]].
    intros l' ds [Hl' (ds' & [= <-] & Hds)]. cbn [wp]. split.
    + rewrite app_nil_r. change (omap reported (Ev (Prop_ready p) true :: l ++ l')) with (omap reported (l ++ l')).
      by rewrite omap_app, Hl, Hl'.
    + eexists. split; [done|]. cbn [map]. rewrite Hd. by constructor.
Qed.

(** C33: reports need a connection, and a full report is well formed.  Without
    a connection nothing is reported, by whatever function; with one,
    [report_all_prop] sends one report in which every data point occurs at most
    once and the pomodoro timer, which has a report of its own, does not occur,
    in whatever order the map is traversed. *)
Theorem reports_well_formed (o : IOT) (entries : list (Props.t * dp_type_t)) (p : Props.t) (ok no : Z) :
  entries ≡ₚ tuya_dp_map ->
  (o.(m_connected) = false ->
     always (connect_cb ok no o entries) (fun l _ => omap reported l = []) /\
     always (report_prop o p) (fun l r => omap reported l = [] /\ r = Done false)) /\
  (o.(m_connected) = true ->
     always (report_all_prop o entries) (fun l r => r = Done true /\ exists ds,
       omap reported l = [ds] /\ NoDup (map dpid ds) /\ dp_id Dp.pomodoro ∉ map dpid ds)).
Proof.
  intros Hperm. split; intros Hc.
  - split; apply wp_always; [|unfold report_prop; rewrite Hc; done].
    unfold connect_cb, report_all_prop, report_ip. rewrite Hc. cbn. unfold report_pomodoro, report_dp.
    intros v. destruct ((v =? 0) || _); cbn; rewrite ?Hc; cbn; intros x; try intros y;
      repeat (destruct (_ =? ok); cbn; intros); done.
  - apply wp_always. unfold report_all_prop. rewrite Hc.
    apply wp_call with (S := gathered (reportable entries)); [apply payload_gathers| |by intros l h [_ (ds & ? & _)]].
    intros l ds [Hl (ds' & [= <-] & Hs)]. cbn. intros ret.
    assert (Hds : NoDup (map dpid ds) /\ dp_id Dp.pomodoro ∉ map dpid ds).
    { assert (Hr : reportable entries ≡ₚ reportable tuya_dp_map) by (unfold reportable; by rewrite Hperm).
      assert (Hnd : NoDup (reportable tuya_dp_map)) by (apply (bool_decide_unpack _); vm_compute; reflexivity).
      split; [eapply sublist_NoDup, Hs; by rewrite Hr|]. intros Hin.
      assert (Hin' : dp_id Dp.pomodoro ∈ reportable tuya_dp_map) by (rewrite <- Hr; by eapply elem_of_sublist).
      revert Hin'. apply (bool_decide_unpack (~ _)). vm_compute. reflexivity. }
    destruct (ret =? OPRT_OK); cbn [bind call wp]; intros; (split; [done|]); exists ds; (split; [|exact Hds]).
    + by rewrite omap_app, Hl.
    + by rewrite omap_app, Hl.
Qed.

Lemma reports_well_formed_witness :
  always (report_all_prop (set_connection_status IOT_new true) tuya_dp_map) (fun l r => r = Done true /\ exists ds,
    omap reported l = [ds] /\ NoDup (map dpid ds) /\ dp_id Dp.pomodoro ∉ map dpid ds).
Proof. apply (reports_well_formed (set_connection_status IOT_new true) tuya_dp_map Props.color 3 0); reflexivity. Defined.

(** ** Credentials *)

(** The two stores, the server's answer, and whether ids and keys are usable. *)
Record stores := mk_stores {
  nvs : list Z * list Z;
  sd : list Z * list Z;
}.

Definition on_stores (server : option (list Z * list Z * Z)) (X : Type) (e : IotE X) : stores -> option (X * stores) :=
  match e in IotE X return stores -> option (X * stores) with
  | nvs_get_id => fun s => Some (fst s.(nvs), s)
  | nvs_get_key => fun s => Some (snd s.(nvs), s)
  | sd_get_id => fun s => Some (fst s.(sd), s)
  | sd_get_key => fun s => Some (snd s.(sd), s)
  | sd_store_credentials id key => fun s => Some (tt, mk_stores s.(nvs) (id, key))
  | nvs_store_credentials id key => fun s => Some (tt, mk_stores (id, key) s.(sd))
  | factory_register => fun s => Some (server, s)
  | Prop_set _ _ _ => fun s => Some (tt, s)
  | _ => fun _ => None
  end.

(** The credentials are kept twice and reconciled.  When either store has
    usable credentials [get_credentials] succeeds, uses those of the NVS if they
    are usable and those of the SD card otherwise, and afterwards both stores hold
    what is used; when neither has, it fails and changes nothing. *)
Theorem get_credentials_reconciles (has_credentials : list Z -> list Z -> bool) (o : IOT) (s : stores)
    (server : option (list Z * list Z * Z)) :
  let usable c := has_credentials (fst c) (snd c) in
  let used := if usable s.(nvs) then s.(nvs) else s.(sd) in
  interp (on_stores server) (get_credentials has_credentials o) s =
  if usable s.(nvs) || usable s.(sd)
  then Some ((set_uuid_authkey o (fst used) (snd used), true), mk_stores used used)
  else Some ((o, false), s).
Proof.
  destruct s as [[nu nk] [su sk]]. cbn. destruct (has_credentials nu nk), (has_credentials su sk); cbn; try done.
  destruct (bool_decide_reflect (nu = su)) as [->|]; [|done]. destruct (bool_decide_reflect (nk = sk)) as [->|]; done.
Qed.

(** [register_in_cloud] hands key and id to the store in the wrong order: the
    next start takes the server's key for the id. *)
Lemma register_swaps (has_credentials : list Z -> list Z -> bool) (o : IOT) (uuid key : list Z) (color : Z) (s : stores) :
  has_credentials (fst s.(nvs)) (snd s.(nvs)) = false -> has_credentials key uuid = true ->
  exists s' o', interp (on_stores (Some (uuid, key, color))) register_in_cloud s = Some (true, s') /\
    interp (on_stores None) (get_credentials has_credentials o) s' = Some ((o', true), mk_stores (key, uuid) (key, uuid)) /\
    o'.(m_uuid) = key /\ o'.(m_authkey) = uuid.
Proof.
  intros Hn Hk. destruct s as [[nu nk] sd0]. cbn in *. eexists _, _. split; [reflexivity|].
  cbn. rewrite Hn, Hk. cbn. done.
Qed.
End Iot.
