(* ===== verification/NetInterface.v ===== *)
(** * Wi-Fi events: [NetInterface.cpp]

    The station's events drive reconnection and the provisioning status.  A
    handler takes the state and gives the state afterwards with the calls it makes,
    in order. *)
From stdpp Require Import base list.
From Stdlib Require Import ZArith Lia.
From S2P Require Import Prelude Oprt.
Local Open Scope Z_scope.

Module NetInterface.

Definition WIFI_CONNECT_MAXNUM_RETRY : Z := 6.
Definition WIFI_AP_FIND_MAXNUM_RETRY : Z := 16.
Definition WIFI_SSID_LEN : nat := 32.
Definition WIFI_REASON_4WAY_HANDSHAKE_TIMEOUT : Z := 15.
Definition WIFI_REASON_NO_AP_FOUND : Z := 201.
Definition WIFI_REASON_HANDSHAKE_TIMEOUT : Z := 204.

Inductive prov_status_t :=
| prov_no_need | prov_init | prov_ble_connected | prov_wifi_connected | prov_activated | prov_err_start
| prov_wifi_conn_fail | prov_pwd_error | prov_ap_not_found | prov_rssi_low.

Inductive sta_status := WSS_CONN_SUCCESS | WSS_CONN_FAIL | WSS_GOT_IP.

Record AP_IF_S := mk_ap {
  channel : Z;
  rssi : Z;
  bssid : list Z;
  ssid : list Z;
  s_len : Z;
}.

(** What [WiFi.getNetworkInfo] tells of a network. *)
Record network := mk_network { n_ssid : list Z; n_rssi : Z; n_bssid : list Z; n_channel : Z }.

(** The members, and the two static counters of [net_event_handler]. *)
Record NetInterface := mk_net {
  in_provision : bool;
  m_prov_status : prov_status_t;
  ap_not_found : bool;
  m_ap_list : list AP_IF_S;
  s_wifi_connect_retry_num : Z;
  s_ap_find_retry_num : Z;
}.

Inductive tip := tip_ap_not_found | tip_fail_reset | tip_signal_weak.

(** The calls the handlers make. *)
Inductive net_call :=
| esp_wifi_connect
| ui_text_tip (t : tip)
| set_sta_status (s : sta_status)
| set_connection_status (b : bool)
| set_ip_info
| report_ip
| got_ip_cb
| calibrate_all (ms : Z)
| set_condition_timestamp
| activated_cb
| connect_cb
| register_button_tap.

Inductive system_event :=
| SCAN_DONE (networks : list network)
| STA_START
| STA_CONNECTED
| STA_DISCONNECTED (reason : Z)
| STA_GOT_IP
| STA_LOST_IP
| STA_BSS_RSSI_LOW
| OTHER_EVENT.

Definition with_status (n : NetInterface) (s : prov_status_t) : NetInterface :=
  mk_net n.(in_provision) s n.(ap_not_found) n.(m_ap_list) n.(s_wifi_connect_retry_num) n.(s_ap_find_retry_num).
Definition with_retries (n : NetInterface) (wifi ap : Z) : NetInterface :=
  mk_net n.(in_provision) n.(m_prov_status) n.(ap_not_found) n.(m_ap_list) wifi ap.
Definition with_ap_not_found (n : NetInterface) : NetInterface :=
  mk_net n.(in_provision) n.(m_prov_status) true n.(m_ap_list) n.(s_wifi_connect_retry_num) n.(s_ap_find_retry_num).
Definition with_ap_list (n : NetInterface) (l : list AP_IF_S) : NetInterface :=
  mk_net n.(in_provision) n.(m_prov_status) n.(ap_not_found) l n.(s_wifi_connect_retry_num) n.(s_ap_find_retry_num).

Definition set_prov_status := with_status.

Definition set_in_provision (n : NetInterface) (b : bool) : NetInterface :=
  let n := mk_net b n.(m_prov_status) n.(ap_not_found) n.(m_ap_list) n.(s_wifi_connect_retry_num) n.(s_ap_find_retry_num) in
  if b then set_prov_status n prov_init else n.

Definition net_is_provisioned (n : NetInterface) : bool := negb n.(in_provision).

(** [strncpy]: cut or padded with NULs to [k] bytes. *)
Definition strncpy (s : list Z) (k : nat) : list Z := take k (s ++ replicate k 0).

Definition ap_of (w : network) : AP_IF_S :=
  mk_ap w.(n_channel) w.(n_rssi) (take 6 w.(n_bssid)) (strncpy w.(n_ssid) (WIFI_SSID_LEN + 1)) (Z.of_nat (length w.(n_ssid))).

(** The branch of [SYSTEM_EVENT_STA_DISCONNECTED]. *)
Definition disconnected (n : NetInterface) (reason : Z) : NetInterface * list net_call :=
  if (reason =? WIFI_REASON_4WAY_HANDSHAKE_TIMEOUT) || (reason =? WIFI_REASON_HANDSHAKE_TIMEOUT) then
    (if n.(in_provision) then set_prov_status n prov_pwd_error else n, [])
  else if reason =? WIFI_REASON_NO_AP_FOUND then
    if n.(s_ap_find_retry_num) <? WIFI_AP_FIND_MAXNUM_RETRY then
      (with_retries n n.(s_wifi_connect_retry_num) (n.(s_ap_find_retry_num) + 1), [esp_wifi_connect])
    else if n.(s_ap_find_retry_num) =? WIFI_AP_FIND_MAXNUM_RETRY then
      let '(n, c) := if n.(in_provision) then (set_prov_status n prov_ap_not_found, []) else (n, [ui_text_tip tip_ap_not_found]) in
      (with_retries n n.(s_wifi_connect_retry_num) (n.(s_ap_find_retry_num) + 1), c ++ [esp_wifi_connect])
    else (with_ap_not_found n, [])
  else
    if n.(s_wifi_connect_retry_num) <? WIFI_CONNECT_MAXNUM_RETRY then
      (with_retries n (n.(s_wifi_connect_retry_num) + 1) n.(s_ap_find_retry_num), [esp_wifi_connect])
    else if n.(s_wifi_connect_retry_num) =? WIFI_CONNECT_MAXNUM_RETRY then
      let '(n, c) := if n.(in_provision) then (set_prov_status n prov_wifi_conn_fail, []) else (n, [ui_text_tip tip_fail_reset]) in
      (with_retries n (n.(s_wifi_connect_retry_num) + 1) n.(s_ap_find_retry_num), c ++ [esp_wifi_connect])
    else (n, []).

(** [net_event_handler]; [wake] is [check_condition(Sys::WAKE)].  The memory for the
    scan's list is taken to be there. *)
Definition net_event_handler (wake : bool) (n : NetInterface) (e : system_event) : NetInterface * list net_call :=
  match e with
  | SCAN_DONE networks => (with_ap_list n (map ap_of networks), [])
  | STA_CONNECTED => (with_retries n 0 0, [set_sta_status WSS_CONN_SUCCESS])
  | STA_DISCONNECTED reason =>
      if negb wake then (n, [])
      else
        let '(n, c) := disconnected n reason in
        (n, [set_sta_status WSS_CONN_FAIL; set_connection_status false] ++ c)
  | STA_GOT_IP =>
      (if n.(in_provision) then set_prov_status n prov_wifi_connected else n,
       [set_ip_info; set_sta_status WSS_GOT_IP; report_ip; got_ip_cb; calibrate_all 1000])
  | STA_BSS_RSSI_LOW =>
      if n.(in_provision) then (set_prov_status n prov_rssi_low, []) else (n, [ui_text_tip tip_signal_weak])
  | STA_START | STA_LOST_IP | OTHER_EVENT => (n, [])
  end.

Inductive GW_WIFI_NW_STAT_E := STAT_STA_CONN | STAT_STA_DISC | STAT_CLOUD_CONN | STAT_AP_CLOUD_CONN | STAT_OTHER.

Definition net_status_change_handler (n : NetInterface) (stat : GW_WIFI_NW_STAT_E) : NetInterface * list net_call :=
  match stat with
  | STAT_CLOUD_CONN | STAT_AP_CLOUD_CONN =>
      let n := if n.(in_provision) then set_prov_status n prov_activated else n in
      (set_in_provision n false,
       [set_condition_timestamp; activated_cb; set_connection_status true; connect_cb; register_button_tap])
  | _ => (n, [])
  end.

Definition NetInterface_new : NetInterface := mk_net false prov_no_need false [] 0 0.

(** A sequence of events, each with whether the device is awake. *)
Fixpoint handle_all (n : NetInterface) (es : list (bool * system_event)) : NetInterface * list net_call :=
  match es with
  | [] => (n, [])
  | (wake, e) :: es =>
      let '(n, c) := net_event_handler wake n e in
      let '(n, c') := handle_all n es in (n, c ++ c')
  end.

(** ** Counting *)

Definition is_connect (c : net_call) : bool := match c with esp_wifi_connect => true | _ => false end.
Definition is_tip (t : tip) (c : net_call) : bool :=
  match c, t with
  | ui_text_tip tip_ap_not_found, tip_ap_not_found | ui_text_tip tip_fail_reset, tip_fail_reset
  | ui_text_tip tip_signal_weak, tip_signal_weak => true
  | _, _ => false
  end.
Definition count {A} (f : A -> bool) (l : list A) : Z := Z.of_nat (length (List.filter f l)).

(** A disconnection while awake: no access point, a wrong password, or another. *)
Inductive cause := NoAp | Password | OtherCause.
Definition cause_of (reason : Z) : cause :=
  if (reason =? WIFI_REASON_4WAY_HANDSHAKE_TIMEOUT) || (reason =? WIFI_REASON_HANDSHAKE_TIMEOUT) then Password
  else if reason =? WIFI_REASON_NO_AP_FOUND then NoAp else OtherCause.
Definition lost (c : cause) (e : bool * system_event) : bool :=
  match e with
  | (true, STA_DISCONNECTED reason) =>
      match cause_of reason, c with NoAp, NoAp | Password, Password | OtherCause, OtherCause => true | _, _ => false end
  | _ => false
  end.
Definition signal_low (e : bool * system_event) : bool := match e with (_, STA_BSS_RSSI_LOW) => true | _ => false end.
Definition connects (e : bool * system_event) : bool := match e with (_, STA_CONNECTED) => true | _ => false end.

Lemma count_app {A} (f : A -> bool) (l l' : list A) : count f (l ++ l') = count f l + count f l'.
Proof. unfold count. rewrite List.filter_app, length_app. lia. Qed.

Lemma count_cons {A} (f : A -> bool) (x : A) (l : list A) : count f (x :: l) = Z.b2z (f x) + count f l.
Proof. unfold count. simpl. destruct (f x); simpl; lia. Qed.

(** Counters in range: one reconnection more than the maximal number of retries. *)
Definition counters_ok (n : NetInterface) : Prop :=
  0 <= n.(s_ap_find_retry_num) <= 17 /\ 0 <= n.(s_wifi_connect_retry_num) <= 7.

(** What a stretch of events without a connection does, from [n] to [n'] with the
    calls [c]: [x] disconnections without an access point, [y] others, and [z] reports
    of a weak signal. *)
Record stretch (n n' : NetInterface) (c : list net_call) (x y z : Z) : Prop := {
  st_ap : n'.(s_ap_find_retry_num) = Z.min 17 (n.(s_ap_find_retry_num) + x);
  st_wifi : n'.(s_wifi_connect_retry_num) = Z.min 7 (n.(s_wifi_connect_retry_num) + y);
  st_connects : count is_connect c = (n'.(s_ap_find_retry_num) - n.(s_ap_find_retry_num)) +
                                     (n'.(s_wifi_connect_retry_num) - n.(s_wifi_connect_retry_num));
  st_provision : n'.(in_provision) = n.(in_provision);
  st_quiet : n.(in_provision) = false ->
    n'.(m_prov_status) = n.(m_prov_status) /\
    count (is_tip tip_ap_not_found) c = Z.max 0 (n'.(s_ap_find_retry_num) - 16) - Z.max 0 (n.(s_ap_find_retry_num) - 16) /\
    count (is_tip tip_fail_reset) c = Z.max 0 (n'.(s_wifi_connect_retry_num) - 6) - Z.max 0 (n.(s_wifi_connect_retry_num) - 6) /\
    count (is_tip tip_signal_weak) c = z;
}.

Ltac stretch := constructor; simpl in *; intros; try done; split_and?; try done; unfold count; simpl; lia.

Lemma stretch_disconnected n reason :
  counters_ok n ->
  stretch n (fst (disconnected n reason)) (snd (disconnected n reason))
    (Z.b2z (lost NoAp (true, STA_DISCONNECTED reason))) (Z.b2z (lost OtherCause (true, STA_DISCONNECTED reason))) 0.
Proof.
  intros [Ha Hw]. unfold disconnected, lost, cause_of, WIFI_AP_FIND_MAXNUM_RETRY, WIFI_CONNECT_MAXNUM_RETRY.
  destruct (_ || _); [destruct n as [[] ? ? ? ? ?]; stretch|].
  destruct (reason =? _).
  - destruct (Z.ltb_spec n.(s_ap_find_retry_num) 16); [|destruct (Z.eqb_spec n.(s_ap_find_retry_num) 16)];
      destruct n as [[] ? ? ? ? ?]; stretch.
  - destruct (Z.ltb_spec n.(s_wifi_connect_retry_num) 6); [|destruct (Z.eqb_spec n.(s_wifi_connect_retry_num) 6)];
      destruct n as [[] ? ? ? ? ?]; stretch.
Qed.

Lemma stretch_event wake n e :
  counters_ok n -> connects (wake, e) = false ->
  stretch n (fst (net_event_handler wake n e)) (snd (net_event_handler wake n e))
    (Z.b2z (lost NoAp (wake, e))) (Z.b2z (lost OtherCause (wake, e))) (Z.b2z (signal_low (wake, e))).
Proof.
  intros Hn He. pose proof Hn as [Ha Hw]. destruct e as [nets| | |reason| | | |]; try done;
    try (destruct n as [[] ? ? ? ? ?], wake; stretch).
  destruct wake; [|destruct n; stretch].
  pose proof (stretch_disconnected n reason Hn) as [S1 S2 S3 S4 S5]. cbn [net_event_handler negb].
  destruct (disconnected n reason) as [n' c]. cbn [fst snd] in *. constructor; auto.
Qed.

Lemma stretch_app n1 n2 n3 c c' x y z x' y' z' :
  counters_ok n1 -> 0 <= x -> 0 <= y -> 0 <= x' -> 0 <= y' ->
  stretch n1 n2 c x y z -> stretch n2 n3 c' x' y' z' -> stretch n1 n3 (c ++ c') (x + x') (y + y') (z + z').
Proof.
  intros [Ha Hw] Hx Hy Hx' Hy' [A1 W1 C1 P1 Q1] [A2 W2 C2 P2 Q2]. constructor; rewrite ?count_app; try lia; [congruence|].
  intros Hp. destruct (Q1 Hp) as (S1 & T1 & U1 & V1). rewrite <- P1 in Hp. destruct (Q2 Hp) as (S2 & T2 & U2 & V2).
  split_and!; [congruence|lia..].
Qed.

Lemma count_nonneg {A} (f : A -> bool) (l : list A) : 0 <= count f l.
Proof. unfold count. lia. Qed.

Lemma stretch_all es : forall n,
  counters_ok n -> forallb (fun e => negb (connects e)) es = true ->
  stretch n (fst (handle_all n es)) (snd (handle_all n es)) (count (lost NoAp) es) (count (lost OtherCause) es) (count signal_low es).
Proof.
  induction es as [|[wake e] es IH]; intros n Hn He.
  - destruct Hn. stretch.
  - cbn [forallb] in He. apply andb_prop in He as [He Hes]. apply negb_true_iff in He.
    pose proof (stretch_event wake n e Hn He) as S1. cbn [handle_all].
    destruct (net_event_handler wake n e) as [n1 c1]. cbn [fst snd] in S1.
    assert (Hn1 : counters_ok n1).
    { destruct Hn, S1 as [A1 W1 _ _ _]. destruct (lost NoAp (wake, e)), (lost OtherCause (wake, e)); simpl in *; split; lia. }
    pose proof (IH n1 Hn1 Hes) as S2. destruct (handle_all n1 es) as [n2 c2]. cbn [fst snd] in *. rewrite !count_cons.
    assert (Hb : forall b, 0 <= Z.b2z b) by (intros []; simpl; lia).
    eapply stretch_app; eauto using count_nonneg.
Qed.

(** C34: reconnection is bounded.  From one connection to the next, whatever
    events come, the station is told to reconnect once for each disconnection that
    happens while awake and is not due to a wrong password, but at most 17 times when
    no access point is found and at most 7 times for other reasons.  A wrong password
    (reasons 15 and 204) causes no attempt.  Outside of provisioning the user is shown
    the missing access point exactly once, with the 17th attempt, the failure for
    other reasons exactly once, with the 7th, a weak signal each time it is reported,
    and nothing for a wrong password; the provisioning status does not change. *)
Theorem reconnects_bounded (n : NetInterface) (es : list (bool * system_event)) (wake : bool) :
  forallb (fun e => negb (connects e)) es = true ->
  let '(n1, _) := net_event_handler wake n STA_CONNECTED in
  let '(n2, calls) := handle_all n1 es in
  count is_connect calls = Z.min 17 (count (lost NoAp) es) + Z.min 7 (count (lost OtherCause) es) /\
  (n.(in_provision) = false ->
     count (is_tip tip_ap_not_found) calls = (if 17 <=? count (lost NoAp) es then 1 else 0) /\
     count (is_tip tip_fail_reset) calls = (if 7 <=? count (lost OtherCause) es then 1 else 0) /\
     count (is_tip tip_signal_weak) calls = count signal_low es /\
     n2.(m_prov_status) = n.(m_prov_status)).
Proof.
  intros He. cbn [net_event_handler]. set (n1 := with_retries n 0 0).
  assert (Hn1 : counters_ok n1) by (split; simpl; lia).
  pose proof (stretch_all es n1 Hn1 He) as [A W C P Q]. destruct (handle_all n1 es) as [n2 c]. cbn [fst snd] in *.
  pose proof (count_nonneg (lost NoAp) es). pose proof (count_nonneg (lost OtherCause) es). simpl in A, W, C, Q.
  split; [lia|]. intros Hp. destruct (Q Hp) as (S & T & U & V). split_and!; [| |exact V|exact S].
  - destruct (Z.leb_spec 17 (count (lost NoAp) es)); lia.
  - destruct (Z.leb_spec 7 (count (lost OtherCause) es)); lia.
Qed.

(** Twenty losses of the access point, a wrong password between them. *)
Definition long_outage : list (bool * system_event) := repeat (true, STA_DISCONNECTED 201) 15 ++ (true, STA_DISCONNECTED 15) :: repeat (true, STA_DISCONNECTED 201) 5.

Lemma reconnects_bounded_witness :
  let '(n1, _) := net_event_handler true NetInterface_new STA_CONNECTED in
  let '(n2, calls) := handle_all n1 long_outage in
  count is_connect calls = Z.min 17 (count (lost NoAp) long_outage) + Z.min 7 (count (lost OtherCause) long_outage) /\
  (NetInterface_new.(in_provision) = false ->
     count (is_tip tip_ap_not_found) calls = (if 17 <=? count (lost NoAp) long_outage then 1 else 0) /\
     count (is_tip tip_fail_reset) calls = (if 7 <=? count (lost OtherCause) long_outage then 1 else 0) /\
     count (is_tip tip_signal_weak) calls = count signal_low long_outage /\
     n2.(m_prov_status) = NetInterface_new.(m_prov_status)).
Proof. exact (reconnects_bounded NetInterface_new long_outage true eq_refl). Defined.
End NetInterface.
