(* ===== verification/Update.v ===== *)
(** * A firmware update from the cloud client to the next boot

    [tkl_ota.c] running on [esp_ota_ops.c], on the flash, up to what the
    bootloader loads afterwards, also when power is lost on the way. *)
From stdpp Require Import base list.
From Stdlib Require Import ZArith Lia.
From S2P Require Import Prelude Oprt Flash Md5 Crc Partition EspOta Bootloader Image ImageCheck Ota.
Import Flash Partition EspOta Bootloader.
Local Open Scope Z_scope.

Module Update.

Section System.
Variable d : board.
(** What the bootloader sees behind the chip, and which mappings its ROM accepts. *)
Variable behind : Z -> Z.
Variable mapped : Z -> Z -> bool.
(** The check of an image in the application, and its loading in the bootloader. *)
Variable app_ok : list Z -> Z -> Z -> bool.
Variable load : list Z -> Z -> Z -> verdict.

(** ** The adapter's calls answered by [esp_ota_ops]

    The adapter keeps a partition as an address: here the index in the table. *)
Definition ptr (p : esp_partition_t) : option Z := (fun '(i, _) => Z.of_nat i) <$> list_find (eq p) d.(parts).

Definition deref (a : option Z) : option esp_partition_t := z ← a; d.(parts) !! Z.to_nat z.

Definition esp_ota (X : Type) (e : Ota.OtaE X) (o : ops) : prog FlashE (X * ops) :=
  match e in Ota.OtaE Y return prog FlashE (Y * ops) with
  | Ota.esp_ota_get_next_update_partition =>
      do p <- esp_ota_get_next_update_partition d None; Ret (q ← p; ptr q, o)
  | Ota.esp_ota_begin p size =>
      do '(err, out, o) <- esp_ota_begin d (deref p) size o; Ret ((err, out), o)
  | Ota.esp_ota_write h data len => esp_ota_write h (Some (take (Z.to_nat len) data)) o
  | Ota.esp_ota_end h => esp_ota_end h o
  | Ota.esp_ota_set_boot_partition p =>
      do r <- esp_ota_set_boot_partition d (deref p); Ret (r, o)
  | Ota.esp_restart => Halt Restarted
  end.

(** A client's calls of the adapter. *)
Definition client (h : Ota.TKL_OTA_HANDLE_S) (os : list Ota.op) (o : ops)
  : prog FlashE (Ota.TKL_OTA_HANDLE_S * list Z * ops) :=
  translate esp_ota (Ota.run_ops h os) o.

(** ** The layout of the device *)

Definition otadata_of (c : list Z) (od : esp_partition_t) : otadata_t :=
  (entry_of_bytes (slice c (Z.to_nat od.(address)) 32),
   entry_of_bytes (slice c (Z.to_nat (od.(address) + SPI_FLASH_SEC_SIZE)) 32)).

Definition pos_of (p : esp_partition_t) : esp_partition_pos_t := mk_pos p.(address) p.(size).

(** Two slots and the selection entries, no factory application; the device runs
    from slot [run]. *)
Record layout (od p0 p1 run other : esp_partition_t) (c : list Z) : Prop := {
  lay_od : find_first d ESP_PARTITION_TYPE_DATA ESP_PARTITION_SUBTYPE_DATA_OTA = Some od;
  lay_p0 : find_first d ESP_PARTITION_TYPE_APP 0x10 = Some p0;
  lay_p1 : find_first d ESP_PARTITION_TYPE_APP 0x11 = Some p1;
  lay_factory : find_first d ESP_PARTITION_TYPE_APP ESP_PARTITION_SUBTYPE_APP_FACTORY = None;
  lay_bs : bootloader_utility_load_partition_table d.(parts) =
    mk_bs (pos_of od) zero_pos zero_pos ([pos_of p0; pos_of p1] ++ repeat zero_pos 14) 2;
  lay_running : esp_ota_get_running_partition d = Some run;
  lay_slots : (run = p0 /\ other = p1) \/ (run = p1 /\ other = p0);
  lay_distinct : p0 <> p1;
  lay_only : forall q, q ∈ d.(parts) -> is_ota_partition q = true -> q = p0 \/ q = p1;
  lay_place_od : placed run.(address) run.(size) d.(chunk) od c;
  lay_place : placed run.(address) run.(size) d.(chunk) other c;
  lay_od_size : 2 * SPI_FLASH_SEC_SIZE <= od.(size) <= Image.MMU_SIZE;
  lay_run_size : 0 < run.(size);
  lay_size : 0 < other.(size) <= 2 ^ 30;
  lay_sector : other.(size) mod SPI_FLASH_SEC_SIZE = 0;
  lay_apart : disjoint_parts od other;
  lay_run : 0 < run.(address) /\ run.(address) mod SPI_FLASH_SEC_SIZE = 0 /\ run.(address) + run.(size) <= Z.of_nat (length c);
  lay_chip : Z.of_nat (length c) < 2 ^ 31;
}.

Section Layout.
Variables od p0 p1 run other : esp_partition_t.
Variable c0 : list Z.
Hypothesis lay : layout od p0 p1 run other c0.

(** What every interruption leaves: the running application untouched, and
    selection entries in [P]. *)
Record good (P : otadata_t -> Prop) (c : list Z) : Prop := {
  good_length : length c = length c0;
  good_run : forall i, run.(address) <= Z.of_nat i < run.(address) + run.(size) -> c !! i = c0 !! i;
  good_entries : P (otadata_of c od);
}.

Lemma good_mono (P Q : otadata_t -> Prop) c : (forall two, P two -> Q two) -> good P c -> good Q c.
Proof. intros H [? ? ?]. constructor; auto. Qed.

Lemma od_bounds :
  0 < od.(address) /\ 2 * SPI_FLASH_SEC_SIZE <= od.(size) /\ od.(address) + od.(size) <= Z.of_nat (length c0) /\
  Z.of_nat (length c0) < 2 ^ 32.
Proof.
  pose proof (pl_table _ _ _ _ _ (lay_place_od _ _ _ _ _ _ lay)) as Ht.
  pose proof (pl_chip _ _ _ _ _ (lay_place_od _ _ _ _ _ _ lay)). pose proof (lay_od_size _ _ _ _ _ _ lay).
  unfold CONFIG_PARTITION_TABLE_OFFSET, ESP_PARTITION_TABLE_MAX_LEN in Ht. lia.
Qed.

(** What the table says about the slots. *)
Lemma found_slot t p :
  t < ESP_PARTITION_SUBTYPE_ANY -> find_first d ESP_PARTITION_TYPE_APP t = Some p ->
  p ∈ d.(parts) /\ p.(type) = ESP_PARTITION_TYPE_APP /\ p.(subtype) = t.
Proof.
  intros Ht Hf. apply find_some in Hf as [Hin Hm]. split; [by apply list_elem_of_In|].
  unfold matches in Hm. rewrite andb_true_r in Hm. apply andb_true_iff in Hm as [H1 H2].
  destruct (Z.eqb_spec ESP_PARTITION_TYPE_APP p.(type)); [|done].
  unfold ESP_PARTITION_SUBTYPE_ANY in *. destruct (Z.eqb_spec t 0xff); [lia|].
  destruct (Z.eqb_spec t p.(subtype)); done.
Qed.

Lemma p0_facts : p0 ∈ d.(parts) /\ p0.(type) = ESP_PARTITION_TYPE_APP /\ p0.(subtype) = 0x10.
Proof. eapply found_slot; [done|apply lay]. Qed.

Lemma p1_facts : p1 ∈ d.(parts) /\ p1.(type) = ESP_PARTITION_TYPE_APP /\ p1.(subtype) = 0x11.
Proof. eapply found_slot; [done|apply lay]. Qed.

Lemma no_slot t : 0x12 <= t < 0x20 -> find_first d ESP_PARTITION_TYPE_APP t = None.
Proof.
  intros Ht. destruct (find_first d _ t) as [q|] eqn:Hf; [|done].
  destruct (found_slot t q) as (Hin & Hty & Hs); [unfold ESP_PARTITION_SUBTYPE_ANY; lia|done|].
  destruct p0_facts as (_ & _ & H0), p1_facts as (_ & _ & H1).
  assert (Hi : is_ota_partition q = true).
  { unfold is_ota_partition. rewrite Hty, Hs. unfold ESP_PARTITION_SUBTYPE_APP_OTA_MIN, ESP_PARTITION_SUBTYPE_APP_OTA_MAX.
    rewrite (proj2 (Z.leb_le 16 t)), (proj2 (Z.ltb_lt t 32)) by lia. done. }
  destruct (lay_only _ _ _ _ _ _ lay q Hin Hi); subst; lia.
Qed.

Lemma other_facts : other ∈ d.(parts) /\ is_ota_partition other = true /\ other <> run.
Proof.
  destruct p0_facts as (I0 & T0 & S0), p1_facts as (I1 & T1 & S1). pose proof (lay_distinct _ _ _ _ _ _ lay).
  unfold is_ota_partition. destruct (lay_slots _ _ _ _ _ _ lay) as [[-> ->]|[-> ->]].
  - rewrite T1, S1. done.
  - rewrite T0, S0. done.
Qed.

(** Changes inside [other] keep what has to be kept. *)
Lemma good_other P c c' : good P c -> same_outside other c c' -> good P c'.
Proof.
  intros [Hl Hr Ps] [Hl' Ho].
  pose proof (pl_apart _ _ _ _ _ (lay_place _ _ _ _ _ _ lay)) as Ha.
  pose proof (lay_apart _ _ _ _ _ _ lay) as Hd. unfold disjoint_parts in Hd.
  destruct od_bounds as (Hod & Hsz & _). unfold SPI_FLASH_SEC_SIZE in Hsz.
  constructor; [congruence| |].
  - intros i Hi. rewrite Ho by lia. auto.
  - replace (otadata_of c' od) with (otadata_of c od); [done|]. unfold otadata_of, SPI_FLASH_SEC_SIZE.
    symmetry; do 2 f_equal; apply slice_ext; intros i Hi; apply Ho; lia.
Qed.

(** ** Calls on the slot that is not running *)

Abbreviation flash := (on_flash d app_ok).
Abbreviation torn := (torn_flash d app_ok).
Abbreviation keeps P := (fun m : machine => good P m.1).

Lemma other_placed P c : good P c -> placed run.(address) run.(size) d.(chunk) other c.
Proof. intros G. eapply placed_length; [apply lay|]. apply (good_length _ _ G). Qed.

Lemma safe_erase_other {A} P Q off n (k : Z -> prog FlashE A) (m : machine) :
  good P m.1 -> 0 <= off -> 0 <= n -> off + n < 2 ^ 32 ->
  (forall r m', good P m'.1 -> safe flash torn (keeps P) Q (k r) m') ->
  safe flash torn (keeps P) Q (Vis (part_erase other off n) k) m.
Proof.
  intros G Ho Hn Hw Hk. pose proof (other_placed P _ G) as Hp. split; [done|].
  pose proof (part_erase_confined _ _ _ other m.1 off n Hp Ho Hn Hw) as Hs.
  assert (Hf : flash _ (part_erase other off n) m =
    ('(r, c) ← esp_partition_erase_range run.(address) run.(size) m.1 other off n; Some (r, (c, m.2))))
    by (unfold on_flash; by rewrite (lay_running _ _ _ _ _ _ lay)).
  destruct (esp_partition_erase_range _ _ _ _ _ _) as [[r c']|] eqn:E; cbn [mbind option_bind] in Hf.
  - split.
    + intros s' (j & Hok & Hj & _ & ->). rewrite Hf in Hok. injection Hok as ->.
      pose proof (part_erase_ok _ _ _ _ _ _ _ Hw Ho Hn E). eapply good_other; [done|].
      eapply erase_outside; [exact Hp|lia..].
    + rewrite Hf. apply Hk. by eapply good_other.
  - rewrite Hf. split; [|done]. intros s' (j & Hok & _). by rewrite Hf in Hok.
Qed.

Lemma safe_write_other {A} P Q off bs (k : Z -> prog FlashE A) (m : machine) :
  good P m.1 -> 0 <= off -> off + Z.of_nat (length bs) < 2 ^ 32 ->
  (forall r m', good P m'.1 -> (r = ESP_OK -> off + Z.of_nat (length bs) <= other.(size)) ->
     safe flash torn (keeps P) Q (k r) m') ->
  safe flash torn (keeps P) Q (Vis (part_write other off bs) k) m.
Proof.
  intros G Ho Hw Hk. pose proof (other_placed P _ G) as Hp. split; [done|].
  pose proof (part_write_confined _ _ _ other m.1 off bs Hp Ho Hw) as Hs.
  assert (Hf : flash _ (part_write other off bs) m =
    ('(r, c) ← esp_partition_write run.(address) run.(size) d.(chunk) m.1 other off bs; Some (r, (c, m.2))))
    by (unfold on_flash; by rewrite (lay_running _ _ _ _ _ _ lay)).
  destruct (esp_partition_write _ _ _ _ _ _ _) as [[r c']|] eqn:E; cbn [mbind option_bind] in Hf.
  - split.
    + intros s' (j & Hok & ->). rewrite Hf in Hok. injection Hok as ->.
      pose proof (part_write_ok _ _ _ _ _ _ _ _ Hw Ho E). eapply good_other; [done|].
      eapply program_outside; [exact Hp|lia|]. rewrite length_take. lia.
    + rewrite Hf. apply Hk; [by eapply good_other|]. intros ->. by eapply part_write_ok.
  - rewrite Hf. split; [|done]. intros s' (j & Hok & _). by rewrite Hf in Hok.
Qed.

(** Calls that only look. *)
Lemma safe_verify {A} P Q p (k : bool -> prog FlashE A) (m : machine) :
  good P m.1 -> (forall b, safe flash torn (keeps P) Q (k b) m) ->
  safe flash torn (keeps P) Q (Vis (image_verify p) k) m.
Proof.
  intros G Hk. split; [done|]. split; [by intros s' ->|].
  assert (Hf : flash _ (image_verify p) m = Some (app_ok m.1 p.(address) p.(size), m))
    by (unfold on_flash; by rewrite (lay_running _ _ _ _ _ _ lay)).
  rewrite Hf. apply Hk.
Qed.

Lemma safe_calloc {A} P Q (k : bool -> prog FlashE A) (m : machine) :
  good P m.1 -> (forall b m', good P m'.1 -> safe flash torn (keeps P) Q (k b) m') ->
  safe flash torn (keeps P) Q (Vis calloc_entry k) m.
Proof.
  intros G Hk. split; [done|]. split; [by intros s' ->|].
  assert (Hf : exists b, flash _ calloc_entry m = Some (b, (m.1, tail m.2)))
    by (unfold on_flash; rewrite (lay_running _ _ _ _ _ _ lay); eauto).
  destruct Hf as [b ->]. by apply Hk.
Qed.

(** ** Open handles *)

(** Every handle writes to [other], and has written no more than fits. *)
Definition ops_ok (o : ops) : Prop :=
  Forall (fun it => it.(part) = other /\ 0 <= it.(wrote_size) <= other.(size)) o.(ops_entries).

Lemma ops_found h o it :
  ops_ok o -> get_ota_ops_entry h o = Some it -> it.(part) = other /\ 0 <= it.(wrote_size) <= other.(size).
Proof.
  intros Ho Hf. apply find_some in Hf as [Hin _]. unfold ops_ok in Ho. rewrite Forall_forall in Ho.
  apply Ho. by apply list_elem_of_In.
Qed.

Lemma ops_set h w o :
  ops_ok o -> 0 <= w <= other.(size) -> ops_ok (mk_state (set_wrote_size h w o.(ops_entries)) o.(last_handle)).
Proof.
  unfold ops_ok. simpl. intros Ho Hw. induction Ho as [|it l [Hp Hi] Hl IH]; [constructor|]. simpl.
  destruct (_ =? h); constructor; auto.
Qed.

Lemma ops_remove h o : ops_ok o -> ops_ok (mk_state (remove_entry h o.(ops_entries)) o.(last_handle)).
Proof.
  unfold ops_ok. simpl. intros Ho. induction Ho as [|it l Hit Hl IH]; [constructor|]. simpl.
  destruct (_ =? h); [done|]. by constructor.
Qed.

(** What can be opened is the other slot. *)
Lemma openable p q : esp_partition_verify d p = Some q -> is_ota_partition q = true -> q <> run -> q = other.
Proof.
  intros Hv Hi Hne. assert (Hin : q ∈ d.(parts)).
  { unfold esp_partition_verify in Hv. destruct (_ && _); [done|]. apply find_some in Hv as [Hin _].
    by apply list_elem_of_In. }
  destruct (lay_only _ _ _ _ _ _ lay q Hin Hi) as [-> | ->];
    destruct (lay_slots _ _ _ _ _ _ lay) as [[-> ->]|[-> ->]]; done.
Qed.

(** The image size rounded up to sectors. *)
Lemma aligned_size x :
  Z.land (u32 x) (u32 (Z.lnot (SPI_FLASH_SEC_SIZE - 1))) = u32 x / SPI_FLASH_SEC_SIZE * SPI_FLASH_SEC_SIZE.
Proof.
  change (u32 (Z.lnot (SPI_FLASH_SEC_SIZE - 1))) with (Z.shiftl (Z.ones 20) 12). rewrite land_mask by lia.
  unfold SPI_FLASH_SEC_SIZE. change (2 ^ 12) with 4096. pose proof (u32_range x).
  rewrite Z.mod_small; [done|]. split; [apply Z.div_pos; lia|apply Z.div_lt_upper_bound; lia].
Qed.

Lemma aligned_range x : 0 <= u32 x / SPI_FLASH_SEC_SIZE * SPI_FLASH_SEC_SIZE < 2 ^ 32.
Proof.
  pose proof (u32_range x). unfold SPI_FLASH_SEC_SIZE. pose proof (Z.div_mod (u32 x) 4096 ltac:(lia)).
  pose proof (Z.mod_pos_bound (u32 x) 4096 ltac:(lia)). lia.
Qed.

(** The answers of [esp_ota_ops], and the handles afterwards. *)
Lemma begin_safe P p n o m :
  good P m.1 -> ops_ok o -> 0 <= n < 2 ^ 32 ->
  safe flash torn (keeps P) (fun '(_, _, o') m' => good P m'.1 /\ ops_ok o') (esp_ota_begin d p n o) m.
Proof.
  intros G Ho Hn. unfold esp_ota_begin. destruct p as [p|]; [|done].
  destruct (esp_partition_verify d p) as [q|] eqn:Hv; [|done].
  destruct (is_ota_partition q) eqn:Hi; [|done]. cbn [negb]. rewrite (lay_running _ _ _ _ _ _ lay).
  case_bool_decide as Hq; [done|]. pose proof (openable _ _ Hv Hi Hq) as ->.
  pose proof (lay_size _ _ _ _ _ _ lay) as Hsz. apply safe_bind.
  assert (Hrest : forall r m', good P m'.1 ->
    safe flash torn (keeps P) (fun '(_, _, o') m' => good P m'.1 /\ ops_ok o')
      (if esp_failed r then Ret (r, 0, o)
       else do new_entry <- call calloc_entry;
            if negb new_entry then Ret (ESP_ERR_NO_MEM, 0, o)
            else let h := u32 (o.(last_handle) + 1) in
                 Ret (ESP_OK, h, mk_state (mk_ops h other (n =? OTA_WITH_SEQUENTIAL_WRITES) 0 :: o.(ops_entries)) h)) m').
  { intros r m' G'. destruct (esp_failed r); [done|]. cbn [bind call]. apply safe_calloc; [done|].
    intros b m'' G''. destruct b; [|done]. cbn [negb]. split; [done|]. split; [done|].
    constructor; [split; simpl; [done|lia]|done]. }
  destruct (n =? OTA_WITH_SEQUENTIAL_WRITES); [split; [done|by apply Hrest]|].
  destruct (_ || _); cbn [call]; apply safe_erase_other; try done; try lia.
  - intros r m' G'. split; [done|by apply Hrest].
  - rewrite aligned_size. pose proof (aligned_range (n + SPI_FLASH_SEC_SIZE - 1)). lia.
  - rewrite aligned_size. pose proof (aligned_range (n + SPI_FLASH_SEC_SIZE - 1)). lia.
  - intros r m' G'. split; [done|by apply Hrest].
Qed.

Lemma erase_ahead_safe {A} P Q it n (k : Z -> prog FlashE A) m :
  good P m.1 -> it.(part) = other -> 0 <= it.(wrote_size) <= other.(size) -> 0 <= n < 2 ^ 30 ->
  (forall r m', good P m'.1 -> safe flash torn (keeps P) Q (k r) m') ->
  safe flash torn (keeps P) Q (bind (erase_ahead it n) k) m.
Proof.
  intros G Hp Hw Hn Hk. unfold erase_ahead. rewrite Hp. set (w := it.(wrote_size)) in *.
  pose proof (lay_size _ _ _ _ _ _ lay) as Hsz. unfold SPI_FLASH_SEC_SIZE. rewrite (u32_small (w + n)) by lia.
  pose proof (Z.div_mod w 4096 ltac:(lia)). pose proof (Z.mod_pos_bound w 4096 ltac:(lia)).
  pose proof (Z.div_mod (w + n) 4096 ltac:(lia)). pose proof (Z.mod_pos_bound (w + n) 4096 ltac:(lia)).
  assert (Hle : w / 4096 <= (w + n) / 4096) by (apply Z.div_le_mono; lia).
  destruct (_ =? 0); [|destruct (negb _)]; cbn [bind call]; [apply safe_erase_other..|]; try done; try lia.
  all: rewrite ?(u32_small (w / 4096 + 1)), ?(u32_small ((w + n) / 4096 - w / 4096)) by lia.
  all: rewrite ?(u32_small ((w + n) / 4096 - w / 4096 + 1)) by lia.
  all: rewrite ?u32_small by lia; lia || by apply Hk.
Qed.

Lemma write_safe P h bs o m :
  good P m.1 -> ops_ok o -> Z.of_nat (length bs) < 2 ^ 30 ->
  safe flash torn (keeps P) (fun '(_, o') m' => good P m'.1 /\ ops_ok o') (esp_ota_write h (Some bs) o) m.
Proof.
  intros G Ho Hn. unfold esp_ota_write. destruct (get_ota_ops_entry h o) as [it|] eqn:Hf; [|done].
  destruct (ops_found _ _ _ Ho Hf) as [Hp Hw]. pose proof (lay_size _ _ _ _ _ _ lay) as Hsz.
  set (rest := fun ret : Z => _).
  assert (Hrest : forall r m', good P m'.1 ->
    safe flash torn (keeps P) (fun '(_, o') m' => good P m'.1 /\ ops_ok o') (rest r) m').
  { intros r m' G'. unfold rest. destruct (esp_failed r); [done|]. destruct (_ && negb _); [done|].
    rewrite Hp. cbn [bind call]. apply safe_write_other; [done|lia|lia|].
    intros r' m'' G'' Hin. split; [done|]. split; [done|].
    destruct (Z.eqb_spec r' ESP_OK) as [->|]; [|done]. specialize (Hin eq_refl).
    rewrite u32_small by lia. apply ops_set; [done|lia]. }
  destruct it.(need_erase); [apply erase_ahead_safe; [done|done|done|lia|done]|].
  cbn [bind]. by apply Hrest.
Qed.

Lemma end_safe P h o m :
  good P m.1 -> ops_ok o ->
  safe flash torn (keeps P) (fun '(_, o') m' => good P m'.1 /\ ops_ok o') (esp_ota_end h o) m.
Proof.
  intros G Ho. unfold esp_ota_end. destruct (get_ota_ops_entry h o) as [it|]; [|done].
  pose proof (ops_remove h o Ho). destruct (_ =? 0); [done|]. cbn [bind call].
  apply safe_verify; [done|]. done.
Qed.

Lemma next_safe P Q m (k : option esp_partition_t -> prog FlashE Q) R :
  good P m.1 -> (forall p, safe flash torn (keeps P) R (k p) m) ->
  safe flash torn (keeps P) R (bind (esp_ota_get_next_update_partition d None) k) m.
Proof.
  intros G Hk. unfold esp_ota_get_next_update_partition. rewrite (lay_running _ _ _ _ _ _ lay). apply Hk.
Qed.

(** ** Switching the selection *)

Lemma take_drop_slice (c : list Z) (a n k m : nat) :
  (k + m <= n)%nat -> take m (drop k (slice c a n)) = slice c (a + k) m.
Proof.
  intros Hn. unfold slice. rewrite (take_drop_commute (take n _)), take_take, Nat.min_l by lia.
  by rewrite <- take_drop_commute, drop_drop.
Qed.

(** The mapped partition holds the two entries. *)
Lemma otadata_read c :
  let map := slice c (Z.to_nat od.(address)) (Z.to_nat od.(size)) in
  (entry_of_bytes (take 32 map), entry_of_bytes (take 32 (drop (Z.to_nat SPI_FLASH_SEC_SIZE) map))) = otadata_of c od.
Proof.
  destruct od_bounds as (Ha & Hs & _). unfold otadata_of. cbv zeta.
  assert (Hn : (Z.to_nat SPI_FLASH_SEC_SIZE + 32 <= Z.to_nat od.(size))%nat) by (unfold SPI_FLASH_SEC_SIZE in *; lia).
  rewrite take_drop_slice by done. rewrite <- Z2Nat.inj_add by (done || lia).
  rewrite <- (drop_0 (slice c (Z.to_nat od.(address)) _)), take_drop_slice, Nat.add_0_r by lia. done.
Qed.

(** The sector of entry [i], erased, with [j] bytes of [bs] written. *)
Definition rewritten (c : list Z) (i : Z) (j : nat) (bs : list Z) : list Z :=
  let a := Z.to_nat (od.(address) + i * SPI_FLASH_SEC_SIZE) in
  program (erase c a (Z.to_nat SPI_FLASH_SEC_SIZE)) a (take j bs).

Lemma od_sector i (c : list Z) :
  length c = length c0 -> i = 0 \/ i = 1 ->
  (Z.to_nat (od.(address) + i * SPI_FLASH_SEC_SIZE) + Z.to_nat SPI_FLASH_SEC_SIZE <= length c)%nat.
Proof. intros -> Hi. destruct od_bounds as (? & ? & ? & _). unfold SPI_FLASH_SEC_SIZE in *. lia. Qed.

Lemma rewritten_outside i j bs c :
  length c = length c0 -> i = 0 \/ i = 1 -> length bs = 32%nat -> same_outside od c (rewritten c i j bs).
Proof.
  intros Hl Hi Hb. assert (Hp : placed run.(address) run.(size) d.(chunk) od c)
    by (eapply placed_length; [apply lay|done]).
  destruct od_bounds as (Ha & Hs & _). pose proof (od_sector i c Hl Hi) as Hsec. unfold rewritten.
  eapply same_outside_trans.
  - eapply (erase_outside _ _ _ od c (i * SPI_FLASH_SEC_SIZE) SPI_FLASH_SEC_SIZE); [done|unfold SPI_FLASH_SEC_SIZE in *; lia..].
  - eapply program_outside; [eapply placed_length; [exact Hp|by apply erase_length]| |];
      rewrite ?length_take; unfold SPI_FLASH_SEC_SIZE in *; lia.
Qed.

Lemma rewritten_view i j bs c :
  length c = length c0 -> i = 0 \/ i = 1 -> length bs = 32%nat ->
  otadata_of (rewritten c i j bs) od = replace_otadata (otadata_of c od) i (partial j bs).
Proof.
  intros Hl Hi Hb. pose proof (od_sector i c Hl Hi) as Hsec. destruct od_bounds as (Ha & Hs & _).
  assert (Hsame : slice (rewritten c i j bs) (Z.to_nat (od.(address) + i * SPI_FLASH_SEC_SIZE)) 32 =
                  map (Z.land 0xFF) (take j bs) ++ replicate (32 - length (take j bs)) 0xFF).
  { apply slice_programmed; [done|]. rewrite length_take. unfold SPI_FLASH_SEC_SIZE. lia. }
  assert (Hother : forall a, a = od.(address) + (1 - i) * SPI_FLASH_SEC_SIZE ->
    slice (rewritten c i j bs) (Z.to_nat a) 32 = slice c (Z.to_nat a) 32).
  { intros a ->. apply slice_ext. intros k Hk. unfold rewritten. pose proof (length_take bs j).
    rewrite program_lookup, erase_lookup by (rewrite ?erase_length; unfold SPI_FLASH_SEC_SIZE in *; lia).
    unfold SPI_FLASH_SEC_SIZE in *.
    destruct (Nat.leb_spec (Z.to_nat (od.(address) + i * 4096)) k); [|done].
    destruct (Nat.ltb_spec k (Z.to_nat (od.(address) + i * 4096) + length (take j bs))); [lia|].
    destruct (Nat.ltb_spec k (Z.to_nat (od.(address) + i * 4096) + Z.to_nat 4096)); [lia|done]. }
  unfold otadata_of, replace_otadata, partial. destruct Hi as [-> | ->]; cbn [Z.eqb fst snd].
  - replace (od.(address) + 0 * SPI_FLASH_SEC_SIZE) with od.(address) in Hsame by lia.
    rewrite Hsame, Hother by lia. done.
  - replace (od.(address) + 1 * SPI_FLASH_SEC_SIZE) with (od.(address) + SPI_FLASH_SEC_SIZE) in Hsame by lia.
    rewrite Hsame, Hother by lia. done.
Qed.

Lemma flash_erase_od i m :
  length m.1 = length c0 -> i = 0 \/ i = 1 ->
  flash _ (part_erase od (i * SPI_FLASH_SEC_SIZE) SPI_FLASH_SEC_SIZE) m =
  Some (ESP_OK, (erase m.1 (Z.to_nat (od.(address) + i * SPI_FLASH_SEC_SIZE)) (Z.to_nat SPI_FLASH_SEC_SIZE), m.2)).
Proof.
  intros Hl Hi. destruct od_bounds as (Ha & Hs & _). unfold on_flash. rewrite (lay_running _ _ _ _ _ _ lay).
  erewrite part_erase_inside; [done|eapply placed_length; [apply lay|done]|..]; unfold SPI_FLASH_SEC_SIZE in *; try lia.
  - by destruct Hi as [-> | ->].
  - done.
Qed.

Lemma flash_write_od i bs c mem :
  length c = length c0 -> i = 0 \/ i = 1 -> length bs = 32%nat ->
  flash _ (part_write od (SPI_FLASH_SEC_SIZE * i) bs)
    (erase c (Z.to_nat (od.(address) + i * SPI_FLASH_SEC_SIZE)) (Z.to_nat SPI_FLASH_SEC_SIZE), mem) =
  Some (ESP_OK, (rewritten c i 32 bs, mem)).
Proof.
  intros Hl Hi Hb. destruct od_bounds as (Ha & Hs & _). unfold on_flash. rewrite (lay_running _ _ _ _ _ _ lay).
  cbn [fst snd]. erewrite part_write_inside.
  - cbn [mbind option_bind]. unfold rewritten. rewrite take_ge by lia. by rewrite (Z.mul_comm SPI_FLASH_SEC_SIZE i).
  - eapply placed_length; [apply lay|]. rewrite erase_length; [done|by apply od_sector].
  - unfold SPI_FLASH_SEC_SIZE. lia.
  - by destruct bs.
  - unfold SPI_FLASH_SEC_SIZE in *. lia.
Qed.

(** The entry written for sequence number [v]. *)
Definition next_entry (c : list Z) (i v : Z) : list Z :=
  bytes_of_entry (new_entry v (nth_otadata (otadata_of c od) i).(seq_label)).

Lemma label_length c i : length c = length c0 -> length (nth_otadata (otadata_of c od) i).(seq_label) = 20%nat.
Proof.
  intros Hl. destruct od_bounds as (Ha & Hs & Hc & _).
  unfold nth_otadata, otadata_of. destruct (i =? 0); cbn [fst snd entry_of_bytes seq_label];
    rewrite length_take, length_drop, slice_length; unfold SPI_FLASH_SEC_SIZE in *; lia.
Qed.

Lemma next_entry_length c i v : length c = length c0 -> length (next_entry c i v) = 32%nat.
Proof. intros Hl. by apply bytes_of_entry_length, label_length. Qed.

Lemma rewrite_calls c i v :
  i = 0 \/ i = 1 ->
  rewrite_ota_seq (with_state (otadata_of c od) i set_new_state_otadata) v i od =
  (do ret <- call (part_erase od (i * SPI_FLASH_SEC_SIZE) SPI_FLASH_SEC_SIZE);
   if esp_failed ret then Ret ret else call (part_write od (SPI_FLASH_SEC_SIZE * i) (next_entry c i v))).
Proof. intros [-> | ->]; reflexivity. Qed.

Lemma active_index c :
  let i := Z.land (Z.lnot (bootloader_common_get_active_otadata (otadata_of c od))) 1 in i = 0 \/ i = 1.
Proof. destruct (active_cases (otadata_of c od)) as [Ha|[[Ha _]|[Ha _]]]; cbv zeta; rewrite Ha; auto. Qed.

(** The number selected after [j] bytes: the new one as soon as its entry is
    valid. *)
Lemma rewritten_selected c s v j :
  let i := Z.land (Z.lnot (bootloader_common_get_active_otadata (otadata_of c od))) 1 in
  length c = length c0 -> selected (otadata_of c od) = Some s -> 0 <= v < UINT32_MAX -> s <= v ->
  selected (otadata_of (rewritten c i j (next_entry c i v)) od) =
  Some (if bootloader_common_ota_select_valid (partial j (next_entry c i v)) then v else s).
Proof.
  intros i Hl Hs Hv Hsv. pose proof (active_index c) as Hi. cbv zeta in Hi. fold i in Hi.
  rewrite rewritten_view by (done || by apply next_entry_length).
  apply selected_replace; [done|done|]. intros Hvalid.
  destruct (decide (4 <= j)%nat).
  - apply partial_seq; [by apply label_length|unfold UINT32_MAX in Hv; lia|done].
  - unfold next_entry in Hvalid. rewrite partial_invalid in Hvalid; [done|by apply label_length|lia].
Qed.

(** A complete entry is valid. *)
Lemma entry_valid c i v :
  length c = length c0 -> 0 <= v < UINT32_MAX ->
  bootloader_common_ota_select_valid (partial 32 (next_entry c i v)) = true.
Proof.
  intros Hl Hv. unfold next_entry. rewrite partial_whole; [|by apply label_length|unfold UINT32_MAX in *; lia].
  unfold bootloader_common_ota_select_valid, bootloader_common_ota_select_invalid, bootloader_common_ota_select_crc, new_entry.
  cbn [ota_seq ota_state EspOta.crc]. rewrite Z.eqb_refl, andb_true_r.
  destruct (Z.eqb_spec v UINT32_MAX); [lia|done].
Qed.

(** The flash after a switch to [v]. *)
Definition switched (c : list Z) (v : Z) : list Z :=
  let i := Z.land (Z.lnot (bootloader_common_get_active_otadata (otadata_of c od))) 1 in
  rewritten c i 32 (next_entry c i v).

Lemma good_rewritten P (Q : otadata_t -> Prop) c i v j :
  good P c -> i = 0 \/ i = 1 -> Q (otadata_of (rewritten c i j (next_entry c i v)) od) ->
  good Q (rewritten c i j (next_entry c i v)).
Proof.
  intros [Hl Hr _] Hi HQ.
  destruct (rewritten_outside i j (next_entry c i v) c Hl Hi (next_entry_length _ _ _ Hl)) as [Hl' Ho].
  pose proof (pl_apart _ _ _ _ _ (lay_place_od _ _ _ _ _ _ lay)) as Ha.
  constructor; [congruence| |done]. intros k Hk. rewrite Ho by lia. auto.
Qed.

(** With no valid entry, the first one is written, and is then the only valid one. *)
Lemma selected_first two e :
  selected two = None -> bootloader_common_ota_select_valid e = true -> selected (replace_otadata two 0 e) = Some e.(ota_seq).
Proof.
  unfold selected, bootloader_common_get_active_otadata, bootloader_common_select_otadata, replace_otadata.
  cbn [Z.eqb fst snd]. intros Hs ->. destruct (bootloader_common_ota_select_valid two.2); [|done].
  destruct (bootloader_common_ota_select_valid two.1); cbn [andb] in Hs; [destruct (Z.max _ _ =? _)|]; discriminate Hs.
Qed.

Lemma switched_facts c v :
  length c = length c0 -> (forall s, selected (otadata_of c od) = Some s -> s <= v) -> 0 <= v < UINT32_MAX ->
  same_outside od c (switched c v) /\ selected (otadata_of (switched c v) od) = Some v.
Proof.
  intros Hl Hs Hv. unfold switched. pose proof (active_index c) as Hi. cbv zeta in Hi. split.
  - apply rewritten_outside; [done|done|by apply next_entry_length].
  - destruct (selected (otadata_of c od)) as [s|] eqn:E.
    + rewrite (rewritten_selected c s v 32) by auto. by rewrite entry_valid.
    + assert (Ha : bootloader_common_get_active_otadata (otadata_of c od) = -1).
      { unfold selected in E. destruct (Z.eqb_spec (bootloader_common_get_active_otadata (otadata_of c od)) (-1)); done. }
      rewrite Ha. change (Z.land (Z.lnot (-1)) 1) with 0.
      rewrite rewritten_view by (auto || by apply next_entry_length).
      rewrite selected_first; [|done|by apply entry_valid]. f_equal.
      apply partial_seq; [by apply label_length|unfold UINT32_MAX in Hv; lia|lia].
Qed.

(** Writing an entry, wherever it is interrupted. *)
Lemma rewrite_safe P (Q : otadata_t -> Prop) i v m :
  good P m.1 -> good Q m.1 -> i = 0 \/ i = 1 ->
  (forall j, Q (otadata_of (rewritten m.1 i j (next_entry m.1 i v)) od)) ->
  safe flash torn (keeps Q) (fun r m' => good Q m'.1)
    (rewrite_ota_seq (with_state (otadata_of m.1 od) i set_new_state_otadata) v i od) m.
Proof.
  set (c := m.1). intros G G0 Hi HQ. pose proof (good_length _ _ G) as Hl.
  pose proof (fun j => good_rewritten P Q c i v j G Hi (HQ j)) as Hg. pose proof (next_entry_length c i v Hl) as Hlen.
  rewrite rewrite_calls by done. cbn [bind call]. split; [done|]. rewrite flash_erase_od by done. split.
  - intros m' (n & _ & Hn & Hmod & ->). assert (Hn' : n = 0 \/ n = SPI_FLASH_SEC_SIZE).
    { unfold SPI_FLASH_SEC_SIZE in *. pose proof (Z.div_mod n 4096 ltac:(lia)). lia. }
    cbn [fst]. destruct Hn' as [-> | ->]; [by rewrite erase_zero|].
    specialize (Hg 0%nat). unfold rewritten in Hg. cbn [take] in Hg. by rewrite program_nil in Hg.
  - cbn [esp_failed negb Z.eqb ESP_OK call]. change (esp_failed ESP_OK) with false. cbv iota.
    split; [|split].
    + specialize (Hg 0%nat). unfold rewritten in Hg. cbn [take] in Hg. by rewrite program_nil in Hg.
    + intros m' (n & _ & ->). specialize (Hg n). unfold rewritten in Hg. cbn [fst].
      by rewrite (Z.mul_comm SPI_FLASH_SEC_SIZE i).
    + rewrite flash_write_od by done. split; apply Hg.
Qed.

Lemma no_factory q :
  q ∈ d.(parts) -> q.(type) = ESP_PARTITION_TYPE_APP -> q.(subtype) <> ESP_PARTITION_SUBTYPE_APP_FACTORY.
Proof.
  intros Hin Ht Hs. pose proof (lay_factory _ _ _ _ _ _ lay) as Hf. unfold find_first, esp_partition_find_first in Hf.
  apply find_none with (x := q) in Hf; [|by apply list_elem_of_In].
  unfold matches in Hf. rewrite Ht, Hs in Hf. done.
Qed.

Lemma app_count : esp_ota_get_app_partition_count d = Ret 2.
Proof.
  unfold esp_ota_get_app_partition_count. cbn [count_loop].
  change (ESP_PARTITION_SUBTYPE_APP_OTA_MIN + 0) with 0x10. rewrite (lay_p0 _ _ _ _ _ _ lay).
  change (ESP_PARTITION_SUBTYPE_APP_OTA_MIN + u16 (0 + 1)) with 0x11. rewrite (lay_p1 _ _ _ _ _ _ lay).
  change (ESP_PARTITION_SUBTYPE_APP_OTA_MIN + u16 (u16 (0 + 1) + 1)) with 0x12. rewrite no_slot by lia.
  done.
Qed.

(** The sequence number a switch to slot [k] takes. *)
Lemma next_seq sub s :
  1 <= s -> s + 4 < 2 ^ 32 -> SUB_TYPE_ID sub < 2 ->
  exists i, seq_loop (Z.to_nat s) s sub 2 0 = Some i /\ s <= seq_at sub 2 i < s + 2 /\
    (seq_at sub 2 i - 1) mod 2 = SUB_TYPE_ID sub.
Proof.
  intros Hs Hb Hk. assert (H0 : 0 <= SUB_TYPE_ID sub) by (apply Z.land_nonneg; right; lia).
  destruct (seq_loop_finds sub 2 s ltac:(lia) Hs ltac:(lia) (Z.to_nat s) 0) as (i & E & Hi & Ei & Hr); [lia..|by left|].
  exists i. split_and!; [done|lia|lia|]. rewrite Ei. apply slot_of_seq. lia.
Qed.

Lemma flash_mmap_od m :
  flash _ (part_mmap od) m =
  Some (if granted m then Some (slice m.1 (Z.to_nat od.(address)) (Z.to_nat od.(size))) else None, (m.1, tail m.2)).
Proof. unfold on_flash. by rewrite (lay_running _ _ _ _ _ _ lay). Qed.

Lemma selected_active c s :
  selected (otadata_of c od) = Some s ->
  (bootloader_common_get_active_otadata (otadata_of c od) =? -1) = false /\
  (nth_otadata (otadata_of c od) (bootloader_common_get_active_otadata (otadata_of c od))).(ota_seq) = s.
Proof. unfold selected. destruct (_ =? -1); [done|]. by intros [= <-]. Qed.

Lemma read_safe {A} P Q m (k : _ -> prog FlashE A) :
  good P m.1 -> safe flash torn (keeps P) Q (k None) (m.1, tail m.2) ->
  safe flash torn (keeps P) Q (k (Some (od, otadata_of m.1 od))) (m.1, tail m.2) ->
  safe flash torn (keeps P) Q (bind (EspOta.read_otadata d) k) m.
Proof.
  intros G Hn Hs. unfold EspOta.read_otadata. rewrite (lay_od _ _ _ _ _ _ lay). cbn [bind call].
  split; [done|]. split; [by intros m' ->|]. rewrite flash_mmap_od. destruct (granted m); [|done].
  cbn [bind]. by rewrite otadata_read.
Qed.

Lemma read_interp {A} m (k : _ -> prog FlashE A) :
  interp flash (bind (EspOta.read_otadata d) k) m =
  interp flash (k (if granted m then Some (od, otadata_of m.1 od) else None)) (m.1, tail m.2).
Proof.
  unfold EspOta.read_otadata. rewrite (lay_od _ _ _ _ _ _ lay). cbn [bind call interp].
  rewrite flash_mmap_od. destruct (granted m); [|done]. cbn [bind]. by rewrite otadata_read.
Qed.

(** The entries after at most [e] of at most [n] ended sessions: unchanged at first; and
    a valid selection stays valid, its number growing by less than two each time. *)
Definition reached (n e : Z) (two : otadata_t) : Prop :=
  (e = 0 -> two = otadata_of c0 od) /\
  (forall s, selected (otadata_of c0 od) = Some s -> 1 <= s -> s + 2 * n + 4 < 2 ^ 32 ->
     exists t, selected two = Some t /\ s <= t <= s + 2 * e).

Lemma reached_more n e two : 0 <= e -> reached n e two -> reached n (e + 1) two.
Proof.
  intros He [_ H]. split; [lia|]. intros s H1 H2 H3. destruct (H s H1 H2 H3) as (t & Ht & Hr). exists t. split; [done|lia].
Qed.

Lemma rewrite_data_safe sub n e m :
  0 <= e < n -> good (reached n e) m.1 ->
  safe flash torn (keeps (reached n (e + 1))) (fun _ m' => good (reached n (e + 1)) m'.1) (esp_rewrite_ota_data d sub) m.
Proof.
  intros He G. assert (G0 : good (reached n (e + 1)) m.1) by (eapply good_mono; [|exact G]; intros two; apply reached_more; lia).
  unfold esp_rewrite_ota_data. apply read_safe; [done|by split|]. rewrite app_count. cbn [bind].
  destruct (Z.leb_spec 2 (SUB_TYPE_ID sub)) as [|Hk]; [by split|]. pose proof (active_index m.1) as Hi. cbv zeta in Hi.
  destruct (Z.eqb_spec (bootloader_common_get_active_otadata (otadata_of m.1 od)) (-1)) as [Ha|Ha]; cbn [negb].
  - apply (rewrite_safe (reached n e) _ 0 _ (m.1, tail m.2)); auto. intros j. split; [lia|]. intros s H1 H2 H3.
    destruct (proj2 (good_entries _ _ G) s H1 H2 H3) as (t & Ht & _). unfold selected in Ht. by rewrite Ha in Ht.
  - destruct (seq_loop _ _ _ _ _) as [i|] eqn:Hloop; [|by split].
    apply (rewrite_safe (reached n e) _ _ _ (m.1, tail m.2)); auto. intros j. split; [lia|]. intros s H1 H2 H3.
    destruct (proj2 (good_entries _ _ G) s H1 H2 H3) as (t & Ht & Hr). pose proof (selected_active _ _ Ht) as [_ Hseq].
    rewrite Hseq in Hloop. destruct (next_seq sub t) as (i' & Hi' & Hv & _); [lia..|]. rewrite Hi' in Hloop. injection Hloop as ->.
    eexists. cbn [fst]. split; [apply (rewritten_selected _ t); [apply G|done|unfold UINT32_MAX; lia|lia]|].
    destruct (bootloader_common_ota_select_valid _); lia.
Qed.

Lemma set_boot_safe q n e m :
  (forall p, q = Some p -> p ∈ d.(parts)) -> 0 <= e < n -> good (reached n e) m.1 ->
  safe flash torn (keeps (reached n (e + 1))) (fun _ m' => good (reached n (e + 1)) m'.1)
    (EspOta.esp_ota_set_boot_partition d q) m.
Proof.
  intros Hq He G. assert (G0 : good (reached n (e + 1)) m.1) by (eapply good_mono; [|exact G]; intros two; apply reached_more; lia).
  unfold EspOta.esp_ota_set_boot_partition, image_validate. destruct q as [q|]; [|done]. cbn [bind call].
  apply safe_verify; [done|]. intros b. destruct (esp_failed _); [done|].
  destruct (Z.eqb_spec q.(type) ESP_PARTITION_TYPE_APP) as [Ht|]; [|done].
  destruct (Z.eqb_spec q.(subtype) ESP_PARTITION_SUBTYPE_APP_FACTORY) as [Hf|].
  - exfalso. eapply no_factory; eauto.
  - by apply rewrite_data_safe.
Qed.

(** ** A client's calls *)

(** A packet is less than a gigabyte, an image size a 32-bit number. *)
Definition op_fits (o : Ota.op) : Prop :=
  match o with
  | Ota.Start size _ _ => 0 <= size < 2 ^ 32
  | Ota.Data (Some pk) _ => Z.of_nat (length pk.(Ota.data)) < 2 ^ 30
  | _ => True
  end.

Lemma start_safe P h size ty path o m :
  good P m.1 -> ops_ok o -> 0 <= size < 2 ^ 32 ->
  safe flash torn (keeps P) (fun '(_, o') m' => good P m'.1 /\ ops_ok o')
    (translate esp_ota (Ota.tkl_ota_start_notify h size ty path) o) m.
Proof.
  intros G Ho Hs. unfold Ota.tkl_ota_start_notify. destruct (size =? 0); [done|].
  destruct (Ota.IS_TKL_OTA_UPGRADE_IN_PROCESS _); [done|]. cbn [translate bind call esp_ota].
  apply safe_bind, next_safe; [done|]. intros p. split; [done|]. cbn [translate].
  destruct (p ≫= ptr) as [z|]; [|done]. cbn [Ota.partition translate bind call esp_ota].
  apply safe_bind, safe_bind. eapply safe_mono; [| |by apply begin_safe]; [done|].
  intros [[err out] o'] m' [G' Ho']. split; [done|]. destruct (esp_failed err); done.
Qed.

Lemma data_safe P h pk rem o m :
  good P m.1 -> ops_ok o -> op_fits (Ota.Data pk rem) ->
  safe flash torn (keeps P) (fun '(_, o') m' => good P m'.1 /\ ops_ok o')
    (translate esp_ota (Ota.tkl_ota_data_process h pk rem) o) m.
Proof.
  intros G Ho Hf. unfold Ota.tkl_ota_data_process. destruct pk as [pk|]; [|done]. destruct rem as [rem|]; [|done].
  case_bool_decide; [done|]. case_bool_decide; [done|]. cbn [translate bind call esp_ota].
  apply safe_bind. eapply safe_mono; [| |apply write_safe; [done|done|]]; [done| |].
  - intros [err o'] m' [G' Ho']. destruct (esp_failed err); done.
  - rewrite length_take. simpl in Hf. lia.
Qed.

Lemma notify_end_safe h reset o n e m :
  0 <= e < n -> good (reached n e) m.1 -> ops_ok o ->
  safe flash torn (keeps (reached n (e + 1))) (fun '(_, o') m' => good (reached n (e + 1)) m'.1 /\ ops_ok o')
    (translate esp_ota (Ota.tkl_ota_end_notify h reset) o) m.
Proof.
  intros He G Ho. assert (Hm : forall c, good (reached n e) c -> good (reached n (e + 1)) c)
    by (intros c; apply good_mono; intros two; apply reached_more; lia).
  unfold Ota.tkl_ota_end_notify. case_bool_decide; [cbn [negb]|split; [|split]; auto].
  cbn [translate bind call esp_ota]. apply safe_bind.
  eapply safe_mono; [| |apply end_safe; [exact G|exact Ho]]; [by intros m'; apply Hm|].
  intros [err o'] m' [G' Ho']. destruct (esp_failed err); [by split; [|split]; auto|].
  cbn [translate bind call esp_ota]. apply safe_bind, safe_bind.
  eapply safe_mono; [| |apply set_boot_safe; [|exact He|exact G']]; [done| |].
  - intros r m'' G''. split; [done|]. destruct (esp_failed r); [done|]. destruct reset; [|done]. split; done.
  - intros q Hq. unfold deref in Hq. destruct (Ota.partition h); [|done]. by eapply list_elem_of_lookup_2.
Qed.

Definition is_end (o : Ota.op) : bool := match o with Ota.End _ => true | _ => false end.

Fixpoint ends (os : list Ota.op) : Z :=
  match os with
  | [] => 0
  | o :: os => (if is_end o then 1 else 0) + ends os
  end.

Lemma ends_nonneg os : 0 <= ends os.
Proof. induction os as [|o os IH]; simpl; [lia|destruct (is_end o); lia]. Qed.

(** One call: the entries change only at the end of a session. *)
Lemma op_safe h op o m n e :
  good (reached n e) m.1 -> ops_ok o -> op_fits op -> 0 <= e -> e + (if is_end op then 1 else 0) <= n ->
  let e' := e + (if is_end op then 1 else 0) in
  safe flash torn (keeps (reached n e')) (fun '(_, o') m' => good (reached n e') m'.1 /\ ops_ok o')
    (translate esp_ota (Ota.run_op h op) o) m.
Proof.
  intros G Ho Hf He Hn e'. destruct op as [size ty path|pk rem|reset]; simpl in e', Hn; subst e'; cbn [Ota.run_op].
  - rewrite Z.add_0_r. by apply start_safe.
  - rewrite Z.add_0_r. apply safe_translate_bind.
    eapply safe_mono; [| |by apply data_safe]; [done|].
    intros [[[h' r'] r] o'] m' [G' Ho']. by split; [|split].
  - apply notify_end_safe; [lia|done|done].
Qed.

Lemma reached_mono n e e' two : 0 <= e <= e' -> reached n e two -> reached n e' two.
Proof.
  intros He [H1 H2]. split; [intros; apply H1; lia|]. intros s Hs Ha Hb. destruct (H2 s Hs Ha Hb) as (t & Ht & Hr).
  exists t. split; [done|lia].
Qed.

Lemma client_safe os h o m n e :
  good (reached n e) m.1 -> ops_ok o -> Forall op_fits os -> 0 <= e -> e + ends os <= n ->
  safe flash torn (keeps (reached n (e + ends os))) (fun _ m' => good (reached n (e + ends os)) m'.1) (client h os o) m.
Proof.
  intros G Ho Hf. revert h o m e G Ho. induction Hf as [|op os Hop _ IH]; intros h o m e G Ho He Hn.
  { cbn [ends] in *. rewrite Z.add_0_r. by split. }
  pose proof (ends_nonneg os). cbn [ends] in *. unfold client. cbn [Ota.run_ops]. apply safe_translate_bind.
  set (e1 := e + (if is_end op then 1 else 0)). assert (He1 : 0 <= e1) by (unfold e1; destruct (is_end op); lia).
  replace (e + ((if is_end op then 1 else 0) + ends os)) with (e1 + ends os) by (unfold e1; lia).
  eapply safe_mono; [| |apply (op_safe h op o m n e G Ho Hop He); unfold e1 in *; lia].
  - intros m'. apply good_mono. intros two. apply reached_mono. fold e1. lia.
  - intros [[h' r] o'] m' [G' Ho']. apply safe_translate_bind.
    eapply safe_mono; [| |apply (IH h' o' m' e1 G' Ho' He1); unfold e1; lia]; [done|].
    intros [[h'' rs] o''] m'' G''. by split.
Qed.

(** ** The next boot *)

Definition slot (k : Z) : esp_partition_t := if k =? 0 then p0 else p1.

Definition slot_verdict (c : list Z) (k : Z) : verdict := load c (slot k).(address) (slot k).(size).

Lemma slot_size k : 0 < (slot k).(size).
Proof.
  pose proof (lay_run_size _ _ _ _ _ _ lay). pose proof (lay_size _ _ _ _ _ _ lay).
  unfold slot. destruct (lay_slots _ _ _ _ _ _ lay) as [[-> ->]|[-> ->]]; destruct (k =? 0); lia.
Qed.

Definition slots_bs : bootloader_state_t :=
  mk_bs (pos_of od) zero_pos zero_pos ([pos_of p0; pos_of p1] ++ repeat zero_pos 14) 2.

Lemma try_slot c k l :
  k = 0 \/ k = 1 ->
  try_indices load c slots_bs (k :: l) =
  match slot_verdict c k with
  | Accepted => inr (Some k)
  | Rejected => try_indices load c slots_bs l
  | Stopped => inl tt
  end.
Proof.
  intros Hk. pose proof (slot_size k) as Hs. unfold slot_verdict, slot in *. cbn [try_indices].
  assert (Hp : index_to_partition slots_bs k = pos_of (slot k)) by (by destruct Hk as [-> | ->]).
  rewrite Hp. unfold try_load_partition, slot. cbn [pos_size offset pos_of].
  destruct (Z.eqb_spec (if k =? 0 then p0 else p1).(size) 0); [lia|]. done.
Qed.

(** The ROM of the bootloader maps what is on the chip. *)
Hypothesis maps : maps_chip mapped (Z.of_nat (length c0)).

(** The slot the entries name. *)
Definition named_slot (two : otadata_t) : Z :=
  if bootloader_common_ota_select_invalid two.1 && bootloader_common_ota_select_invalid two.2 then 0
  else let a := bootloader_common_get_active_otadata two in
       if a =? -1 then 0 else u32 ((nth_otadata two a).(ota_seq) - 1) mod 2.

Lemma named_slot_range two : named_slot two = 0 \/ named_slot two = 1.
Proof.
  unfold named_slot. destruct (_ && _); [auto|]. cbv zeta. destruct (_ =? -1); [auto|].
  pose proof (Z.mod_pos_bound (u32 ((nth_otadata two (bootloader_common_get_active_otadata two)).(ota_seq) - 1)) 2 ltac:(lia)).
  lia.
Qed.

(** What the bootloader makes of the entries. *)
Lemma selected_index c :
  length c = length c0 ->
  let two := otadata_of c od in
  bootloader_utility_get_selected_boot_partition behind mapped c slots_bs =
  if bootloader_common_ota_select_invalid two.1 && bootloader_common_ota_select_invalid two.2
  then (0, initial_or_bad_crc two.1 && initial_or_bad_crc two.2)
  else let a := bootloader_common_get_active_otadata two in
       if a =? -1 then (FACTORY_INDEX, false) else (u32 ((nth_otadata two a).(ota_seq) - 1) mod 2, false).
Proof.
  intros Hl. destruct od_bounds as (Ha & Hsz & Hin & _). pose proof (lay_od_size _ _ _ _ _ _ lay) as Hm.
  unfold bootloader_utility_get_selected_boot_partition, Bootloader.read_otadata.
  cbn [slots_bs ota_info app_count pos_of offset pos_size factory zero_pos].
  destruct (Z.eqb_spec od.(address) 0); [lia|].
  destruct (Z.ltb_spec od.(size) (2 * FLASH_SECTOR_SIZE)); [unfold FLASH_SECTOR_SIZE, SPI_FLASH_SEC_SIZE in *; lia|].
  rewrite ImageCheck.boot_mmap_in by (rewrite ?Hl; apply lay || done || unfold SPI_FLASH_SEC_SIZE in *; lia).
  change (Z.to_nat FLASH_SECTOR_SIZE) with (Z.to_nat SPI_FLASH_SEC_SIZE). rewrite otadata_read.
  cbn [Z.eqb]. rewrite orb_false_r. destruct (_ && _); [done|]. cbv zeta. by destruct (_ =? -1).
Qed.

(** The two slots are tried from [k] on. *)
Definition tried (c : list Z) (initial : bool) (k : Z) : booted :=
  match slot_verdict c k with
  | Accepted => Loaded k (set_actual_ota_seq c slots_bs initial k)
  | Rejected =>
      match slot_verdict c (1 - k) with
      | Accepted => Loaded (1 - k) (set_actual_ota_seq c slots_bs initial (1 - k))
      | Rejected => Reset
      | Stopped => Hung
      end
  | Stopped => Hung
  end.

Lemma load_order c initial k : k = 0 \/ k = 1 -> bootloader_utility_load_boot_image load c slots_bs initial k = tried c initial k.
Proof.
  unfold bootloader_utility_load_boot_image, tried. intros [-> | ->]; cbn [Z.eqb TEST_APP_INDEX].
  - change (backwards 0) with [0; -1]. change (forwards slots_bs 0) with [1].
    rewrite try_slot by auto. destruct (slot_verdict c 0); [done| |done].
    change (try_indices load c slots_bs [-1]) with (@inr unit (option Z) None).
    rewrite try_slot by auto. change (1 - 0) with 1. by destruct (slot_verdict c 1).
  - change (backwards 1) with [1; 0; -1]. change (forwards slots_bs 1) with (@nil Z).
    rewrite !try_slot by auto. destruct (slot_verdict c 1); [done| |done]. change (1 - 1) with 0. by destruct (slot_verdict c 0).
Qed.

Lemma load_factory c initial :
  bootloader_utility_load_boot_image load c slots_bs initial FACTORY_INDEX = bootloader_utility_load_boot_image load c slots_bs initial 0.
Proof.
  rewrite (load_order c initial 0) by auto. unfold bootloader_utility_load_boot_image, tried.
  change (FACTORY_INDEX =? TEST_APP_INDEX) with false. cbv iota.
  change (try_indices load c slots_bs (backwards FACTORY_INDEX)) with (@inr unit (option Z) None).
  change (forwards slots_bs FACTORY_INDEX) with [0; 1]. cbv iota. rewrite !try_slot by auto.
  destruct (slot_verdict c 0); [done| |done]. change (1 - 0) with 1. by destruct (slot_verdict c 1).
Qed.

(** The slots are tried from the named one on, whatever the entries hold; [initial] says
    whether the bootloader also writes the first entry. *)
Lemma boot_order c :
  length c = length c0 ->
  exists initial, (selected (otadata_of c od) <> None -> initial = false) /\
    boot behind mapped load d.(parts) c = tried c initial (named_slot (otadata_of c od)).
Proof.
  intros Hl. pose proof (named_slot_range (otadata_of c od)) as Hk. unfold boot. rewrite (lay_bs _ _ _ _ _ _ lay).
  destruct od_bounds as (Ha & Hsz & Hin & _).
  pose proof (pl_table _ _ _ _ _ (lay_place_od _ _ _ _ _ _ lay)) as Ht. unfold CONFIG_PARTITION_TABLE_OFFSET, ESP_PARTITION_TABLE_MAX_LEN in *.
  rewrite ImageCheck.boot_mmap_in by (rewrite ?Hl; apply lay || done || unfold SPI_FLASH_SEC_SIZE in *; lia).
  fold slots_bs. revert Hk. rewrite (selected_index c Hl). unfold named_slot. cbv zeta.
  destruct (bootloader_common_ota_select_invalid (otadata_of c od).1 && bootloader_common_ota_select_invalid (otadata_of c od).2) eqn:Hinv;
    [|destruct (bootloader_common_get_active_otadata (otadata_of c od) =? -1) eqn:Hact].
  - intros _. eexists. split; [|by apply load_order; left]. intros Hs. exfalso. apply andb_true_iff in Hinv as [H1 H2]. apply Hs.
    unfold selected, bootloader_common_get_active_otadata, bootloader_common_select_otadata, bootloader_common_ota_select_valid.
    by rewrite H1, H2.
  - intros _. exists false. split; [done|]. change (FACTORY_INDEX =? INVALID_INDEX) with false. cbv iota.
    rewrite load_factory. by apply load_order; left.
  - set (k := _ mod 2). intros Hk. exists false. split; [done|].
    rewrite (proj2 (Z.eqb_neq k INVALID_INDEX)) by (unfold INVALID_INDEX; lia). by apply load_order.
Qed.

(** A slot that is selected and has a good image. *)
Lemma boot_selected c v :
  length c = length c0 -> selected (otadata_of c od) = Some v -> 1 <= v < 2 ^ 32 ->
  load c (slot ((v - 1) mod 2)).(address) (slot ((v - 1) mod 2)).(size) = Accepted ->
  boot behind mapped load d.(parts) c = Loaded ((v - 1) mod 2) c.
Proof.
  intros Hl Hs Hv Hok. destruct (boot_order c Hl) as (initial & Hini & ->). rewrite Hini by congruence.
  destruct (selected_active _ _ Hs) as [Hact Hseq].
  assert (Hk : named_slot (otadata_of c od) = (v - 1) mod 2).
  { unfold named_slot. assert (Hinv : bootloader_common_ota_select_invalid (otadata_of c od).1 &&
                   bootloader_common_ota_select_invalid (otadata_of c od).2 = false).
    { destruct (active_cases (otadata_of c od)) as [Hx|[[_ Hx]|[_ Hx]]]; [by rewrite Hx in Hact|..];
        unfold bootloader_common_ota_select_valid in Hx; apply andb_true_iff in Hx as [Hx _];
        apply negb_true_iff in Hx; rewrite Hx; [done|apply andb_false_r]. }
    rewrite Hinv. cbv zeta. by rewrite Hact, Hseq, u32_small by lia. }
  unfold tried, slot_verdict. rewrite Hk, Hok. unfold set_actual_ota_seq. by rewrite andb_false_r.
Qed.

Lemma slots_cases k : k = 0 \/ k = 1 -> (slot k = run /\ slot (1 - k) = other) \/ (slot k = other /\ slot (1 - k) = run).
Proof. unfold slot. destruct (lay_slots _ _ _ _ _ _ lay) as [[-> ->]|[-> ->]]; intros [-> | ->]; auto. Qed.

(** ** An update that succeeds *)

Lemma next_loop_rest n t found b :
  0x12 <= t -> t + Z.of_nat n <= 0x20 -> next_loop d n t run found b = found.
Proof.
  revert t. induction n as [|n IH]; intros t Ht Hn; [done|]. cbn [next_loop]. rewrite no_slot by lia.
  apply IH; lia.
Qed.

Lemma next_loop_step n t p found b :
  find_first d ESP_PARTITION_TYPE_APP t = Some p ->
  next_loop d (S n) t run found b =
  let found := match found with None => Some p | Some _ => found end in
  if bool_decide (p = run) then next_loop d n (t + 1) run found true
  else if b then Some p else next_loop d n (t + 1) run found b.
Proof. intros Hp. cbn [next_loop]. by rewrite Hp. Qed.

Lemma next_is_other : esp_ota_get_next_update_partition d None = Ret (Some other).
Proof.
  unfold esp_ota_get_next_update_partition. rewrite (lay_running _ _ _ _ _ _ lay). f_equal.
  rewrite (next_loop_step _ _ _ _ _ (lay_p0 _ _ _ _ _ _ lay)). cbv zeta.
  rewrite !(next_loop_step _ (ESP_PARTITION_SUBTYPE_APP_OTA_MIN + 1) _ _ _ (lay_p1 _ _ _ _ _ _ lay)). cbv zeta.
  rewrite !next_loop_rest by (unfold ESP_PARTITION_SUBTYPE_APP_OTA_MIN; lia).
  pose proof (lay_distinct _ _ _ _ _ _ lay). destruct (lay_slots _ _ _ _ _ _ lay) as [[-> ->]|[-> ->]];
    repeat case_bool_decide; done.
Qed.

Lemma ptr_other : exists z, ptr other = Some z /\ deref (Some z) = Some other.
Proof.
  destruct other_facts as (Hin & _). unfold ptr, deref.
  destruct (list_find (eq other) d.(parts)) as [[i q]|] eqn:Hf.
  - apply list_find_Some in Hf as (Hi & <- & _). exists (Z.of_nat i). simpl. by rewrite Nat2Z.id.
  - apply list_find_None in Hf. rewrite Forall_forall in Hf. by specialize (Hf other Hin).
Qed.

Lemma matches_self p : matches p.(type) p.(subtype) (match p.(label) with [] => None | l => Some l end) p = true.
Proof.
  unfold matches. rewrite !Z.eqb_refl, !andb_false_r. destruct p.(label); [done|]. by rewrite bool_decide_eq_true_2.
Qed.

Lemma verify_other : esp_partition_verify d other = Some other.
Proof.
  destruct other_facts as (Hin & Hi & _). unfold esp_partition_verify.
  assert (Hty : (other.(type) =? ESP_PARTITION_TYPE_ANY) = false).
  { unfold is_ota_partition in Hi. destruct (Z.eqb_spec other.(type) ESP_PARTITION_TYPE_APP) as [->|]; done. }
  rewrite Hty. cbn [andb]. set (f := fun q => _).
  assert (Hf : f other = true) by (unfold f; by rewrite matches_self, !Z.eqb_refl, eqb_reflx).
  destruct (List.find f d.(parts)) as [q|] eqn:Hq.
  - apply find_some in Hq as [Hq Hfq]. apply list_elem_of_In in Hq. unfold f in Hfq.
    apply andb_true_iff in Hfq as [Hfq _]. apply andb_true_iff in Hfq as [Hfq _].
    apply andb_true_iff in Hfq as [Hm _]. unfold matches in Hm. apply andb_true_iff in Hm as [Hm _].
    apply andb_true_iff in Hm as [Ht Hs]. rewrite Hty in Ht. cbn [negb andb] in Ht.
    assert (Hst : (other.(subtype) =? ESP_PARTITION_SUBTYPE_ANY) = false).
    { unfold is_ota_partition in Hi. apply andb_true_iff in Hi as [_ Hi]. apply Z.ltb_lt in Hi. apply Z.eqb_neq.
      unfold ESP_PARTITION_SUBTYPE_APP_OTA_MAX, ESP_PARTITION_SUBTYPE_ANY in *. lia. }
    rewrite Hst in Hs. cbn [negb andb] in Hs. rewrite negb_involutive in Ht, Hs.
    apply Z.eqb_eq in Ht. apply Z.eqb_eq in Hs. f_equal.
    assert (Hiq : is_ota_partition q = true) by (unfold is_ota_partition in *; by rewrite <- Ht, <- Hs).
    destruct p0_facts as (_ & _ & S0), p1_facts as (_ & _ & S1).
    destruct (lay_only _ _ _ _ _ _ lay q Hq Hiq) as [-> | ->];
      destruct (lay_slots _ _ _ _ _ _ lay) as [[-> ->]|[-> ->]]; congruence || lia.
  - apply find_none with (x := other) in Hq; [congruence|]. by apply list_elem_of_In.
Qed.

(** The slot after the erase for an image of [n] bytes. *)
Definition erased_for (n : Z) : list Z :=
  erase c0 (Z.to_nat other.(address)) (Z.to_nat ((n + SPI_FLASH_SEC_SIZE - 1) / SPI_FLASH_SEC_SIZE * SPI_FLASH_SEC_SIZE)).

Lemma erase_size n :
  0 < n <= other.(size) ->
  let e := (n + SPI_FLASH_SEC_SIZE - 1) / SPI_FLASH_SEC_SIZE * SPI_FLASH_SEC_SIZE in
  n <= e <= other.(size) /\ e mod SPI_FLASH_SEC_SIZE = 0.
Proof.
  intros Hn e. unfold e. split; [|by apply Z.mod_mul].
  pose proof (lay_sector _ _ _ _ _ _ lay) as Hm. unfold SPI_FLASH_SEC_SIZE in *.
  pose proof (Z.div_mod (n + 4096 - 1) 4096 ltac:(lia)). pose proof (Z.mod_pos_bound (n + 4096 - 1) 4096 ltac:(lia)).
  pose proof (Z.div_mod other.(size) 4096 ltac:(lia)). lia.
Qed.

Lemma other_bounds :
  0 < other.(address) /\ other.(address) + other.(size) <= Z.of_nat (length c0) /\ other.(size) <= 2 ^ 30.
Proof.
  pose proof (pl_table _ _ _ _ _ (lay_place _ _ _ _ _ _ lay)) as Ht.
  pose proof (pl_chip _ _ _ _ _ (lay_place _ _ _ _ _ _ lay)). pose proof (lay_size _ _ _ _ _ _ lay).
  unfold CONFIG_PARTITION_TABLE_OFFSET, ESP_PARTITION_TABLE_MAX_LEN in Ht. lia.
Qed.

Lemma erased_length n : 0 < n <= other.(size) -> length (erased_for n) = length c0.
Proof.
  intros Hn. destruct (erase_size n Hn) as [He _]. destruct other_bounds as (? & ? & _).
  apply erase_length. lia.
Qed.

Lemma start_runs n ty path :
  0 < n <= other.(size) ->
  exists z, deref (Some z) = Some other /\
    interp flash (translate esp_ota (Ota.tkl_ota_start_notify Ota.tkl_ota_handle n ty path) no_ops) (c0, []) =
    Some ((Ota.mk_handle Ota.TKL_OTA_BEGIN 1 (Some z) n 0, OPRT_OK, mk_state [mk_ops 1 other false 0] 1),
          (erased_for n, [])).
Proof.
  intros Hn. destruct ptr_other as (z & Hp & Hd). exists z. split; [done|].
  destruct other_bounds as (Ha & Hc & Hsz). destruct (erase_size n Hn) as [He Hem]. destruct other_facts as (_ & Hi & Hne).
  unfold Ota.tkl_ota_start_notify. rewrite (proj2 (Z.eqb_neq n 0)) by lia.
  change (Ota.IS_TKL_OTA_UPGRADE_IN_PROCESS (Ota.state Ota.tkl_ota_handle)) with false. cbv iota.
  cbn [translate bind call esp_ota]. rewrite next_is_other. cbn [bind translate mbind option_bind]. rewrite Hp. cbn [Ota.partition translate bind call esp_ota].
  rewrite Hd. unfold esp_ota_begin. rewrite verify_other, Hi, (lay_running _ _ _ _ _ _ lay). cbn [negb].
  rewrite bool_decide_eq_false_2 by done.
  unfold OTA_WITH_SEQUENTIAL_WRITES, OTA_SIZE_UNKNOWN.
  rewrite (proj2 (Z.eqb_neq n 0xfffffffe)), (proj2 (Z.eqb_neq n 0)), (proj2 (Z.eqb_neq n 0xffffffff)) by lia.
  cbn [orb]. rewrite aligned_size, u32_small by (unfold SPI_FLASH_SEC_SIZE; lia).
  assert (Hf : flash _ (part_erase other 0 ((n + SPI_FLASH_SEC_SIZE - 1) / SPI_FLASH_SEC_SIZE * SPI_FLASH_SEC_SIZE)) (c0, []) =
               Some (ESP_OK, (erased_for n, []))).
  { unfold on_flash. rewrite (lay_running _ _ _ _ _ _ lay).
    erewrite part_erase_inside; [|apply lay|done|lia|lia|done|done].
    cbn [mbind option_bind fst snd]. unfold erased_for. by rewrite Z.add_0_r. }
  cbn [bind call interp]. rewrite Hf. change (esp_failed ESP_OK) with false. cbn [bind call interp].
  assert (Hm : flash _ calloc_entry (erased_for n, []) = Some (true, (erased_for n, [])))
    by (unfold on_flash; by rewrite (lay_running _ _ _ _ _ _ lay)).
  rewrite Hm. done.
Qed.

(** The handle and the flash after the bytes [bs]. *)
Definition ops_after (bs : list Z) : ops := mk_state [mk_ops 1 other false (Z.of_nat (length bs))] 1.

Definition flash_after (n : Z) (bs : list Z) : machine := (program (erased_for n) (Z.to_nat other.(address)) bs, []).

(** An image starts with the magic byte. *)
Definition magic_first (bs : list Z) : Prop := match bs with [] => True | b :: _ => b = ESP_IMAGE_HEADER_MAGIC end.

Lemma write_runs n bs data :
  0 < n <= other.(size) -> Z.of_nat (length bs) < n -> Z.of_nat (length bs + length data) <= n -> magic_first (bs ++ data) ->
  interp flash (EspOta.esp_ota_write 1 (Some data) (ops_after bs)) (flash_after n bs) =
  Some ((ESP_OK, ops_after (bs ++ data)), flash_after n (bs ++ data)).
Proof.
  intros Hn Hfull Hlen Hmagic. destruct other_bounds as (Ha & Hc & Hsz). pose proof (erased_length n Hn) as Hel.
  unfold EspOta.esp_ota_write. change (get_ota_ops_entry 1 (ops_after bs)) with (Some (mk_ops 1 other false (Z.of_nat (length bs)))).
  cbn [need_erase bind wrote_size part]. change (esp_failed ESP_OK) with false. cbv iota.
  assert (Hg : (Z.of_nat (length bs) =? 0) && (0 <? Z.of_nat (length data)) && negb (nth 0 data 0 =? ESP_IMAGE_HEADER_MAGIC) = false).
  { destruct bs as [|b bs]; [|done]. destruct data as [|b data]; [done|]. simpl in Hmagic. subst b. apply andb_false_r. }
  rewrite Hg. cbn [bind call interp].
  assert (Hf : flash _ (part_write other (Z.of_nat (length bs)) data) (flash_after n bs) =
               Some (ESP_OK, flash_after n (bs ++ data))).
  { unfold on_flash, flash_after. rewrite (lay_running _ _ _ _ _ _ lay). cbn [fst snd].
    erewrite part_write_fits; [|eapply placed_length; [apply lay|rewrite program_length; [done|lia]]|lia|lia|lia].
    cbn [mbind option_bind]. rewrite Z2Nat.inj_add, Nat2Z.id, program_split by lia. done. }
  rewrite Hf, Z.eqb_refl. unfold ops_after. cbn [set_wrote_size ops_entries handle last_handle EspOta.part need_erase].
  rewrite u32_small, length_app, Nat2Z.inj_add by lia. done.
Qed.

(** The handle after the next [len] bytes of a transfer that is not complete. *)
Lemma represents_next z n bs data :
  n <> 0 -> Z.of_nat (length bs + length data) <= n < 2 ^ 32 ->
  Ota.represents
    (Ota.mk_handle (if u32 (Z.of_nat (length bs) + Z.of_nat (length data)) =? n then Ota.TKL_OTA_SUCCESS
                    else Ota.TKL_OTA_IN_PROGRESS) 1 (Some z) n (u32 (Z.of_nat (length bs) + Z.of_nat (length data))))
    (Ota.Receiving z 1 n (bs ++ data)).
Proof.
  intros Hz Hn. rewrite <- Nat2Z.inj_add, <- length_app. rewrite <- length_app in Hn.
  destruct (Z.eqb_spec (u32 (Z.of_nat (length (bs ++ data)))) n) as [E|E].
  - rewrite E. constructor; [done|lia|done].
  - constructor; [done|lia|done].
Qed.

Lemma data_runs h z n bs pk :
  Ota.represents h (Ota.Receiving z 1 n bs) -> Ota.packet_ok pk ->
  0 < n <= other.(size) -> Z.of_nat (length bs + length pk.(Ota.data)) <= n -> magic_first (bs ++ pk.(Ota.data)) ->
  exists h', Ota.represents h' (Ota.Receiving z 1 n (bs ++ pk.(Ota.data))) /\
    interp flash (translate esp_ota (Ota.run_op h (Ota.data_op pk)) (ops_after bs)) (flash_after n bs) =
    Some ((h', OPRT_OK, ops_after (bs ++ pk.(Ota.data))), flash_after n (bs ++ pk.(Ota.data))).
Proof.
  intros Hr Hp Hn Hlen Hmagic. pose proof (fun Hf => write_runs n bs pk.(Ota.data) Hn Hf Hlen Hmagic) as Hw.
  destruct other_bounds as (_ & _ & Hsz). pose proof (Ota.packet_bytes_ok pk Hp) as Hb. unfold Ota.packet_bytes in Hb.
  unfold Ota.packet_ok in Hp. pose proof (represents_next z n bs pk.(Ota.data) ltac:(lia) ltac:(lia)) as Hnext.
  assert (Hrun : forall st, st = Ota.TKL_OTA_BEGIN \/ st = Ota.TKL_OTA_IN_PROGRESS -> Z.of_nat (length bs) < n ->
    h = Ota.mk_handle st 1 (Some z) n (Z.of_nat (length bs)) ->
    interp flash (translate esp_ota (Ota.run_op h (Ota.data_op pk)) (ops_after bs)) (flash_after n bs) =
    Some ((Ota.mk_handle (if u32 (Z.of_nat (length bs) + Z.of_nat (length pk.(Ota.data))) =? n then Ota.TKL_OTA_SUCCESS
             else Ota.TKL_OTA_IN_PROGRESS) 1 (Some z) n (u32 (Z.of_nat (length bs) + Z.of_nat (length pk.(Ota.data)))),
           OPRT_OK, ops_after (bs ++ pk.(Ota.data))), flash_after n (bs ++ pk.(Ota.data)))).
  { intros st Hst Hf ->. specialize (Hw Hf). cbn [Ota.run_op Ota.data_op]. rewrite interp_translate_bind. unfold Ota.tkl_ota_data_process.
    destruct Hst as [-> | ->]; cbn [Ota.state]; rewrite !(bool_decide_eq_false_2 (_ = Ota.TKL_OTA_INIT)),
      !(bool_decide_eq_false_2 (_ = Ota.TKL_OTA_SUCCESS)) by done;
      cbn [translate bind call esp_ota Ota.handle]; rewrite Hb, interp_bind, Hw, <- Hp; reflexivity. }
  inversion Hr as [|? ? ? ? ?|? ? ? ? ? ? Hne|? ? ? ? ? ? He]; subst.
  - eexists. split; [exact Hnext|]. apply (Hrun Ota.TKL_OTA_BEGIN); auto. cbn [length]. lia.
  - eexists. split; [exact Hnext|]. apply (Hrun Ota.TKL_OTA_IN_PROGRESS); auto; rewrite u32_small in * by lia; [lia|done].
  - rewrite u32_small in Hlen by lia. assert (Hd : pk.(Ota.data) = []) by (destruct (Ota.data pk); [done|simpl in Hlen; lia]).
    rewrite Hd, app_nil_r. eexists. split; [exact Hr|]. done.
Qed.

(** The image, packet after packet. *)
Lemma packets_run packs h z n bs :
  Ota.represents h (Ota.Receiving z 1 n bs) -> Forall Ota.packet_ok packs ->
  0 < n <= other.(size) -> Z.of_nat (length (bs ++ concat (map Ota.data packs))) = n ->
  magic_first (bs ++ concat (map Ota.data packs)) ->
  forall (os : list Ota.op) (K : _ -> Prop),
  (forall h', Ota.represents h' (Ota.Receiving z 1 n (bs ++ concat (map Ota.data packs))) ->
     exists res, K res /\ interp flash (client h' os (ops_after (bs ++ concat (map Ota.data packs))))
       (flash_after n (bs ++ concat (map Ota.data packs))) = Some res) ->
  exists h' rs o m, K ((h', rs, o), m) /\
    interp flash (client h (map Ota.data_op packs ++ os) (ops_after bs)) (flash_after n bs) =
    Some ((h', replicate (length packs) OPRT_OK ++ rs, o), m).
Proof.
  intros Hr Hok Hn Hlen Hmagic os K Hos. revert h bs Hr Hlen Hmagic Hos.
  induction Hok as [|pk packs Hp Hok IH]; intros h bs Hr Hlen Hmagic Hos.
  - simpl in *. rewrite app_nil_r in Hos. destruct (Hos h Hr) as ([[[h' rs] o] m] & HK & E). eauto 10.
  - cbn [map concat] in *. rewrite app_assoc in Hlen, Hmagic.
    assert (Hm' : magic_first (bs ++ pk.(Ota.data))).
    { destruct (bs ++ pk.(Ota.data)) as [|b l]; [done|]. exact Hmagic. }
    destruct (data_runs h z n bs pk Hr Hp Hn) as (h1 & Hr1 & E1); [rewrite length_app in Hlen; rewrite <- length_app; lia|done|].
    destruct (IH h1 _ Hr1 Hlen Hmagic) as (h' & rs & o & m & HK & E2).
    { rewrite <- app_assoc. exact Hos. }
    exists h', rs, o, m. split; [done|]. unfold client in *. cbn [app Ota.run_ops].
    rewrite interp_translate_bind, E1, interp_translate_bind, E2. done.
Qed.

Lemma flash_after_outside n bs :
  0 < n <= other.(size) -> Z.of_nat (length bs) <= n -> same_outside other c0 (flash_after n bs).1.
Proof.
  intros Hn Hb. destruct (erase_size n Hn) as [He _]. eapply same_outside_trans.
  - pose proof (erase_outside _ _ _ other c0 0 _ (lay_place _ _ _ _ _ _ lay) ltac:(lia) (Z.le_trans _ _ _ (Z.lt_le_incl _ _ (proj1 Hn)) (proj1 He)) (proj2 He)) as H.
    rewrite Z.add_0_r in H. exact H.
  - assert (Hp : placed run.(address) run.(size) d.(chunk) other (erased_for n))
      by (eapply placed_length; [apply lay|by apply erased_length]).
    pose proof (program_outside _ _ _ other _ 0 bs Hp ltac:(lia) ltac:(lia)) as H. rewrite Z.add_0_r in H. exact H.
Qed.

Lemma flash_after_image n bs :
  0 < n <= other.(size) -> Z.of_nat (length bs) <= n -> Forall Crc.is_byte bs ->
  slice (flash_after n bs).1 (Z.to_nat other.(address)) (length bs) = bs.
Proof.
  intros Hn Hb Hbytes. destruct (erase_size n Hn) as [He _]. destruct other_bounds as (Ha & Hc & _).
  unfold flash_after. cbn [fst]. unfold erased_for.
  rewrite slice_programmed by lia. rewrite Nat.sub_diag, app_nil_r. by apply land_bytes.
Qed.

Lemma other_slot : exists k, (k = 0 \/ k = 1) /\ slot k = other /\ slot (1 - k) = run /\ SUB_TYPE_ID other.(subtype) = k.
Proof.
  destruct p0_facts as (_ & _ & S0), p1_facts as (_ & _ & S1). unfold slot.
  destruct (lay_slots _ _ _ _ _ _ lay) as [[-> ->]|[-> ->]].
  - exists 1. rewrite S1. auto.
  - exists 0. rewrite S0. auto.
Qed.

(** The entries allow another switch: no number is selected, or one that can be raised. *)
Definition can_switch (two : otadata_t) : Prop := forall s, selected two = Some s -> 1 <= s /\ s + 4 < 2 ^ 32.

(** Selecting a slot with a good image. *)
Lemma set_boot_runs m :
  good can_switch m.1 -> m.2 = [] -> app_ok m.1 other.(address) other.(size) = true ->
  exists v, (forall s, selected (otadata_of m.1 od) = Some s -> s <= v) /\ 1 <= v < UINT32_MAX /\
    slot ((v - 1) mod 2) = other /\
    interp flash (EspOta.esp_ota_set_boot_partition d (Some other)) m = Some (ESP_OK, (switched m.1 v, [])).
Proof.
  intros G Hmem Hok. destruct other_slot as (k & Hk & Hslot & _ & Hid). pose proof (good_length _ _ G) as Hl.
  destruct other_facts as (Hin & Hi & _). unfold is_ota_partition in Hi.
  apply andb_true_iff in Hi as [Hi _]. apply andb_true_iff in Hi as [Ht Hsub].
  unfold EspOta.esp_ota_set_boot_partition, image_validate. cbn [bind call interp].
  assert (Hf : flash _ (image_verify other) m = Some (true, m))
    by (unfold on_flash; by rewrite (lay_running _ _ _ _ _ _ lay), Hok).
  rewrite Hf. change (esp_failed ESP_OK) with false. rewrite Ht. cbv iota.
  destruct (Z.eqb_spec other.(subtype) ESP_PARTITION_SUBTYPE_APP_FACTORY) as [E|_]; [by rewrite E in Hsub|].
  unfold esp_rewrite_ota_data. rewrite read_interp, app_count. unfold granted. rewrite Hmem. cbn [bind tail].
  destruct (Z.leb_spec 2 (SUB_TYPE_ID other.(subtype))); [lia|].
  assert (Hrw : forall v i, i = Z.land (Z.lnot (bootloader_common_get_active_otadata (otadata_of m.1 od))) 1 ->
    interp flash (rewrite_ota_seq (with_state (otadata_of m.1 od) i set_new_state_otadata) v i od) (m.1, []) =
    Some (ESP_OK, (switched m.1 v, []))).
  { intros v i Hix. pose proof (active_index m.1) as Hi. cbv zeta in Hi. rewrite <- Hix in Hi. rewrite rewrite_calls by done.
    cbn [bind call interp]. rewrite flash_erase_od by done. change (esp_failed ESP_OK) with false. cbn [call interp fst snd].
    unfold switched. rewrite <- Hix. rewrite flash_write_od; [done|done|done|by apply next_entry_length]. }
  destruct (Z.eqb_spec (bootloader_common_get_active_otadata (otadata_of m.1 od)) (-1)) as [Ha|Ha]; cbn [negb].
  - exists (k + 1). rewrite Hid. split_and!; [|lia|unfold UINT32_MAX; lia| |apply Hrw; by rewrite Ha].
    + intros s Hs. unfold selected in Hs. by rewrite Ha in Hs.
    + replace (k + 1 - 1) with k by lia. by destruct Hk as [-> | ->].
  - destruct (selected (otadata_of m.1 od)) as [s|] eqn:Hsel.
    2:{ unfold selected in Hsel. by rewrite (proj2 (Z.eqb_neq _ _) Ha) in Hsel. }
    destruct (good_entries _ _ G s Hsel) as [Hs Hb]. destruct (selected_active _ _ Hsel) as [_ Hseq]. rewrite Hseq.
    destruct (next_seq other.(subtype) s Hs Hb ltac:(lia)) as (i & -> & Hv & Hmod).
    exists (seq_at other.(subtype) 2 i). split_and!; [|lia|unfold UINT32_MAX; lia|by rewrite Hmod, Hid|by apply Hrw].
    intros s' [= <-]. lia.
Qed.

Lemma end_runs h z n img :
  Ota.represents h (Ota.Receiving z 1 n img) -> deref (Some z) = Some other ->
  0 < n <= other.(size) -> Z.of_nat (length img) = n -> good can_switch c0 ->
  app_ok (flash_after n img).1 other.(address) other.(size) = true ->
  exists v, (forall s, selected (otadata_of (flash_after n img).1 od) = Some s -> s <= v) /\ 1 <= v < UINT32_MAX /\
    slot ((v - 1) mod 2) = other /\
    interp flash (client h [Ota.End false] (ops_after img)) (flash_after n img) =
    Some ((Ota.TKL_OTA_UPGRADE_HANDLE_INIT, [OPRT_OK], mk_state [] 1), (switched (flash_after n img).1 v, [])).
Proof.
  intros Hr Hd Hn Hlen G Hok. destruct other_bounds as (_ & _ & Hsz).
  assert (Hh : h = Ota.mk_handle Ota.TKL_OTA_SUCCESS 1 (Some z) n n).
  { inversion Hr as [|? ? ? ? ?|? ? ? ? ? ? Hne|? ? ? ? ? ? He]; subst; [simpl in *; lia| |done].
    by rewrite u32_small in Hne by lia. }
  assert (Ga : good can_switch (flash_after n img).1) by (eapply good_other; [exact G|apply flash_after_outside; lia]).
  destruct (set_boot_runs _ Ga eq_refl Hok) as (v & Hv & Hv1 & Hslot & Hset). exists v. split_and!; [done|lia|lia|done|].
  unfold client. cbn [Ota.run_ops Ota.run_op]. rewrite interp_translate_bind. subst h.
  unfold Ota.tkl_ota_end_notify. cbn [Ota.state]. rewrite bool_decide_eq_true_2 by done.
  cbn [negb translate bind call esp_ota Ota.handle]. rewrite interp_bind. unfold EspOta.esp_ota_end.
  change (get_ota_ops_entry 1 (ops_after img)) with (Some (mk_ops 1 other false (Z.of_nat (length img)))).
  cbn [wrote_size EspOta.part]. rewrite (proj2 (Z.eqb_neq (Z.of_nat (length img)) 0)) by lia. cbn [bind call interp].
  assert (Hf : flash _ (image_verify other) (flash_after n img) = Some (true, flash_after n img))
    by (unfold on_flash; by rewrite (lay_running _ _ _ _ _ _ lay), Hok).
  rewrite Hf. change (esp_failed ESP_OK) with false. cbn [translate bind call esp_ota Ota.partition].
  rewrite Hd, interp_bind, interp_bind, Hset. done.
Qed.

(** ** The application's idea of the boot partition *)

Lemma default_slot : find_default_boot_partition d = Some p0.
Proof.
  unfold find_default_boot_partition. rewrite (lay_factory _ _ _ _ _ _ lay). cbn [first_slot].
  unfold ESP_PARTITION_SUBTYPE_APP_OTA_MIN. by rewrite (lay_p0 _ _ _ _ _ _ lay).
Qed.

Lemma get_boot_runs m :
  interp flash (EspOta.esp_ota_get_boot_partition d) m =
  Some (if granted m then Some (slot (named_slot (otadata_of m.1 od))) else None, (m.1, tail m.2)).
Proof.
  pose proof (named_slot_range (otadata_of m.1 od)) as Hk. revert Hk.
  unfold EspOta.esp_ota_get_boot_partition, named_slot. rewrite read_interp. destruct (granted m); [|done].
  rewrite app_count, default_slot. cbn [bind].
  cbn [Z.eqb]. rewrite orb_false_r. destruct (_ && _); [done|]. cbv zeta. destruct (_ =? -1); cbn [negb]; [done|].
  set (k := _ mod 2). intros Hk. cbn [interp]. f_equal. f_equal. unfold slot, ESP_PARTITION_SUBTYPE_APP_OTA_MIN.
  destruct Hk as [-> | ->]; apply lay.
Qed.

(** What the bootloader writes is the first entry. *)
Lemma actual_outside c initial k : length c = length c0 -> same_outside od c (set_actual_ota_seq c slots_bs initial k).
Proof.
  intros Hl. unfold set_actual_ota_seq. destruct (_ && _); [|apply same_outside_refl]. unfold write_otadata.
  cbn [slots_bs ota_info pos_of offset]. pose proof (pl_sector _ _ _ _ _ (lay_place_od _ _ _ _ _ _ lay)) as Hs.
  unfold sector_size in Hs. unfold FLASH_SECTOR_SIZE. rewrite !Z.add_0_r.
  replace (od.(address) / 4096 * 4096) with od.(address) by (pose proof (Z.div_mod od.(address) 4096 ltac:(lia)); lia).
  match goal with |- same_outside _ _ (program _ _ ?b) => pose proof (rewritten_outside 0 32 b c Hl (or_introl eq_refl) eq_refl) as H end.
  unfold rewritten in H. rewrite Z.add_0_r in H. exact H.
Qed.
End Layout.
End System.

(** ** The device with the firmware's own table *)

(** It runs from the first slot. *)
Definition ivy_board : board := mk_board tuya_partitions 0x10100 4096.
Definition ivy_otadata : esp_partition_t := mk_partition 0xe000 0x2000 1 0 [0x6f; 0x74; 0x61; 0x64; 0x61; 0x74; 0x61] false.
Definition ivy_ota_0 : esp_partition_t := mk_partition 0x10000 0x3d0000 0 16 [0x6f; 0x74; 0x61; 0x5f; 0x30] false.
Definition ivy_ota_1 : esp_partition_t := mk_partition 0x400000 0x3d0000 0 17 [0x6f; 0x74; 0x61; 0x5f; 0x31] false.

Lemma ivy_layout (c : list Z) :
  Z.of_nat (length c) = 0x800000 -> layout ivy_board ivy_otadata ivy_ota_0 ivy_ota_1 ivy_ota_0 ivy_ota_1 c.
Proof.
  intros Hc. constructor; try reflexivity; try discriminate; try (by left); try (split; done).
  - intros q Hin Hq. unfold ivy_board, tuya_partitions, EspOta.parts in Hin.
    repeat (apply elem_of_cons in Hin as [->|Hin]; [by (discriminate || auto)|]). by apply not_elem_of_nil in Hin.
  - constructor; rewrite ?Hc; try reflexivity; simpl; unfold CONFIG_PARTITION_TABLE_OFFSET, ESP_PARTITION_TABLE_MAX_LEN; lia.
  - constructor; rewrite ?Hc; try reflexivity; simpl; unfold CONFIG_PARTITION_TABLE_OFFSET, ESP_PARTITION_TABLE_MAX_LEN; lia.
  - rewrite Hc. split_and!; done.
  - by rewrite Hc.
Qed.

(** The device with the table of [partitions.csv] on a chip of 4 MB, running from the
    second slot, which starts right behind the first. *)
Definition csv_otadata : esp_partition_t := mk_partition 0xd000 0x2000 1 0 [0x6f; 0x74; 0x61; 0x64; 0x61; 0x74; 0x61] false.
Definition csv_ota_0 : esp_partition_t := mk_partition 0x10000 0x180000 0 16 [0x6f; 0x74; 0x61; 0x5f; 0x30] false.
Definition csv_ota_1 : esp_partition_t := mk_partition 0x190000 0x180000 0 17 [0x6f; 0x74; 0x61; 0x5f; 0x31] false.

Definition csv_board : board :=
  mk_board
    [mk_partition 0x9000 0x4000 1 2 [0x6e; 0x76; 0x73] false; csv_otadata;
     mk_partition 0xf000 0x1000 1 1 [0x70; 0x68; 0x79; 0x5f; 0x69; 0x6e; 0x69; 0x74] false; csv_ota_0; csv_ota_1;
     mk_partition 0x3b0000 0x28000 1 0xaa tuya_label false;
     mk_partition 0x3e0000 0x4000 1 2 [0x66; 0x61; 0x63; 0x74; 0x6f; 0x72; 0x79; 0x5f; 0x6e; 0x76; 0x73] false]
    0x190100 4096.

Lemma csv_layout (c : list Z) :
  Z.of_nat (length c) = 0x400000 -> layout csv_board csv_otadata csv_ota_0 csv_ota_1 csv_ota_1 csv_ota_0 c.
Proof.
  intros Hc. constructor; try reflexivity; try discriminate; try (by left); try (by right); try (split; done).
  - intros q Hin Hq. unfold csv_board, EspOta.parts in Hin.
    repeat (apply elem_of_cons in Hin as [->|Hin]; [by (discriminate || auto)|]). by apply not_elem_of_nil in Hin.
  - constructor; rewrite ?Hc; try reflexivity; simpl; unfold CONFIG_PARTITION_TABLE_OFFSET, ESP_PARTITION_TABLE_MAX_LEN; lia.
  - constructor; rewrite ?Hc; try reflexivity; simpl; unfold CONFIG_PARTITION_TABLE_OFFSET, ESP_PARTITION_TABLE_MAX_LEN; lia.
  - rewrite Hc. split_and!; done.
  - by rewrite Hc.
Qed.

(** An application image; the chip after the first boot: the bootloader has
    selected the first slot, which holds the image. *)
Definition ivy_app : ImageCheck.app_image := ImageCheck.sample_image 0x3FC90000.
Definition ivy_image : list Z := ImageCheck.encode (ImageCheck.sample_boot []) ivy_app.

Definition ivy_chip : list Z :=
  program (rewritten ivy_otadata blank_chip 0 32 (bytes_of_entry (new_entry 1 (repeat 0xFF 20))))
    (Z.to_nat 0x10000) ivy_image.

Lemma slice_replicate (n a m : nat) (x : Z) :
  (a + m <= length (replicate n x))%nat -> slice (replicate n x) a m = replicate m x.
Proof.
  intros Ha. unfold slice. rewrite length_replicate in Ha. rewrite drop_replicate, take_replicate. f_equal. lia.
Qed.

Lemma slice_blank (a n : nat) : (a + n <= length blank_chip)%nat -> slice blank_chip a n = replicate n 0xFF.
Proof. apply slice_replicate. Qed.

(** Comparisons of addresses, kept in [Z]. *)
Lemma nat_le_Z (a b : Z) (n : nat) : 0 <= a -> a + Z.of_nat n <= b -> (Z.to_nat a + n <= Z.to_nat b)%nat.
Proof. lia. Qed.

Lemma nat_ge_Z (a : Z) (i : nat) : (Z.to_nat a <= i)%nat -> a <= Z.of_nat i.
Proof. lia. Qed.

Lemma nat_fits (a : Z) (n : nat) (c : list Z) :
  Z.of_nat (length c) = 0x800000 -> 0 <= a -> a + Z.of_nat n <= 0x800000 -> (Z.to_nat a + n <= length c)%nat.
Proof. lia. Qed.

Definition ivy_entry : list Z := bytes_of_entry (new_entry 1 (repeat 0xFF 20)).

Lemma ivy_rewritten_length : Z.of_nat (length (rewritten ivy_otadata blank_chip 0 32 ivy_entry)) = 0x800000.
Proof.
  rewrite <- blank_chip_length. apply (f_equal Z.of_nat).
  exact (proj1 (rewritten_outside _ _ _ _ _ _ _ (ivy_layout _ blank_chip_length) 0 32 ivy_entry blank_chip
                  eq_refl (or_introl eq_refl) eq_refl)).
Qed.

Lemma ivy_chip_length : Z.of_nat (length ivy_chip) = 0x800000.
Proof.
  unfold ivy_chip. fold ivy_entry. rewrite program_length; [apply ivy_rewritten_length|].
  by apply nat_fits; [apply ivy_rewritten_length|..].
Qed.

Lemma ivy_chip_entries :
  otadata_of ivy_chip ivy_otadata = (new_entry 1 (repeat 0xFF 20), entry_of_bytes (replicate 32 0xFF)).
Proof.
  transitivity (otadata_of (rewritten ivy_otadata blank_chip 0 32 ivy_entry) ivy_otadata).
  - unfold otadata_of, ivy_chip. fold ivy_entry.
    assert (Hf : (Z.to_nat 0x10000 + length ivy_image <=
                  length (rewritten ivy_otadata blank_chip 0 32 ivy_entry))%nat)
      by (apply nat_fits; [apply ivy_rewritten_length|lia|vm_compute; discriminate]).
    rewrite !program_apart; [reflexivity| |exact Hf| |exact Hf]; apply nat_le_Z; discriminate.
  - rewrite (rewritten_view _ _ _ _ _ _ _ (ivy_layout _ blank_chip_length) 0 32 ivy_entry blank_chip
               eq_refl (or_introl eq_refl) eq_refl).
    unfold otadata_of, replace_otadata. cbn [Z.eqb fst snd].
    rewrite !slice_blank by (by apply nat_fits; [apply blank_chip_length|..]).
    unfold ivy_entry. rewrite partial_whole by done. done.
Qed.

Lemma ivy_chip_selected : selected (otadata_of ivy_chip ivy_otadata) = Some 1.
Proof. rewrite ivy_chip_entries. vm_compute. reflexivity. Qed.

(** Programming over erased cells stores the bytes. *)
Lemma program_blank (c : list Z) (a : nat) (bs : list Z) :
  (a + length bs <= length c)%nat -> slice c a (length bs) = replicate (length bs) 0xFF -> Forall Crc.is_byte bs ->
  slice (program c a bs) a (length bs) = bs.
Proof.
  intros Ha Hc Hb. unfold program. rewrite Hc.
  replace (zip_with Z.land (replicate (length bs) 0xFF) bs) with bs.
  - unfold slice, store_at. rewrite drop_app_length' by (rewrite length_take_le; lia). by rewrite take_app_length.
  - clear Ha Hc. induction Hb as [|b bs Hb _ IH]; [done|]. simpl. rewrite <- IH. f_equal.
    unfold Crc.is_byte in Hb. change 0xFF with (Z.ones 8). rewrite Z.land_comm, Z.land_ones, Z.mod_small; lia.
Qed.

Lemma ivy_chip_slot : slice ivy_chip (Z.to_nat 0x10000) (length ivy_image) = ivy_image.
Proof.
  unfold ivy_chip. fold ivy_entry. apply program_blank.
  - apply nat_fits; [apply ivy_rewritten_length|lia|vm_compute; discriminate].
  - transitivity (slice blank_chip (Z.to_nat 0x10000) (length ivy_image)).
    + apply slice_ext. intros i Hi.
      apply (proj2 (rewritten_outside _ _ _ _ _ _ _ (ivy_layout _ blank_chip_length) 0 32 ivy_entry blank_chip
               eq_refl (or_introl eq_refl) eq_refl)).
      intros [_ Ho]. apply (Z.lt_irrefl 0x10000). eapply Z.le_lt_trans; [exact (nat_ge_Z _ _ (proj1 Hi))|exact Ho].
    + apply slice_blank, nat_fits; [apply blank_chip_length|lia|vm_compute; discriminate].
  - by apply ImageCheck.bytes_decided.
Qed.

Lemma ivy_chip_bytes : Forall Crc.is_byte ivy_chip.
Proof.
  unfold ivy_chip, rewritten. apply program_bytes, program_bytes, erase_bytes.
  unfold blank_chip. by apply Forall_replicate.
Qed.

Lemma ivy_named : slot ivy_ota_0 ivy_ota_1 (named_slot (otadata_of ivy_chip ivy_otadata)) = ivy_ota_0.
Proof. rewrite ivy_chip_entries. vm_compute. reflexivity. Qed.

(** Both loaders accept the image wherever it lies in a slot. *)
Lemma ivy_holds (c : list Z) (a : Z) (e : Image.env) mode :
  e = ImageCheck.sample_app c \/ e = ImageCheck.sample_boot c ->
  slice c (Z.to_nat a) (length ivy_image) = ivy_image -> ImageCheck.holds e c mode a 0x3d0000 ivy_app.
Proof.
  intros He Hc. assert (Henc : ImageCheck.encode e ivy_app = ivy_image) by (by destruct He as [-> | ->]).
  constructor.
  - by apply ImageCheck.sample_image_wf.
  - constructor; [|constructor]. intros Hx _. destruct He as [-> | ->]; [discriminate Hx|vm_compute; reflexivity].
  - unfold ImageCheck.stored. rewrite Henc, Nat2Z.id. exact Hc.
  - rewrite Henc. vm_compute. discriminate.
Qed.

Lemma ivy_accepted (c : list Z) (a : Z) :
  Z.of_nat (length c) = 0x800000 -> Forall Crc.is_byte c -> a = 0x10000 \/ a = 0x400000 ->
  slice c (Z.to_nat a) (length ivy_image) = ivy_image ->
  ImageCheck.app_verdict ImageCheck.sample_app c a 0x3d0000 = true /\
  ImageCheck.boot_verdict ImageCheck.sample_boot c a 0x3d0000 = Accepted.
Proof.
  intros Hl Hb Ha Hc.
  assert (Hr : 0 < a < 2 ^ 31 /\ a mod 4 = 0 /\ a + 0x3d0000 <= 0x800000) by (destruct Ha as [-> | ->]; done).
  unfold ImageCheck.app_verdict, ImageCheck.boot_verdict, Image.bootloader_load_image, Image.esp_image_verify.
  cbn [ImageCheck.sample_boot Image.build].
  rewrite (ImageCheck.load_accepted (ImageCheck.sample_app c) c a 0x3d0000 Image.ESP_IMAGE_VERIFY ∅ (0, 0) ivy_app);
    [|apply ImageCheck.sample_app_ready; rewrite ?Hl; tauto || done|reflexivity|by apply ivy_holds; [left|]].
  change (Image.mk_env true _ _ _ _ _ _ _ _ _ _ _) with (ImageCheck.sample_boot c).
  rewrite (ImageCheck.load_accepted (ImageCheck.sample_boot c) c a 0x3d0000 Image.ESP_IMAGE_LOAD ∅ (0, 0) ivy_app);
    [done|apply ImageCheck.sample_boot_ready; rewrite ?Hl; tauto || done|reflexivity|by apply ivy_holds; [right|]].
Qed.

(** ** Properties *)

(** C1: an update cannot brick the device.  Whatever the client calls, in
    whatever order and with whatever packets, whatever allocations and mappings
    fail, and wherever the power is lost, even in the middle of a flash operation,
    the running application's bytes are as before, and the bootloader afterwards
    finds a slot whose image it accepts and loads it, changing at most the selection
    entries, and nothing if one of them is valid.  The exception is another slot on
    which the bootloader stops (see the wrapping segment of [ImageCheck.v]).
    A valid selection stays valid.  If the entries named the running slot and no
    session was ended, it is the running application that boots, also in the exceptional case.
    Assumed are two slots without a factory application, with places as in [layout],
    a bootloader that can map the chip and accepts the running image, and packets below
    a gigabyte.  [app_ok] is the application's check, which may answer anything, [load] the bootloader's. *)
Theorem update_never_bricks (d : board) (behind : Z -> Z) (mapped : Z -> Z -> bool) (app_ok : list Z -> Z -> Z -> bool)
    (load : list Z -> Z -> Z -> verdict) (od p0 p1 run other : esp_partition_t) (c0 : list Z) (mem : list bool)
    (h : Ota.TKL_OTA_HANDLE_S) (os : list Ota.op) (m : machine) :
  layout d od p0 p1 run other c0 -> maps_chip mapped (Z.of_nat (length c0)) -> Loader load -> Forall Crc.is_byte c0 ->
  load c0 run.(address) run.(size) = Accepted -> Forall op_fits os ->
  cut (on_flash d app_ok) (torn_flash d app_ok) (client d h os no_ops) (c0, mem) m ->
  let named := slot p0 p1 (named_slot (otadata_of c0 od)) in
  (forall i, run.(address) <= Z.of_nat i < run.(address) + run.(size) -> m.1 !! i = c0 !! i) /\
  (forall s, selected (otadata_of c0 od) = Some s -> 1 <= s -> s + 2 * ends os + 4 < 2 ^ 32 ->
     exists t, selected (otadata_of m.1 od) = Some t /\ s <= t <= s + 2 * ends os) /\
  (load m.1 other.(address) other.(size) <> Stopped \/ (ends os = 0 /\ named = run) ->
   exists k c',
     boot behind mapped load d.(parts) m.1 = Loaded k c' /\ load m.1 (slot p0 p1 k).(address) (slot p0 p1 k).(size) = Accepted /\
     same_outside od m.1 c' /\ (selected (otadata_of m.1 od) <> None -> c' = m.1) /\
     (ends os = 0 -> named = run -> slot p0 p1 k = run)).
Proof.
  intros lay maps L Hbytes Hrun Hf Hcut named. pose proof (ends_nonneg os) as He.
  assert (G0 : good od run c0 (reached od c0 (ends os) 0) c0).
  { constructor; [done|done|]. split; [done|]. intros s Hs _ _. exists s. split; [done|lia]. }
  pose proof (client_safe d app_ok _ _ _ _ _ _ lay os h no_ops (c0, mem) (ends os) 0 G0 (List.Forall_nil _) Hf
                ltac:(lia) ltac:(lia)) as Hsafe. rewrite Z.add_0_l in Hsafe.
  destruct (safe_cut _ _ _ _ _ _ _ Hsafe Hcut) as [Hlen Hsame [Hsaved Hsel]]. split; [done|]. split; [done|]. intros Hstop.
  pose proof (cut_keeps _ _ (fun m : machine => Forall Crc.is_byte m.1) _ _ _ (on_flash_bytes d app_ok)
                (torn_flash_bytes d app_ok) Hcut Hbytes) as Hbytes'.
  destruct (lay_run _ _ _ _ _ _ _ lay) as (Hra & Hrm & Hri).
  pose proof (load_local c0 m.1 run.(address) run.(size) Hlen Hbytes Hbytes' Hra (lay_run_size _ _ _ _ _ _ _ lay) Hrm Hri
                (lay_chip _ _ _ _ _ _ _ lay) Hsame Hrun) as Hok.
  destruct (boot_order d behind mapped load _ _ _ _ _ _ lay maps m.1 Hlen) as (initial & Hini & Hboot).
  pose proof (named_slot_range (otadata_of m.1 od)) as Hk. set (k := named_slot (otadata_of m.1 od)) in *.
  assert (Hnamed : ends os = 0 -> named = slot p0 p1 k) by (intros E; unfold named, k; by rewrite (Hsaved E)).
  assert (Hc' : forall i, selected (otadata_of m.1 od) <> None ->
    set_actual_ota_seq m.1 (slots_bs od p0 p1) initial i = m.1).
  { intros i Hs. unfold set_actual_ota_seq. by rewrite (Hini Hs), andb_false_r. }
  pose proof (actual_outside d _ _ _ _ _ _ lay m.1 initial) as Hout. unfold tried, slot_verdict in Hboot.
  destruct (slots_cases d _ _ _ _ _ _ lay k Hk) as [[E1 E2]|[E1 E2]]; rewrite E1, E2, ?Hok in Hboot.
  - exists k. eexists. split; [exact Hboot|]. rewrite E1. auto.
  - assert (Hns : load m.1 other.(address) other.(size) <> Stopped).
    { destruct Hstop as [Hs|[Hz Hn]]; [done|]. exfalso. rewrite (Hnamed Hz), E1 in Hn.
      destruct (other_facts d _ _ _ _ _ _ lay) as (_ & _ & ?). done. }
    assert (Hne : ends os = 0 -> named = run -> False).
    { intros Hz Hn. rewrite (Hnamed Hz), E1 in Hn. destruct (other_facts d _ _ _ _ _ _ lay) as (_ & _ & ?). done. }
    destruct (load m.1 other.(address) other.(size)) eqn:Hl; [| |done].
    + exists k. eexists. split; [exact Hboot|]. rewrite E1. split_and!; [done|auto|auto|intros; by exfalso; auto].
    + exists (1 - k). eexists. split; [exact Hboot|]. rewrite E2. auto.
Qed.

(** A session that is cut off, on a device that runs from the first slot. *)
Lemma update_never_bricks_witness :
  exists k c', boot (fun _ => 0) (fun _ _ => true) (ImageCheck.boot_verdict ImageCheck.sample_boot) ivy_board.(parts) (ivy_chip, @nil bool).1 =
    Loaded k c' /\ slot ivy_ota_0 ivy_ota_1 k = ivy_ota_0.
Proof.
  destruct (update_never_bricks ivy_board (fun _ => 0) (fun _ _ => true) (ImageCheck.app_verdict ImageCheck.sample_app)
              (ImageCheck.boot_verdict ImageCheck.sample_boot) ivy_otadata ivy_ota_0 ivy_ota_1 ivy_ota_0 ivy_ota_1 ivy_chip []
              Ota.tkl_ota_handle [Ota.Start 5000 0 0; Ota.Data (Some (Ota.mk_pack 5000 0 [0xE9; 1; 2] 3)) (Some 0)]
              (ivy_chip, []) (ivy_layout _ ivy_chip_length) ltac:(done) ImageCheck.sample_loader ivy_chip_bytes
              (proj2 (ivy_accepted ivy_chip 0x10000 ivy_chip_length ivy_chip_bytes (or_introl eq_refl) ivy_chip_slot)))
    as (_ & _ & Hk).
  - constructor; [split; [discriminate|reflexivity]|constructor; [reflexivity|constructor]].
  - apply cut_here.
  - destruct (Hk (or_intror (conj eq_refl ivy_named))) as (k & c' & Hb & _ & _ & _ & Hs). exists k, c'. exact (conj Hb (Hs eq_refl ivy_named)).
Defined.

(** C2: an update that is delivered is installed.  When the client announces an
    image that fits the other slot, delivers it in packets and ends the session,
    and the allocations and mappings on the way succeed,
    every call succeeds, the slot holds exactly the image, nothing else on the
    flash has changed except the selection entries, and the next boot loads that
    slot.  The image is one the application and the bootloader accept in that slot,
    starting with the magic byte; the device has two slots and no factory application, with
    places as in [layout]; the selected sequence number, if there is one, lies between 1 and
    2^32 - 5. *)
Theorem update_installs (d : board) (behind : Z -> Z) (mapped : Z -> Z -> bool) (app_ok : list Z -> Z -> Z -> bool)
    (load : list Z -> Z -> Z -> verdict) (od p0 p1 run other : esp_partition_t) (c0 : list Z) (ty path : Z)
    (packs : list Ota.TUYA_OTA_DATA_T) :
  let img := concat (map Ota.data packs) in
  let n := Z.of_nat (length img) in
  layout d od p0 p1 run other c0 -> maps_chip mapped (Z.of_nat (length c0)) -> Forall Crc.is_byte c0 ->
  can_switch (otadata_of c0 od) ->
  Forall Ota.packet_ok packs -> Forall Crc.is_byte img -> 0 < n <= other.(size) -> magic_first img ->
  (forall c, length c = length c0 -> Forall Crc.is_byte c -> slice c (Z.to_nat other.(address)) (length img) = img ->
     app_ok c other.(address) other.(size) = true /\ load c other.(address) other.(size) = Accepted) ->
  exists o m k,
    interp (on_flash d app_ok)
      (client d Ota.tkl_ota_handle (Ota.Start n ty path :: map Ota.data_op packs ++ [Ota.End false]) no_ops) (c0, []) =
      Some ((Ota.TKL_OTA_UPGRADE_HANDLE_INIT, replicate (S (length packs + 1)) OPRT_OK, o), m) /\
    slice m.1 (Z.to_nat other.(address)) (length img) = img /\
    (forall i, ~ (other.(address) <= Z.of_nat i < other.(address) + other.(size)) ->
       ~ (od.(address) <= Z.of_nat i < od.(address) + od.(size)) -> m.1 !! i = c0 !! i) /\
    boot behind mapped load d.(parts) m.1 = Loaded k m.1 /\ slot p0 p1 k = other.
Proof.
  intros img n lay maps Hc0 Hsw Hok Hbytes Hn Hmagic Himg.
  assert (G : good od run c0 can_switch c0) by (by constructor).
  destruct (start_runs d app_ok _ _ _ _ _ _ lay n ty path Hn) as (z & Hd & Hstart).
  set (m1 := flash_after other c0 n img).
  assert (Hsl : slice m1.1 (Z.to_nat other.(address)) (length img) = img)
    by (eapply flash_after_image; [exact lay|done|unfold n; lia|done]).
  pose proof (flash_after_outside d _ _ _ _ _ _ lay n img Hn ltac:(unfold n; lia)) as [Hl1 Ho1]. fold m1 in Hl1, Ho1.
  assert (Hby1 : Forall Crc.is_byte m1.1) by (by apply program_bytes, erase_bytes).
  assert (Hr0 : Ota.represents (Ota.mk_handle Ota.TKL_OTA_BEGIN 1 (Some z) n 0) (Ota.Receiving z 1 n []))
    by (pose proof (lay_size _ _ _ _ _ _ _ lay); apply Ota.repr_begin; lia).
  destruct (packets_run d app_ok _ _ _ _ _ _ lay packs
              (Ota.mk_handle Ota.TKL_OTA_BEGIN 1 (Some z) n 0) z n []
              Hr0 Hok Hn eq_refl Hmagic [Ota.End false]
              (fun '((h', rs, o), m) => h' = Ota.TKL_OTA_UPGRADE_HANDLE_INIT /\ rs = [OPRT_OK] /\
                 exists v, (forall s, selected (otadata_of m1.1 od) = Some s -> s <= v) /\ 1 <= v < UINT32_MAX /\
                   slot p0 p1 ((v - 1) mod 2) = other /\ m = (switched od m1.1 v, [])))
    as (h' & rs & o & m & (-> & -> & v & Hv & Hv1 & Hslot & ->) & Hrun).
  { intros h1 Hr1. destruct (end_runs d app_ok _ _ _ _ _ _ lay h1 z n img Hr1 Hd Hn eq_refl G (proj1 (Himg _ Hl1 Hby1 Hsl)))
      as (v & Hv & Hv1 & Hslot & Hend). eexists. split; [|exact Hend]. simpl. eauto 10. }
  destruct (switched_facts d _ _ _ _ _ _ lay m1.1 v Hl1 Hv ltac:(lia)) as [[Hl2 Ho2] Hsel].
  assert (Hsl2 : slice (switched od m1.1 v) (Z.to_nat other.(address)) (length img) = img).
  { rewrite <- Hsl at 2. apply slice_ext. intros i Hi. apply Ho2.
    pose proof (lay_apart _ _ _ _ _ _ _ lay) as Hd'. pose proof (other_bounds d _ _ _ _ _ _ lay).
    unfold disjoint_parts, n in *. lia. }
  assert (Hby2 : Forall Crc.is_byte (switched od m1.1 v)) by (by apply program_bytes, erase_bytes).
  pose proof (boot_selected d behind mapped load _ _ _ _ _ _ lay maps (switched od m1.1 v) v (eq_trans Hl2 Hl1) Hsel
                ltac:(unfold UINT32_MAX in *; lia)) as Hboot.
  rewrite Hslot in Hboot. specialize (Hboot (proj2 (Himg _ (eq_trans Hl2 Hl1) Hby2 Hsl2))).
  exists o, (switched od m1.1 v, []), ((v - 1) mod 2). split_and!; [|done| |done|done].
  - unfold client in *. cbn [Ota.run_ops Ota.run_op]. rewrite interp_translate_bind, Hstart, interp_translate_bind.
    unfold flash_after, ops_after in Hrun. rewrite program_nil in Hrun.
    change (Z.of_nat (length [])) with 0 in Hrun. rewrite Hrun.
    change (replicate (S (length packs + 1)) OPRT_OK) with (OPRT_OK :: replicate (length packs + 1) OPRT_OK).
    by rewrite replicate_add.
  - intros i Hi1 Hi2. cbn [fst]. rewrite Ho2 by done. by apply Ho1.
Qed.

Lemma update_installs_witness :
  exists o m k,
    interp (on_flash ivy_board (ImageCheck.app_verdict ImageCheck.sample_app))
      (client ivy_board Ota.tkl_ota_handle
         [Ota.Start 80 0 0; Ota.data_op (Ota.mk_pack 80 0 (take 50 ivy_image) 50);
          Ota.data_op (Ota.mk_pack 80 50 (drop 50 ivy_image) 30); Ota.End false]
         no_ops) (ivy_chip, []) =
      Some ((Ota.TKL_OTA_UPGRADE_HANDLE_INIT, [OPRT_OK; OPRT_OK; OPRT_OK; OPRT_OK], o), m) /\
    slice m.1 (Z.to_nat ivy_ota_1.(address)) 80 = ivy_image /\
    boot (fun _ => 0) (fun _ _ => true) (ImageCheck.boot_verdict ImageCheck.sample_boot) ivy_board.(parts) m.1 = Loaded k m.1 /\
    slot ivy_ota_0 ivy_ota_1 k = ivy_ota_1.
Proof.
  destruct (update_installs ivy_board (fun _ => 0) (fun _ _ => true) (ImageCheck.app_verdict ImageCheck.sample_app)
              (ImageCheck.boot_verdict ImageCheck.sample_boot) ivy_otadata ivy_ota_0 ivy_ota_1 ivy_ota_0 ivy_ota_1 ivy_chip 0 0
              [Ota.mk_pack 80 0 (take 50 ivy_image) 50; Ota.mk_pack 80 50 (drop 50 ivy_image) 30]
              (ivy_layout _ ivy_chip_length) ltac:(done) ivy_chip_bytes)
    as (o & m & k & H1 & H2 & _ & H3 & H4).
  - intros s Hs. rewrite ivy_chip_selected in Hs. injection Hs as <-. split; [discriminate|reflexivity].
  - repeat constructor.
  - by apply ImageCheck.bytes_decided.
  - split; [reflexivity|discriminate].
  - reflexivity.
  - intros c Hl Hb Hc. apply ivy_accepted; [rewrite Hl; apply ivy_chip_length|exact Hb|right; reflexivity|exact Hc].
  - exact (ex_intro _ o (ex_intro _ m (ex_intro _ k (conj H1 (conj H2 (conj H3 H4)))))).
Defined.

(** C3: the application and the bootloader agree.  Whatever the selection entries
    hold, [esp_ota_get_boot_partition] names a slot, or none if the entries cannot be
    mapped; and if the slot has a good image it is the one the bootloader loads.  The device
    has two slots and no factory application, with places as in [layout], and a bootloader
    that can map the chip. *)
Theorem boot_partition_agrees (d : board) (behind : Z -> Z) (mapped : Z -> Z -> bool) (app_ok : list Z -> Z -> Z -> bool)
    (load : list Z -> Z -> Z -> verdict) (od p0 p1 run other : esp_partition_t) (c : list Z) (mem : list bool) :
  layout d od p0 p1 run other c -> maps_chip mapped (Z.of_nat (length c)) ->
  exists k,
    interp (on_flash d app_ok) (EspOta.esp_ota_get_boot_partition d) (c, mem) =
      Some (if granted (c, mem) then Some (slot p0 p1 k) else None, (c, tail mem)) /\
    (load c (slot p0 p1 k).(address) (slot p0 p1 k).(size) = Accepted ->
     exists c', boot behind mapped load d.(parts) c = Loaded k c').
Proof.
  intros lay maps. exists (named_slot (otadata_of c od)). split.
  - exact (get_boot_runs d app_ok _ _ _ _ _ _ lay (c, mem)).
  - intros Hok. destruct (boot_order d behind mapped load _ _ _ _ _ _ lay maps c eq_refl) as (initial & _ & ->).
    unfold tried, slot_verdict. rewrite Hok. eauto.
Qed.

(** An erased device. *)
Lemma boot_partition_agrees_witness :
  exists k,
    interp (on_flash ivy_board (fun _ _ _ => true)) (EspOta.esp_ota_get_boot_partition ivy_board) (blank_chip, []) =
      Some (Some (slot ivy_ota_0 ivy_ota_1 k), (blank_chip, [])) /\
    exists c', boot (fun _ => 0) (fun _ _ => true) (fun _ _ _ => Accepted) ivy_board.(parts) blank_chip = Loaded k c'.
Proof.
  destruct (boot_partition_agrees ivy_board (fun _ => 0) (fun _ _ => true) (fun _ _ _ => true) (fun _ _ _ => Accepted) _ _ _ _ _
              blank_chip [] (ivy_layout _ blank_chip_length) ltac:(done))
    as (k & H1 & H2).
  exact (ex_intro _ k (conj H1 (H2 eq_refl))).
Defined.
End Update.
