(* ===== verification/JpegTables.v ===== *)
(** * The tables of the JPEG decoder: [jpeg.inl]

    The constant arrays of the decoder as they stand in the source, and what they
    compute: the zigzag order and its inverse, and the range tables as a clamp of
    a ten-bit two's complement number. *)
From stdpp Require Import base list.
From Stdlib Require Import ZArith Lia.
Local Open Scope Z_scope.

Module JpegTables.

Definition cZigZag : list Z :=
  [0; 1; 5; 6; 14; 15; 27; 28; 2; 4; 7; 13; 16; 26; 29; 42;
   3; 8; 12; 17; 25; 30; 41; 43; 9; 11; 18; 24; 31; 40; 44; 53;
   10; 19; 23; 32; 39; 45; 52; 54; 20; 22; 33; 38; 46; 51; 55; 60;
   21; 34; 37; 47; 50; 56; 59; 61; 35; 36; 48; 49; 57; 58; 62; 63].

Definition cZigZag2 : list Z :=
  [0; 1; 8; 16; 9; 2; 3; 10; 17; 24; 32; 25; 18; 11; 4; 5;
   12; 19; 26; 33; 40; 48; 41; 34; 27; 20; 13; 6; 7; 14; 21; 28;
   35; 42; 49; 56; 57; 50; 43; 36; 29; 22; 15; 23; 30; 37; 44; 51;
   58; 59; 52; 45; 38; 31; 39; 46; 53; 60; 61; 54; 47; 55; 62; 63].

Definition iScaleBits : list Z :=
  [16384; 22725; 21407; 19266; 16384; 12873; 8867; 4520; 22725; 31521; 29692; 26722; 22725; 17855; 12299; 6270;
   21407; 29692; 27969; 25172; 21407; 16819; 11585; 5906; 19266; 26722; 25172; 22654; 19266; 15137; 10426; 5315;
   16384; 22725; 21407; 19266; 16384; 12873; 8867; 4520; 12873; 17855; 16819; 15137; 12873; 10114; 6967; 3552;
   8867; 12299; 11585; 10426; 8867; 6967; 4799; 2446; 4520; 6270; 5906; 5315; 4520; 3552; 2446; 1247].

Definition ucRangeTable : list Z :=
  [128; 129; 130; 131; 132; 133; 134; 135; 136; 137; 138; 139; 140; 141; 142; 143; 144; 145; 146; 147; 148; 149; 150; 151; 152; 153; 154; 155; 156; 157; 158; 159;
   160; 161; 162; 163; 164; 165; 166; 167; 168; 169; 170; 171; 172; 173; 174; 175; 176; 177; 178; 179; 180; 181; 182; 183; 184; 185; 186; 187; 188; 189; 190; 191;
   192; 193; 194; 195; 196; 197; 198; 199; 200; 201; 202; 203; 204; 205; 206; 207; 208; 209; 210; 211; 212; 213; 214; 215; 216; 217; 218; 219; 220; 221; 222; 223;
   224; 225; 226; 227; 228; 229; 230; 231; 232; 233; 234; 235; 236; 237; 238; 239; 240; 241; 242; 243; 244; 245; 246; 247; 248; 249; 250; 251; 252; 253; 254; 255;
   255; 255; 255; 255; 255; 255; 255; 255; 255; 255; 255; 255; 255; 255; 255; 255; 255; 255; 255; 255; 255; 255; 255; 255; 255; 255; 255; 255; 255; 255; 255; 255;
   255; 255; 255; 255; 255; 255; 255; 255; 255; 255; 255; 255; 255; 255; 255; 255; 255; 255; 255; 255; 255; 255; 255; 255; 255; 255; 255; 255; 255; 255; 255; 255;
   255; 255; 255; 255; 255; 255; 255; 255; 255; 255; 255; 255; 255; 255; 255; 255; 255; 255; 255; 255; 255; 255; 255; 255; 255; 255; 255; 255; 255; 255; 255; 255;
   255; 255; 255; 255; 255; 255; 255; 255; 255; 255; 255; 255; 255; 255; 255; 255; 255; 255; 255; 255; 255; 255; 255; 255; 255; 255; 255; 255; 255; 255; 255; 255;
   255; 255; 255; 255; 255; 255; 255; 255; 255; 255; 255; 255; 255; 255; 255; 255; 255; 255; 255; 255; 255; 255; 255; 255; 255; 255; 255; 255; 255; 255; 255; 255;
   255; 255; 255; 255; 255; 255; 255; 255; 255; 255; 255; 255; 255; 255; 255; 255; 255; 255; 255; 255; 255; 255; 255; 255; 255; 255; 255; 255; 255; 255; 255; 255;
   255; 255; 255; 255; 255; 255; 255; 255; 255; 255; 255; 255; 255; 255; 255; 255; 255; 255; 255; 255; 255; 255; 255; 255; 255; 255; 255; 255; 255; 255; 255; 255;
   255; 255; 255; 255; 255; 255; 255; 255; 255; 255; 255; 255; 255; 255; 255; 255; 255; 255; 255; 255; 255; 255; 255; 255; 255; 255; 255; 255; 255; 255; 255; 255;
   255; 255; 255; 255; 255; 255; 255; 255; 255; 255; 255; 255; 255; 255; 255; 255; 255; 255; 255; 255; 255; 255; 255; 255; 255; 255; 255; 255; 255; 255; 255; 255;
   255; 255; 255; 255; 255; 255; 255; 255; 255; 255; 255; 255; 255; 255; 255; 255; 255; 255; 255; 255; 255; 255; 255; 255; 255; 255; 255; 255; 255; 255; 255; 255;
   255; 255; 255; 255; 255; 255; 255; 255; 255; 255; 255; 255; 255; 255; 255; 255; 255; 255; 255; 255; 255; 255; 255; 255; 255; 255; 255; 255; 255; 255; 255; 255;
   255; 255; 255; 255; 255; 255; 255; 255; 255; 255; 255; 255; 255; 255; 255; 255; 255; 255; 255; 255; 255; 255; 255; 255; 255; 255; 255; 255; 255; 255; 255; 255;
   0; 0; 0; 0; 0; 0; 0; 0; 0; 0; 0; 0; 0; 0; 0; 0; 0; 0; 0; 0; 0; 0; 0; 0; 0; 0; 0; 0; 0; 0; 0; 0;
   0; 0; 0; 0; 0; 0; 0; 0; 0; 0; 0; 0; 0; 0; 0; 0; 0; 0; 0; 0; 0; 0; 0; 0; 0; 0; 0; 0; 0; 0; 0; 0;
   0; 0; 0; 0; 0; 0; 0; 0; 0; 0; 0; 0; 0; 0; 0; 0; 0; 0; 0; 0; 0; 0; 0; 0; 0; 0; 0; 0; 0; 0; 0; 0;
   0; 0; 0; 0; 0; 0; 0; 0; 0; 0; 0; 0; 0; 0; 0; 0; 0; 0; 0; 0; 0; 0; 0; 0; 0; 0; 0; 0; 0; 0; 0; 0;
   0; 0; 0; 0; 0; 0; 0; 0; 0; 0; 0; 0; 0; 0; 0; 0; 0; 0; 0; 0; 0; 0; 0; 0; 0; 0; 0; 0; 0; 0; 0; 0;
   0; 0; 0; 0; 0; 0; 0; 0; 0; 0; 0; 0; 0; 0; 0; 0; 0; 0; 0; 0; 0; 0; 0; 0; 0; 0; 0; 0; 0; 0; 0; 0;
   0; 0; 0; 0; 0; 0; 0; 0; 0; 0; 0; 0; 0; 0; 0; 0; 0; 0; 0; 0; 0; 0; 0; 0; 0; 0; 0; 0; 0; 0; 0; 0;
   0; 0; 0; 0; 0; 0; 0; 0; 0; 0; 0; 0; 0; 0; 0; 0; 0; 0; 0; 0; 0; 0; 0; 0; 0; 0; 0; 0; 0; 0; 0; 0;
   0; 0; 0; 0; 0; 0; 0; 0; 0; 0; 0; 0; 0; 0; 0; 0; 0; 0; 0; 0; 0; 0; 0; 0; 0; 0; 0; 0; 0; 0; 0; 0;
   0; 0; 0; 0; 0; 0; 0; 0; 0; 0; 0; 0; 0; 0; 0; 0; 0; 0; 0; 0; 0; 0; 0; 0; 0; 0; 0; 0; 0; 0; 0; 0;
   0; 0; 0; 0; 0; 0; 0; 0; 0; 0; 0; 0; 0; 0; 0; 0; 0; 0; 0; 0; 0; 0; 0; 0; 0; 0; 0; 0; 0; 0; 0; 0;
   0; 0; 0; 0; 0; 0; 0; 0; 0; 0; 0; 0; 0; 0; 0; 0; 0; 0; 0; 0; 0; 0; 0; 0; 0; 0; 0; 0; 0; 0; 0; 0;
   0; 1; 2; 3; 4; 5; 6; 7; 8; 9; 10; 11; 12; 13; 14; 15; 16; 17; 18; 19; 20; 21; 22; 23; 24; 25; 26; 27; 28; 29; 30; 31;
   32; 33; 34; 35; 36; 37; 38; 39; 40; 41; 42; 43; 44; 45; 46; 47; 48; 49; 50; 51; 52; 53; 54; 55; 56; 57; 58; 59; 60; 61; 62; 63;
   64; 65; 66; 67; 68; 69; 70; 71; 72; 73; 74; 75; 76; 77; 78; 79; 80; 81; 82; 83; 84; 85; 86; 87; 88; 89; 90; 91; 92; 93; 94; 95;
   96; 97; 98; 99; 100; 101; 102; 103; 104; 105; 106; 107; 108; 109; 110; 111; 112; 113; 114; 115; 116; 117; 118; 119; 120; 121; 122; 123; 124; 125; 126; 127].

Definition usGrayTo565 : list Z :=
  [0x0000; 0x0000; 0x0000; 0x0000; 0x0020; 0x0020; 0x0020; 0x0020; 0x0841; 0x0841; 0x0841; 0x0841; 0x0861; 0x0861; 0x0861; 0x0861;
   0x1082; 0x1082; 0x1082; 0x1082; 0x10a2; 0x10a2; 0x10a2; 0x10a2; 0x18c3; 0x18c3; 0x18c3; 0x18c3; 0x18e3; 0x18e3; 0x18e3; 0x18e3;
   0x2104; 0x2104; 0x2104; 0x2104; 0x2124; 0x2124; 0x2124; 0x2124; 0x2945; 0x2945; 0x2945; 0x2945; 0x2965; 0x2965; 0x2965; 0x2965;
   0x3186; 0x3186; 0x3186; 0x3186; 0x31a6; 0x31a6; 0x31a6; 0x31a6; 0x39c7; 0x39c7; 0x39c7; 0x39c7; 0x39e7; 0x39e7; 0x39e7; 0x39e7;
   0x4208; 0x4208; 0x4208; 0x4208; 0x4228; 0x4228; 0x4228; 0x4228; 0x4a49; 0x4a49; 0x4a49; 0x4a49; 0x4a69; 0x4a69; 0x4a69; 0x4a69;
   0x528a; 0x528a; 0x528a; 0x528a; 0x52aa; 0x52aa; 0x52aa; 0x52aa; 0x5acb; 0x5acb; 0x5acb; 0x5acb; 0x5aeb; 0x5aeb; 0x5aeb; 0x5aeb;
   0x630c; 0x630c; 0x630c; 0x630c; 0x632c; 0x632c; 0x632c; 0x632c; 0x6b4d; 0x6b4d; 0x6b4d; 0x6b4d; 0x6b6d; 0x6b6d; 0x6b6d; 0x6b6d;
   0x738e; 0x738e; 0x738e; 0x738e; 0x73ae; 0x73ae; 0x73ae; 0x73ae; 0x7bcf; 0x7bcf; 0x7bcf; 0x7bcf; 0x7bef; 0x7bef; 0x7bef; 0x7bef;
   0x8410; 0x8410; 0x8410; 0x8410; 0x8430; 0x8430; 0x8430; 0x8430; 0x8c51; 0x8c51; 0x8c51; 0x8c51; 0x8c71; 0x8c71; 0x8c71; 0x8c71;
   0x9492; 0x9492; 0x9492; 0x9492; 0x94b2; 0x94b2; 0x94b2; 0x94b2; 0x9cd3; 0x9cd3; 0x9cd3; 0x9cd3; 0x9cf3; 0x9cf3; 0x9cf3; 0x9cf3;
   0xa514; 0xa514; 0xa514; 0xa514; 0xa534; 0xa534; 0xa534; 0xa534; 0xad55; 0xad55; 0xad55; 0xad55; 0xad75; 0xad75; 0xad75; 0xad75;
   0xb596; 0xb596; 0xb596; 0xb596; 0xb5b6; 0xb5b6; 0xb5b6; 0xb5b6; 0xbdd7; 0xbdd7; 0xbdd7; 0xbdd7; 0xbdf7; 0xbdf7; 0xbdf7; 0xbdf7;
   0xc618; 0xc618; 0xc618; 0xc618; 0xc638; 0xc638; 0xc638; 0xc638; 0xce59; 0xce59; 0xce59; 0xce59; 0xce79; 0xce79; 0xce79; 0xce79;
   0xd69a; 0xd69a; 0xd69a; 0xd69a; 0xd6ba; 0xd6ba; 0xd6ba; 0xd6ba; 0xdedb; 0xdedb; 0xdedb; 0xdedb; 0xdefb; 0xdefb; 0xdefb; 0xdefb;
   0xe71c; 0xe71c; 0xe71c; 0xe71c; 0xe73c; 0xe73c; 0xe73c; 0xe73c; 0xef5d; 0xef5d; 0xef5d; 0xef5d; 0xef7d; 0xef7d; 0xef7d; 0xef7d;
   0xf79e; 0xf79e; 0xf79e; 0xf79e; 0xf7be; 0xf7be; 0xf7be; 0xf7be; 0xffdf; 0xffdf; 0xffdf; 0xffdf; 0xffff; 0xffff; 0xffff; 0xffff].

Definition usRangeTableR : list Z :=
  [0; 0; 0; 0; 0; 0; 0; 0; 2048; 2048; 2048; 2048; 2048; 2048; 2048; 2048; 4096; 4096; 4096; 4096; 4096; 4096; 4096; 4096; 6144; 6144; 6144; 6144; 6144; 6144; 6144; 6144;
   8192; 8192; 8192; 8192; 8192; 8192; 8192; 8192; 10240; 10240; 10240; 10240; 10240; 10240; 10240; 10240; 12288; 12288; 12288; 12288; 12288; 12288; 12288; 12288; 14336; 14336; 14336; 14336; 14336; 14336; 14336; 14336;
   16384; 16384; 16384; 16384; 16384; 16384; 16384; 16384; 18432; 18432; 18432; 18432; 18432; 18432; 18432; 18432; 20480; 20480; 20480; 20480; 20480; 20480; 20480; 20480; 22528; 22528; 22528; 22528; 22528; 22528; 22528; 22528;
   24576; 24576; 24576; 24576; 24576; 24576; 24576; 24576; 26624; 26624; 26624; 26624; 26624; 26624; 26624; 26624; 28672; 28672; 28672; 28672; 28672; 28672; 28672; 28672; 30720; 30720; 30720; 30720; 30720; 30720; 30720; 30720;
   32768; 32768; 32768; 32768; 32768; 32768; 32768; 32768; 34816; 34816; 34816; 34816; 34816; 34816; 34816; 34816; 36864; 36864; 36864; 36864; 36864; 36864; 36864; 36864; 38912; 38912; 38912; 38912; 38912; 38912; 38912; 38912;
   40960; 40960; 40960; 40960; 40960; 40960; 40960; 40960; 43008; 43008; 43008; 43008; 43008; 43008; 43008; 43008; 45056; 45056; 45056; 45056; 45056; 45056; 45056; 45056; 47104; 47104; 47104; 47104; 47104; 47104; 47104; 47104;
   49152; 49152; 49152; 49152; 49152; 49152; 49152; 49152; 51200; 51200; 51200; 51200; 51200; 51200; 51200; 51200; 53248; 53248; 53248; 53248; 53248; 53248; 53248; 53248; 55296; 55296; 55296; 55296; 55296; 55296; 55296; 55296;
   57344; 57344; 57344; 57344; 57344; 57344; 57344; 57344; 59392; 59392; 59392; 59392; 59392; 59392; 59392; 59392; 61440; 61440; 61440; 61440; 61440; 61440; 61440; 61440; 63488; 63488; 63488; 63488; 63488; 63488; 63488; 63488;
   63488; 63488; 63488; 63488; 63488; 63488; 63488; 63488; 63488; 63488; 63488; 63488; 63488; 63488; 63488; 63488; 63488; 63488; 63488; 63488; 63488; 63488; 63488; 63488; 63488; 63488; 63488; 63488; 63488; 63488; 63488; 63488;
   63488; 63488; 63488; 63488; 63488; 63488; 63488; 63488; 63488; 63488; 63488; 63488; 63488; 63488; 63488; 63488; 63488; 63488; 63488; 63488; 63488; 63488; 63488; 63488; 63488; 63488; 63488; 63488; 63488; 63488; 63488; 63488;
   63488; 63488; 63488; 63488; 63488; 63488; 63488; 63488; 63488; 63488; 63488; 63488; 63488; 63488; 63488; 63488; 63488; 63488; 63488; 63488; 63488; 63488; 63488; 63488; 63488; 63488; 63488; 63488; 63488; 63488; 63488; 63488;
   63488; 63488; 63488; 63488; 63488; 63488; 63488; 63488; 63488; 63488; 63488; 63488; 63488; 63488; 63488; 63488; 63488; 63488; 63488; 63488; 63488; 63488; 63488; 63488; 63488; 63488; 63488; 63488; 63488; 63488; 63488; 63488;
   63488; 63488; 63488; 63488; 63488; 63488; 63488; 63488; 63488; 63488; 63488; 63488; 63488; 63488; 63488; 63488; 63488; 63488; 63488; 63488; 63488; 63488; 63488; 63488; 63488; 63488; 63488; 63488; 63488; 63488; 63488; 63488;
   63488; 63488; 63488; 63488; 63488; 63488; 63488; 63488; 63488; 63488; 63488; 63488; 63488; 63488; 63488; 63488; 63488; 63488; 63488; 63488; 63488; 63488; 63488; 63488; 63488; 63488; 63488; 63488; 63488; 63488; 63488; 63488;
   63488; 63488; 63488; 63488; 63488; 63488; 63488; 63488; 63488; 63488; 63488; 63488; 63488; 63488; 63488; 63488; 63488; 63488; 63488; 63488; 63488; 63488; 63488; 63488; 63488; 63488; 63488; 63488; 63488; 63488; 63488; 63488;
   63488; 63488; 63488; 63488; 63488; 63488; 63488; 63488; 63488; 63488; 63488; 63488; 63488; 63488; 63488; 63488; 63488; 63488; 63488; 63488; 63488; 63488; 63488; 63488; 63488; 63488; 63488; 63488; 63488; 63488; 63488; 63488;
   0; 0; 0; 0; 0; 0; 0; 0; 0; 0; 0; 0; 0; 0; 0; 0; 0; 0; 0; 0; 0; 0; 0; 0; 0; 0; 0; 0; 0; 0; 0; 0;
   0; 0; 0; 0; 0; 0; 0; 0; 0; 0; 0; 0; 0; 0; 0; 0; 0; 0; 0; 0; 0; 0; 0; 0; 0; 0; 0; 0; 0; 0; 0; 0;
   0; 0; 0; 0; 0; 0; 0; 0; 0; 0; 0; 0; 0; 0; 0; 0; 0; 0; 0; 0; 0; 0; 0; 0; 0; 0; 0; 0; 0; 0; 0; 0;
   0; 0; 0; 0; 0; 0; 0; 0; 0; 0; 0; 0; 0; 0; 0; 0; 0; 0; 0; 0; 0; 0; 0; 0; 0; 0; 0; 0; 0; 0; 0; 0;
   0; 0; 0; 0; 0; 0; 0; 0; 0; 0; 0; 0; 0; 0; 0; 0; 0; 0; 0; 0; 0; 0; 0; 0; 0; 0; 0; 0; 0; 0; 0; 0;
   0; 0; 0; 0; 0; 0; 0; 0; 0; 0; 0; 0; 0; 0; 0; 0; 0; 0; 0; 0; 0; 0; 0; 0; 0; 0; 0; 0; 0; 0; 0; 0;
   0; 0; 0; 0; 0; 0; 0; 0; 0; 0; 0; 0; 0; 0; 0; 0; 0; 0; 0; 0; 0; 0; 0; 0; 0; 0; 0; 0; 0; 0; 0; 0;
   0; 0; 0; 0; 0; 0; 0; 0; 0; 0; 0; 0; 0; 0; 0; 0; 0; 0; 0; 0; 0; 0; 0; 0; 0; 0; 0; 0; 0; 0; 0; 0;
   0; 0; 0; 0; 0; 0; 0; 0; 0; 0; 0; 0; 0; 0; 0; 0; 0; 0; 0; 0; 0; 0; 0; 0; 0; 0; 0; 0; 0; 0; 0; 0;
   0; 0; 0; 0; 0; 0; 0; 0; 0; 0; 0; 0; 0; 0; 0; 0; 0; 0; 0; 0; 0; 0; 0; 0; 0; 0; 0; 0; 0; 0; 0; 0;
   0; 0; 0; 0; 0; 0; 0; 0; 0; 0; 0; 0; 0; 0; 0; 0; 0; 0; 0; 0; 0; 0; 0; 0; 0; 0; 0; 0; 0; 0; 0; 0;
   0; 0; 0; 0; 0; 0; 0; 0; 0; 0; 0; 0; 0; 0; 0; 0; 0; 0; 0; 0; 0; 0; 0; 0; 0; 0; 0; 0; 0; 0; 0; 0;
   0; 0; 0; 0; 0; 0; 0; 0; 0; 0; 0; 0; 0; 0; 0; 0; 0; 0; 0; 0; 0; 0; 0; 0; 0; 0; 0; 0; 0; 0; 0; 0;
   0; 0; 0; 0; 0; 0; 0; 0; 0; 0; 0; 0; 0; 0; 0; 0; 0; 0; 0; 0; 0; 0; 0; 0; 0; 0; 0; 0; 0; 0; 0; 0;
   0; 0; 0; 0; 0; 0; 0; 0; 0; 0; 0; 0; 0; 0; 0; 0; 0; 0; 0; 0; 0; 0; 0; 0; 0; 0; 0; 0; 0; 0; 0; 0;
   0; 0; 0; 0; 0; 0; 0; 0; 0; 0; 0; 0; 0; 0; 0; 0; 0; 0; 0; 0; 0; 0; 0; 0; 0; 0; 0; 0; 0; 0; 0; 0].

Definition usRangeTableG : list Z :=
  [0; 0; 0; 0; 32; 32; 32; 32; 64; 64; 64; 64; 96; 96; 96; 96; 128; 128; 128; 128; 160; 160; 160; 160; 192; 192; 192; 192; 224; 224; 224; 224;
   256; 256; 256; 256; 288; 288; 288; 288; 320; 320; 320; 320; 352; 352; 352; 352; 384; 384; 384; 384; 416; 416; 416; 416; 448; 448; 448; 448; 480; 480; 480; 480;
   512; 512; 512; 512; 544; 544; 544; 544; 576; 576; 576; 576; 608; 608; 608; 608; 640; 640; 640; 640; 672; 672; 672; 672; 704; 704; 704; 704; 736; 736; 736; 736;
   768; 768; 768; 768; 800; 800; 800; 800; 832; 832; 832; 832; 864; 864; 864; 864; 896; 896; 896; 896; 928; 928; 928; 928; 960; 960; 960; 960; 992; 992; 992; 992;
   1024; 1024; 1024; 1024; 1056; 1056; 1056; 1056; 1088; 1088; 1088; 1088; 1120; 1120; 1120; 1120; 1152; 1152; 1152; 1152; 1184; 1184; 1184; 1184; 1216; 1216; 1216; 1216; 1248; 1248; 1248; 1248;
   1280; 1280; 1280; 1280; 1312; 1312; 1312; 1312; 1344; 1344; 1344; 1344; 1376; 1376; 1376; 1376; 1408; 1408; 1408; 1408; 1440; 1440; 1440; 1440; 1472; 1472; 1472; 1472; 1504; 1504; 1504; 1504;
   1536; 1536; 1536; 1536; 1568; 1568; 1568; 1568; 1600; 1600; 1600; 1600; 1632; 1632; 1632; 1632; 1664; 1664; 1664; 1664; 1696; 1696; 1696; 1696; 1728; 1728; 1728; 1728; 1760; 1760; 1760; 1760;
   1792; 1792; 1792; 1792; 1824; 1824; 1824; 1824; 1856; 1856; 1856; 1856; 1888; 1888; 1888; 1888; 1920; 1920; 1920; 1920; 1952; 1952; 1952; 1952; 1984; 1984; 1984; 1984; 2016; 2016; 2016; 2016;
   2016; 2016; 2016; 2016; 2016; 2016; 2016; 2016; 2016; 2016; 2016; 2016; 2016; 2016; 2016; 2016; 2016; 2016; 2016; 2016; 2016; 2016; 2016; 2016; 2016; 2016; 2016; 2016; 2016; 2016; 2016; 2016;
   2016; 2016; 2016; 2016; 2016; 2016; 2016; 2016; 2016; 2016; 2016; 2016; 2016; 2016; 2016; 2016; 2016; 2016; 2016; 2016; 2016; 2016; 2016; 2016; 2016; 2016; 2016; 2016; 2016; 2016; 2016; 2016;
   2016; 2016; 2016; 2016; 2016; 2016; 2016; 2016; 2016; 2016; 2016; 2016; 2016; 2016; 2016; 2016; 2016; 2016; 2016; 2016; 2016; 2016; 2016; 2016; 2016; 2016; 2016; 2016; 2016; 2016; 2016; 2016;
   2016; 2016; 2016; 2016; 2016; 2016; 2016; 2016; 2016; 2016; 2016; 2016; 2016; 2016; 2016; 2016; 2016; 2016; 2016; 2016; 2016; 2016; 2016; 2016; 2016; 2016; 2016; 2016; 2016; 2016; 2016; 2016;
   2016; 2016; 2016; 2016; 2016; 2016; 2016; 2016; 2016; 2016; 2016; 2016; 2016; 2016; 2016; 2016; 2016; 2016; 2016; 2016; 2016; 2016; 2016; 2016; 2016; 2016; 2016; 2016; 2016; 2016; 2016; 2016;
   2016; 2016; 2016; 2016; 2016; 2016; 2016; 2016; 2016; 2016; 2016; 2016; 2016; 2016; 2016; 2016; 2016; 2016; 2016; 2016; 2016; 2016; 2016; 2016; 2016; 2016; 2016; 2016; 2016; 2016; 2016; 2016;
   2016; 2016; 2016; 2016; 2016; 2016; 2016; 2016; 2016; 2016; 2016; 2016; 2016; 2016; 2016; 2016; 2016; 2016; 2016; 2016; 2016; 2016; 2016; 2016; 2016; 2016; 2016; 2016; 2016; 2016; 2016; 2016;
   2016; 2016; 2016; 2016; 2016; 2016; 2016; 2016; 2016; 2016; 2016; 2016; 2016; 2016; 2016; 2016; 2016; 2016; 2016; 2016; 2016; 2016; 2016; 2016; 2016; 2016; 2016; 2016; 2016; 2016; 2016; 2016;
   0; 0; 0; 0; 0; 0; 0; 0; 0; 0; 0; 0; 0; 0; 0; 0; 0; 0; 0; 0; 0; 0; 0; 0; 0; 0; 0; 0; 0; 0; 0; 0;
   0; 0; 0; 0; 0; 0; 0; 0; 0; 0; 0; 0; 0; 0; 0; 0; 0; 0; 0; 0; 0; 0; 0; 0; 0; 0; 0; 0; 0; 0; 0; 0;
   0; 0; 0; 0; 0; 0; 0; 0; 0; 0; 0; 0; 0; 0; 0; 0; 0; 0; 0; 0; 0; 0; 0; 0; 0; 0; 0; 0; 0; 0; 0; 0;
   0; 0; 0; 0; 0; 0; 0; 0; 0; 0; 0; 0; 0; 0; 0; 0; 0; 0; 0; 0; 0; 0; 0; 0; 0; 0; 0; 0; 0; 0; 0; 0;
   0; 0; 0; 0; 0; 0; 0; 0; 0; 0; 0; 0; 0; 0; 0; 0; 0; 0; 0; 0; 0; 0; 0; 0; 0; 0; 0; 0; 0; 0; 0; 0;
   0; 0; 0; 0; 0; 0; 0; 0; 0; 0; 0; 0; 0; 0; 0; 0; 0; 0; 0; 0; 0; 0; 0; 0; 0; 0; 0; 0; 0; 0; 0; 0;
   0; 0; 0; 0; 0; 0; 0; 0; 0; 0; 0; 0; 0; 0; 0; 0; 0; 0; 0; 0; 0; 0; 0; 0; 0; 0; 0; 0; 0; 0; 0; 0;
   0; 0; 0; 0; 0; 0; 0; 0; 0; 0; 0; 0; 0; 0; 0; 0; 0; 0; 0; 0; 0; 0; 0; 0; 0; 0; 0; 0; 0; 0; 0; 0;
   0; 0; 0; 0; 0; 0; 0; 0; 0; 0; 0; 0; 0; 0; 0; 0; 0; 0; 0; 0; 0; 0; 0; 0; 0; 0; 0; 0; 0; 0; 0; 0;
   0; 0; 0; 0; 0; 0; 0; 0; 0; 0; 0; 0; 0; 0; 0; 0; 0; 0; 0; 0; 0; 0; 0; 0; 0; 0; 0; 0; 0; 0; 0; 0;
   0; 0; 0; 0; 0; 0; 0; 0; 0; 0; 0; 0; 0; 0; 0; 0; 0; 0; 0; 0; 0; 0; 0; 0; 0; 0; 0; 0; 0; 0; 0; 0;
   0; 0; 0; 0; 0; 0; 0; 0; 0; 0; 0; 0; 0; 0; 0; 0; 0; 0; 0; 0; 0; 0; 0; 0; 0; 0; 0; 0; 0; 0; 0; 0;
   0; 0; 0; 0; 0; 0; 0; 0; 0; 0; 0; 0; 0; 0; 0; 0; 0; 0; 0; 0; 0; 0; 0; 0; 0; 0; 0; 0; 0; 0; 0; 0;
   0; 0; 0; 0; 0; 0; 0; 0; 0; 0; 0; 0; 0; 0; 0; 0; 0; 0; 0; 0; 0; 0; 0; 0; 0; 0; 0; 0; 0; 0; 0; 0;
   0; 0; 0; 0; 0; 0; 0; 0; 0; 0; 0; 0; 0; 0; 0; 0; 0; 0; 0; 0; 0; 0; 0; 0; 0; 0; 0; 0; 0; 0; 0; 0;
   0; 0; 0; 0; 0; 0; 0; 0; 0; 0; 0; 0; 0; 0; 0; 0; 0; 0; 0; 0; 0; 0; 0; 0; 0; 0; 0; 0; 0; 0; 0; 0].

Definition usRangeTableB : list Z :=
  [0; 0; 0; 0; 0; 0; 0; 0; 1; 1; 1; 1; 1; 1; 1; 1; 2; 2; 2; 2; 2; 2; 2; 2; 3; 3; 3; 3; 3; 3; 3; 3;
   4; 4; 4; 4; 4; 4; 4; 4; 5; 5; 5; 5; 5; 5; 5; 5; 6; 6; 6; 6; 6; 6; 6; 6; 7; 7; 7; 7; 7; 7; 7; 7;
   8; 8; 8; 8; 8; 8; 8; 8; 9; 9; 9; 9; 9; 9; 9; 9; 10; 10; 10; 10; 10; 10; 10; 10; 11; 11; 11; 11; 11; 11; 11; 11;
   12; 12; 12; 12; 12; 12; 12; 12; 13; 13; 13; 13; 13; 13; 13; 13; 14; 14; 14; 14; 14; 14; 14; 14; 15; 15; 15; 15; 15; 15; 15; 15;
   16; 16; 16; 16; 16; 16; 16; 16; 17; 17; 17; 17; 17; 17; 17; 17; 18; 18; 18; 18; 18; 18; 18; 18; 19; 19; 19; 19; 19; 19; 19; 19;
   20; 20; 20; 20; 20; 20; 20; 20; 21; 21; 21; 21; 21; 21; 21; 21; 22; 22; 22; 22; 22; 22; 22; 22; 23; 23; 23; 23; 23; 23; 23; 23;
   24; 24; 24; 24; 24; 24; 24; 24; 25; 25; 25; 25; 25; 25; 25; 25; 26; 26; 26; 26; 26; 26; 26; 26; 27; 27; 27; 27; 27; 27; 27; 27;
   28; 28; 28; 28; 28; 28; 28; 28; 29; 29; 29; 29; 29; 29; 29; 29; 30; 30; 30; 30; 30; 30; 30; 30; 31; 31; 31; 31; 31; 31; 31; 31;
   31; 31; 31; 31; 31; 31; 31; 31; 31; 31; 31; 31; 31; 31; 31; 31; 31; 31; 31; 31; 31; 31; 31; 31; 31; 31; 31; 31; 31; 31; 31; 31;
   31; 31; 31; 31; 31; 31; 31; 31; 31; 31; 31; 31; 31; 31; 31; 31; 31; 31; 31; 31; 31; 31; 31; 31; 31; 31; 31; 31; 31; 31; 31; 31;
   31; 31; 31; 31; 31; 31; 31; 31; 31; 31; 31; 31; 31; 31; 31; 31; 31; 31; 31; 31; 31; 31; 31; 31; 31; 31; 31; 31; 31; 31; 31; 31;
   31; 31; 31; 31; 31; 31; 31; 31; 31; 31; 31; 31; 31; 31; 31; 31; 31; 31; 31; 31; 31; 31; 31; 31; 31; 31; 31; 31; 31; 31; 31; 31;
   31; 31; 31; 31; 31; 31; 31; 31; 31; 31; 31; 31; 31; 31; 31; 31; 31; 31; 31; 31; 31; 31; 31; 31; 31; 31; 31; 31; 31; 31; 31; 31;
   31; 31; 31; 31; 31; 31; 31; 31; 31; 31; 31; 31; 31; 31; 31; 31; 31; 31; 31; 31; 31; 31; 31; 31; 31; 31; 31; 31; 31; 31; 31; 31;
   31; 31; 31; 31; 31; 31; 31; 31; 31; 31; 31; 31; 31; 31; 31; 31; 31; 31; 31; 31; 31; 31; 31; 31; 31; 31; 31; 31; 31; 31; 31; 31;
   31; 31; 31; 31; 31; 31; 31; 31; 31; 31; 31; 31; 31; 31; 31; 31; 31; 31; 31; 31; 31; 31; 31; 31; 31; 31; 31; 31; 31; 31; 31; 31;
   0; 0; 0; 0; 0; 0; 0; 0; 0; 0; 0; 0; 0; 0; 0; 0; 0; 0; 0; 0; 0; 0; 0; 0; 0; 0; 0; 0; 0; 0; 0; 0;
   0; 0; 0; 0; 0; 0; 0; 0; 0; 0; 0; 0; 0; 0; 0; 0; 0; 0; 0; 0; 0; 0; 0; 0; 0; 0; 0; 0; 0; 0; 0; 0;
   0; 0; 0; 0; 0; 0; 0; 0; 0; 0; 0; 0; 0; 0; 0; 0; 0; 0; 0; 0; 0; 0; 0; 0; 0; 0; 0; 0; 0; 0; 0; 0;
   0; 0; 0; 0; 0; 0; 0; 0; 0; 0; 0; 0; 0; 0; 0; 0; 0; 0; 0; 0; 0; 0; 0; 0; 0; 0; 0; 0; 0; 0; 0; 0;
   0; 0; 0; 0; 0; 0; 0; 0; 0; 0; 0; 0; 0; 0; 0; 0; 0; 0; 0; 0; 0; 0; 0; 0; 0; 0; 0; 0; 0; 0; 0; 0;
   0; 0; 0; 0; 0; 0; 0; 0; 0; 0; 0; 0; 0; 0; 0; 0; 0; 0; 0; 0; 0; 0; 0; 0; 0; 0; 0; 0; 0; 0; 0; 0;
   0; 0; 0; 0; 0; 0; 0; 0; 0; 0; 0; 0; 0; 0; 0; 0; 0; 0; 0; 0; 0; 0; 0; 0; 0; 0; 0; 0; 0; 0; 0; 0;
   0; 0; 0; 0; 0; 0; 0; 0; 0; 0; 0; 0; 0; 0; 0; 0; 0; 0; 0; 0; 0; 0; 0; 0; 0; 0; 0; 0; 0; 0; 0; 0;
   0; 0; 0; 0; 0; 0; 0; 0; 0; 0; 0; 0; 0; 0; 0; 0; 0; 0; 0; 0; 0; 0; 0; 0; 0; 0; 0; 0; 0; 0; 0; 0;
   0; 0; 0; 0; 0; 0; 0; 0; 0; 0; 0; 0; 0; 0; 0; 0; 0; 0; 0; 0; 0; 0; 0; 0; 0; 0; 0; 0; 0; 0; 0; 0;
   0; 0; 0; 0; 0; 0; 0; 0; 0; 0; 0; 0; 0; 0; 0; 0; 0; 0; 0; 0; 0; 0; 0; 0; 0; 0; 0; 0; 0; 0; 0; 0;
   0; 0; 0; 0; 0; 0; 0; 0; 0; 0; 0; 0; 0; 0; 0; 0; 0; 0; 0; 0; 0; 0; 0; 0; 0; 0; 0; 0; 0; 0; 0; 0;
   0; 0; 0; 0; 0; 0; 0; 0; 0; 0; 0; 0; 0; 0; 0; 0; 0; 0; 0; 0; 0; 0; 0; 0; 0; 0; 0; 0; 0; 0; 0; 0;
   0; 0; 0; 0; 0; 0; 0; 0; 0; 0; 0; 0; 0; 0; 0; 0; 0; 0; 0; 0; 0; 0; 0; 0; 0; 0; 0; 0; 0; 0; 0; 0;
   0; 0; 0; 0; 0; 0; 0; 0; 0; 0; 0; 0; 0; 0; 0; 0; 0; 0; 0; 0; 0; 0; 0; 0; 0; 0; 0; 0; 0; 0; 0; 0;
   0; 0; 0; 0; 0; 0; 0; 0; 0; 0; 0; 0; 0; 0; 0; 0; 0; 0; 0; 0; 0; 0; 0; 0; 0; 0; 0; 0; 0; 0; 0; 0].

(** A ten-bit table index as the signed number it stands for, and the clamp to a byte. *)
Definition signed10 (i : Z) : Z := if i <? 512 then i else i - 1024.

Definition clamp (v : Z) : Z := Z.max 0 (Z.min 255 v).

Definition entries (n : nat) (f : Z -> Z) : list Z := map (fun k => f (Z.of_nat k)) (seq 0 n).

Lemma nth_entries (n : nat) (f : Z -> Z) (i : Z) : 0 <= i < Z.of_nat n -> nth (Z.to_nat i) (entries n f) 0 = f i.
Proof.
  intros Hi. unfold entries. rewrite (nth_indep _ 0 (f (Z.of_nat 0))) by (rewrite length_map, length_seq; lia).
  rewrite (map_nth (fun k => f (Z.of_nat k)) (seq 0 n) 0%nat), seq_nth by lia. f_equal. lia.
Qed.

Lemma signed10_land (w : Z) : - 512 <= w < 512 -> 0 <= Z.land w 0x3ff < 1024 /\ signed10 (Z.land w 0x3ff) = w.
Proof.
  intros Hw. change 0x3ff with (Z.ones 10). rewrite Z.land_ones by lia. unfold signed10.
  split; [apply Z.mod_pos_bound; lia|]. destruct (Z.lt_ge_cases w 0) as [Hn|Hn].
  - rewrite <- (Z.mod_unique_pos w (2 ^ 10) (-1) (w + 1024)) by lia. rewrite (proj2 (Z.ltb_ge _ _)) by lia. lia.
  - rewrite Z.mod_small by lia. rewrite (proj2 (Z.ltb_lt _ _)) by lia. reflexivity.
Qed.

Lemma ucRangeTable_entries : ucRangeTable = entries 1024 (fun i => clamp (signed10 i + 128)).
Proof. vm_compute. reflexivity. Qed.

Lemma usRangeTableR_entries : usRangeTableR = entries 1024 (fun i => clamp (signed10 i) / 8 * 2048).
Proof. vm_compute. reflexivity. Qed.

Lemma usRangeTableG_entries : usRangeTableG = entries 1024 (fun i => clamp (signed10 i) / 4 * 32).
Proof. vm_compute. reflexivity. Qed.

Lemma usRangeTableB_entries : usRangeTableB = entries 1024 (fun i => clamp (signed10 i) / 8).
Proof. vm_compute. reflexivity. Qed.

Lemma usGrayTo565_entries : usGrayTo565 = entries 256 (fun v => v / 8 * 2048 + v / 4 * 32 + v / 8).
Proof. vm_compute. reflexivity. Qed.

(** [cZigZag] and [cZigZag2] are inverse permutations of the 64 positions. *)
Lemma zigzag_inverse :
  map (fun i => nth (Z.to_nat i) cZigZag (-1)) cZigZag2 = entries 64 (fun i => i) /\
  map (fun i => nth (Z.to_nat i) cZigZag2 (-1)) cZigZag = entries 64 (fun i => i).
Proof. split; vm_compute; reflexivity. Qed.

End JpegTables.
