(* ===== verification/Jpeg.v ===== *)
(** * The JPEG decoder: [jpeg.inl], [JPEGDEC.cpp]

    The decoder behind the animations, as the decode task of [MjpegCodec.cpp] calls
    it: [openRAM] with a draw queue, [setMaxOutputSize] and [decode] with options 0
    and the default pixel type, little-endian RGB565.  The branches for scaled,
    dithered, gray and big-endian output and for thumbnails are not reached by
    these calls and are left out.

    The fields of [JPEGIMAGE] are grouped into records by the functions that use
    them.  Arrays are lists; [usPixels] and [sMCUs], which the code also addresses
    as bytes, are lists of bytes.  A shift by an amount outside 0..31, which C
    leaves undefined, takes the low five bits of the amount as the processor does. *)
From stdpp Require Import base list.
From Stdlib Require Import ZArith Lia.
From S2P Require Import Prelude JpegTables.
Import JpegTables.
Local Open Scope Z_scope.

Module Jpeg.

Definition FILE_HIGHWATER : Z := 1536.
Definition JPEG_FILE_BUF_SIZE : Z := 2048.
Definition HUFF_TABLEN : Z := 273.
Definition HUFF11SIZE : Z := 2048.
Definition DC_TABLE_SIZE : Z := 1024.
Definition DCTSIZE : Z := 64.
Definition MAX_MCU_COUNT : Z := 6.
Definition MAX_COMPS_IN_SCAN : Z := 4.
Definition MAX_BUFFERED_PIXELS : Z := 2560.
Definition MAX_MCU : Z := 5.
Definition MCU_SIZE : Z := 256.
Definition REGISTER_WIDTH : Z := 32.

Definition JPEG_SUCCESS : Z := 0.
Definition JPEG_INVALID_PARAMETER : Z := 1.
Definition JPEG_DECODE_ERROR : Z := 2.
Definition JPEG_UNSUPPORTED_FEATURE : Z := 3.
Definition JPEG_INVALID_FILE : Z := 4.

(** ** Running C code on arrays

    A piece of code runs to its end or leaves what C defines: an access outside an
    array, a division by zero, a null pointer.  [Unfinished] is a loop that has not
    ended within the fuel of its definition. *)
Inductive fault := OutOfBounds | DivideByZero | NullPointer | Unfinished.

Inductive run (A : Type) :=
| Ok (a : A)
| Fault (f : fault).
Arguments Ok {A} a.
Arguments Fault {A} f.

Definition rbind {A B} (r : run A) (k : A -> run B) : run B :=
  match r with
  | Ok a => k a
  | Fault f => Fault f
  end.

Declare Scope run_scope.
Delimit Scope run_scope with run.
Notation "'let!' x := r 'in' k" := (rbind r (fun x => k))
  (at level 10, x pattern, r at level 100, k at level 200) : run_scope.
Local Open Scope run_scope.

Definition get (l : list Z) (i : Z) : run Z :=
  if i <? 0 then Fault OutOfBounds
  else match l !! Z.to_nat i with
       | Some v => Ok v
       | None => Fault OutOfBounds
       end.

Definition get_all (l : list Z) (i n : Z) : run (list Z) :=
  if (0 <=? i) && (0 <=? n) && (i + n <=? Z.of_nat (length l))
  then Ok (take (Z.to_nat n) (drop (Z.to_nat i) l))
  else Fault OutOfBounds.

Definition put_all (l : list Z) (i : Z) (vs : list Z) : run (list Z) :=
  if (0 <=? i) && (i + Z.of_nat (length vs) <=? Z.of_nat (length l))
  then Ok (store_at l (Z.to_nat i) vs)
  else Fault OutOfBounds.

Definition put (l : list Z) (i v : Z) : run (list Z) := put_all l i [v].

(** [for (i = 0; i < n; i++)]. *)
Fixpoint for_from {A} (i n : nat) (f : Z -> A -> run A) (a : A) : run A :=
  match n with
  | O => Ok a
  | S n => let! a := f (Z.of_nat i) a in for_from (S i) n f a
  end.

Definition for_loop {A} (n : nat) (f : Z -> A -> run A) (a : A) : run A := for_from 0 n f a.

Definition sar (x n : Z) : Z := Z.shiftr x (n mod 32).
Definition sal (x n : Z) : Z := i32 (Z.shiftl x (n mod 32)).

Definition MOTOSHORT (l : list Z) (p : Z) : run Z :=
  let! a := get l p in let! b := get l (p + 1) in Ok (a * 256 + b).

(** As the [uint32_t] it is assigned to. *)
Definition MOTOLONG (l : list Z) (p : Z) : run Z :=
  let! a := get l p in let! b := get l (p + 1) in let! c := get l (p + 2) in let! d := get l (p + 3) in
  Ok (a * 16777216 + b * 65536 + c * 256 + d).

(** ** State *)

Record JPEGFILE := mk_file { iPos : Z; iSize : Z; pData : list Z }.

Record JPEGCOMPINFO := mk_comp {
  component_needed : Z;
  component_id : Z;
  component_index : Z;
  quant_tbl_no : Z;
  dc_tbl_no : Z;
  ac_tbl_no : Z;
}.

Record BUFFERED_BITS := mk_bits { pBuf : Z; ulBits : Z; ulBitOff : Z }.

(** What the EXIF segment and the scan header say; decoding does not use it. *)
Record exif_info := mk_exif {
  ucOrientation : Z;
  iThumbWidth : Z;
  iThumbHeight : Z;
  iThumbData : Z;
  ucHasThumb : Z;
  iEXIF : Z;
}.

Record scan_info := mk_scan {
  ucComponentsInScan : Z;
  iScanStart : Z;
  iScanEnd : Z;
  cApproxBitsLow : Z;
  cApproxBitsHigh : Z;
}.

(** What the headers say. *)
Record info := mk_info {
  iWidth : Z;
  iHeight : Z;
  ucBpp : Z;
  ucSubSample : Z;
  ucMode : Z;
  ucNumComponents : Z;
  iResInterval : Z;
  JPCI : list JPEGCOMPINFO;
  exif : exif_info;
  scan : scan_info;
  iError : Z;
}.

(** [pHuffVals] is the use of [usPixels] as bytes while the headers are read;
    [sQuantTable] and [usHuffAC] are lists of 16-bit words. *)
Record tables := mk_tables {
  ucHuffTableUsed : Z;
  pHuffVals : list Z;
  sQuantTable : list Z;
  ucHuffDC : list Z;
  usHuffAC : list Z;
}.

(** The compressed data: the file, the buffer with the filtered bytes
    [iVLCOff..iVLCSize), a pending 0xFF, and the bits being decoded. *)
Record input := mk_input {
  JPEGFile : JPEGFILE;
  ucFileBuf : list Z;
  iVLCOff : Z;
  iVLCSize : Z;
  ucFF : bool;
  bb : BUFFERED_BITS;
}.

Record JPEGIMAGE := mk_image {
  im_info : info;
  im_tables : tables;
  im_input : input;
  sMCUs : list Z;
  iMaxMCUs : Z;
}.

Definition set_error (i : info) (e : Z) : info :=
  mk_info i.(iWidth) i.(iHeight) i.(ucBpp) i.(ucSubSample) i.(ucMode) i.(ucNumComponents) i.(iResInterval)
    i.(JPCI) i.(exif) i.(scan) e.
Definition set_exif (i : info) (x : exif_info) : info :=
  mk_info i.(iWidth) i.(iHeight) i.(ucBpp) i.(ucSubSample) i.(ucMode) i.(ucNumComponents) i.(iResInterval)
    i.(JPCI) x i.(scan) i.(iError).
Definition set_components (i : info) (sub : Z) (cs : list JPEGCOMPINFO) : info :=
  mk_info i.(iWidth) i.(iHeight) i.(ucBpp) sub i.(ucMode) i.(ucNumComponents) i.(iResInterval)
    cs i.(exif) i.(scan) i.(iError).
Definition set_scan (i : info) (cs : list JPEGCOMPINFO) (s : scan_info) : info :=
  mk_info i.(iWidth) i.(iHeight) i.(ucBpp) i.(ucSubSample) i.(ucMode) i.(ucNumComponents) i.(iResInterval)
    cs i.(exif) s i.(iError).
Definition set_interval (i : info) (r : Z) : info :=
  mk_info i.(iWidth) i.(iHeight) i.(ucBpp) i.(ucSubSample) i.(ucMode) i.(ucNumComponents) r
    i.(JPCI) i.(exif) i.(scan) i.(iError).

(** ** The file in memory *)

(** The bytes read and the file afterwards. *)
Definition readRAM (f : JPEGFILE) (iLen : Z) : list Z * JPEGFILE :=
  let iBytesRead := if f.(iSize) - f.(iPos) <? iLen then f.(iSize) - f.(iPos) else iLen in
  if iBytesRead <=? 0 then ([], f)
  else (take (Z.to_nat iBytesRead) (drop (Z.to_nat f.(iPos)) f.(pData)),
        mk_file (f.(iPos) + iBytesRead) f.(iSize) f.(pData)).

Definition seekMem (f : JPEGFILE) (iPosition : Z) : JPEGFILE :=
  let iPosition := if iPosition <? 0 then 0 else if f.(iSize) <=? iPosition then f.(iSize) - 1 else iPosition in
  mk_file iPosition f.(iSize) f.(pData).

(** ** Huffman tables *)

Definition total (l : list Z) : Z := fold_right Z.add 0 l.

(** [pBuf] points to [iOffset] in the file buffer.  Every turn reads a byte, so
    the buffer bounds the turns. *)
Fixpoint huff_tables (fuel : nat) (pBuf : list Z) (iOffset iLen used : Z) (vals : list Z) : run (Z * Z * list Z) :=
  if iLen <=? 17 then Ok (0, used, vals)
  else match fuel with
  | O => Fault Unfinished
  | S fuel =>
      let! t := get pBuf iOffset in
      let iOffset := iOffset + 1 in
      let ucTable := if Z.land t 0x10 =? 0 then t else Z.lxor t 0x14 in
      let used := u8 (Z.lor used (sal 1 ucTable)) in
      if ucTable <=? 7 then
        let iTableOffset := ucTable * HUFF_TABLEN in
        let! bits := get_all pBuf iOffset 16 in
        let! vals := put_all vals iTableOffset bits in
        let iOffset := iOffset + 16 in
        let j := total bits in
        let iLen := iLen - 17 in
        if (j =? 0) || (256 <? j) || (iLen <? j) then Ok (-1, used, vals)
        else
          let! codes := get_all pBuf iOffset j in
          let! vals := put_all vals (iTableOffset + 16) codes in
          huff_tables fuel pBuf (iOffset + j) (iLen - j) used vals
      else huff_tables fuel pBuf iOffset iLen used vals
  end.

Definition JPEGGetHuffTables (pBuf : list Z) (iOffset iLen : Z) (t : tables) : run (Z * tables) :=
  let! (r, used, vals) := huff_tables (S (length pBuf)) pBuf iOffset iLen t.(ucHuffTableUsed) t.(pHuffVals) in
  Ok (r, mk_tables used vals t.(sQuantTable) t.(ucHuffDC) t.(usHuffAC)).

(** The loops over the code lengths and over the codes of one length; [enter] puts
    a code into the table and says whether it could. *)
Section Codes.
Variable enter : Z -> Z -> Z -> list Z -> run (bool * list Z).
Variable vals : list Z.

Fixpoint codes_of_length (n : nat) (iBitNum cc p : Z) (table : list Z) : run (bool * Z * Z * list Z) :=
  match n with
  | O => Ok (true, cc, p, table)
  | S n =>
      let! v := get vals p in
      let! (good, table) := enter iBitNum cc v table in
      if good : bool then codes_of_length n iBitNum (cc + 1) (p + 1) table else Ok (false, cc, p, table)
  end.

Fixpoint code_lengths (n : nat) (iBitNum cc pBits p : Z) (table : list Z) : run (bool * list Z) :=
  match n with
  | O => Ok (true, table)
  | S n =>
      let! iLen := get vals pBits in
      let! (good, cc, p, table) := codes_of_length (Z.to_nat iLen) iBitNum cc p table in
      if good : bool then code_lengths n (iBitNum + 1) (cc * 2) (pBits + 1) p table else Ok (false, table)
  end.

(** One table: 16 counts and the values behind them. *)
Definition code_table (pBits : Z) (table : list Z) : run (bool * list Z) :=
  code_lengths 16 1 0 pBits (pBits + 16) table.
End Codes.

(** The values that the extra bits of a small DC difference stand for, each as
    often as the bits behind them can vary. *)
Definition dc_magnitudes (ucMag count : Z) : list Z :=
  concat (map (fun k => let j := Z.of_nat k in
                        replicate (Z.to_nat (2 ^ (count - ucMag)))
                          (u8 (if Z.land j (2 ^ (ucMag - 1)) =? 0 then j - (2 ^ ucMag - 1) else j)))
              (seq 0 (Z.to_nat (2 ^ ucMag)))).

(** A DC code: the short table has 6 bits, the long one 7 bits after five ones. *)
Definition dc_enter (ucMode iTable iBitNum cc ucCode : Z) (table : list Z) : run (bool * list Z) :=
  if 12 <? iBitNum then Ok (false, table)
  else
    let long := sar cc (iBitNum - 5) =? 0x1f in
    let count := if long then 12 - iBitNum else 6 - iBitNum in
    if negb long && (count <? 0) then Ok (false, table)
    else
      let codestart := Z.shiftl cc count in
      let pucTable := iTable * DC_TABLE_SIZE + (if long then 128 + Z.land codestart 0x7f else codestart) in
      let small := negb (ucCode =? 0) && (ucCode + iBitNum <=? 6) && negb (ucMode =? 0xc2) in
      let! table := if small then put_all table (pucTable + 512) (dc_magnitudes ucCode count) else Ok table in
      let code := u8 (Z.lor ucCode (Z.shiftl (if small then iBitNum + ucCode else iBitNum) 4)) in
      let! table := put_all table pucTable (replicate (Z.to_nat (2 ^ count)) code) in
      Ok (true, table).

(** An AC code: the short table has 10 bits, the long one 10 bits after six ones. *)
Definition ac_enter (iTable iBitNum cc code : Z) (table : list Z) : run (bool * list Z) :=
  let long := sar cc (iBitNum - 6) =? 0x3f in
  let count := if long then 16 - iBitNum else 10 - iBitNum in
  if negb long && (count <? 0) then Ok (false, table)
  else
    let codestart := Z.shiftl cc count in
    let pTable := iTable * HUFF11SIZE + (if long then 1024 + Z.land codestart 0x3ff else codestart) in
    let! table := put_all table pTable
                    (replicate (Z.to_nat (2 ^ count)) (u16 (Z.lor code (Z.shiftl iBitNum 8)))) in
    Ok (true, table).

Fixpoint dc_tables (ucMode used : Z) (vals : list Z) (ts : list Z) (table : list Z) : run (bool * list Z) :=
  match ts with
  | [] => Ok (true, table)
  | iTable :: ts =>
      if Z.land used (Z.shiftl 1 iTable) =? 0 then dc_tables ucMode used vals ts table
      else
        let! (good, table) := code_table (dc_enter ucMode iTable) vals (iTable * HUFF_TABLEN) table in
        if good : bool then dc_tables ucMode used vals ts table else Ok (false, table)
  end.

(** [2 * HUFF11SIZE] is the number of entries of [usHuffAC]. *)
Fixpoint ac_tables (used : Z) (vals : list Z) (ts : list Z) (table : list Z) : run (bool * list Z) :=
  match ts with
  | [] => Ok (true, table)
  | iTable :: ts =>
      if Z.land used (Z.shiftl 1 (iTable + 4)) =? 0 then ac_tables used vals ts table
      else if 2 * HUFF11SIZE <=? iTable * HUFF11SIZE then Ok (false, table)
      else
        let! (good, table) := code_table (ac_enter iTable) vals ((iTable + 4) * HUFF_TABLEN) table in
        if good : bool then ac_tables used vals ts table else Ok (false, table)
  end.

(** Called with [bThumbnail] 0 only. *)
Definition JPEGMakeHuffTables (ucMode : Z) (t : tables) : run (Z * tables) :=
  let! (good, dc) := dc_tables ucMode t.(ucHuffTableUsed) t.(pHuffVals) [0; 1; 2; 3] t.(ucHuffDC) in
  if good : bool then
    let! (good, ac) := ac_tables t.(ucHuffTableUsed) t.(pHuffVals) [0; 1; 2; 3] t.(usHuffAC) in
    Ok (if good : bool then 1 else 0, mk_tables t.(ucHuffTableUsed) t.(pHuffVals) t.(sQuantTable) dc ac)
  else Ok (0, mk_tables t.(ucHuffTableUsed) t.(pHuffVals) t.(sQuantTable) dc t.(usHuffAC)).

(** ** EXIF *)

Definition TIFFSHORT (l : list Z) (p : Z) (bMotorola : bool) : run Z :=
  let! a := get l p in let! b := get l (p + 1) in
  Ok (if bMotorola then a * 0x100 + b else a + b * 0x100).

Definition TIFFLONG (l : list Z) (p : Z) (bMotorola : bool) : run Z :=
  let! a := get l p in let! b := get l (p + 1) in let! c := get l (p + 2) in let! d := get l (p + 3) in
  Ok (if bMotorola then a * 0x1000000 + b * 0x10000 + c * 0x100 + d
      else a + b * 0x100 + c * 0x10000 + d * 0x1000000).

Definition TIFFVALUE (l : list Z) (p : Z) (bMotorola : bool) : run Z :=
  let! iType := TIFFSHORT l (p + 2) bMotorola in
  let! n := TIFFSHORT l (p + 4) bMotorola in
  let iType := if 1 <? n then 4 else iType in
  if iType =? 3 then TIFFSHORT l (p + 8) bMotorola
  else if (iType =? 4) || (iType =? 7) then let! v := TIFFLONG l (p + 8) bMotorola in Ok (i32 v)
  else if iType =? 6 then let! v := get l (p + 8) in Ok (i8 v)
  else if (iType =? 2) || (iType =? 5) || (iType =? 10)
  then let! v := TIFFLONG l (p + 8) bMotorola in Ok (i32 v)
  else Ok 0.

Definition tiff_tag (l : list Z) (bMotorola : bool) (p : Z) (x : exif_info) : run exif_info :=
  let! iTag := TIFFSHORT l p bMotorola in
  if iTag =? 274 then
    let! v := TIFFVALUE l p bMotorola in
    Ok (mk_exif (u8 v) x.(iThumbWidth) x.(iThumbHeight) x.(iThumbData) x.(ucHasThumb) x.(iEXIF))
  else if iTag =? 256 then
    let! v := TIFFVALUE l p bMotorola in
    Ok (mk_exif x.(ucOrientation) v x.(iThumbHeight) x.(iThumbData) x.(ucHasThumb) x.(iEXIF))
  else if iTag =? 257 then
    let! v := TIFFVALUE l p bMotorola in
    Ok (mk_exif x.(ucOrientation) x.(iThumbWidth) v x.(iThumbData) x.(ucHasThumb) x.(iEXIF))
  else if iTag =? 513 then
    let! v := TIFFVALUE l p bMotorola in
    Ok (mk_exif x.(ucOrientation) x.(iThumbWidth) x.(iThumbHeight) v x.(ucHasThumb) x.(iEXIF))
  else Ok x.

Definition GetTIFFInfo (cBuf : list Z) (bMotorola : bool) (iOffset : Z) (x : exif_info) : run exif_info :=
  let! iTagCount := TIFFSHORT cBuf iOffset bMotorola in
  if (iTagCount <? 1) || (256 <? iTagCount) then Ok x
  else for_loop (Z.to_nat iTagCount) (fun i => tiff_tag cBuf bMotorola (iOffset + i * 12 + 2)) x.

(** The EXIF case of the marker switch; [base] is [iFilePos - iBytesRead]. *)
Definition app1 (s : list Z) (iOffset base : Z) (x : exif_info) : run exif_info :=
  let! e := get s (iOffset + 2) in
  if negb (e =? 69) then Ok x
  else let! x' := get s (iOffset + 3) in
  if negb (x' =? 120) then Ok x
  else let! m := get s (iOffset + 8) in
  if negb ((m =? 77) || (m =? 73)) then Ok x
  else
    let bMotorola := m =? 77 in
    let x := mk_exif x.(ucOrientation) x.(iThumbWidth) x.(iThumbHeight) x.(iThumbData) x.(ucHasThumb)
               (base + iOffset + 8) in
    let! v := TIFFLONG s (iOffset + 12) bMotorola in
    let IFD := i32 v in
    let! iTagCount := TIFFSHORT s (iOffset + 16) bMotorola in
    let! x := GetTIFFInfo s bMotorola (i32 (IFD + iOffset + 8)) x in
    if (1 <=? iTagCount) && (iTagCount <? 32) then
      let IFD := i32 (IFD + 12 * iTagCount + 2) in
      let! v := TIFFLONG s (i32 (IFD + iOffset + 8)) bMotorola in
      let IFD := i32 v in
      if IFD =? 0 then Ok x
      else
        let x := mk_exif x.(ucOrientation) x.(iThumbWidth) x.(iThumbHeight) x.(iThumbData) 1 x.(iEXIF) in
        let! x := GetTIFFInfo s bMotorola (i32 (IFD + iOffset + 8)) x in
        Ok (mk_exif x.(ucOrientation) x.(iThumbWidth) x.(iThumbHeight) (i32 (x.(iThumbData) + iOffset + 8))
              x.(ucHasThumb) x.(iEXIF))
    else Ok x.

(** ** The headers *)

(** The index of the component with this identifier, 4 when there is none. *)
Fixpoint find_component (cs : list JPEGCOMPINFO) (cc : Z) : nat :=
  match cs with
  | [] => 0
  | c :: cs => if c.(component_id) =? cc then 0 else S (find_component cs cc)
  end.

Definition scan_component (cs : list JPEGCOMPINFO) (j : nat) (c : Z) : list JPEGCOMPINFO :=
  alter (fun x => mk_comp 1 x.(component_id) x.(component_index) x.(quant_tbl_no) (Z.shiftr c 4) (Z.land c 0xf)) j cs.

(** The components of a scan header; [None] is the error return. *)
Fixpoint scan_components (n : nat) (buf : list Z) (iOffset : Z) (cs : list JPEGCOMPINFO)
  : run (bool * Z * list JPEGCOMPINFO) :=
  match n with
  | O => Ok (true, iOffset, cs)
  | S n =>
      let! cc := get buf iOffset in
      let! c := get buf (iOffset + 1) in
      let j := find_component cs cc in
      if (j =? 4)%nat then Ok (false, iOffset, cs)
      else if (3 <? Z.land c 0xf) || (0x30 <? Z.land c 0xf0) then Ok (false, iOffset, cs)
      else scan_components n buf (iOffset + 2) (scan_component cs j c)
  end.

Definition set_needed (v : Z) (c : JPEGCOMPINFO) : JPEGCOMPINFO :=
  mk_comp v c.(component_id) c.(component_index) c.(quant_tbl_no) c.(dc_tbl_no) c.(ac_tbl_no).

(** The return value, the state and [*iOff] after the call. *)
Definition JPEGGetSOS (buf : list Z) (iOff : Z) (i : info) : run (Z * info * Z) :=
  let! len := MOTOSHORT buf iOff in
  let sLen := i16 len in
  let cs := map (set_needed 0) i.(JPCI) in
  let! uc := get buf (iOff + 2) in
  let sc := i.(scan) in
  let i := set_scan i cs (mk_scan uc sc.(iScanStart) sc.(iScanEnd) sc.(cApproxBitsLow) sc.(cApproxBitsHigh)) in
  let sLen := i16 (sLen - 3) in
  if (uc <? 1) || (MAX_COMPS_IN_SCAN <? uc) || negb (sLen =? uc * 2 + 3) then Ok (1, i, iOff)
  else
    let! (good, iOffset, cs) := scan_components (Z.to_nat uc) buf (iOff + 3) cs in
    if good : bool then
      let! a := get buf iOffset in
      let! b := get buf (iOffset + 1) in
      let! c := get buf (iOffset + 2) in
      Ok (0, set_scan i cs (mk_scan uc a b (Z.land c 0xf) (Z.shiftr c 4)), iOffset + 3)
    else Ok (1, set_scan i cs i.(scan), iOff).

(** The loop of [JPEGFilter]: [s] and [d] are indices into the buffer. *)
Fixpoint filter_loop (fuel : nat) (buf : list Z) (s d pEnd : Z) : run (list Z * Z * Z) :=
  if s <? pEnd then
    match fuel with
    | O => Fault Unfinished
    | S fuel =>
        let! c := get buf s in
        let! buf := put buf d c in
        if c =? 0xff then
          let! n := get buf (s + 1) in
          filter_loop fuel buf (s + 2) (if n =? 0 then d + 1 else d) pEnd
        else filter_loop fuel buf (s + 1) (d + 1) pEnd
    end
  else Ok (buf, s, d).

(** The number of bytes kept, the buffer and [*bFF] afterwards. *)
Definition JPEGFilter (buf : list Z) (src dst iLen : Z) (bFF : bool) : run (Z * list Z * bool) :=
  let pEnd := src + iLen - 1 in
  let! (buf, s, d) :=
    if bFF then
      let! c := get buf src in
      if c =? 0 then let! buf := put buf dst 0xff in Ok (buf, src + 1, dst + 1)
      else Ok (buf, src + 1, dst)
    else Ok (buf, src, dst) in
  let! (buf, s, d) := filter_loop (Z.to_nat iLen) buf s d pEnd in
  if s =? pEnd then
    let! c := get buf s in
    if c =? 0xff then Ok (d - dst, buf, true)
    else let! buf := put buf d c in Ok (d + 1 - dst, buf, false)
  else Ok (d - dst, buf, false).

Definition JPEGGetMoreData (p : input) : run input :=
  let iDelta := p.(iVLCSize) - p.(iVLCOff) in
  if (JPEG_FILE_BUF_SIZE - 64 <=? iDelta) || (iDelta <? 0) then Ok p
  else
    let! p :=
      if p.(iVLCOff) =? 0 then Ok p
      else
        let! rest := get_all p.(ucFileBuf) p.(iVLCOff) iDelta in
        let! buf := put_all p.(ucFileBuf) 0 rest in
        Ok (mk_input p.(JPEGFile) buf 0 iDelta p.(ucFF) (mk_bits 0 p.(bb).(ulBits) p.(bb).(ulBitOff))) in
    if (p.(JPEGFile).(iPos) <? p.(JPEGFile).(iSize)) && (p.(iVLCSize) <? JPEG_FILE_BUF_SIZE - 64) then
      let (bs, f) := readRAM p.(JPEGFile) (JPEG_FILE_BUF_SIZE - p.(iVLCSize)) in
      let! buf := put_all p.(ucFileBuf) p.(iVLCSize) bs in
      let! (n, buf, ff) := JPEGFilter buf p.(iVLCSize) p.(iVLCSize) (Z.of_nat (length bs)) p.(ucFF) in
      Ok (mk_input f buf p.(iVLCOff) (p.(iVLCSize) + n) ff p.(bb))
    else Ok p.

(** The variables of [JPEGParseInfo] and the parts of the image it changes. *)
Record parsing := mk_parsing {
  p_file : JPEGFILE;
  p_buf : list Z;
  iBytesRead : Z;
  iOffset : Z;
  iFilePos : Z;
  p_info : info;
  p_tables : tables;
}.

Definition at_offset (s : parsing) (o : Z) : parsing :=
  mk_parsing s.(p_file) s.(p_buf) s.(iBytesRead) o s.(iFilePos) s.(p_info) s.(p_tables).
Definition with_info (s : parsing) (i : info) : parsing :=
  mk_parsing s.(p_file) s.(p_buf) s.(iBytesRead) s.(iOffset) s.(iFilePos) i s.(p_tables).
Definition with_tables (s : parsing) (t : tables) : parsing :=
  mk_parsing s.(p_file) s.(p_buf) s.(iBytesRead) s.(iOffset) s.(iFilePos) s.(p_info) t.

(** Too close to the end of the buffer: read more data. *)
Definition read_more (s : parsing) : run parsing :=
  if s.(iOffset) <? JPEG_FILE_BUF_SIZE / 2 then Ok s
  else
    let s :=
      if JPEG_FILE_BUF_SIZE <=? s.(iOffset) then
        let pos := s.(iFilePos) + (s.(iOffset) - s.(iBytesRead)) in
        mk_parsing (seekMem s.(p_file) pos) s.(p_buf) 0 0 pos s.(p_info) s.(p_tables)
      else s in
    let! s :=
      if s.(iOffset) =? 0 then Ok s
      else
        let! rest := get_all s.(p_buf) s.(iOffset) (s.(iBytesRead) - s.(iOffset)) in
        let! buf := put_all s.(p_buf) 0 rest in
        Ok (mk_parsing s.(p_file) buf (s.(iBytesRead) - s.(iOffset)) 0 s.(iFilePos) s.(p_info) s.(p_tables)) in
    let (bs, f) := readRAM s.(p_file) (JPEG_FILE_BUF_SIZE - s.(iBytesRead)) in
    let! buf := put_all s.(p_buf) s.(iBytesRead) bs in
    let i := Z.of_nat (length bs) in
    Ok (mk_parsing f buf (s.(iBytesRead) + i) s.(iOffset) (s.(iFilePos) + i) s.(p_info) s.(p_tables)).

(** The components of a frame header, from index [i]; the flag is false for a bad
    table number. *)
Fixpoint frame_components (n : nat) (i : Z) (buf : list Z) (o usLen sub : Z) (cs : list JPEGCOMPINFO)
  : run (bool * Z * Z * Z * list JPEGCOMPINFO) :=
  match n with
  | O => Ok (true, o, usLen, sub, cs)
  | S n =>
      match cs !! Z.to_nat i with
      | None => Fault OutOfBounds
      | Some c =>
          let! id := get buf o in
          let! ucSamp := get buf (o + 1) in
          let! q := get buf (o + 2) in
          let cs := <[Z.to_nat i := mk_comp c.(component_needed) id i q c.(dc_tbl_no) c.(ac_tbl_no)]> cs in
          let sub := if i =? 0 then ucSamp else sub in
          if 3 <? q then Ok (false, o + 3, usLen, sub, cs)
          else frame_components n (i + 1) buf (o + 3) (u16 (usLen - 3)) sub cs
      end
  end.

(** The quantization tables of one segment; the flag is false for a bad number.
    Every turn moves on in the buffer, which bounds the turns. *)
Fixpoint quant_tables (fuel : nat) (buf : list Z) (o usLen : Z) (q : list Z) : run (bool * Z * Z * list Z) :=
  if usLen =? 0 then Ok (true, o, usLen, q)
  else match fuel with
  | O => Fault Unfinished
  | S fuel =>
      let! ucTable := get buf o in
      let o := o + 1 in
      if 3 <? Z.land ucTable 0xf then Ok (false, o, usLen, q)
      else
        let iTableOffset := Z.land ucTable 0xf * DCTSIZE in
        if Z.land ucTable 0xf0 =? 0 then
          let! vs := get_all buf o DCTSIZE in
          let! q := put_all q iTableOffset vs in
          quant_tables fuel buf (o + DCTSIZE) (u16 (usLen - (DCTSIZE + 1))) q
        else
          let! q := for_loop (Z.to_nat DCTSIZE)
                      (fun i q => let! v := MOTOSHORT buf (o + 2 * i) in put q (i + iTableOffset) v) q in
          quant_tables fuel buf (o + DCTSIZE * 2) (u16 (usLen - (DCTSIZE * 2 + 1))) q
  end.

(** The switch on the marker: the return value [JPEGParseInfo] ends with, if any,
    [usLen] and the state. *)
Definition segment (usMarker usLen : Z) (s : parsing) : run (bool * Z * parsing) :=
  let buf := s.(p_buf) in
  let o := s.(iOffset) in
  let i := s.(p_info) in
  let t := s.(p_tables) in
  if (0xffc1 <=? usMarker) && (usMarker <=? 0xffc3) then
    Ok (false, usLen, with_info s (set_error i JPEG_UNSUPPORTED_FEATURE))
  else if usMarker =? 0xffe1 then
    let! x := app1 buf o (s.(iFilePos) - s.(iBytesRead)) i.(exif) in
    Ok (true, usLen, with_info s (set_exif i x))
  else if usMarker =? 0xffc0 then
    let! bits := get buf (o + 2) in
    let! h := MOTOSHORT buf (o + 3) in
    let! w := MOTOSHORT buf (o + 5) in
    let! n := get buf (o + 7) in
    let frame sub cs e :=
      mk_info w h (u8 (bits * n)) sub (u8 usMarker) n i.(iResInterval) cs i.(exif) i.(scan) e in
    if n =? 1 then Ok (true, usLen, with_info s (frame 0 i.(JPCI) i.(iError)))
    else
      let! (good, o, usLen, sub, cs) :=
        frame_components (Z.to_nat n) 0 buf (o + 8) (u16 (usLen - 8)) i.(ucSubSample) i.(JPCI) in
      let s := with_info (at_offset s o) (frame sub cs (if good : bool then i.(iError) else JPEG_DECODE_ERROR)) in
      Ok (good, usLen, s)
  else if usMarker =? 0xffdd then
    if usLen =? 4 then
      let! r := MOTOSHORT buf (o + 2) in
      Ok (true, usLen, with_info s (set_interval i r))
    else Ok (true, usLen, s)
  else if usMarker =? 0xffc4 then
    let o := o + 2 in
    let usLen := u16 (usLen - 2) in
    let! (r, t) := JPEGGetHuffTables buf o usLen t in
    let s := with_tables (at_offset s o) t in
    if r =? 0 then Ok (true, usLen, s) else Ok (false, usLen, with_info s (set_error i JPEG_DECODE_ERROR))
  else if usMarker =? 0xffdb then
    let! (good, o, usLen, q) := quant_tables (S (length buf)) buf (o + 2) (u16 (usLen - 2)) t.(sQuantTable) in
    let s := with_tables (at_offset s o)
               (mk_tables t.(ucHuffTableUsed) t.(pHuffVals) q t.(ucHuffDC) t.(usHuffAC)) in
    Ok (good, usLen, if good : bool then s else with_info s (set_error i JPEG_DECODE_ERROR))
  else Ok (true, usLen, s).

(** The loop over the markers; the flag is false when an error ended it. *)
Fixpoint markers (fuel : nat) (usMarker usLen : Z) (s : parsing) : run (bool * Z * Z * parsing) :=
  if negb (usMarker =? 0xffda) && (s.(iOffset) <? s.(p_file).(iSize)) then
    match fuel with
    | O => Fault Unfinished
    | S fuel =>
        let! s := read_more s in
        let! usMarker := MOTOSHORT s.(p_buf) s.(iOffset) in
        let! usLen := MOTOSHORT s.(p_buf) (s.(iOffset) + 2) in
        let s := at_offset s (s.(iOffset) + 2) in
        if (usMarker <? 0xffc0) || (usMarker =? 0xffff) then
          markers fuel usMarker usLen (at_offset s (s.(iOffset) + 1))
        else
          let! (good, usLen, s) := segment usMarker usLen s in
          if good : bool then markers fuel usMarker usLen (at_offset s (s.(iOffset) + usLen))
          else Ok (false, usMarker, usLen, s)
    end
  else Ok (true, usMarker, usLen, s).

(** A file has less than one marker in two bytes; longer scans have left the file. *)
Definition markers_fuel (f : JPEGFILE) : nat := S (length f.(pData)).

(** The image from the parts a parse has changed. *)
Definition parsed (p : JPEGIMAGE) (s : parsing) (i : info) : JPEGIMAGE :=
  mk_image i s.(p_tables)
    (mk_input s.(p_file) s.(p_buf) p.(im_input).(iVLCOff) p.(im_input).(iVLCSize) p.(im_input).(ucFF) p.(im_input).(bb))
    p.(sMCUs) p.(iMaxMCUs).

(** The start of the compressed data. *)
Definition start_of_scan (usLen : Z) (p : JPEGIMAGE) (s : parsing) : run (Z * JPEGIMAGE) :=
  let! (s, i) :=
    if s.(p_info).(ucBpp) =? 8 then Ok (s, s.(p_info))
    else let! (_, i, o) := JPEGGetSOS s.(p_buf) (s.(iOffset) - usLen) s.(p_info) in Ok (at_offset s o, i) in
  let! (r, t) := JPEGMakeHuffTables i.(ucMode) s.(p_tables) in
  let s := with_tables s t in
  if r =? 0 then Ok (0, parsed p s (set_error i JPEG_UNSUPPORTED_FEATURE))
  else
    let! (n, buf, ff) := JPEGFilter s.(p_buf) s.(iOffset) 0 (s.(iBytesRead) - s.(iOffset)) p.(im_input).(ucFF) in
    let! inp := JPEGGetMoreData (mk_input s.(p_file) buf 0 n ff p.(im_input).(bb)) in
    Ok (1, mk_image i t inp p.(sMCUs) p.(iMaxMCUs)).

(** Called with [bExtractThumb] 0 only. *)
Definition JPEGParseInfo (p : JPEGIMAGE) : run (Z * JPEGIMAGE) :=
  let (bs, f) := readRAM p.(im_input).(JPEGFile) JPEG_FILE_BUF_SIZE in
  let! buf := put_all p.(im_input).(ucFileBuf) 0 bs in
  let n := Z.of_nat (length bs) in
  let s := mk_parsing f buf n 2 n p.(im_info) p.(im_tables) in
  if n <? 256 then Ok (0, parsed p s (set_error p.(im_info) JPEG_INVALID_FILE))
  else
    let! magic := MOTOSHORT buf 0 in
    if negb (magic =? 0xffd8) then Ok (0, parsed p s (set_error p.(im_info) JPEG_INVALID_FILE))
    else
      let! (good, usMarker, usLen, s) := markers (markers_fuel f) 0 0 s in
      if good : bool then
        if usMarker =? 0xffda then start_of_scan usLen p s
        else Ok (0, parsed p s (set_error s.(p_info) JPEG_DECODE_ERROR))
      else Ok (0, parsed p s s.(p_info)).

Definition JPEGInit (p : JPEGIMAGE) : run (Z * JPEGIMAGE) := JPEGParseInfo p.

(** ** Quantization *)

Definition fix_table (p : list Z) : list Z :=
  zip_with (fun v scale => u16 (Z.shiftr (v * scale) 12)) (map (fun i => nth (Z.to_nat i) p 0) cZigZag) iScaleBits.

Definition JPEGFixQuantD (ucNumComponents : Z) (q : list Z) : run (list Z) :=
  for_loop (Z.to_nat ucNumComponents)
    (fun iTable q => let! p := get_all q (iTable * DCTSIZE) DCTSIZE in put_all q (iTable * DCTSIZE) (fix_table p)) q.

(** ** Blocks of coefficients *)

(** Words of [sMCUs], which is kept as bytes. *)
Definition short_bytes (v : Z) : list Z := [u16 v mod 256; u16 v / 256].

Definition put_short (l : list Z) (i v : Z) : run (list Z) := put_all l (2 * i) (short_bytes v).

(** Need to get more data. *)
Definition refill (buf : list Z) (b : BUFFERED_BITS) : run BUFFERED_BITS :=
  if REGISTER_WIDTH - 17 <? b.(ulBitOff) then
    let p := b.(pBuf) + Z.shiftr b.(ulBitOff) 3 in
    let! w := MOTOLONG buf p in
    Ok (mk_bits p w (Z.land b.(ulBitOff) 7))
  else Ok b.

Definition skip (b : BUFFERED_BITS) (n : Z) : BUFFERED_BITS := mk_bits b.(pBuf) b.(ulBits) (b.(ulBitOff) + n).

(** The value of the [n] extra bits, as a [uint32_t]. *)
Definition extra_bits (b : BUFFERED_BITS) (n : Z) : Z :=
  let ulCode := u32 (Z.shiftl b.(ulBits) b.(ulBitOff)) in
  let ulTemp := if ulCode <? 2 ^ 31 then 2 ^ 32 - 1 else 0 in
  u32 (Z.shiftr ulCode (REGISTER_WIDTH - n) - Z.shiftr ulTemp (REGISTER_WIDTH - n)).

(** What decoding a block changes besides the predictor. *)
Record block := mk_block { bk_bits : BUFFERED_BITS; bk_mcus : list Z; bk_col : Z; bk_row : Z }.

(** The loop over the AC coefficients with the 10-bit tables; [b11Bit] is never
    set.  [pZig] indexes [cZigZag2].  The flag is false for an invalid code. *)
Fixpoint ac_loop (fuel : nat) (buf : list Z) (ac : list Z) (ucACTable iMCU pZig : Z) (k : block) : run (bool * block) :=
  if pZig <? 64 then
    match fuel with
    | O => Fault Unfinished
    | S fuel =>
        let! b := refill buf k.(bk_bits) in
        let ulCode := Z.land (Z.shiftr b.(ulBits) (REGISTER_WIDTH - 16 - b.(ulBitOff))) 0xffff in
        let ulCode := if 0xfc00 <=? ulCode then Z.land ulCode 0x7ff else Z.shiftr ulCode 6 in
        let! usHuff := get ac (ucACTable * HUFF11SIZE + ulCode) in
        if usHuff =? 0 then Ok (false, k)
        else
          let b := skip b (Z.shiftr usHuff 8) in
          let usHuff := Z.land usHuff 0xff in
          if usHuff =? 0 then Ok (true, mk_block b k.(bk_mcus) k.(bk_col) k.(bk_row))
          else
            let! b := refill buf b in
            let pZig := pZig + Z.shiftr usHuff 4 in
            let n := Z.land usHuff 0xf in
            let! k :=
              if (pZig <? 64) && negb (n =? 0) then
                let z := nth (Z.to_nat pZig) cZigZag2 0 in
                let! mcus := put_short k.(bk_mcus) (iMCU + z) (extra_bits b n) in
                Ok (mk_block (skip b n) mcus (Z.lor k.(bk_col) (Z.shiftl 1 (Z.land z 7)))
                      (if 0x20 <=? z then Z.lor k.(bk_row) (Z.shiftl 1 (Z.land z 7)) else k.(bk_row)))
              else Ok (mk_block (skip b n) k.(bk_mcus) k.(bk_col) k.(bk_row)) in
            ac_loop fuel buf ac ucACTable iMCU (pZig + 1) k
    end
  else Ok (true, k).

(** The DC difference: the bits behind it and its value; [None] for an invalid code. *)
Definition dc_difference (buf : list Z) (dc : list Z) (ucDCTable : Z) (b : BUFFERED_BITS)
  : run (option (BUFFERED_BITS * Z)) :=
  let pucFast := ucDCTable * DC_TABLE_SIZE in
  let ulCode := Z.land (Z.shiftr b.(ulBits) (REGISTER_WIDTH - 12 - b.(ulBitOff))) 0xfff in
  let ulCode := if 0xf80 <=? ulCode then Z.land ulCode 0xff else Z.shiftr ulCode 6 in
  let! ucHuff := get dc (pucFast + ulCode) in
  let! c := get dc (pucFast + ulCode + 512) in
  let cCoeff := i8 c in
  if ucHuff =? 0 then Ok None
  else
    let b := skip b (Z.shiftr ucHuff 4) in
    let n := Z.land ucHuff 0xf in
    if n =? 0 then Ok (Some (b, 0))
    else if negb (cCoeff =? 0) then Ok (Some (b, cCoeff))
    else
      let! b := refill buf b in
      Ok (Some (skip b n, i32 (extra_bits b n))).

(** The state of decoding that blocks change: [iDCPredictor] is passed apart. *)
Record work := mk_work { wk_input : input; wk_mcus : list Z; ucMaxACCol : Z; ucMaxACRow : Z }.

(** The return value, the predictor and the state.  On an error the bit position
    in the structure is that of before the call. *)
Definition JPEGDecodeMCU (t : tables) (ucDCTable ucACTable iMCU : Z) (iDCPredictor : Z) (w : work)
  : run (Z * Z * work) :=
  let buf := w.(wk_input).(ucFileBuf) in
  let failed mcus := mk_work w.(wk_input) mcus w.(ucMaxACCol) w.(ucMaxACRow) in
  let! b := refill buf w.(wk_input).(bb) in
  let! mcus := put_all w.(wk_mcus) (2 * iMCU) (replicate 128 0) in
  let! d := dc_difference buf t.(ucHuffDC) ucDCTable b in
  match d with
  | None => Ok (-1, iDCPredictor, failed mcus)
  | Some (b, diff) =>
      let iDCPredictor := i32 (iDCPredictor + diff) in
      let! mcus := put_short mcus iMCU iDCPredictor in
      if 1 <? ucACTable then Ok (-1, iDCPredictor, failed mcus)
      else
        let! (good, k) := ac_loop 64 buf t.(usHuffAC) ucACTable iMCU 1 (mk_block b mcus 0 0) in
        if good : bool then
          let i := w.(wk_input) in
          Ok (0, iDCPredictor,
              mk_work (mk_input i.(JPEGFile) buf k.(bk_bits).(pBuf) i.(iVLCSize) i.(ucFF) k.(bk_bits))
                k.(bk_mcus) k.(bk_col) k.(bk_row))
        else Ok (-1, iDCPredictor, failed k.(bk_mcus))
  end.

(** ** Inverse DCT

    The arithmetic of [int]. *)
Local Notation "a +' b" := (i32 (a + b)) (at level 50, left associativity).
Local Notation "a -' b" := (i32 (a - b)) (at level 50, left associativity).
Local Notation "a *' b" := (i32 (a * b)) (at level 40, left associativity).
Local Notation "a >>' n" := (Z.shiftr a n) (at level 45, left associativity).

Definition butterfly (tmp0 tmp1 tmp2 tmp3 tmp4 tmp5 tmp6 tmp7 : Z) : list Z :=
  [tmp0 +' tmp7; tmp1 +' tmp6; tmp2 +' tmp5; tmp3 -' tmp4; tmp3 +' tmp4; tmp2 -' tmp5; tmp1 -' tmp6; tmp0 -' tmp7].

(** The odd part of a full calculation and the final sums. *)
Definition odd_part (tmp0 tmp1 tmp2 tmp3 z10 z11 z12 z13 : Z) : list Z :=
  let tmp7 := z11 +' z13 in
  let tmp11 := ((z11 -' z13) *' 362) >>' 8 in
  let z5 := ((z10 +' z12) *' 473) >>' 8 in
  let tmp12 := ((z10 *' -669) >>' 8) +' z5 in
  let tmp6 := tmp12 -' tmp7 in
  let tmp5 := tmp11 -' tmp6 in
  let tmp10 := ((z12 *' 277) >>' 8) -' z5 in
  let tmp4 := tmp10 +' tmp5 in
  butterfly tmp0 tmp1 tmp2 tmp3 tmp4 tmp5 tmp6 tmp7.

(** A column of which only the first four rows are populated: [m] are its
    coefficients, [q] its quantization values. *)
Definition half_column (m q : nat -> Z) : list Z :=
  let tmp10 := m 0%nat *' q 0%nat in
  let tmp1 := m 2%nat *' q 2%nat in
  let tmp12 := (tmp1 *' 106) >>' 8 in
  let tmp0 := tmp10 +' tmp1 in
  let tmp3 := tmp10 -' tmp1 in
  let tmp1 := tmp10 +' tmp12 in
  let tmp2 := tmp10 -' tmp12 in
  let tmp4 := m 1%nat *' q 1%nat in
  if m 3%nat =? 0 then
    butterfly tmp0 tmp1 tmp2 tmp3 ((-51 *' tmp4) >>' 8) ((145 *' tmp4) >>' 8) ((217 *' tmp4) >>' 8) tmp4
  else
    let tmp5 := m 3%nat *' q 3%nat in
    let tmp7 := tmp4 +' tmp5 in
    let tmp11 := ((tmp4 -' tmp5) *' 362) >>' 8 in
    let z5 := ((tmp4 -' tmp5) *' 473) >>' 8 in
    let tmp12 := ((i32 (- tmp5) *' -669) >>' 8) +' z5 in
    let tmp6 := tmp12 -' tmp7 in
    let tmp5 := tmp11 -' tmp6 in
    let tmp10 := ((tmp4 *' 277) >>' 8) -' z5 in
    let tmp4 := tmp10 +' tmp5 in
    butterfly tmp0 tmp1 tmp2 tmp3 tmp4 tmp5 tmp6 tmp7.

Definition full_column (m q : nat -> Z) : list Z :=
  let tmp0 := m 0%nat *' q 0%nat in
  let '(tmp10, tmp11) :=
    if m 4%nat =? 0 then (tmp0, tmp0)
    else let tmp2 := m 4%nat *' q 4%nat in (tmp0 +' tmp2, tmp0 -' tmp2) in
  let tmp1 := m 2%nat *' q 2%nat in
  let '(tmp13, tmp12) :=
    if m 6%nat =? 0 then (tmp1, ((tmp1 *' 362) >>' 8) -' tmp1)
    else
      let tmp3 := m 6%nat *' q 6%nat in
      let tmp13 := tmp1 +' tmp3 in
      (tmp13, (((tmp1 -' tmp3) *' 362) >>' 8) -' tmp13) in
  let tmp5 := m 3%nat *' q 3%nat in
  let '(z13, z10) :=
    if m 5%nat =? 0 then (tmp5, i32 (- tmp5))
    else let tmp6 := m 5%nat *' q 5%nat in (tmp6 +' tmp5, tmp6 -' tmp5) in
  let tmp4 := m 1%nat *' q 1%nat in
  let '(z11, z12) :=
    if m 7%nat =? 0 then (tmp4, tmp4)
    else let tmp7 := m 7%nat *' q 7%nat in (tmp4 +' tmp7, tmp4 -' tmp7) in
  odd_part (tmp10 +' tmp13) (tmp11 +' tmp12) (tmp11 -' tmp12) (tmp10 -' tmp13) z10 z11 z12 z13.

(** A row of the result of the columns, before the shift to samples. *)
Definition row (ucMaxACCol : Z) (m : nat -> Z) : list Z :=
  if ucMaxACCol <? 0x10 then
    if ucMaxACCol <? 0x04 then
      let tmp0 := m 0%nat in
      let tmp7 := m 1%nat in
      butterfly tmp0 tmp0 tmp0 tmp0 (i32 (- ((tmp7 *' 51) >>' 8))) ((tmp7 *' 145) >>' 8) ((tmp7 *' 217) >>' 8) tmp7
    else
      let tmp10 := m 0%nat in
      let tmp13 := m 2%nat in
      let tmp12 := (tmp13 *' 106) >>' 8 in
      let tmp0 := tmp10 +' tmp13 in
      let tmp3 := tmp10 -' tmp13 in
      let tmp1 := tmp10 +' tmp12 in
      let tmp2 := tmp10 -' tmp12 in
      let z13 := m 3%nat in
      let z11 := m 1%nat in
      let tmp7 := z11 +' z13 in
      let tmp11 := ((z11 -' z13) *' 362) >>' 8 in
      let z5 := ((z11 -' z13) *' 473) >>' 8 in
      let tmp10 := ((z11 *' 277) >>' 8) -' z5 in
      let tmp12 := ((z13 *' 669) >>' 8) +' z5 in
      let tmp6 := tmp12 -' tmp7 in
      let tmp5 := tmp11 -' tmp6 in
      let tmp4 := tmp10 +' tmp5 in
      butterfly tmp0 tmp1 tmp2 tmp3 tmp4 tmp5 tmp6 tmp7
  else
    let tmp10 := m 0%nat +' m 4%nat in
    let tmp11 := m 0%nat -' m 4%nat in
    let tmp13 := m 2%nat +' m 6%nat in
    let tmp12 := (((m 2%nat -' m 6%nat) *' 362) >>' 8) -' tmp13 in
    odd_part (tmp10 +' tmp13) (tmp11 +' tmp12) (tmp11 -' tmp12) (tmp10 -' tmp13)
      (m 5%nat -' m 3%nat) (m 1%nat +' m 7%nat) (m 1%nat -' m 7%nat) (m 5%nat +' m 3%nat).

Definition range (v : Z) : Z := nth (Z.to_nat (Z.land (v >>' 5) 0x3ff)) ucRangeTable 0.

(** The shorts of a list of bytes. *)
Fixpoint shorts (l : list Z) : list Z :=
  match l with
  | a :: b :: l => i16 (a + 256 * b) :: shorts l
  | _ => []
  end.

(** The columns are independent of each other; one without data stays as it is. *)
Definition idct_columns (ucMaxACCol ucMaxACRow : Z) (src pQuant : list Z) : list Z :=
  let column iCol :=
    let m r := nth (iCol + 8 * r) src 0 in
    let q r := nth (iCol + 8 * r) pQuant 0 in
    if Z.testbit (Z.lor ucMaxACCol 1) (Z.of_nat iCol)
    then map i16 ((if Z.testbit ucMaxACRow (Z.of_nat iCol) then full_column else half_column) m q)
    else map m (seq 0 8) in
  let cs := map column (seq 0 8) in
  map (fun i => nth (i / 8) (nth (i mod 8) cs []) 0) (seq 0 64).

(** The samples of row [r] are stored below the shorts of row [r], so no row is
    read after it has been overwritten. *)
Definition idct_rows (ucMaxACCol : Z) (src : list Z) : list Z :=
  concat (map (fun r => map range (row ucMaxACCol (fun c => nth (8 * r + c) src 0))) (seq 0 8)).

Definition JPEGIDCT (q : list Z) (iMCUOffset iQuantTable ucMaxACCol ucMaxACRow : Z) (mcus : list Z) : run (list Z) :=
  let! src := get_all mcus (2 * iMCUOffset) 128 in
  let! pQuant := get_all q (iQuantTable * DCTSIZE) DCTSIZE in
  let m := idct_columns ucMaxACCol ucMaxACRow (shorts src) (map i16 pQuant) in
  put_all mcus (2 * iMCUOffset) (idct_rows ucMaxACCol m ++ concat (map short_bytes (drop 32 m))).

(** ** Pixels *)

Definition color (iY iCb iCr : Z) : Z :=
  let iCBB := 7258 * (iCb - 0x80) in
  let iCBG := -1409 * (iCb - 0x80) in
  let iCRG := -2925 * (iCr - 0x80) in
  let iCRR := 5742 * (iCr - 0x80) in
  Z.lor (Z.lor (nth (Z.to_nat (Z.land ((iCBB + iY) >>' 12) 0x3ff)) usRangeTableB 0)
               (nth (Z.to_nat (Z.land ((iCBG + iCRG + iY) >>' 12) 0x3ff)) usRangeTableG 0))
        (nth (Z.to_nat (Z.land ((iCRR + iY) >>' 12) 0x3ff)) usRangeTableR 0).

(** [pDest] counts pixels. *)
Definition JPEGPixelLE (pDest iY iCb iCr : Z) (px : list Z) : run (list Z) :=
  put_short px pDest (color iY iCb iCr).

Definition JPEGPixel2LE (pDest iY1 iY2 iCb iCr : Z) (px : list Z) : run (list Z) :=
  put_all px (2 * pDest) (short_bytes (color iY1 iCb iCr) ++ short_bytes (color iY2 iCb iCr)).

(** Samples of [sMCUs] as [JPEGIDCT] has stored them: byte [k] of the block at
    [b * DCTSIZE] shorts. *)
Definition sample (mcus : list Z) (b k : Z) : run Z := get mcus (2 * (b * DCTSIZE) + k).

Definition JPEGPutMCUGray (mcus : list Z) (x iPitch : Z) (px : list Z) : run (list Z) :=
  for_loop 8 (fun i => for_loop 8 (fun j px =>
    let! v := sample mcus 0 (8 * i + j) in
    put_short px (x + i * iPitch + j) (nth (Z.to_nat v) usGrayTo565 0))) px.

Definition JPEGPutMCU11 (mcus : list Z) (x iPitch : Z) (px : list Z) : run (list Z) :=
  for_loop 8 (fun iRow => for_loop 8 (fun iCol px =>
    let! iCr := sample mcus 2 (8 * iRow + iCol) in
    let! iCb := sample mcus 1 (8 * iRow + iCol) in
    let! y := sample mcus 0 (8 * iRow + iCol) in
    JPEGPixelLE (x + iRow * iPitch + iCol) (Z.shiftl y 12) iCb iCr px)) px.

(** Two output rows per turn; the second half reads the second luminance block. *)
Definition JPEGPutMCU12 (mcus : list Z) (x iPitch : Z) (px : list Z) : run (list Z) :=
  for_loop 8 (fun h => for_loop 8 (fun iCol px =>
    let pY := 16 * h + (if 4 <=? h then 128 - 64 else 0) in
    let! y1 := sample mcus 0 (pY + iCol) in
    let! y2 := sample mcus 0 (pY + iCol + 8) in
    let! cb := sample mcus 2 (8 * h + iCol) in
    let! cr := sample mcus 3 (8 * h + iCol) in
    let pOutput := x + 2 * h * iPitch in
    let! px := JPEGPixelLE (pOutput + iCol) (Z.shiftl y1 12) cb cr px in
    JPEGPixelLE (pOutput + iPitch + iCol) (Z.shiftl y2 12) cb cr px)) px.

Definition JPEGPutMCU21 (mcus : list Z) (x iPitch : Z) (px : list Z) : run (list Z) :=
  for_loop 8 (fun iRow => for_loop 4 (fun iCol px =>
    let pOutput := x + iRow * iPitch in
    let! cr := sample mcus 3 (8 * iRow + iCol) in
    let! cb := sample mcus 2 (8 * iRow + iCol) in
    let! y1 := sample mcus 0 (8 * iRow + 2 * iCol) in
    let! y2 := sample mcus 0 (8 * iRow + 2 * iCol + 1) in
    let! px := JPEGPixel2LE (pOutput + iCol * 2) (Z.shiftl y1 12) (Z.shiftl y2 12) cb cr px in
    let! cr := sample mcus 3 (8 * iRow + iCol + 4) in
    let! cb := sample mcus 2 (8 * iRow + iCol + 4) in
    let! y1 := sample mcus 0 (8 * iRow + 2 * iCol + 128) in
    let! y2 := sample mcus 0 (8 * iRow + 2 * iCol + 129) in
    JPEGPixel2LE (pOutput + 8 + iCol * 2) (Z.shiftl y1 12) (Z.shiftl y2 12) cb cr px)) px.

(** Four pixels of one chroma sample, two of them when the odd column is not used. *)
Definition put_square (mcus : list Z) (pY pC pOutput iPitch : Z) (odd : bool) (px : list Z) : run (list Z) :=
  let! y1 := sample mcus 0 pY in
  let! y2 := sample mcus 0 (pY + 1) in
  let! y3 := sample mcus 0 (pY + 8) in
  let! y4 := sample mcus 0 (pY + 9) in
  let! cb := sample mcus 4 pC in
  let! cr := sample mcus 5 pC in
  if odd then
    let! px := JPEGPixel2LE pOutput (Z.shiftl y1 12) (Z.shiftl y2 12) cb cr px in
    JPEGPixel2LE (pOutput + iPitch) (Z.shiftl y3 12) (Z.shiftl y4 12) cb cr px
  else
    let! px := JPEGPixelLE pOutput (Z.shiftl y1 12) cb cr px in
    JPEGPixelLE (pOutput + iPitch) (Z.shiftl y3 12) cb cr px.

(** [iXCount1], [iXCount2], [bUseOdd1], [bUseOdd2]. *)
Definition mcu22_counts (iWidth x : Z) : Z * Z * bool * bool :=
  if iWidth <=? x + 15 then
    let iCol := (Z.land iWidth 15 + 1) >>' 1 in
    let odd := negb (Z.land iWidth 1 =? 0) in
    if 4 <=? iCol then (4, iCol - 4, true, negb (odd && (iWidth <? (iCol - 4) * 2 + 8 + x * 16)))
    else (iCol, 0, negb (odd && (iWidth <? iCol * 2 + x * 16)), true)
  else (4, 4, true, true).

Definition JPEGPutMCU22 (iWidth : Z) (mcus : list Z) (x iPitch : Z) (px : list Z) : run (list Z) :=
  let '(iXCount1, iXCount2, bUseOdd1, bUseOdd2) := mcu22_counts iWidth x in
  for_loop 4 (fun iRow => for_loop (Z.to_nat iXCount1) (fun iCol px =>
    let pY := 16 * iRow + iCol * 2 in
    let pC := 8 * iRow + iCol in
    let pOutput := x + 2 * iRow * iPitch + iCol * 2 in
    let odd1 := bUseOdd1 || negb (iCol =? iXCount1 - 1) in
    let odd2 := bUseOdd2 || negb (iCol =? iXCount2 - 1) in
    let! px := put_square mcus pY pC pOutput iPitch odd1 px in
    let! px := if iCol <? iXCount2
               then put_square mcus (pY + DCTSIZE * 2) (pC + 4) (pOutput + 8) iPitch odd2 px else Ok px in
    let! px := put_square mcus (pY + DCTSIZE * 4) (pC + 32) (pOutput + iPitch * 8) iPitch odd1 px in
    if iCol <? iXCount2
    then put_square mcus (pY + DCTSIZE * 6) (pC + 36) (pOutput + iPitch * 8 + 8) iPitch odd2 px else Ok px)) px.

(** ** Decoding an image *)

(** The block of pixels sent to the draw task.  [iWidthUsed], [iBpp] and [pUser] of
    the allocated structure are not set. *)
Record JPEGDRAW := mk_draw { dr_x : Z; dr_y : Z; dr_iWidth : Z; dr_iHeight : Z; dr_pPixels : list Z }.

(** [cx], [cy] MCUs of [mcuCX] by [mcuCY] pixels, [iMCUCount] of them to a block. *)
Record geometry := mk_geometry { cx : Z; cy : Z; mcuCX : Z; mcuCY : Z; iMCUCount : Z }.

(** The first four: by [ucSubSample]. *)
Definition mcu_grid (ucSubSample iWidth iHeight : Z) : Z * Z * Z * Z :=
  if (ucSubSample =? 0x00) || (ucSubSample =? 0x01) || (ucSubSample =? 0x11)
  then ((iWidth + 7) >>' 3, (iHeight + 7) >>' 3, 8, 8)
  else if ucSubSample =? 0x12 then ((iWidth + 7) >>' 3, (iHeight + 15) >>' 4, 8, 16)
  else if ucSubSample =? 0x21 then ((iWidth + 15) >>' 4, (iHeight + 7) >>' 3, 16, 8)
  else if ucSubSample =? 0x22 then ((iWidth + 15) >>' 4, (iHeight + 15) >>' 4, 16, 16)
  else (0, 0, 0, 0).

Definition geometry_of (i : info) (iMaxMCUs : Z) : run geometry :=
  let '(cx, cy, mcuCX, mcuCY) := mcu_grid i.(ucSubSample) i.(iWidth) i.(iHeight) in
  if mcuCX * mcuCY =? 0 then Fault DivideByZero
  else
    let n := MAX_BUFFERED_PIXELS / (mcuCX * mcuCY) in
    let n := if cx <? n then cx else n in
    let n := if iMaxMCUs <? n then iMaxMCUs else n in
    Ok (mk_geometry cx cy mcuCX mcuCY n).

(** The blocks of an MCU: the component and the offset in [sMCUs]. *)
Definition mcu_blocks (ucSubSample ucNumComponents : Z) : list (nat * Z) :=
  let MCU k := DCTSIZE * k in
  let chroma := if ucSubSample =? 0x22 then (MCU 4, MCU 5)
                else if (ucSubSample =? 0x12) || (ucSubSample =? 0x21) then (MCU 2, MCU 3)
                else if (ucSubSample =? 0x11) || (ucSubSample =? 0x01) then (MCU 1, MCU 2)
                else (0, 0) in
  (0%nat, MCU 0) ::
  (if 0x11 <? ucSubSample
   then (0%nat, MCU 1) :: (if ucSubSample =? 0x22 then [(0%nat, MCU 2); (0%nat, MCU 3)] else []) else []) ++
  (if negb (ucSubSample =? 0) && (ucNumComponents =? 3) then [(1%nat, chroma.1); (2%nat, chroma.2)] else []).

(** A block: decode it, then fill it with its DC value or transform it. *)
Definition decode_block (t : tables) (c : JPEGCOMPINFO) (iMCU pred : Z) (w : work) : run (Z * Z * work) :=
  let! (r, pred, w) := JPEGDecodeMCU t c.(dc_tbl_no) c.(ac_tbl_no) iMCU pred w in
  let! mcus :=
    if w.(ucMaxACCol) =? 0 then
      let! iQuant := get t.(sQuantTable) (c.(quant_tbl_no) * DCTSIZE) in
      put_all w.(wk_mcus) (2 * iMCU) (replicate 64 (range (i32 (pred * i16 iQuant))))
    else JPEGIDCT t.(sQuantTable) iMCU c.(quant_tbl_no) w.(ucMaxACCol) w.(ucMaxACRow) w.(wk_mcus) in
  Ok (r, pred, mk_work w.(wk_input) mcus w.(ucMaxACCol) w.(ucMaxACRow)).

(** The predictors of the three components are [preds]. *)
Fixpoint decode_blocks (t : tables) (cs : list JPEGCOMPINFO) (blocks : list (nat * Z)) (preds : list Z) (iErr : Z)
    (w : work) : run (Z * list Z * work) :=
  match blocks with
  | [] => Ok (iErr, preds, w)
  | (j, iMCU) :: blocks =>
      match cs !! j, preds !! j with
      | Some c, Some pred =>
          let! (r, pred, w) := decode_block t c iMCU pred w in
          decode_blocks t cs blocks (<[j := pred]> preds) (Z.lor iErr r) w
      | _, _ => Fault OutOfBounds
      end
  end.

Definition put_mcu (i : info) (mcus : list Z) (xoff iPitch : Z) (px : list Z) : run (list Z) :=
  if i.(ucSubSample) =? 0x00 then JPEGPutMCUGray mcus xoff iPitch px
  else if i.(ucSubSample) =? 0x11 then JPEGPutMCU11 mcus xoff iPitch px
  else if i.(ucSubSample) =? 0x12 then JPEGPutMCU12 mcus xoff iPitch px
  else if i.(ucSubSample) =? 0x21 then JPEGPutMCU21 mcus xoff iPitch px
  else if i.(ucSubSample) =? 0x22 then JPEGPutMCU22 i.(iWidth) mcus xoff iPitch px
  else Ok px.

(** The state of the two loops: [jd] and the variables of the output. *)
Record decoding := mk_decoding {
  dc_work : work;
  usPixels : list Z;
  preds : list Z;
  iErr : Z;
  iResCount : Z;
  xoff : Z;
  iPitch : Z;
  jd_x : Z;
  jd_y : Z;
  jd_iHeight : Z;
  mallocs : nat;
  sent : list JPEGDRAW;
}.

Section Decode.
(** Whether the [n]-th [heap_caps_malloc] succeeds, and the heading of the image. *)
Variable malloc : nat -> bool.
Variable i : info.
Variable t : tables.
Variable g : geometry.
Variables iXOffset iYOffset : Z.

(** A block for the draw task: a structure and a buffer for its pixels. *)
Definition send_block (d : decoding) : run decoding :=
  let sent_to n s :=
    mk_decoding d.(dc_work) d.(usPixels) d.(preds) d.(iErr) d.(iResCount) d.(xoff) d.(iPitch) d.(jd_x) d.(jd_y)
      d.(jd_iHeight) n s in
  if negb (malloc d.(mallocs)) then Fault NullPointer
  else if negb (malloc (S d.(mallocs))) then Ok (sent_to (S (S d.(mallocs))) d.(sent))
  else
    let len := d.(iPitch) * d.(jd_iHeight) * 2 in
    let! pixels := get_all d.(usPixels) 0 len in
    if MAX_MCU * MCU_SIZE * 2 <? len then Fault OutOfBounds
    else Ok (sent_to (S (S d.(mallocs)))
               (d.(sent) ++ [mk_draw d.(jd_x) d.(jd_y) d.(iPitch) d.(jd_iHeight) pixels])).

(** Time to draw: after the MCU in column [x]. *)
Definition draw_group (x : Z) (d : decoding) : run decoding :=
  let below := d.(jd_y) - iYOffset in
  let h := if i.(iHeight) <? below + g.(mcuCY) then i.(iHeight) - below else d.(jd_iHeight) in
  let! d := send_block (mk_decoding d.(dc_work) d.(usPixels) d.(preds) d.(iErr) d.(iResCount) 0 d.(iPitch)
                          d.(jd_x) d.(jd_y) h d.(mallocs) d.(sent)) in
  let left := g.(cx) - 1 - x in
  Ok (mk_decoding d.(dc_work) d.(usPixels) d.(preds) d.(iErr) d.(iResCount) d.(xoff)
        (if left <? g.(iMCUCount) then left * g.(mcuCX) else d.(iPitch))
        (d.(jd_x) + d.(iPitch)) d.(jd_y) d.(jd_iHeight) d.(mallocs) d.(sent)).

Definition align_bits (b : BUFFERED_BITS) : BUFFERED_BITS :=
  if Z.land b.(ulBitOff) 7 =? 0 then b
  else mk_bits b.(pBuf) b.(ulBits) (b.(ulBitOff) + (8 - Z.land b.(ulBitOff) 7)).

(** The end of a restart interval. *)
Definition restart (d : decoding) : decoding :=
  if i.(iResInterval) =? 0 then d
  else
    let n := d.(iResCount) - 1 in
    if n =? 0 then
      let w := d.(dc_work) in
      let p := w.(wk_input) in
      mk_decoding
        (mk_work (mk_input p.(JPEGFile) p.(ucFileBuf) p.(iVLCOff) p.(iVLCSize) p.(ucFF) (align_bits p.(bb)))
           w.(wk_mcus) w.(ucMaxACCol) w.(ucMaxACRow))
        d.(usPixels) [0; 0; 0] d.(iErr) i.(iResInterval) d.(xoff) d.(iPitch) d.(jd_x) d.(jd_y) d.(jd_iHeight)
        d.(mallocs) d.(sent)
    else
      mk_decoding d.(dc_work) d.(usPixels) d.(preds) d.(iErr) n d.(xoff) d.(iPitch) d.(jd_x) d.(jd_y)
        d.(jd_iHeight) d.(mallocs) d.(sent).

Definition feed (d : decoding) : run decoding :=
  let w := d.(dc_work) in
  if w.(wk_input).(iVLCOff) <? FILE_HIGHWATER then Ok d
  else
    let! p := JPEGGetMoreData w.(wk_input) in
    Ok (mk_decoding (mk_work p w.(wk_mcus) w.(ucMaxACCol) w.(ucMaxACRow)) d.(usPixels) d.(preds) d.(iErr) d.(iResCount)
          d.(xoff) d.(iPitch) d.(jd_x) d.(jd_y) d.(jd_iHeight) d.(mallocs) d.(sent)).

(** The MCU in column [x]. *)
Definition decode_mcu (x : Z) (d : decoding) : run decoding :=
  let! (e, ps, w) := decode_blocks t i.(JPCI) (mcu_blocks i.(ucSubSample) i.(ucNumComponents)) d.(preds) d.(iErr)
                       d.(dc_work) in
  let! px := put_mcu i w.(wk_mcus) d.(xoff) d.(iPitch) d.(usPixels) in
  let d := mk_decoding w px ps e d.(iResCount) (d.(xoff) + g.(mcuCX)) d.(iPitch) d.(jd_x) d.(jd_y) d.(jd_iHeight)
             d.(mallocs) d.(sent) in
  let! d := if (d.(xoff) =? d.(iPitch)) || (x =? g.(cx) - 1) then draw_group x d else Ok d in
  feed (restart d).

Fixpoint x_loop (n : nat) (x : Z) (d : decoding) : run decoding :=
  match n with
  | O => Ok d
  | S n => if d.(iErr) =? 0 then let! d := decode_mcu x d in x_loop n (x + 1) d else Ok d
  end.

Fixpoint y_loop (n : nat) (d : decoding) : run decoding :=
  match n with
  | O => Ok d
  | S n =>
      if d.(iErr) =? 0 then
        let! d := x_loop (Z.to_nat g.(cx)) 0
                    (mk_decoding d.(dc_work) d.(usPixels) d.(preds) d.(iErr) d.(iResCount) 0 (g.(iMCUCount) * g.(mcuCX))
                       iXOffset d.(jd_y) d.(jd_iHeight) d.(mallocs) d.(sent)) in
        y_loop n (mk_decoding d.(dc_work) d.(usPixels) d.(preds) d.(iErr) d.(iResCount) d.(xoff) d.(iPitch)
                    d.(jd_x) (d.(jd_y) + g.(mcuCY)) d.(jd_iHeight) d.(mallocs) d.(sent))
      else Ok d
  end.
End Decode.

(** The return value, the image and the blocks sent. *)
Definition DecodeJPEG (malloc : nat -> bool) (p : JPEGIMAGE) (iXOffset iYOffset : Z)
  : run (Z * JPEGIMAGE * list JPEGDRAW) :=
  let i := p.(im_info) in
  let t := p.(im_tables) in
  let! q := JPEGFixQuantD i.(ucNumComponents) t.(sQuantTable) in
  let t := mk_tables t.(ucHuffTableUsed) t.(pHuffVals) q t.(ucHuffDC) t.(usHuffAC) in
  let inp := p.(im_input) in
  let! w := MOTOLONG inp.(ucFileBuf) 0 in
  let inp := mk_input inp.(JPEGFile) inp.(ucFileBuf) inp.(iVLCOff) inp.(iVLCSize) inp.(ucFF) (mk_bits 0 w 0) in
  let! g := geometry_of i p.(iMaxMCUs) in
  let! d := y_loop malloc i t g iXOffset iYOffset (Z.to_nat g.(cy))
              (mk_decoding (mk_work inp p.(sMCUs) 0 0) t.(pHuffVals) [0; 0; 0] 0 i.(iResInterval) 0 0 iXOffset
                 iYOffset g.(mcuCY) 0 []) in
  let i := if d.(iErr) =? 0 then i else set_error i JPEG_DECODE_ERROR in
  let t := mk_tables t.(ucHuffTableUsed) d.(usPixels) t.(sQuantTable) t.(ucHuffDC) t.(usHuffAC) in
  Ok (if d.(iErr) =? 0 then 1 else 0,
      mk_image i t d.(dc_work).(wk_input) d.(dc_work).(wk_mcus) p.(iMaxMCUs), d.(sent)).

(** ** The class [JPEGDEC] *)

Definition zeros (n : Z) : list Z := replicate (Z.to_nat n) 0.

(** The image after [memset], with the file in memory and the queue. *)
Definition blank_image (data : list Z) : JPEGIMAGE :=
  mk_image
    (mk_info 0 0 0 0 0 0 0 (replicate 4 (mk_comp 0 0 0 0 0 0)) (mk_exif 0 0 0 0 0 0) (mk_scan 0 0 0 0 0) 0)
    (mk_tables 0 (zeros (2 * MAX_BUFFERED_PIXELS)) (zeros (DCTSIZE * 4)) (zeros (DC_TABLE_SIZE * 2))
       (zeros (HUFF11SIZE * 2)))
    (mk_input (mk_file 0 (Z.of_nat (length data)) data) (zeros JPEG_FILE_BUF_SIZE) 0 0 false (mk_bits 0 0 0))
    (zeros (2 * (DCTSIZE * MAX_MCU_COUNT))) 1000.

Definition openRAM (data : list Z) : run (Z * JPEGIMAGE) := JPEGInit (blank_image data).

Definition setMaxOutputSize (n : Z) (p : JPEGIMAGE) : JPEGIMAGE :=
  mk_image p.(im_info) p.(im_tables) p.(im_input) p.(sMCUs) (if n <? 1 then 1 else n).

Definition decode (malloc : nat -> bool) (x y : Z) (p : JPEGIMAGE) : run (Z * JPEGIMAGE * list JPEGDRAW) :=
  DecodeJPEG malloc p x y.

(** What the decode task does with a frame; the results are not looked at. *)
Definition show_frame (malloc : nat -> bool) (data : list Z) : run (list JPEGDRAW) :=
  let! (_, p) := openRAM data in
  let! (_, _, draws) := decode malloc 0 0 (setMaxOutputSize MAX_MCU p) in
  Ok draws.

End Jpeg.
