(* ===== verification/JpegBits.v ===== *)
(** * Bits, Huffman codes and the decoding tables

    Compressed data as a sequence of bits, the code words of a Huffman table of the
    JPEG standard, and the proof that the tables [JPEGMakeHuffTables] builds decode
    exactly these words. *)
From stdpp Require Import base list.
From Stdlib Require Import ZArith Lia.
From S2P Require Import Prelude Crc JpegTables Jpeg.
Import JpegTables Jpeg.
Local Open Scope Z_scope.
Local Open Scope run_scope.

Module JpegBits.

(** ** Arrays *)

Lemma get_ok (l : list Z) (i v : Z) : 0 <= i -> l !! Z.to_nat i = Some v -> get l i = Ok v.
Proof. intros Hi H. unfold get. rewrite (proj2 (Z.ltb_ge i 0)) by lia. by rewrite H. Qed.

Lemma get_nth (l : list Z) (i : Z) : 0 <= i < Z.of_nat (length l) -> get l i = Ok (nth (Z.to_nat i) l 0).
Proof.
  intros Hi. apply get_ok; [lia|]. destruct (lookup_lt_is_Some_2 l (Z.to_nat i)) as [v Hv]; [lia|].
  rewrite Hv. by rewrite (nth_lookup_Some _ _ 0 _ Hv).
Qed.

Lemma get_all_ok (l : list Z) (i n : Z) :
  0 <= i -> 0 <= n -> i + n <= Z.of_nat (length l) -> get_all l i n = Ok (take (Z.to_nat n) (drop (Z.to_nat i) l)).
Proof.
  intros. unfold get_all.
  rewrite (proj2 (Z.leb_le 0 i)), (proj2 (Z.leb_le 0 n)), (proj2 (Z.leb_le (i + n) _)) by lia. done.
Qed.

Lemma put_all_ok (l : list Z) (i : Z) (vs : list Z) :
  0 <= i -> i + Z.of_nat (length vs) <= Z.of_nat (length l) -> put_all l i vs = Ok (store_at l (Z.to_nat i) vs).
Proof.
  intros. unfold put_all. rewrite (proj2 (Z.leb_le 0 i)), (proj2 (Z.leb_le (i + _) _)) by lia. done.
Qed.

(** A loop keeps an invariant. *)
Lemma for_from_inv {A} (P : nat -> A -> Prop) (f : Z -> A -> run A) (n : nat) :
  forall i a, P i a ->
  (forall k a, (i <= k < i + n)%nat -> P k a -> exists a', f (Z.of_nat k) a = Ok a' /\ P (S k) a') ->
  exists a', for_from i n f a = Ok a' /\ P (i + n)%nat a'.
Proof.
  induction n as [|n IH]; intros i a Ha Hstep.
  - exists a. by rewrite Nat.add_0_r.
  - destruct (Hstep i a ltac:(lia) Ha) as (a' & Hf & Ha'). simpl. rewrite Hf. simpl.
    destruct (IH (S i) a' Ha') as (a'' & H1 & H2); [intros k b Hk; apply Hstep; lia|].
    exists a''. split; [done|]. by replace (i + S n)%nat with (S i + n)%nat by lia.
Qed.

Lemma for_loop_inv {A} (P : nat -> A -> Prop) (f : Z -> A -> run A) (n : nat) (a : A) :
  P 0%nat a -> (forall k a, (k < n)%nat -> P k a -> exists a', f (Z.of_nat k) a = Ok a' /\ P (S k) a') ->
  exists a', for_loop n f a = Ok a' /\ P n a'.
Proof. intros H0 H. apply (for_from_inv P f n 0 a H0). intros k b Hk. apply H. lia. Qed.

(** ** Bits, the most significant first *)

Definition val (bs : list bool) : Z := fold_left (fun z (b : bool) => 2 * z + Z.b2z b) bs 0.

Definition bits (n : nat) (z : Z) : list bool := map (fun k => Z.testbit z (Z.of_nat (n - 1 - k))) (seq 0 n).

Definition bits_of (bytes : list Z) : list bool := concat (map (bits 8) bytes).

Lemma val_fold (bs : list bool) (z : Z) :
  fold_left (fun z (b : bool) => 2 * z + Z.b2z b) bs z = z * 2 ^ Z.of_nat (length bs) + val bs.
Proof.
  unfold val. revert z. induction bs as [|b bs IH]; intros z; [simpl; lia|].
  cbn [fold_left length]. rewrite (IH (2 * z + _)), (IH (2 * 0 + _)), Nat2Z.inj_succ, Z.pow_succ_r by lia. lia.
Qed.

Lemma val_app (a b : list bool) : val (a ++ b) = val a * 2 ^ Z.of_nat (length b) + val b.
Proof. unfold val at 1. rewrite fold_left_app. fold (val a). apply val_fold. Qed.

Lemma val_range (bs : list bool) : 0 <= val bs < 2 ^ Z.of_nat (length bs).
Proof.
  induction bs as [|b bs IH] using rev_ind; [done|].
  rewrite val_app, length_app. cbn [length]. rewrite Nat2Z.inj_add, Z.pow_add_r by lia.
  change (2 ^ Z.of_nat 1) with 2. change (val [b]) with (Z.b2z b). destruct b; cbn [Z.b2z]; lia.
Qed.

Lemma length_bits n z : length (bits n z) = n.
Proof. unfold bits. by rewrite length_map, length_seq. Qed.

Lemma bits_S (n : nat) (z : Z) : bits (S n) z = bits n (z / 2) ++ [Z.odd z].
Proof.
  unfold bits. rewrite seq_S, map_app. f_equal.
  - apply map_ext_in. intros k Hk%in_seq. rewrite Z.div2_bits by lia. f_equal. lia.
  - cbn [map]. f_equal. replace (S n - 1 - (0 + n))%nat with 0%nat by lia. by rewrite Z.bit0_odd.
Qed.

Lemma val_bits (n : nat) (z : Z) : 0 <= z < 2 ^ Z.of_nat n -> val (bits n z) = z.
Proof.
  revert z. induction n as [|n IH]; intros z Hz; [cbn in *; lia|].
  rewrite Nat2Z.inj_succ, Z.pow_succ_r in Hz by lia.
  rewrite bits_S, val_app, IH by (split; [apply Z.div_pos|apply Z.div_lt_upper_bound]; lia).
  change (val [Z.odd z]) with (Z.b2z (Z.odd z)). cbn [length]. change (2 ^ Z.of_nat 1) with 2.
  rewrite <- Z.bit0_odd, Z.bit0_mod. pose proof (Z.div_mod z 2). lia.
Qed.

Lemma length_bits_of (l : list Z) : length (bits_of l) = (8 * length l)%nat.
Proof.
  unfold bits_of. induction l as [|x l IH]; [done|]. cbn [map concat]. rewrite length_app, length_bits, IH. cbn. lia.
Qed.

Lemma bits_of_app (a b : list Z) : bits_of (a ++ b) = bits_of a ++ bits_of b.
Proof. unfold bits_of. by rewrite map_app, concat_app. Qed.

Lemma bits_of_drop (n : nat) (l : list Z) : bits_of (drop n l) = drop (8 * n) (bits_of l).
Proof.
  destruct (Nat.le_gt_cases (length l) n) as [H|H].
  - rewrite !drop_ge; [done|rewrite length_bits_of; lia|done].
  - rewrite <- (take_drop n l) at 2. rewrite bits_of_app, drop_app_length'; [done|].
    rewrite length_bits_of, length_take. lia.
Qed.

(** A field of a bit string by division and remainder. *)
Lemma val_field (l : list bool) (off n : nat) :
  (off + n <= length l)%nat ->
  (val l / 2 ^ Z.of_nat (length l - off - n)) mod 2 ^ Z.of_nat n = val (take n (drop off l)).
Proof.
  intros H. set (a := take off l). set (m := take n (drop off l)). set (c := drop n (drop off l)).
  assert (El : l = a ++ m ++ c) by (unfold a, m, c; by rewrite !take_drop).
  assert (Hm : length m = n) by (unfold m; rewrite length_take, length_drop; lia).
  assert (Hc : length c = (length l - off - n)%nat) by (unfold c; rewrite !length_drop; lia).
  rewrite <- Hc. rewrite El at 1. rewrite !val_app, length_app, Hm.
  pose proof (val_range c). pose proof (val_range m) as Hvm. rewrite Hm in Hvm.
  rewrite Nat2Z.inj_add, Z.pow_add_r, Z.mul_assoc, Z.add_assoc, <- Z.mul_add_distr_r by lia.
  rewrite Z.div_add_l, (Z.div_small (val c)), Z.add_0_r by lia.
  rewrite Z.add_comm, Z.mod_add by lia. by apply Z.mod_small.
Qed.

Lemma val_prefix (a b : list bool) : val (a ++ b) / 2 ^ Z.of_nat (length b) = val a.
Proof. rewrite val_app. pose proof (val_range b). rewrite Z.div_add_l, Z.div_small by lia. lia. Qed.

(** ** The position in the compressed data

    [F] is the filtered data.  The word being decoded holds its bytes from [g] on;
    behind the end of the data it holds whatever was in the buffer. *)
Definition word_at (F : list Z) (g : nat) (w : Z) : Prop :=
  exists T, Forall Crc.is_byte T /\ (4 <= length T)%nat /\ w = val (bits_of (take 4 (drop g F ++ T))).

(** The bits of [b] are those of [F] from bit [G] on; the file buffer starts with
    byte [W] of [F]. *)
Record at_bit (F : list Z) (W : nat) (b : BUFFERED_BITS) (G : nat) : Prop := {
  at_buf : 0 <= b.(pBuf);
  at_off : 0 <= b.(ulBitOff);
  at_pos : Z.of_nat G = 8 * (Z.of_nat W + b.(pBuf)) + b.(ulBitOff);
  at_word : word_at F (W + Z.to_nat b.(pBuf)) b.(ulBits);
}.

Lemma val_bytes (l : list Z) : Forall Crc.is_byte l ->
  forall z, fold_left (fun z x => z * 256 + x) l z = z * 2 ^ Z.of_nat (8 * length l) + val (bits_of l).
Proof.
  induction 1 as [|x l Hx Hl IH]; intros z; [cbn; lia|].
  cbn [fold_left]. rewrite IH. change (bits_of (x :: l)) with (bits 8 x ++ bits_of l).
  rewrite val_app, length_bits_of, val_bits by apply Hx.
  replace (8 * length (x :: l))%nat with (8 + 8 * length l)%nat by (cbn; lia).
  rewrite Nat2Z.inj_add, Z.pow_add_r by lia. change (2 ^ Z.of_nat 8) with 256. lia.
Qed.

Lemma MOTOLONG_val (buf : list Z) (p : Z) :
  Forall Crc.is_byte buf -> 0 <= p -> p + 4 <= Z.of_nat (length buf) ->
  MOTOLONG buf p = Ok (val (bits_of (take 4 (drop (Z.to_nat p) buf)))).
Proof.
  intros Hb Hp Hl. unfold MOTOLONG. rewrite !get_nth by lia. cbn [rbind].
  set (n := Z.to_nat p).
  assert (E : take 4 (drop n buf) = [nth n buf 0; nth (n + 1) buf 0; nth (n + 2) buf 0; nth (n + 3) buf 0]).
  { apply list_eq_same_length with 4%nat; [done|rewrite length_take, length_drop; lia|].
    intros i x y Hi Hx Hy. rewrite lookup_take_lt, lookup_drop in Hx by lia.
    apply (nth_lookup_Some _ _ 0) in Hx. subst x.
    do 4 (destruct i as [|i]; [cbn in Hy; injection Hy as <-; f_equal; lia|]). lia. }
  replace (Z.to_nat (p + 1)) with (n + 1)%nat by lia. replace (Z.to_nat (p + 2)) with (n + 2)%nat by lia.
  replace (Z.to_nat (p + 3)) with (n + 3)%nat by lia.
  pose proof (val_bytes (take 4 (drop n buf)) ltac:(by apply Forall_take, Forall_drop) 0) as Hv.
  rewrite Z.mul_0_l, Z.add_0_l in Hv. rewrite <- Hv, E. cbn [fold_left]. f_equal. lia.
Qed.

(** The code value looked up: the bits of [F] at the position, as many as there are. *)
Lemma peek (F : list Z) (W : nat) (b : BUFFERED_BITS) (G n : nat) (bs rest : list bool) :
  at_bit F W b G -> drop G (bits_of F) = bs ++ rest -> (G <= 8 * length F)%nat ->
  b.(ulBitOff) + Z.of_nat n <= 32 -> (length bs <= n)%nat ->
  let x := Z.land (Z.shiftr b.(ulBits) (32 - Z.of_nat n - b.(ulBitOff))) (Z.ones (Z.of_nat n)) in
  0 <= x < 2 ^ Z.of_nat n /\ x / 2 ^ Z.of_nat (n - length bs) = val bs.
Proof.
  intros [Hp Ho Hg (T & HT & H4 & Hw)] Hd HG Hn Hl.
  rewrite Z.land_ones, Z.shiftr_div_pow2 by lia.
  set (q := drop (W + Z.to_nat b.(pBuf)) F ++ T) in *. set (off := Z.to_nat b.(ulBitOff)).
  assert (Hq : (4 <= length q)%nat) by (unfold q; rewrite length_app; lia).
  assert (H32 : length (bits_of (take 4 q)) = 32%nat) by (rewrite length_bits_of, length_take; lia).
  assert (Hx : (b.(ulBits) / 2 ^ (32 - Z.of_nat n - b.(ulBitOff))) mod 2 ^ Z.of_nat n =
               val (take n (drop off (bits_of (take 4 q))))).
  { rewrite Hw, <- val_field, H32 by (rewrite H32; unfold off; lia).
    replace (Z.of_nat (32 - off - n)) with (32 - Z.of_nat n - b.(ulBitOff)) by (unfold off; lia). done. }
  assert (Hq' : drop off (bits_of q) = bs ++ rest ++ bits_of T).
  { unfold q. rewrite bits_of_app, bits_of_drop, app_assoc, <- Hd.
    replace G with (8 * (W + Z.to_nat b.(pBuf)) + off)%nat by (unfold off; lia).
    rewrite <- drop_drop. rewrite drop_app_le; [done|]. rewrite length_drop, length_bits_of. unfold off. lia. }
  assert (Hm : take n (drop off (bits_of (take 4 q))) = bs ++ take (n - length bs) (rest ++ bits_of T)).
  { rewrite <- (take_drop 4 q), bits_of_app in Hq'. rewrite drop_app_le in Hq' by (rewrite H32; unfold off; lia).
    apply (f_equal (take n)) in Hq'. rewrite take_app_le in Hq' by (rewrite length_drop, H32; unfold off; lia).
    rewrite Hq'. by rewrite take_app_ge by lia. }
  rewrite Hx, Hm. split.
  - pose proof (val_range (bs ++ take (n - length bs) (rest ++ bits_of T))) as Hr. rewrite <- Hm in Hr |- *.
    rewrite length_take, length_drop, H32 in Hr. by rewrite Nat.min_l in Hr by (unfold off; lia).
  - assert (El : length (take (n - length bs) (rest ++ bits_of T)) = (n - length bs)%nat).
    { apply (f_equal length) in Hm. rewrite length_take, length_drop, H32, length_app in Hm. unfold off in Hm. lia. }
    rewrite <- El at 2. apply val_prefix.
Qed.

(** The file buffer is a window on the data: its first [iVLCSize] bytes are those of
    [F] from [W] on. *)
Record window (F : list Z) (W : nat) (p : input) : Prop := {
  win_bytes : Forall Crc.is_byte p.(ucFileBuf);
  win_length : Z.of_nat (length p.(ucFileBuf)) = JPEG_FILE_BUF_SIZE;
  win_size : 0 <= p.(iVLCSize) <= JPEG_FILE_BUF_SIZE;
  win_data : take (Z.to_nat p.(iVLCSize)) p.(ucFileBuf) = take (Z.to_nat p.(iVLCSize)) (drop W F);
  win_inside : Z.of_nat W + p.(iVLCSize) <= Z.of_nat (length F);
}.

(** Byte [o] of the buffer can be decoded: the four bytes there are data, or the
    data ends in the buffer. *)
Definition readable (F : list Z) (W : nat) (p : input) (o : Z) : Prop :=
  0 <= o <= p.(iVLCSize) /\ o + 4 <= JPEG_FILE_BUF_SIZE /\
  (o + 4 <= p.(iVLCSize) \/ Z.of_nat W + p.(iVLCSize) = Z.of_nat (length F)).

Lemma window_word (F : list Z) (W : nat) (p : input) (o : Z) :
  window F W p -> readable F W p o ->
  exists w, MOTOLONG p.(ucFileBuf) o = Ok w /\ word_at F (W + Z.to_nat o) w.
Proof.
  intros [Hb Hl Hs Hd Hi] (Ho & Ho4 & He). set (buf := p.(ucFileBuf)) in *. set (n := p.(iVLCSize)) in *.
  unfold JPEG_FILE_BUF_SIZE in *.
  rewrite MOTOLONG_val by (done || lia). eexists. split; [done|].
  exists (drop (Z.to_nat n) buf ++ replicate 4 0). split; [|split].
  - apply Forall_app. split; [by apply Forall_drop|]. by apply Forall_replicate.
  - rewrite length_app, length_replicate. lia.
  - do 2 f_equal. rewrite <- (take_drop (Z.to_nat n) buf) at 1.
    rewrite drop_app_le by (rewrite length_take; lia). rewrite Hd, <- drop_drop, app_assoc.
    destruct He as [He|He].
    + rewrite !take_app_le; rewrite ?length_app, ?length_drop, ?length_take, ?length_drop; try lia.
      rewrite skipn_firstn_comm, take_take. f_equal. lia.
    + rewrite (take_ge (drop W F)) by (rewrite length_drop; lia).
      symmetry. apply take_app_le. rewrite length_app, !length_drop. lia.
Qed.

Lemma refill_ok (F : list Z) (W : nat) (p : input) (b : BUFFERED_BITS) (G : nat) :
  window F W p -> at_bit F W b G -> readable F W p (Z.of_nat G / 8 - Z.of_nat W) -> b.(ulBitOff) <= 32 ->
  exists b', refill p.(ucFileBuf) b = Ok b' /\ at_bit F W b' G /\ b'.(ulBitOff) <= 15.
Proof.
  intros Hw [Hp Ho Hg Hword] Hr H32. unfold refill, REGISTER_WIDTH.
  destruct (Z.ltb_spec (32 - 17) b.(ulBitOff)); [|by exists b].
  rewrite Z.shiftr_div_pow2 by lia. change (2 ^ 3) with 8.
  assert (E : Z.of_nat G / 8 - Z.of_nat W = b.(pBuf) + b.(ulBitOff) / 8).
  { rewrite Hg, Z.mul_comm, Z.div_add_l by lia. lia. }
  rewrite E in Hr. destruct (window_word _ _ _ _ Hw Hr) as (w & -> & Hw'). cbn [rbind].
  pose proof (Z.div_pos b.(ulBitOff) 8 Ho ltac:(lia)). pose proof (Z.mod_pos_bound b.(ulBitOff) 8 ltac:(lia)).
  change 7 with (Z.ones 3). rewrite Z.land_ones by lia. change (2 ^ 3) with 8.
  eexists. split; [done|]. split; [|cbn; lia]. constructor; cbn; try lia; [|exact Hw'].
  rewrite Hg. pose proof (Z.div_mod b.(ulBitOff) 8). lia.
Qed.

Lemma skip_ok (F : list Z) (W : nat) (b : BUFFERED_BITS) (G n : nat) :
  at_bit F W b G -> at_bit F W (skip b (Z.of_nat n)) (G + n).
Proof. intros [Hp Ho Hg Hw]. constructor; cbn; try lia. done. Qed.

(** The value that [n] extra bits stand for. *)
Definition extend (n v : Z) : Z := if v <? 2 ^ (n - 1) then v - (2 ^ n - 1) else v.

Lemma shifted_field (w off n : Z) :
  0 <= off -> 0 <= n -> off + n <= 32 ->
  Z.shiftr (u32 (Z.shiftl w off)) (32 - n) = Z.land (Z.shiftr w (32 - n - off)) (Z.ones n).
Proof.
  intros Ho Hn H. unfold u32. rewrite <- Z.land_ones by lia. apply Z.bits_inj'. intros k Hk.
  rewrite Z.shiftr_spec, !Z.land_spec, Z.shiftl_spec, Z.shiftr_spec by lia.
  replace (k + (32 - n) - off) with (k + (32 - n - off)) by lia. f_equal.
  destruct (Z.ltb_spec k n).
  - rewrite !Z.ones_spec_low by lia. done.
  - rewrite !Z.ones_spec_high by lia. done.
Qed.

Lemma extra_bits_ok (F : list Z) (W : nat) (b : BUFFERED_BITS) (G : nat) (bs rest : list bool) :
  at_bit F W b G -> drop G (bits_of F) = bs ++ rest -> (G <= 8 * length F)%nat -> b.(ulBitOff) <= 15 ->
  (0 < length bs <= 16)%nat ->
  extra_bits b (Z.of_nat (length bs)) = u32 (extend (Z.of_nat (length bs)) (val bs)).
Proof.
  intros Hat Hd HG Ho Hl. set (n := length bs) in *. pose proof (at_off _ _ _ _ Hat) as Ho0.
  unfold extra_bits, REGISTER_WIDTH, extend.
  destruct (peek F W b G n bs rest Hat Hd HG ltac:(lia) ltac:(lia)) as [Hr Hv].
  replace (n - length bs)%nat with 0%nat in Hv by (unfold n; lia). rewrite Z.div_1_r in Hv.
  set (c := u32 (Z.shiftl b.(ulBits) b.(ulBitOff))).
  assert (Hc : Z.shiftr c (32 - Z.of_nat n) = val bs) by (unfold c; by rewrite shifted_field by lia).
  rewrite Hc. rewrite Z.shiftr_div_pow2 in Hc by lia.
  pose proof (u32_range (Z.shiftl b.(ulBits) b.(ulBitOff))) as Hcr. fold c in Hcr.
  assert (Hp : 2 ^ 31 = 2 ^ (Z.of_nat n - 1) * 2 ^ (32 - Z.of_nat n)) by (rewrite <- Z.pow_add_r by lia; f_equal; lia).
  pose proof (Z.pow_pos_nonneg 2 (32 - Z.of_nat n) ltac:(lia) ltac:(lia)).
  replace (c <? 2 ^ 31) with (val bs <? 2 ^ (Z.of_nat n - 1)).
  - destruct (val bs <? _); [|by rewrite Z.shiftr_0_l, Z.sub_0_r].
    change (2 ^ 32 - 1) with (Z.ones 32). rewrite Z.shiftr_div_pow2, Z.ones_div_pow2, Z.ones_equiv by lia.
    do 2 f_equal. rewrite <- Z.sub_1_r. do 2 f_equal. lia.
  - apply eq_true_iff_eq. rewrite !Z.ltb_lt, <- Hc. split; intros.
    + apply Z.lt_nge. intros Hge. apply (Z.div_le_mono _ _ (2 ^ (32 - Z.of_nat n))) in Hge; [|lia].
      rewrite Hp, Z.div_mul in Hge by lia. lia.
    + apply Z.div_lt_upper_bound; lia.
Qed.

(** ** Huffman codes

    A table of the standard: how many codes there are of each length from 1 to 16,
    and the symbols in the order of their codes. *)
Record huffman := mk_huffman { counts : list Z; symbols : list Z }.

Record word := mk_word { w_len : Z; w_code : Z; w_sym : Z }.

Fixpoint words_of_length (n : nat) (len code : Z) (syms : list Z) : list word :=
  match n, syms with
  | S n, s :: syms => mk_word len code s :: words_of_length n len (code + 1) syms
  | _, _ => []
  end.

Fixpoint words_from (ns : list Z) (len code : Z) (syms : list Z) : list word :=
  match ns with
  | [] => []
  | n :: ns =>
      words_of_length (Z.to_nat n) len code syms ++ words_from ns (len + 1) ((code + n) * 2) (drop (Z.to_nat n) syms)
  end.

Definition words (h : huffman) : list word := words_from h.(counts) 1 0 h.(symbols).

(** The bits of a code word. *)
Definition word_bits (w : word) : list bool := bits (Z.to_nat w.(w_len)) w.(w_code).

(** All codes entered one after the other. *)
Fixpoint enter_all (enter : Z -> Z -> Z -> list Z -> run (bool * list Z)) (ws : list word) (table : list Z)
  : run (bool * list Z) :=
  match ws with
  | [] => Ok (true, table)
  | w :: ws =>
      let! (good, table) := enter w.(w_len) w.(w_code) w.(w_sym) table in
      if good : bool then enter_all enter ws table else Ok (false, table)
  end.

Lemma enter_all_app enter ws ws' table table' :
  enter_all enter (ws ++ ws') table = Ok (true, table') ->
  exists t, enter_all enter ws table = Ok (true, t) /\ enter_all enter ws' t = Ok (true, table').
Proof.
  revert table. induction ws as [|w ws IH]; intros table; [by exists table|].
  cbn [app enter_all]. destruct (enter _ _ _ _) as [[[] t]|]; cbn [rbind]; [apply IH|done|done].
Qed.

(** The table is stored as its counts followed by its symbols. *)
Definition stored_at (vals : list Z) (p : Z) (h : huffman) : Prop :=
  0 <= p /\ exists rest, drop (Z.to_nat p) vals = h.(counts) ++ h.(symbols) ++ rest.

Lemma codes_of_length_words enter vals (n : nat) : forall len cc p syms rest table table',
  0 <= p -> drop (Z.to_nat p) vals = syms ++ rest -> (n <= length syms)%nat ->
  enter_all enter (words_of_length n len cc syms) table = Ok (true, table') ->
  codes_of_length enter vals n len cc p table = Ok (true, cc + Z.of_nat n, p + Z.of_nat n, table').
Proof.
  induction n as [|n IH]; intros len cc p syms rest table table' Hp Hd Hn H.
  - cbn in *. rewrite !Z.add_0_r. congruence.
  - destruct syms as [|s syms]; [cbn in Hn; lia|]. cbn [words_of_length enter_all w_len w_code w_sym] in H.
    assert (Hg : get vals p = Ok s).
    { apply get_ok; [done|]. replace (Z.to_nat p) with (Z.to_nat p + 0)%nat by lia. by rewrite <- lookup_drop, Hd. }
    cbn [codes_of_length]. rewrite Hg. cbn [rbind].
    destruct (enter len cc s table) as [[[] t]|]; cbn [rbind] in *; [|done|done].
    rewrite (IH len (cc + 1) (p + 1) syms rest t table'); [|lia| |cbn in Hn; lia|done].
    + by replace (cc + 1 + Z.of_nat n) with (cc + Z.of_nat (S n)) by lia; replace (p + 1 + Z.of_nat n) with (p + Z.of_nat (S n)) by lia.
    + replace (Z.to_nat (p + 1)) with (Z.to_nat p + 1)%nat by lia. rewrite <- drop_drop, Hd. done.
Qed.

Lemma total_nonneg (ns : list Z) : Forall (fun n => 0 <= n) ns -> 0 <= total ns.
Proof. unfold total. induction 1; cbn [fold_right]; lia. Qed.

Lemma code_lengths_words enter vals (ns : list Z) : forall len cc pBits p syms rest rest' table table',
  0 <= pBits -> 0 <= p -> drop (Z.to_nat pBits) vals = ns ++ rest' -> drop (Z.to_nat p) vals = syms ++ rest ->
  Forall (fun n => 0 <= n) ns -> total ns <= Z.of_nat (length syms) ->
  enter_all enter (words_from ns len cc syms) table = Ok (true, table') ->
  code_lengths enter vals (length ns) len cc pBits p table = Ok (true, table').
Proof.
  induction ns as [|n ns IH]; intros len cc pBits p syms rest rest' table table' Hb Hp Hdb Hd Hn Ht H; [done|].
  apply Forall_cons in Hn as [Hn0 Hn]. cbn [words_from] in H. change (total (n :: ns)) with (n + total ns) in Ht.
  pose proof (total_nonneg ns Hn).
  apply enter_all_app in H as (t & H1 & H2). cbn [length code_lengths].
  assert (Hg : get vals pBits = Ok n).
  { apply get_ok; [done|]. replace (Z.to_nat pBits) with (Z.to_nat pBits + 0)%nat by lia. by rewrite <- lookup_drop, Hdb. }
  rewrite Hg. cbn [rbind].
  rewrite (codes_of_length_words enter vals _ _ _ _ syms rest table t) by (done || lia). cbn [rbind].
  rewrite Z2Nat.id by lia.
  apply (IH _ _ _ _ (drop (Z.to_nat n) syms) rest rest'); try lia; try done.
  - replace (Z.to_nat (pBits + 1)) with (Z.to_nat pBits + 1)%nat by lia. by rewrite <- drop_drop, Hdb.
  - replace (Z.to_nat (p + n)) with (Z.to_nat p + Z.to_nat n)%nat by lia.
    rewrite <- drop_drop, Hd, drop_app_le by lia. done.
  - rewrite length_drop. lia.
Qed.

(** The counts and the symbols of a table belong together. *)
Record huffman_wf (h : huffman) : Prop := {
  wf_counts : length h.(counts) = 16%nat;
  wf_byte_counts : Forall Crc.is_byte h.(counts);
  wf_symbols : Z.of_nat (length h.(symbols)) = total h.(counts);
  wf_byte_symbols : Forall Crc.is_byte h.(symbols);
}.

Lemma code_table_words enter vals (p : Z) (h : huffman) (table table' : list Z) :
  huffman_wf h -> stored_at vals p h -> enter_all enter (words h) table = Ok (true, table') ->
  code_table enter vals p table = Ok (true, table').
Proof.
  intros [Hc Hb Hs _] (Hp & rest & Hd) H. unfold code_table. rewrite <- Hc.
  apply (code_lengths_words enter vals h.(counts) 1 0 p (p + 16) h.(symbols) rest (h.(symbols) ++ rest)); try lia; try done.
  - replace (Z.to_nat (p + 16)) with (Z.to_nat p + length h.(counts))%nat by lia.
    rewrite <- drop_drop, Hd. by rewrite drop_app_length.
  - eapply Forall_impl; [exact Hb|]. intros x Hx. apply Hx.
Qed.

(** The codes of a table follow each other without a gap when they are left-aligned
    to 16 bits. *)
Fixpoint chained (pos : Z) (ws : list word) : Prop :=
  match ws with
  | [] => True
  | w :: ws => w.(w_code) * 2 ^ (16 - w.(w_len)) = pos /\ chained (pos + 2 ^ (16 - w.(w_len))) ws
  end.

Lemma words_of_length_chained (n : nat) : forall len code syms ws,
  (n <= length syms)%nat -> chained ((code + Z.of_nat n) * 2 ^ (16 - len)) ws ->
  chained (code * 2 ^ (16 - len)) (words_of_length n len code syms ++ ws).
Proof.
  induction n as [|n IH]; intros len code syms ws Hn H; [by rewrite Z.add_0_r in H|].
  destruct syms as [|s syms]; [cbn in Hn; lia|]. cbn [words_of_length app chained w_len w_code]. split; [done|].
  rewrite <- (Z.mul_1_l (2 ^ _)) at 2. rewrite <- Z.mul_add_distr_r. apply IH; [cbn in Hn; lia|].
  replace (code + 1 + Z.of_nat n) with (code + Z.of_nat (S n)) by lia. done.
Qed.

Lemma words_from_chained (ns : list Z) : forall len code syms,
  Z.of_nat (length ns) + len <= 17 -> Forall (fun n => 0 <= n) ns -> total ns <= Z.of_nat (length syms) ->
  chained (code * 2 ^ (16 - len)) (words_from ns len code syms).
Proof.
  induction ns as [|n ns IH]; intros len code syms Hl Hn Ht; [done|].
  apply Forall_cons in Hn as [Hn0 Hn]. change (total (n :: ns)) with (n + total ns) in Ht. cbn [length] in Hl.
  pose proof (total_nonneg ns Hn).
  cbn [words_from]. apply words_of_length_chained; [lia|]. rewrite Z2Nat.id by lia.
  destruct ns as [|m ns']; [done|]. cbn [length] in Hl.
  replace (2 ^ (16 - len)) with (2 * 2 ^ (16 - (len + 1))) by (rewrite <- Z.pow_succ_r by lia; f_equal; lia).
  rewrite Z.mul_assoc. apply IH; [cbn [length]; lia|done|]. rewrite length_drop. lia.
Qed.

Lemma words_chained (h : huffman) : huffman_wf h -> chained 0 (words h).
Proof.
  intros [Hc Hb Hs _]. apply (words_from_chained h.(counts) 1 0); [lia| |lia].
  eapply Forall_impl; [exact Hb|]. intros x Hx. apply Hx.
Qed.

(** Whether a word begins with [b] ones, as the code tests it, for words of up to
    [N] bits that are not all ones.  Left-aligned to [N] bits, the others end below
    the first that does. *)
Lemma ones_test (N b L c : Z) :
  0 < b <= 6 -> b <= N <= 16 -> 1 <= L <= N -> 0 <= c -> c + 1 < 2 ^ L ->
  if sar c (L - b) =? 2 ^ b - 1
  then b <= L /\ (2 ^ b - 1) * 2 ^ (N - b) <= c * 2 ^ (N - L) /\ c * 2 ^ (N - L) + 2 ^ (N - L) < 2 ^ N
  else (L < b \/ c < (2 ^ b - 1) * 2 ^ (L - b)) /\ c * 2 ^ (N - L) + 2 ^ (N - L) <= (2 ^ b - 1) * 2 ^ (N - b).
Proof.
  intros Hb HN HL Hc0 Hc. pose proof (Z.pow_pos_nonneg 2 (N - L) ltac:(lia) ltac:(lia)) as Hp.
  assert (EN : 2 ^ N = 2 ^ L * 2 ^ (N - L)) by (rewrite <- Z.pow_add_r by lia; f_equal; lia).
  unfold sar. rewrite Z.shiftr_div_pow2 by (apply Z.mod_pos_bound; lia).
  destruct (Z.le_gt_cases b L) as [HbL|HbL].
  - rewrite (Z.mod_small (L - b)) by lia.
    assert (E : 2 ^ (N - b) = 2 ^ (L - b) * 2 ^ (N - L)) by (rewrite <- Z.pow_add_r by lia; f_equal; lia).
    assert (E' : 2 ^ L = 2 ^ b * 2 ^ (L - b)) by (rewrite <- Z.pow_add_r by lia; f_equal; lia).
    pose proof (Z.pow_pos_nonneg 2 (L - b) ltac:(lia) ltac:(lia)).
    pose proof (Z.pow_pos_nonneg 2 b ltac:(lia) ltac:(lia)).
    pose proof (Z.div_mod c (2 ^ (L - b))) as Hd. pose proof (Z.mod_pos_bound c (2 ^ (L - b))).
    rewrite E. destruct (Z.eqb_spec (c / 2 ^ (L - b)) (2 ^ b - 1)) as [Hq|Hq].
    + rewrite Hq in Hd. split; [lia|]. split; nia.
    + assert (c / 2 ^ (L - b) < 2 ^ b) by (apply Z.div_lt_upper_bound; lia).
      assert (c < (2 ^ b - 1) * 2 ^ (L - b)) by nia. split; [by right|nia].
  - assert (Hz : c / 2 ^ ((L - b) mod 32) = 0).
    { rewrite <- (Z_mod_plus_full (L - b) 1 32), Z.mod_small by lia. apply Z.div_small. split; [lia|].
      apply Z.lt_trans with (2 ^ L); [lia|]. apply Z.pow_lt_mono_r; lia. }
    rewrite Hz. pose proof (Z.pow_le_mono_r 2 1 b ltac:(lia) ltac:(lia)). rewrite (proj2 (Z.eqb_neq 0 _)) by lia.
    split; [by left|].
    assert (E : 2 ^ (N - L) = 2 ^ (b - L) * 2 ^ (N - b)) by (rewrite <- Z.pow_add_r by lia; f_equal; lia).
    assert (E' : 2 ^ b = 2 ^ L * 2 ^ (b - L)) by (rewrite <- Z.pow_add_r by lia; f_equal; lia).
    pose proof (Z.pow_pos_nonneg 2 (N - b) ltac:(lia) ltac:(lia)).
    pose proof (Z.pow_pos_nonneg 2 (b - L) ltac:(lia) ltac:(lia)). rewrite E, E'. nia.
Qed.

(** ** The AC tables *)

(** A code the AC tables have room for: the JPEG standard leaves the word of ones
    only unused, and a word of more than 10 bits must begin with six ones. *)
Record ac_word (w : word) : Prop := {
  acw_len : 1 <= w.(w_len) <= 16;
  acw_code : 0 <= w.(w_code) /\ w.(w_code) + 1 < 2 ^ w.(w_len);
  acw_long : w.(w_len) <= 10 \/ 63 * 2 ^ (w.(w_len) - 6) <= w.(w_code);
  acw_sym : 0 <= w.(w_sym) < 256;
}.

(** The index of 16 bits in a table. *)
Definition ac_index (x : Z) : Z := if 0xfc00 <=? x then Z.land x 0x7ff else Z.shiftr x 6.

Lemma ac_index_long x : 0xfc00 <= x < 0x10000 -> ac_index x = x - 0xf800.
Proof.
  intros Hx. unfold ac_index. rewrite (proj2 (Z.leb_le _ _)) by lia. change 0x7ff with (Z.ones 11).
  rewrite Z.land_ones by lia. change (2 ^ 11) with 2048. symmetry. apply (Z.mod_unique x 2048 31); lia.
Qed.

Lemma ac_index_short x : x < 0xfc00 -> ac_index x = x / 64.
Proof. intros Hx. unfold ac_index. rewrite (proj2 (Z.leb_gt _ _)) by lia. by rewrite Z.shiftr_div_pow2 by lia. Qed.

Lemma ac_index_nonneg x : 0 <= x -> 0 <= ac_index x.
Proof.
  intros Hx. unfold ac_index. destruct (_ <=? _); [apply Z.land_nonneg; lia|]. apply Z.shiftr_nonneg. lia.
Qed.

(** Where the words of a table go. *)
Lemma ac_place (w : word) : ac_word w ->
  let v := w.(w_code) * 2 ^ (16 - w.(w_len)) in
  let long := sar w.(w_code) (w.(w_len) - 6) =? 0x3f in
  let count := if long then 16 - w.(w_len) else 10 - w.(w_len) in
  let i := if long then 1024 + Z.land (Z.shiftl w.(w_code) count) 0x3ff else Z.shiftl w.(w_code) count in
  0 <= count /\ 0 <= i /\ i + 2 ^ count <= 2048 /\
  (forall x, v <= x < v + 2 ^ (16 - w.(w_len)) -> i <= ac_index x < i + 2 ^ count) /\
  (forall x, 0 <= x < v -> ac_index x < i).
Proof.
  intros [Hl [Hc0 Hc] Hlong Hs]. set (L := w.(w_len)) in *. set (c := w.(w_code)) in *. cbv zeta.
  pose proof (ones_test 16 6 L c ltac:(lia) ltac:(lia) ltac:(lia) Hc0 Hc) as Htest. change (2 ^ 6 - 1) with 63 in Htest.
  change (63 * 2 ^ (16 - 6)) with 0xfc00 in Htest.
  pose proof (Z.pow_pos_nonneg 2 (16 - L) ltac:(lia) ltac:(lia)).
  destruct (sar c (L - 6) =? 63).
  - destruct Htest as (H6 & Hv & Hv'). rewrite Z.shiftl_mul_pow2 by lia. set (v := c * 2 ^ (16 - L)) in *.
    change 0x3ff with (Z.ones 10). rewrite Z.land_ones by lia.
    assert (Hm : v mod 2 ^ 10 = v - 0xfc00) by (symmetry; apply (Z.mod_unique v (2 ^ 10) 63); lia). rewrite Hm.
    repeat split; try lia.
    1,2: rewrite ac_index_long; lia.
    intros x Hx. destruct (Z.le_gt_cases 0xfc00 x); [rewrite ac_index_long; lia|].
    rewrite ac_index_short by lia. pose proof (Z.div_lt_upper_bound x 64 1024). lia.
  - destruct Htest as [Hs' Hv]. assert (HL : L <= 10) by lia. rewrite Z.shiftl_mul_pow2 by lia. set (k := 10 - L) in *.
    assert (E16 : 2 ^ (16 - L) = 2 ^ k * 64) by (change 64 with (2 ^ 6); unfold k; rewrite <- Z.pow_add_r by lia; f_equal; lia).
    pose proof (Z.pow_pos_nonneg 2 k ltac:(lia) ltac:(lia)). rewrite E16 in *.
    repeat split; try nia.
    1: rewrite ac_index_short by lia; apply Z.div_le_lower_bound; lia.
    1: rewrite ac_index_short by lia; apply Z.div_lt_upper_bound; lia.
    intros x Hx. rewrite ac_index_short by lia. apply Z.div_lt_upper_bound; lia.
Qed.

Lemma store_lookup {A} (l vs : list A) (j k : nat) :
  (j + length vs <= length l)%nat ->
  store_at l j vs !! k = if decide (j <= k < j + length vs)%nat then vs !! (k - j)%nat else l !! k.
Proof.
  intros H. case_decide as Hk.
  - replace k with (j + (k - j))%nat at 1 by lia. apply store_at_hit; lia.
  - destruct (Nat.lt_ge_cases k j); [apply store_at_before; lia|apply store_at_after; lia].
Qed.

Lemma fill_lookup {A} (l : list A) (j n k : nat) (v : A) :
  (j + n <= length l)%nat ->
  store_at l j (replicate n v) !! k = if decide (j <= k < j + n)%nat then Some v else l !! k.
Proof.
  intros H. rewrite store_lookup by (rewrite length_replicate; lia). rewrite length_replicate.
  case_decide; [|done]. apply lookup_replicate_2. lia.
Qed.

Lemma div_region (x p c : Z) : 0 < p -> x / p = c -> c * p <= x < c * p + p.
Proof. intros Hp <-. pose proof (Z.div_mod x p). pose proof (Z.mod_pos_bound x p). lia. Qed.

(** What a word adds to AC table [t]: its entry for all bits that begin with it, the
    entries of smaller bits and of the other table as they were. *)
Lemma ac_enter_ok (t : Z) (w : word) (table : list Z) :
  ac_word w -> 0 <= t <= 1 -> length table = 4096%nat ->
  exists table', ac_enter t w.(w_len) w.(w_code) w.(w_sym) table = Ok (true, table') /\ length table' = 4096%nat /\
    (forall x, 0 <= x -> x / 2 ^ (16 - w.(w_len)) = w.(w_code) ->
       table' !! Z.to_nat (t * 2048 + ac_index x) = Some (w.(w_len) * 256 + w.(w_sym))) /\
    (forall x, 0 <= x < w.(w_code) * 2 ^ (16 - w.(w_len)) ->
       table' !! Z.to_nat (t * 2048 + ac_index x) = table !! Z.to_nat (t * 2048 + ac_index x)) /\
    (forall k, (Z.of_nat k < t * 2048 \/ t * 2048 + 2048 <= Z.of_nat k) -> table' !! k = table !! k).
Proof.
  intros Hw Ht Hlen. pose proof (ac_place w Hw) as Hplace. cbv zeta in Hplace. unfold ac_enter, HUFF11SIZE.
  set (long := sar _ _ =? _) in *. set (count := if long then _ else _) in *.
  set (i := if long then _ + _ else _) in *. destruct Hplace as (Hc & Hi & Hi2 & Hin & Hbelow).
  replace (t * 2048 + (if long then 1024 + Z.land (Z.shiftl w.(w_code) count) 0x3ff else Z.shiftl w.(w_code) count))
    with (t * 2048 + i) by (unfold i; done).
  rewrite (proj2 (Z.ltb_ge count 0)), andb_false_r by lia.
  pose proof (Z.pow_pos_nonneg 2 count ltac:(lia) ltac:(lia)).
  rewrite put_all_ok by (rewrite ?length_replicate; lia). cbn [rbind]. eexists. split; [done|].
  destruct Hw as [Hl [Hc0 Hcl] _ Hs]. pose proof (Z.pow_pos_nonneg 2 (16 - w.(w_len)) ltac:(lia) ltac:(lia)).
  assert (Hv : u16 (Z.lor w.(w_sym) (Z.shiftl w.(w_len) 8)) = w.(w_len) * 256 + w.(w_sym)).
  { rewrite Z.lor_comm, Z.shiftl_mul_pow2, lor_field by lia. change (2 ^ 8) with 256. apply u16_small. lia. }
  rewrite Hv. split; [rewrite store_at_length; rewrite ?length_replicate; lia|]. split; [|split].
  - intros x Hx Ex. rewrite fill_lookup by lia.
    assert (Hr : i <= ac_index x < i + 2 ^ count).
    { apply Hin. pose proof (div_region x (2 ^ (16 - w.(w_len))) _ ltac:(lia) Ex). lia. }
    rewrite decide_True by lia. done.
  - intros x Hx. rewrite fill_lookup by lia. specialize (Hbelow x Hx).
    pose proof (ac_index_nonneg x ltac:(lia)). rewrite decide_False by lia. done.
  - intros k Hk. rewrite fill_lookup by lia. rewrite decide_False by lia. done.
Qed.

(** The entry that AC table [t] has for bits that begin with word [w]. *)
Definition ac_entry (table : list Z) (t : Z) (w : word) : Prop :=
  forall x, 0 <= x -> x / 2 ^ (16 - w.(w_len)) = w.(w_code) ->
    table !! Z.to_nat (t * 2048 + ac_index x) = Some (w.(w_len) * 256 + w.(w_sym)).

Lemma ac_enter_all (t : Z) (ws : list word) : 0 <= t <= 1 ->
  forall pos table, Forall ac_word ws -> chained pos ws -> length table = 4096%nat ->
  exists table', enter_all (ac_enter t) ws table = Ok (true, table') /\ length table' = 4096%nat /\
    Forall (ac_entry table' t) ws /\
    (forall x, 0 <= x < pos ->
       table' !! Z.to_nat (t * 2048 + ac_index x) = table !! Z.to_nat (t * 2048 + ac_index x)) /\
    (forall k, (Z.of_nat k < t * 2048 \/ t * 2048 + 2048 <= Z.of_nat k) -> table' !! k = table !! k).
Proof.
  intros Ht. induction ws as [|w ws IH]; intros pos table Hws Hch Hlen; [by exists table|].
  apply Forall_cons in Hws as [Hw Hws]. destruct Hch as [Hpos Hch].
  destruct (ac_enter_ok t w table Hw Ht Hlen) as (t1 & E1 & Hl1 & Hin & Hbelow & Hout).
  destruct (IH _ t1 Hws Hch Hl1) as (t2 & E2 & Hl2 & Hall & Hbelow2 & Hout2).
  pose proof (Z.pow_pos_nonneg 2 (16 - w.(w_len)) ltac:(lia) ltac:(pose proof (acw_len _ Hw); lia)).
  exists t2. cbn [enter_all]. rewrite E1. cbn [rbind]. split; [done|]. split; [done|]. split; [|split].
  - apply Forall_cons. split; [|done]. intros x Hx Ex. rewrite Hbelow2; [by apply Hin|].
    pose proof (div_region x (2 ^ (16 - w.(w_len))) _ ltac:(lia) Ex). lia.
  - intros x Hx. rewrite Hbelow2 by lia. apply Hbelow. lia.
  - intros k Hk. rewrite Hout2 by done. by apply Hout.
Qed.

(** ** The DC tables *)

(** A code the DC tables have room for: at most 12 bits, more than 6 only after five
    ones.  The symbol is the number of bits of the difference. *)
Record dc_word (w : word) : Prop := {
  dcw_len : 1 <= w.(w_len) <= 12;
  dcw_code : 0 <= w.(w_code) /\ w.(w_code) + 1 < 2 ^ w.(w_len);
  dcw_long : w.(w_len) <= 6 \/ 31 * 2 ^ (w.(w_len) - 5) <= w.(w_code);
  dcw_sym : 0 <= w.(w_sym) <= 11;
}.

(** The index of 12 bits in a table. *)
Definition dc_index (x : Z) : Z := if 0xf80 <=? x then Z.land x 0xff else Z.shiftr x 6.

Lemma dc_index_long x : 0xf80 <= x < 0x1000 -> dc_index x = x - 0xf00.
Proof.
  intros Hx. unfold dc_index. rewrite (proj2 (Z.leb_le _ _)) by lia. change 0xff with (Z.ones 8).
  rewrite Z.land_ones by lia. change (2 ^ 8) with 256. symmetry. apply (Z.mod_unique x 256 15); lia.
Qed.

Lemma dc_index_short x : x < 0xf80 -> dc_index x = x / 64.
Proof. intros Hx. unfold dc_index. rewrite (proj2 (Z.leb_gt _ _)) by lia. by rewrite Z.shiftr_div_pow2 by lia. Qed.

Lemma dc_index_range x : 0 <= x < 0x1000 -> 0 <= dc_index x < 256.
Proof.
  intros Hx. destruct (Z.le_gt_cases 0xf80 x); [rewrite dc_index_long; lia|].
  rewrite dc_index_short by lia. split; [apply Z.div_pos|apply Z.div_lt_upper_bound]; lia.
Qed.

(** Where the words of a table go; [sh] bits are not part of the index. *)
Lemma dc_place (w : word) : dc_word w ->
  let r := 12 - w.(w_len) in
  let v := w.(w_code) * 2 ^ r in
  let long := sar w.(w_code) (w.(w_len) - 5) =? 0x1f in
  let count := if long then 12 - w.(w_len) else 6 - w.(w_len) in
  let sh := if long then 0 else 6 in
  let i := if long then 128 + Z.land (Z.shiftl w.(w_code) count) 0x7f else Z.shiftl w.(w_code) count in
  0 <= count /\ r = count + sh /\ 0 <= i /\ i + 2 ^ count <= 256 /\
  (forall x, v <= x < v + 2 ^ r -> dc_index x = i + (x - v) / 2 ^ sh) /\
  (forall x, 0 <= x < v -> dc_index x < i) /\
  (forall x, v + 2 ^ r <= x < 4096 -> i + 2 ^ count <= dc_index x).
Proof.
  intros [Hl [Hc0 Hc] Hlong Hs]. set (L := w.(w_len)) in *. set (c := w.(w_code)) in *. cbv zeta.
  pose proof (ones_test 12 5 L c ltac:(lia) ltac:(lia) ltac:(lia) Hc0 Hc) as Htest. change (2 ^ 5 - 1) with 31 in Htest.
  change (31 * 2 ^ (12 - 5)) with 0xf80 in Htest.
  pose proof (Z.pow_pos_nonneg 2 (12 - L) ltac:(lia) ltac:(lia)).
  destruct (sar c (L - 5) =? 31).
  - destruct Htest as (H6 & Hv & Hv'). rewrite Z.shiftl_mul_pow2 by lia. set (v := c * 2 ^ (12 - L)) in *.
    change 0x7f with (Z.ones 7). rewrite Z.land_ones by lia.
    assert (Hm : v mod 2 ^ 7 = v - 0xf80) by (symmetry; apply (Z.mod_unique v (2 ^ 7) 31); lia). rewrite Hm.
    repeat split; try lia; intros x Hx.
    + rewrite dc_index_long, Z.pow_0_r, Z.div_1_r; lia.
    + destruct (Z.le_gt_cases 0xf80 x); [rewrite dc_index_long; lia|].
      rewrite dc_index_short by lia. pose proof (Z.div_lt_upper_bound x 64 128). lia.
    + rewrite dc_index_long; lia.
  - destruct Htest as [Hs' Hv]. assert (HL : L <= 6) by lia. rewrite Z.shiftl_mul_pow2 by lia. set (k := 6 - L) in *.
    change (2 ^ 6) with 64.
    assert (E16 : 2 ^ (12 - L) = 2 ^ k * 64) by (change 64 with (2 ^ 6); unfold k; rewrite <- Z.pow_add_r by lia; f_equal; lia).
    pose proof (Z.pow_pos_nonneg 2 k ltac:(lia) ltac:(lia)). rewrite E16 in *.
    repeat split; try nia; intros x Hx.
    + rewrite dc_index_short by lia. replace x with (c * 2 ^ k * 64 + (x - c * (2 ^ k * 64))) at 1 by lia.
      by rewrite Z.div_add_l by lia.
    + rewrite dc_index_short by lia. apply Z.div_lt_upper_bound; lia.
    + destruct (Z.le_gt_cases 0xf80 x); [rewrite dc_index_long by lia; nia|].
      rewrite dc_index_short by lia. apply Z.div_le_lower_bound; lia.
Qed.

Lemma concat_replicate_lookup (m : nat) (f : nat -> Z) (l : list nat) (o : nat) :
  (0 < m)%nat -> (o < length l * m)%nat ->
  concat (map (fun k => replicate m (f k)) l) !! o = f <$> l !! (o / m)%nat.
Proof.
  intros Hm. revert o. induction l as [|k l IH]; intros o Ho; [cbn in Ho; lia|].
  cbn [map concat]. destruct (Nat.lt_ge_cases o m) as [H|H].
  - rewrite lookup_app_l by (rewrite length_replicate; lia). rewrite (Nat.div_small o m) by lia.
    by rewrite lookup_replicate_2 by lia.
  - rewrite lookup_app_r by (rewrite length_replicate; lia). rewrite length_replicate, IH by (cbn in Ho; lia).
    replace o with ((o - m) + 1 * m)%nat at 2 by lia. rewrite Nat.div_add by lia. by rewrite Nat.add_1_r.
Qed.

Lemma length_concat_replicate (m : nat) (f : nat -> Z) (l : list nat) :
  length (concat (map (fun k => replicate m (f k)) l)) = (length l * m)%nat.
Proof. induction l as [|k l IH]; [done|]. cbn [map concat length]. rewrite length_app, length_replicate, IH. lia. Qed.

(** The magnitudes entered for a small difference of [mag] bits. *)
Lemma dc_magnitudes_lookup (mag count : Z) (o : nat) :
  1 <= mag <= count -> (Z.of_nat o < 2 ^ count) ->
  length (dc_magnitudes mag count) = Z.to_nat (2 ^ count) /\
  dc_magnitudes mag count !! o = Some (u8 (extend mag (Z.of_nat o / 2 ^ (count - mag)))).
Proof.
  intros Hm Ho. unfold dc_magnitudes.
  pose proof (Z.pow_pos_nonneg 2 mag ltac:(lia) ltac:(lia)) as Hp1.
  pose proof (Z.pow_pos_nonneg 2 (count - mag) ltac:(lia) ltac:(lia)) as Hp2.
  assert (E : 2 ^ count = 2 ^ mag * 2 ^ (count - mag)) by (rewrite <- Z.pow_add_r by lia; f_equal; lia).
  set (m := Z.to_nat (2 ^ (count - mag))). set (f := fun k : nat => _).
  split.
  - unfold f. rewrite length_concat_replicate, length_seq, E, Z2Nat.inj_mul by lia. done.
  - change f with (fun k : nat => replicate m ((fun k => u8 (if Z.land (Z.of_nat k) (2 ^ (mag - 1)) =? 0
      then Z.of_nat k - (2 ^ mag - 1) else Z.of_nat k)) k)).
    assert (Hq : Z.of_nat o / 2 ^ (count - mag) < 2 ^ mag) by (apply Z.div_lt_upper_bound; lia).
    rewrite concat_replicate_lookup by (rewrite ?length_seq; lia).
    assert (Eo : Z.of_nat (o / m) = Z.of_nat o / 2 ^ (count - mag)) by (rewrite Nat2Z.inj_div; f_equal; lia).
    rewrite lookup_seq_lt by lia. cbn [fmap option_fmap option_map Nat.add]. do 2 f_equal. unfold extend.
    rewrite Eo. set (j := Z.of_nat o / _) in *. pose proof (Z.div_pos (Z.of_nat o) (2 ^ (count - mag)) ltac:(lia) Hp2).
    fold j in H. pose proof (Z.pow_pos_nonneg 2 (mag - 1) ltac:(lia) ltac:(lia)).
    assert (E2 : 2 ^ mag = 2 * 2 ^ (mag - 1)) by (rewrite <- Z.pow_succ_r by lia; f_equal; lia).
    replace (Z.land j (2 ^ (mag - 1)) =? 0) with (j <? 2 ^ (mag - 1)); [done|].
    replace (2 ^ (mag - 1)) with (Z.shiftl (Z.ones 1) (mag - 1)) at 2 by (by rewrite Z.shiftl_1_l).
    rewrite land_mask by lia. change (2 ^ 1) with 2. apply eq_true_iff_eq. rewrite Z.ltb_lt, Z.eqb_eq.
    destruct (Z.lt_ge_cases j (2 ^ (mag - 1))).
    + rewrite Z.div_small by lia. split; [done|lia].
    + assert (j / 2 ^ (mag - 1) = 1) as -> by (symmetry; apply (Z.div_unique _ _ _ (j - 2 ^ (mag - 1))); lia).
      change (1 mod 2) with 1. lia.
Qed.

(** Differences that the table holds together with their code. *)
Definition small (w : word) : bool := negb (w.(w_sym) =? 0) && (w.(w_sym) + w.(w_len) <=? 6).

(** The two bytes that DC table [t] has for 12 bits [x] that begin with [w]. *)
Definition dc_byte (w : word) : Z := (if small w then w.(w_len) + w.(w_sym) else w.(w_len)) * 16 + w.(w_sym).

Definition dc_coeff (w : word) (x old : Z) : Z :=
  if small w then u8 (extend w.(w_sym) ((x / 2 ^ (12 - w.(w_len) - w.(w_sym))) mod 2 ^ w.(w_sym))) else old.

Definition dc_region (w : word) (x : Z) : Prop := 0 <= x < 4096 /\ x / 2 ^ (12 - w.(w_len)) = w.(w_code).

Lemma dc_code_byte (w : word) : dc_word w ->
  u8 (Z.lor w.(w_sym) (Z.shiftl (if small w then w.(w_len) + w.(w_sym) else w.(w_len)) 4)) = dc_byte w.
Proof.
  intros [Hl _ _ Hs]. rewrite Z.lor_comm, Z.shiftl_mul_pow2, lor_field by lia. unfold dc_byte. apply u8_small.
  change (2 ^ 4) with 16. unfold small. destruct (negb _ && _) eqn:E; [|lia].
  apply andb_true_iff in E as [_ E]. apply Z.leb_le in E. lia.
Qed.

Lemma dc_outside (w : word) (x : Z) : dc_word w -> 0 <= x < 4096 -> ~ dc_region w x ->
  x < w.(w_code) * 2 ^ (12 - w.(w_len)) \/ w.(w_code) * 2 ^ (12 - w.(w_len)) + 2 ^ (12 - w.(w_len)) <= x.
Proof.
  intros [Hl _ _ _] Hx Hn. pose proof (Z.pow_pos_nonneg 2 (12 - w.(w_len)) ltac:(lia) ltac:(lia)).
  destruct (Z.lt_ge_cases x (w.(w_code) * 2 ^ (12 - w.(w_len)))); [by left|].
  destruct (Z.le_gt_cases (w.(w_code) * 2 ^ (12 - w.(w_len)) + 2 ^ (12 - w.(w_len))) x); [by right|].
  destruct Hn. split; [done|]. symmetry. apply (Z.div_unique _ _ _ (x - w.(w_code) * 2 ^ (12 - w.(w_len)))); lia.
Qed.

(** The bits behind a word, as an offset among the bits that begin with it. *)
Lemma offset_bits (x c r count sh n : Z) :
  r = count + sh -> 0 <= sh -> 0 <= n <= count -> c * 2 ^ r <= x < c * 2 ^ r + 2 ^ r ->
  (x - c * 2 ^ r) / 2 ^ sh / 2 ^ (count - n) = (x / 2 ^ (r - n)) mod 2 ^ n.
Proof.
  intros Hr Hsh Hn Hx.
  pose proof (Z.pow_pos_nonneg 2 sh ltac:(lia) ltac:(lia)). pose proof (Z.pow_pos_nonneg 2 n ltac:(lia) ltac:(lia)).
  pose proof (Z.pow_pos_nonneg 2 (r - n) ltac:(lia) ltac:(lia)) as Hd.
  rewrite Z.div_div, <- Z.pow_add_r by lia. replace (sh + (count - n)) with (r - n) by lia.
  assert (E : 2 ^ r = 2 ^ n * 2 ^ (r - n)) by (rewrite <- Z.pow_add_r by lia; f_equal; lia).
  set (y := x - c * 2 ^ r) in *. replace x with (c * 2 ^ n * 2 ^ (r - n) + y) by (unfold y; rewrite E; lia).
  rewrite Z.div_add_l, Z.add_comm, Z.mod_add by lia. symmetry. apply Z.mod_small.
  split; [apply Z.div_pos|apply Z.div_lt_upper_bound]; lia.
Qed.

(** What a word adds to DC table [t]. *)
Lemma dc_enter_ok (mode t : Z) (w : word) (table : list Z) :
  dc_word w -> mode <> 0xc2 -> 0 <= t <= 1 -> length table = 2048%nat ->
  exists table', dc_enter mode t w.(w_len) w.(w_code) w.(w_sym) table = Ok (true, table') /\ length table' = 2048%nat /\
    (forall x, dc_region w x ->
       table' !! Z.to_nat (t * 1024 + dc_index x) = Some (dc_byte w) /\
       forall old, table !! Z.to_nat (t * 1024 + dc_index x + 512) = Some old ->
       table' !! Z.to_nat (t * 1024 + dc_index x + 512) = Some (dc_coeff w x old)) /\
    (forall x, 0 <= x < 4096 -> ~ dc_region w x ->
       table' !! Z.to_nat (t * 1024 + dc_index x) = table !! Z.to_nat (t * 1024 + dc_index x) /\
       table' !! Z.to_nat (t * 1024 + dc_index x + 512) = table !! Z.to_nat (t * 1024 + dc_index x + 512)) /\
    (forall k, (Z.of_nat k < t * 1024 \/ t * 1024 + 1024 <= Z.of_nat k) -> table' !! k = table !! k).
Proof.
  intros Hw Hmode Ht Hlen. pose proof (dc_place w Hw) as Hplace. cbv zeta in Hplace. unfold dc_enter, DC_TABLE_SIZE.
  pose proof (dcw_len _ Hw) as Hl. rewrite (proj2 (Z.ltb_ge 12 _)) by lia.
  set (long := sar _ _ =? _) in *. set (count := if long then _ else _) in *. set (sh := if long then 0 else 6) in *.
  set (i := if long then _ + _ else _) in *. destruct Hplace as (Hc & Hr & Hi & Hi2 & Hin & Hbelow & Habove).
  replace (t * 1024 + (if long then 128 + Z.land (Z.shiftl w.(w_code) count) 0x7f else Z.shiftl w.(w_code) count))
    with (t * 1024 + i) by (unfold i; done).
  rewrite (proj2 (Z.ltb_ge count 0)), andb_false_r by lia. rewrite (proj2 (Z.eqb_neq mode 0xc2)), andb_true_r by done.
  fold (small w). pose proof (Z.pow_pos_nonneg 2 count ltac:(lia) ltac:(lia)) as Hp.
  assert (Hsmall : small w = true -> 1 <= w.(w_sym) <= count).
  { pose proof (dcw_sym _ Hw). intros [E1%negb_true_iff%Z.eqb_neq E2%Z.leb_le]%andb_true_iff.
    unfold count. destruct long; lia. }
  assert (H1 : exists t1, (if small w then put_all table (t * 1024 + i + 512) (dc_magnitudes w.(w_sym) count) else Ok table) = Ok t1 /\
    length t1 = 2048%nat /\ forall k, t1 !! k =
      if decide (small w = true /\ t * 1024 + i + 512 <= Z.of_nat k < t * 1024 + i + 512 + 2 ^ count)
      then dc_magnitudes w.(w_sym) count !! (k - Z.to_nat (t * 1024 + i + 512))%nat else table !! k).
  { destruct (small w); [|exists table; split; [done|]; split; [done|]; intros k; by rewrite decide_False by (intros [? _]; done)].
    destruct (dc_magnitudes_lookup w.(w_sym) count 0 (Hsmall eq_refl) ltac:(lia)) as [Hml _].
    rewrite put_all_ok by lia. eexists. split; [done|]. split; [rewrite store_at_length; lia|].
    intros k. rewrite store_lookup by lia. rewrite Hml. do 2 case_decide; try done; lia. }
  destruct H1 as (t1 & -> & Hl1 & Hk1). cbn [rbind].
  rewrite put_all_ok by (rewrite ?length_replicate; lia). cbn [rbind]. eexists. split; [done|].
  rewrite dc_code_byte by done. split; [rewrite store_at_length; rewrite ?length_replicate; lia|].
  pose proof (Z.pow_pos_nonneg 2 (12 - w.(w_len)) ltac:(lia) ltac:(lia)) as Hpr. split; [|split].
  - intros x [Hx Ex]. pose proof (div_region x _ _ Hpr Ex) as Hreg. pose proof (dc_index_range x Hx) as Hir.
    specialize (Hin x Hreg). set (v := w.(w_code) * 2 ^ (12 - w.(w_len))) in *.
    assert (Hsh : 0 < 2 ^ sh) by (apply Z.pow_pos_nonneg; unfold sh; destruct long; lia).
    assert (Hprod : 2 ^ (12 - w.(w_len)) = 2 ^ count * 2 ^ sh)
      by (rewrite Hr; apply Z.pow_add_r; unfold sh; destruct long; lia).
    assert (Ho : 0 <= (x - v) / 2 ^ sh < 2 ^ count) by (split; [apply Z.div_pos|apply Z.div_lt_upper_bound]; lia).
    rewrite !fill_lookup by lia. rewrite decide_True by lia. split; [done|]. intros old Hold.
    rewrite decide_False, Hk1 by lia. unfold dc_coeff. destruct (small w) eqn:Es; [|by rewrite decide_False by (intros [? _]; done)].
    specialize (Hsmall eq_refl). rewrite decide_True by (split; [done|lia]).
    destruct (dc_magnitudes_lookup w.(w_sym) count (Z.to_nat ((x - v) / 2 ^ sh)) Hsmall ltac:(lia)) as [_ Hm].
    replace (Z.to_nat (t * 1024 + dc_index x + 512) - Z.to_nat (t * 1024 + i + 512))%nat with (Z.to_nat ((x - v) / 2 ^ sh)) by lia.
    rewrite Hm. do 3 f_equal. rewrite Z2Nat.id by lia.
    apply (offset_bits _ _ _ count sh); [lia|unfold sh; destruct long; lia|lia|fold v; lia].
  - intros x Hx Hn. pose proof (dc_index_range x Hx) as Hir.
    assert (Hd : dc_index x < i \/ i + 2 ^ count <= dc_index x).
    { destruct (dc_outside w x Hw Hx Hn); [left; apply Hbelow|right; apply Habove]; lia. }
    rewrite !fill_lookup, !Hk1 by lia. rewrite !decide_False by lia. done.
  - intros k Hk. rewrite fill_lookup, Hk1 by lia. rewrite !decide_False by lia. done.
Qed.

Definition dc_entry (table : list Z) (t : Z) (w : word) : Prop :=
  forall x, dc_region w x ->
    table !! Z.to_nat (t * 1024 + dc_index x) = Some (dc_byte w) /\
    table !! Z.to_nat (t * 1024 + dc_index x + 512) = Some (dc_coeff w x 0).

Lemma dc_enter_all (mode t : Z) (ws : list word) : mode <> 0xc2 -> 0 <= t <= 1 ->
  forall pos table, Forall dc_word ws -> chained pos ws -> length table = 2048%nat ->
  (forall x, 0 <= x < 4096 -> pos <= 16 * x -> table !! Z.to_nat (t * 1024 + dc_index x + 512) = Some 0) ->
  exists table', enter_all (dc_enter mode t) ws table = Ok (true, table') /\ length table' = 2048%nat /\
    Forall (dc_entry table' t) ws /\
    (forall x, 0 <= x < 4096 -> 16 * x < pos ->
       table' !! Z.to_nat (t * 1024 + dc_index x) = table !! Z.to_nat (t * 1024 + dc_index x) /\
       table' !! Z.to_nat (t * 1024 + dc_index x + 512) = table !! Z.to_nat (t * 1024 + dc_index x + 512)) /\
    (forall k, (Z.of_nat k < t * 1024 \/ t * 1024 + 1024 <= Z.of_nat k) -> table' !! k = table !! k).
Proof.
  intros Hmode Ht. induction ws as [|w ws IH]; intros pos table Hws Hch Hlen Hzero; [by exists table|].
  apply Forall_cons in Hws as [Hw Hws]. destruct Hch as [Hpos Hch]. pose proof (dcw_len _ Hw) as Hl.
  destruct (dc_enter_ok mode t w table Hw Hmode Ht Hlen) as (t1 & E1 & Hl1 & Hin & Hothers & Hout).
  pose proof (Z.pow_pos_nonneg 2 (12 - w.(w_len)) ltac:(lia) ltac:(lia)) as Hp.
  assert (E16 : 2 ^ (16 - w.(w_len)) = 16 * 2 ^ (12 - w.(w_len)))
    by (change 16 with (2 ^ 4) at 2; rewrite <- Z.pow_add_r by lia; f_equal; lia).
  rewrite E16 in Hpos, Hch.
  assert (Hreg : forall x, dc_region w x -> pos <= 16 * x < pos + 16 * 2 ^ (12 - w.(w_len))).
  { intros x [Hx Ex]. pose proof (div_region x _ _ Hp Ex). lia. }
  destruct (IH _ t1 Hws Hch Hl1) as (t2 & E2 & Hl2 & Hall & Hbelow2 & Hout2).
  { intros x Hx Hge. rewrite (proj2 (Hothers x Hx ltac:(intros Hr%Hreg; lia))). apply Hzero; [done|lia]. }
  exists t2. cbn [enter_all]. rewrite E1. cbn [rbind]. split; [done|]. split; [done|]. split; [|split].
  - apply Forall_cons. split; [|done]. intros x Hx. pose proof (Hreg x Hx) as Hb.
    destruct (Hbelow2 x (proj1 Hx) ltac:(lia)) as [-> ->]. destruct (Hin x Hx) as [H1 H2].
    split; [done|]. apply H2, Hzero; [apply Hx|lia].
  - intros x Hx Hlt. destruct (Hbelow2 x Hx ltac:(lia)) as [-> ->]. apply Hothers; [done|]. intros Hr%Hreg. lia.
  - intros k Hk. rewrite Hout2 by done. by apply Hout.
Qed.

(** ** All tables of an image

    [tabs j] is table [j] as [JPEGGetHuffTables] numbers them: DC tables 0 and 1, AC
    tables 4 and 5. *)
Record tables_wf (tabs : Z -> option huffman) : Prop := {
  tw_range : forall j h, tabs j = Some h -> j = 0 \/ j = 1 \/ j = 4 \/ j = 5;
  tw_huffman : forall j h, tabs j = Some h -> huffman_wf h;
  tw_dc : forall j h, tabs j = Some h -> j < 4 -> Forall dc_word (words h);
  tw_ac : forall j h, tabs j = Some h -> 4 <= j -> Forall ac_word (words h);
}.

(** The tables as the headers have left them. *)
Definition tables_read (tabs : Z -> option huffman) (t : tables) : Prop :=
  forall j, 0 <= j < 8 ->
    match tabs j with
    | Some h => Z.testbit t.(ucHuffTableUsed) j = true /\ stored_at t.(pHuffVals) (j * HUFF_TABLEN) h
    | None => Z.testbit t.(ucHuffTableUsed) j = false
    end.

(** The tables decode the words of [tabs]. *)
Definition tables_decode (tabs : Z -> option huffman) (dc ac : list Z) : Prop :=
  length dc = 2048%nat /\ length ac = 4096%nat /\
  forall j h, tabs j = Some h ->
    if j <? 4 then Forall (dc_entry dc j) (words h) else Forall (ac_entry ac (j - 4)) (words h).

Lemma land_bit (u k : Z) : 0 <= k -> (Z.land u (Z.shiftl 1 k) =? 0) = negb (Z.testbit u k).
Proof.
  intros Hk. change 1 with (Z.ones 1). rewrite land_mask by lia. change (2 ^ 1) with 2.
  rewrite <- Z.testbit_spec' by lia. destruct (Z.testbit u k); cbn [Z.b2z negb].
  - pose proof (Z.pow_pos_nonneg 2 k ltac:(lia) ltac:(lia)). apply Z.eqb_neq. lia.
  - done.
Qed.

(** [table] and [table'] agree on the [n] entries of table [j]. *)
Definition same_part (n j : Z) (table table' : list Z) : Prop :=
  forall k, 0 <= k -> j * n <= k < j * n + n -> table' !! Z.to_nat k = table !! Z.to_nat k.

Lemma dc_entry_same (j : Z) (w : word) (table table' : list Z) :
  0 <= j -> same_part 1024 j table table' -> dc_entry table j w -> dc_entry table' j w.
Proof.
  intros Hj Hs H x Hx. pose proof (dc_index_range x ltac:(destruct Hx; lia)).
  rewrite !Hs by lia. by apply H.
Qed.

Lemma ac_index_range (x : Z) : 0 <= x < 65536 -> 0 <= ac_index x < 2048.
Proof.
  intros Hx. destruct (Z_le_dec 0xfc00 x); [rewrite ac_index_long by lia; lia|].
  rewrite ac_index_short by lia. split; [apply Z.div_pos; lia|apply Z.div_lt_upper_bound; lia].
Qed.

(** Membership in a list of table numbers. *)
Ltac in_tables :=
  match goal with
  | H : ?i ∉ ?j :: ?ts |- ?i ∉ ?ts => intros ?; apply H; by right
  | H : ?i ∉ ?j :: ?ts |- ?i <> ?j => intros ->; apply H; by left
  | |- ?j ∈ ?j :: ?ts => by left
  | |- ?i ∈ ?j :: ?ts => by right
  | |- ?i <> ?j => congruence
  end.

Lemma dc_tables_ok (tabs : Z -> option huffman) (mode : Z) (t : tables) (ts : list Z) :
  tables_wf tabs -> tables_read tabs t -> mode <> 0xc2 -> NoDup ts -> Forall (fun j => 0 <= j < 4) ts ->
  forall table, length table = 2048%nat ->
  (forall j x, j ∈ ts -> 0 <= j <= 1 -> 0 <= x < 4096 -> table !! Z.to_nat (j * 1024 + dc_index x + 512) = Some 0) ->
  exists table', dc_tables mode t.(ucHuffTableUsed) t.(pHuffVals) ts table = Ok (true, table') /\
    length table' = 2048%nat /\
    (forall j h, j ∈ ts -> tabs j = Some h -> Forall (dc_entry table' j) (words h)) /\
    (forall j, j ∉ ts -> same_part 1024 j table table').
Proof.
  intros Hwf Hread Hmode. induction ts as [|j ts IH]; intros Hnd Hr table Hlen Hzero.
  { exists table. split; [done|]. split; [done|]. split; [by intros ? ? ?%elem_of_nil|done]. }
  apply NoDup_cons in Hnd as [Hj Hnd]. apply Forall_cons in Hr as [Hjr Hr].
  specialize (IH Hnd Hr). pose proof (Hread j ltac:(lia)) as Hrj.
  cbn [dc_tables]. rewrite land_bit by lia. destruct (tabs j) as [h|] eqn:Eh.
  - destruct Hrj as [-> Hst]. cbn [negb].
    assert (H01 : 0 <= j <= 1) by (destruct (tw_range _ Hwf j h Eh) as [-> | [-> | [-> | ->] ] ]; lia).
    destruct (dc_enter_all mode j (words h) Hmode H01 0 table) as (t1 & E1 & Hl1 & Hall & _ & Hout);
      [eapply tw_dc; [done..|lia]|by eapply words_chained, tw_huffman|done| |].
    { intros x Hx _. apply Hzero; [in_tables|lia|done]. }
    rewrite (code_table_words _ _ _ h _ t1 (tw_huffman _ Hwf _ _ Eh) Hst E1). cbn [rbind].
    assert (Hp1 : forall i, i <> j -> same_part 1024 i table t1).
    { intros i Hi k H0 Hk. apply Hout. lia. }
    destruct (IH t1 Hl1) as (t2 & E2 & Hl2 & Hin & Hp2).
    { intros i x Hi Hi1 Hx. pose proof (dc_index_range x Hx). rewrite (Hp1 i); [|in_tables|lia..].
      apply Hzero; [in_tables|done..]. }
    exists t2. split; [done|]. split; [done|]. split.
    + intros i h' Hi Ei. apply elem_of_cons in Hi as [->|Hi]; [|by apply Hin].
      rewrite Eh in Ei. injection Ei as <-. eapply Forall_impl; [exact Hall|].
      intros w. apply dc_entry_same; [lia|]. by apply Hp2.
    + intros i Hi k H0 Hk. rewrite (Hp2 i); [apply (Hp1 i); [in_tables|done..]|in_tables|done..].
  - rewrite Hrj. cbn [negb].
    destruct (IH table Hlen) as (t2 & E2 & Hl2 & Hin & Hp2); [intros; apply Hzero; [in_tables|done..]|].
    exists t2. split; [done|]. split; [done|]. split; [|intros i Hi; apply Hp2; in_tables].
    intros i h' Hi Ei. apply elem_of_cons in Hi as [->|Hi]; [congruence|by apply Hin].
Qed.

Lemma ac_word_region (w : word) (x : Z) :
  ac_word w -> 0 <= x -> x / 2 ^ (16 - w.(w_len)) = w.(w_code) -> x < 65536.
Proof.
  intros Hw Hx Ex. pose proof (acw_len _ Hw). pose proof (acw_code _ Hw) as [_ Hc].
  pose proof (Z.pow_pos_nonneg 2 (16 - w.(w_len)) ltac:(lia) ltac:(lia)) as Hp.
  pose proof (div_region _ _ _ Hp Ex). change 65536 with (2 ^ 16).
  replace 16 with (w.(w_len) + (16 - w.(w_len))) at 1 by lia. rewrite Z.pow_add_r by lia. nia.
Qed.

Lemma ac_entry_same (j : Z) (w : word) (table table' : list Z) :
  0 <= j -> ac_word w -> same_part 2048 j table table' -> ac_entry table j w -> ac_entry table' j w.
Proof.
  intros Hj Hw Hs H x Hx Ex. pose proof (ac_word_region w x Hw Hx Ex). pose proof (ac_index_range x ltac:(lia)).
  rewrite Hs by lia. by apply H.
Qed.

Lemma ac_tables_ok (tabs : Z -> option huffman) (t : tables) (ts : list Z) :
  tables_wf tabs -> tables_read tabs t -> NoDup ts -> Forall (fun j => 0 <= j < 4) ts ->
  forall table, length table = 4096%nat ->
  exists table', ac_tables t.(ucHuffTableUsed) t.(pHuffVals) ts table = Ok (true, table') /\
    length table' = 4096%nat /\
    (forall j h, j ∈ ts -> tabs (j + 4) = Some h -> Forall (ac_entry table' j) (words h)) /\
    (forall j, j ∉ ts -> same_part 2048 j table table').
Proof.
  intros Hwf Hread. induction ts as [|j ts IH]; intros Hnd Hr table Hlen.
  { exists table. split; [done|]. split; [done|]. split; [by intros ? ? ?%elem_of_nil|done]. }
  apply NoDup_cons in Hnd as [Hj Hnd]. apply Forall_cons in Hr as [Hjr Hr].
  specialize (IH Hnd Hr). pose proof (Hread (j + 4) ltac:(lia)) as Hrj.
  cbn [ac_tables]. rewrite land_bit by lia. destruct (tabs (j + 4)) as [h|] eqn:Eh.
  - destruct Hrj as [-> Hst]. cbn [negb].
    assert (H01 : 0 <= j <= 1) by (pose proof (tw_range _ Hwf (j + 4) h Eh); lia).
    pose proof (tw_ac _ Hwf (j + 4) h Eh ltac:(lia)) as Hac.
    destruct (ac_enter_all j (words h) H01 0 table Hac) as (t1 & E1 & Hl1 & Hall & _ & Hout);
      [by eapply words_chained, tw_huffman|done|].
    unfold HUFF11SIZE. rewrite (proj2 (Z.leb_gt _ _)) by lia.
    rewrite (code_table_words _ _ _ h _ t1 (tw_huffman _ Hwf _ _ Eh) Hst E1). cbn [rbind].
    destruct (IH t1 Hl1) as (t2 & E2 & Hl2 & Hin & Hp2).
    exists t2. split; [done|]. split; [done|]. split.
    + intros i h' Hi Ei. apply elem_of_cons in Hi as [->|Hi]; [|by apply Hin].
      rewrite Eh in Ei. injection Ei as <-. rewrite Forall_forall in Hall, Hac |- *.
      intros w Hw. apply (ac_entry_same _ _ t1); [lia|by apply Hac|by apply Hp2|by apply Hall].
    + intros i Hi k H0 Hk. rewrite (Hp2 i); [|in_tables|done..].
      assert (i <> j) by in_tables. apply Hout. lia.
  - rewrite Hrj. cbn [negb]. destruct (IH table Hlen) as (t2 & E2 & Hl2 & Hin & Hp2).
    exists t2. split; [done|]. split; [done|]. split; [|intros i Hi; apply Hp2; in_tables].
    intros i h' Hi Ei. apply elem_of_cons in Hi as [->|Hi]; [congruence|by apply Hin].
Qed.

(** The tables the decoder builds decode the words of the tables it has read. *)
Lemma make_huff_tables (tabs : Z -> option huffman) (mode : Z) (t : tables) :
  tables_wf tabs -> tables_read tabs t -> mode <> 0xc2 ->
  t.(ucHuffDC) = replicate 2048 0 -> length t.(usHuffAC) = 4096%nat ->
  exists dc ac, JPEGMakeHuffTables mode t
    = Ok (1, mk_tables t.(ucHuffTableUsed) t.(pHuffVals) t.(sQuantTable) dc ac) /\ tables_decode tabs dc ac.
Proof.
  intros Hwf Hread Hmode Edc Hac. unfold JPEGMakeHuffTables.
  assert (Hnd : NoDup [0; 1; 2; 3]) by (apply (bool_decide_unpack _); vm_compute; done).
  assert (Hf : Forall (fun j => 0 <= j < 4) [0; 1; 2; 3]) by (repeat constructor; done).
  destruct (dc_tables_ok tabs mode t _ Hwf Hread Hmode Hnd Hf t.(ucHuffDC)) as (dc & E1 & H1 & H2 & _).
  { by rewrite Edc, length_replicate. }
  { intros j x _ Hj Hx. pose proof (dc_index_range x Hx). rewrite Edc. apply lookup_replicate_2. lia. }
  destruct (ac_tables_ok tabs t _ Hwf Hread Hnd Hf _ Hac) as (ac & E2 & H3 & H4 & _).
  exists dc, ac. rewrite E1. cbn [rbind]. rewrite E2. cbn [rbind]. split; [done|]. split; [done|]. split; [done|].
  intros j h Eh. destruct (tw_range _ Hwf j h Eh) as [-> | [-> | [-> | ->] ] ].
  - apply (H2 0); [by repeat constructor|done].
  - apply (H2 1); [by repeat constructor|done].
  - apply (H4 0); [by repeat constructor|done].
  - apply (H4 1); [by repeat constructor|done].
Qed.

End JpegBits.
