(* ===== verification/JpegBlock.v ===== *)
(** * Decoding a block of coefficients

    The entropy coding of a block as the JPEG standard has it, and the proof that
    [JPEGDecodeMCU] decodes the code of a block to the coefficients of the block. *)
From stdpp Require Import base list.
From Stdlib Require Import ZArith Lia.
From S2P Require Import Prelude Crc JpegTables Jpeg JpegBits.
Import JpegTables Jpeg JpegBits.
Local Open Scope Z_scope.
Local Open Scope run_scope.

Module JpegBlock.

(** ** The code of a block *)

(** How many bits a value takes, and these bits. *)
Definition category (v : Z) : Z := if v =? 0 then 0 else Z.log2 (Z.abs v) + 1.
Definition magnitude (v : Z) : list bool :=
  bits (Z.to_nat (category v)) (if v <? 0 then v + 2 ^ category v - 1 else v).

Definition code_of (h : huffman) (sym : Z) : option (list bool) :=
  word_bits <$> List.find (fun w => w.(w_sym) =? sym) (words h).

(** A token is a symbol and the value whose bits follow it. *)
Definition encode_token (h : huffman) (t : Z * Z) : option (list bool) :=
  code ← code_of h t.1; Some (code ++ magnitude t.2).

Fixpoint encode_tokens (h : huffman) (ts : list (Z * Z)) : option (list bool) :=
  match ts with
  | [] => Some []
  | t :: ts => a ← encode_token h t; b ← encode_tokens h ts; Some (a ++ b)
  end.

(** The tokens of the AC coefficients in zigzag order, [run] zeros before them: every
    value with its run of zeros, 0xF0 for sixteen zeros, 0 for the rest of the block. *)
Fixpoint ac_tokens (run : nat) (zs : list Z) : list (Z * Z) :=
  match zs with
  | [] => match run with O => [] | _ => [(0, 0)] end
  | z :: zs =>
      if z =? 0 then ac_tokens (S run) zs
      else replicate (run / 16) (0xf0, 0) ++ (Z.of_nat (run mod 16) * 16 + category z, z) :: ac_tokens 0 zs
  end.

(** A block with the predictor [pred] for its first coefficient. *)
Definition encode_block (hdc hac : huffman) (pred : Z) (zz : list Z) : option (list bool) :=
  match zz with
  | [] => None
  | dc :: acs =>
      a ← encode_token hdc (category (dc - pred), dc - pred);
      b ← encode_tokens hac (ac_tokens 0 acs);
      Some (a ++ b)
  end.

Lemma encode_tokens_cons h sym v ts code : encode_tokens h ((sym, v) :: ts) = Some code ->
  exists a c, code_of h sym = Some a /\ encode_tokens h ts = Some c /\ code = a ++ magnitude v ++ c.
Proof.
  cbn [encode_tokens]. unfold encode_token. cbn [fst snd]. destruct (code_of h sym) as [a|]; [|done]. simpl.
  destruct (encode_tokens h ts) as [c|]; [|done]. simpl. intros [= <-]. exists a, c. by rewrite <- app_assoc.
Qed.

Lemma category_bound (v n : Z) : 0 < n -> - 2 ^ n < v < 2 ^ n -> 0 <= category v <= n.
Proof.
  intros Hn Hv. unfold category. destruct (Z.eqb_spec v 0); [lia|].
  pose proof (Z.log2_nonneg (Z.abs v)). pose proof (Z.log2_lt_pow2 (Z.abs v) n). lia.
Qed.

Lemma category_pos (v : Z) : v <> 0 -> 0 < category v /\ 2 ^ (category v - 1) <= Z.abs v < 2 ^ category v.
Proof.
  intros Hv. unfold category. rewrite (proj2 (Z.eqb_neq v 0)) by done.
  pose proof (Z.log2_nonneg (Z.abs v)). pose proof (Z.log2_spec (Z.abs v) ltac:(lia)) as Hs.
  rewrite <- Z.add_1_r in Hs. replace (Z.log2 (Z.abs v) + 1 - 1) with (Z.log2 (Z.abs v)) by lia. lia.
Qed.

Lemma length_magnitude (v : Z) : Z.of_nat (length (magnitude v)) = category v.
Proof.
  unfold magnitude. rewrite length_bits. rewrite Z2Nat.id; [done|]. unfold category.
  pose proof (Z.log2_nonneg (Z.abs v)). destruct (v =? 0); lia.
Qed.

(** The bits of a value stand for it. *)
Lemma extend_magnitude (v : Z) : v <> 0 -> extend (category v) (val (magnitude v)) = v.
Proof.
  intros Hv. destruct (category_pos v Hv) as [Hc Hr]. unfold magnitude, extend. set (n := category v) in *.
  assert (Hp : 2 ^ n = 2 * 2 ^ (n - 1)) by (rewrite <- Z.pow_succ_r by lia; f_equal; lia).
  rewrite val_bits.
  - destruct (Z.ltb_spec v 0); [rewrite (proj2 (Z.ltb_lt _ _)) by lia; lia|].
    rewrite (proj2 (Z.ltb_ge _ _)) by lia. done.
  - rewrite Z2Nat.id by lia. destruct (Z.ltb_spec v 0); lia.
Qed.

(** ** The content of a block *)

(** Where a coefficient in zigzag order is stored. *)
Definition zpos (k : nat) : nat := Z.to_nat (nth k cZigZag2 0).
Definition zorder (j : nat) : nat := Z.to_nat (nth j cZigZag 0).

(** The coefficients in the order of rows. *)
Definition unzig (zz : list Z) : list Z := map (fun j => nth (zorder j) zz 0) (seq 0 64).

(** The columns with a coefficient other than the first, and with one in the lower
    half, as bits. *)
Definition col_bit (k : nat) (v : Z) : Z :=
  if (k =? 0)%nat || (v =? 0) then 0 else Z.shiftl 1 (Z.of_nat (zpos k) mod 8).
Definition row_bit (k : nat) (v : Z) : Z := if (zpos k <? 32)%nat then 0 else col_bit k v.
Definition flags (bit : nat -> Z -> Z) (zz : list Z) : Z := foldl Z.lor 0 (imap bit zz).

(** The bytes of a block of shorts. *)
Definition block_bytes (c : list Z) : list Z := concat (map short_bytes c).

Lemma zorder_zpos : forall k j, (k < 64)%nat -> (j < 64)%nat -> zorder j = k <-> j = zpos k.
Proof.
  assert (H : forallb (fun k => forallb (fun j => Bool.eqb (zorder j =? k)%nat (j =? zpos k)%nat) (seq 0 64)) (seq 0 64)
              = true) by (vm_compute; reflexivity).
  intros k j Hk Hj. rewrite forallb_forall in H. specialize (H k ltac:(apply in_seq; lia)).
  rewrite forallb_forall in H. specialize (H j ltac:(apply in_seq; lia)). apply Bool.eqb_prop in H.
  rewrite <- !Nat.eqb_eq, H. done.
Qed.

Lemma zpos_range (k : nat) : (zpos k < 64)%nat.
Proof.
  destruct (Nat.lt_ge_cases k 64) as [H|H].
  - assert (Hf : forallb (fun k => (zpos k <? 64)%nat) (seq 0 64) = true) by (vm_compute; reflexivity).
    rewrite forallb_forall in Hf. apply Nat.ltb_lt, Hf, in_seq. lia.
  - unfold zpos. rewrite nth_overflow; [cbn; lia|]. exact H.
Qed.

Lemma cZigZag2_zpos (k : nat) : nth k cZigZag2 0 = Z.of_nat (zpos k).
Proof.
  unfold zpos. rewrite Z2Nat.id; [done|]. assert (Hf : Forall (fun z => 0 <= z) cZigZag2).
  { apply (bool_decide_unpack _). vm_compute. done. }
  rewrite nth_lookup. destruct (cZigZag2 !! k) eqn:E; [|done]. by apply (proj1 (Forall_lookup _ _) Hf k).
Qed.

Lemma length_unzig zz : length (unzig zz) = 64%nat.
Proof. unfold unzig. by rewrite length_map, length_seq. Qed.

Lemma lookup_unzig zz (j : nat) : (j < 64)%nat -> unzig zz !! j = Some (nth (zorder j) zz 0).
Proof.
  intros Hj. unfold unzig. rewrite list_lookup_fmap, lookup_seq_lt by done. done.
Qed.

Lemma nth_app_zeros (zz : list Z) (n k : nat) : nth k (zz ++ replicate n 0) 0 = nth k zz 0.
Proof.
  destruct (Nat.lt_ge_cases k (length zz)); [by rewrite app_nth1|].
  rewrite app_nth2, (nth_overflow zz) by lia. rewrite nth_lookup.
  destruct (replicate n 0 !! _) eqn:E; [|done]. by apply lookup_replicate_1 in E as [-> _].
Qed.

Lemma unzig_zeros (zz : list Z) (n : nat) : unzig (zz ++ replicate n 0) = unzig zz.
Proof. apply map_ext. intros j. apply nth_app_zeros. Qed.

Lemma unzig_snoc (zz : list Z) (v : Z) : (length zz < 64)%nat ->
  unzig (zz ++ [v]) = <[zpos (length zz) := v]> (unzig zz).
Proof.
  intros Hl. apply list_eq_same_length with 64%nat; [by rewrite length_insert, length_unzig|apply length_unzig|].
  intros j x y Hj. rewrite lookup_unzig by done. intros [= <-].
  destruct (decide (j = zpos (length zz))) as [->|Hne].
  - rewrite list_lookup_insert_eq by (rewrite length_unzig; apply zpos_range). intros [= <-].
    rewrite (proj2 (zorder_zpos _ _ Hl (zpos_range _))) by done. by rewrite nth_middle.
  - rewrite list_lookup_insert_ne, lookup_unzig by done. intros [= <-].
    destruct (Nat.lt_trichotomy (zorder j) (length zz)) as [H|[H|H]].
    + by rewrite app_nth1.
    + by apply zorder_zpos in H.
    + rewrite !nth_overflow; [done|lia|rewrite length_app; cbn; lia].
Qed.

Lemma flags_snoc bit zz v : flags bit (zz ++ [v]) = Z.lor (flags bit zz) (bit (length zz) v).
Proof. unfold flags. rewrite imap_app, foldl_app. cbn. by rewrite Nat.add_0_r. Qed.

Lemma flags_zeros bit zz (n : nat) : (forall k, bit k 0 = 0) -> flags bit (zz ++ replicate n 0) = flags bit zz.
Proof.
  intros Hb. revert zz. induction n as [|n IH]; intros zz; [by rewrite app_nil_r|].
  change (replicate (S n) 0) with ([0] ++ replicate n 0). rewrite app_assoc, IH, flags_snoc, Hb. apply Z.lor_0_r.
Qed.

Lemma col_bit_0 k : col_bit k 0 = 0.
Proof. unfold col_bit. by rewrite orb_true_r. Qed.

Lemma row_bit_0 k : row_bit k 0 = 0.
Proof. unfold row_bit. rewrite col_bit_0. by destruct (_ <? _)%nat. Qed.

Lemma length_block_bytes c : length (block_bytes c) = (2 * length c)%nat.
Proof. unfold block_bytes. induction c; cbn; lia. Qed.

Lemma block_bytes_split (c : list Z) (z : nat) (v : Z) : (z < length c)%nat ->
  block_bytes (<[z := v]> c) = take (2 * z) (block_bytes c) ++ short_bytes v ++ drop (2 * z + 2) (block_bytes c).
Proof.
  revert z. induction c as [|x c IH]; intros z Hz; [cbn in Hz; lia|].
  destruct z as [|z]; [done|]. change (block_bytes (<[S z := v]> (x :: c))) with (short_bytes x ++ block_bytes (<[z := v]> c)).
  rewrite IH by (cbn in Hz; lia). change (block_bytes (x :: c)) with (short_bytes x ++ block_bytes c).
  replace (2 * S z)%nat with (length (short_bytes x) + 2 * z)%nat by (cbn; lia).
  rewrite take_app_add, <- Nat.add_assoc, drop_app_add. by rewrite !app_assoc.
Qed.

Lemma store_inside {A} (l xs ys : list A) (j o : nat) :
  (o + length ys <= length xs)%nat -> (j + length xs <= length l)%nat ->
  store_at (store_at l j xs) (j + o) ys = store_at l j (store_at xs o ys).
Proof.
  intros Ho Hj. apply list_eq. intros k.
  assert (H1 : length (store_at xs o ys) = length xs) by (by rewrite store_at_length).
  assert (H2 : length (store_at l j xs) = length l) by (by rewrite store_at_length).
  rewrite !store_lookup by lia. rewrite H1.
  destruct (decide (j + o <= k < j + o + length ys)%nat).
  - rewrite decide_True by lia. rewrite decide_True by lia. f_equal. lia.
  - destruct (decide (j <= k < j + length xs)%nat); [|done]. by rewrite decide_False by lia.
Qed.

Lemma put_short_block (base c : list Z) (iMCU : Z) (z : nat) (v : Z) :
  0 <= iMCU -> 2 * iMCU + 128 <= Z.of_nat (length base) -> length c = 64%nat -> (z < 64)%nat ->
  put_short (store_at base (Z.to_nat (2 * iMCU)) (block_bytes c)) (iMCU + Z.of_nat z) v
  = Ok (store_at base (Z.to_nat (2 * iMCU)) (block_bytes (<[z := v]> c))).
Proof.
  intros Hi Hl Hc Hz. unfold put_short. pose proof (length_block_bytes c) as Hb.
  rewrite put_all_ok; [|lia|rewrite store_at_length; cbn; lia]. f_equal.
  replace (Z.to_nat (2 * (iMCU + Z.of_nat z))) with (Z.to_nat (2 * iMCU) + 2 * z)%nat by lia.
  rewrite store_inside by (cbn [length short_bytes]; lia). f_equal.
  rewrite block_bytes_split by lia. unfold store_at. done.
Qed.

(** ** Huffman words in the data *)

Lemma readable_le F W p (o o' : Z) : readable F W p o' -> 0 <= o <= o' -> readable F W p o.
Proof. unfold readable. intros (H1 & H2 & H3) Ho. split; [lia|]. split; [lia|]. destruct H3; [left|right]; lia. Qed.

Lemma at_bit_start F W b (G : nat) : at_bit F W b G -> 0 <= Z.of_nat G / 8 - Z.of_nat W.
Proof.
  intros [Hp Ho Hg _]. rewrite Hg, Z.mul_comm, Z.div_add_l by lia.
  pose proof (Z.div_pos b.(ulBitOff) 8 Ho ltac:(lia)). lia.
Qed.

(** The data can be decoded up to bit [G]. *)
Definition readable_to F W p (G : nat) : Prop := readable F W p (Z.of_nat G / 8 - Z.of_nat W).

Lemma readable_between F W p b (G G1 G2 : nat) :
  at_bit F W b G -> (G <= G1 <= G2)%nat -> readable_to F W p G2 -> readable_to F W p G1.
Proof.
  intros Hat HG Hr. eapply readable_le; [exact Hr|]. pose proof (at_bit_start _ _ _ _ Hat).
  pose proof (Z.div_le_mono (Z.of_nat G) (Z.of_nat G1) 8). pose proof (Z.div_le_mono (Z.of_nat G1) (Z.of_nat G2) 8). lia.
Qed.

Lemma drop_inside {A} (G : nat) (l a b : list A) : drop G l = a ++ b -> a <> [] -> (G <= length l)%nat.
Proof.
  intros H Ha. destruct (Nat.le_gt_cases G (length l)) as [|Hg]; [done|].
  rewrite drop_ge in H by lia. symmetry in H. apply app_eq_nil in H as [H _]. done.
Qed.

Lemma drop_more {A} (G : nat) (l a b : list A) : drop G l = a ++ b -> drop (G + length a) l = b.
Proof. intros H. rewrite <- drop_drop, H. apply drop_app_length. Qed.

Lemma length_word_bits w : 0 <= w.(w_len) -> Z.of_nat (length (word_bits w)) = w.(w_len).
Proof. intros. unfold word_bits. rewrite length_bits. lia. Qed.

(** The [n] bits at the position start with the word there. *)
Lemma word_peek F W b (G : nat) (n : Z) (w : word) (rest : list bool) :
  at_bit F W b G -> drop G (bits_of F) = word_bits w ++ rest -> b.(ulBitOff) + n <= 32 ->
  1 <= w.(w_len) <= n -> 0 <= w.(w_code) < 2 ^ w.(w_len) ->
  let x := Z.land (Z.shiftr b.(ulBits) (REGISTER_WIDTH - n - b.(ulBitOff))) (Z.ones n) in
  0 <= x < 2 ^ n /\ x / 2 ^ (n - w.(w_len)) = w.(w_code).
Proof.
  intros Hat Hd Ho Hl Hc. pose proof (length_word_bits w ltac:(lia)) as Hlen.
  assert (HG : (G <= 8 * length F)%nat).
  { rewrite <- length_bits_of. apply (drop_inside _ _ _ _ Hd). intros E. rewrite E in Hlen. cbn in Hlen. lia. }
  pose proof (peek F W b G (Z.to_nat n) (word_bits w) rest Hat Hd HG ltac:(lia) ltac:(lia)) as Hp.
  rewrite Z2Nat.id in Hp by lia. unfold REGISTER_WIDTH. destruct Hp as [H1 H2]. split; [done|].
  replace (Z.of_nat (Z.to_nat n - length (word_bits w))) with (n - w.(w_len)) in H2 by lia. rewrite H2.
  unfold word_bits. apply val_bits. rewrite Z2Nat.id by lia. done.
Qed.

Section Data.
(** The data [F] with the window [p] on it from byte [W] on. *)
Context (F : list Z) (W : nat) (p : input) (Hwin : window F W p).

(** The bits [b] are at bit [G] of the data. *)
Definition bits_at (b : BUFFERED_BITS) (G : nat) : Prop := at_bit F W b G /\ b.(ulBitOff) <= 32.

Lemma refill_at b (G : nat) : bits_at b G -> readable_to F W p G ->
  exists b', refill p.(ucFileBuf) b = Ok b' /\ at_bit F W b' G /\ b'.(ulBitOff) <= 15.
Proof. intros [H1 H2] Hr. by apply refill_ok. Qed.

Lemma bits_at_skip b (G n : nat) : at_bit F W b G -> b.(ulBitOff) <= 15 -> (n <= 17)%nat ->
  bits_at (skip b (Z.of_nat n)) (G + n).
Proof. intros Hat Ho Hn. split; [by apply skip_ok|cbn; lia]. Qed.

(** The beginning of a turn of [ac_loop]: the word is looked up and skipped. *)
Lemma ac_turn (ac : list Z) (t iMCU z : Z) (w : word) (fuel : nat) (k : block) (G : nat) (rest : list bool) :
  ac_word w -> ac_entry ac t w -> 0 <= t -> 0 <= z < 64 ->
  bits_at k.(bk_bits) G -> drop G (bits_of F) = word_bits w ++ rest -> readable_to F W p G ->
  exists b, bits_at b (G + length (word_bits w)) /\
    ac_loop (S fuel) p.(ucFileBuf) ac t iMCU z k =
      (if w.(w_sym) =? 0 then Ok (true, mk_block b k.(bk_mcus) k.(bk_col) k.(bk_row))
       else
         let! b := refill p.(ucFileBuf) b in
         let pZig := z + w.(w_sym) / 16 in
         let n := w.(w_sym) mod 16 in
         let! k :=
           if (pZig <? 64) && negb (n =? 0) then
             let zp := nth (Z.to_nat pZig) cZigZag2 0 in
             let! mcus := put_short k.(bk_mcus) (iMCU + zp) (extra_bits b n) in
             Ok (mk_block (skip b n) mcus (Z.lor k.(bk_col) (Z.shiftl 1 (Z.land zp 7)))
                   (if 0x20 <=? zp then Z.lor k.(bk_row) (Z.shiftl 1 (Z.land zp 7)) else k.(bk_row)))
           else Ok (mk_block (skip b n) k.(bk_mcus) k.(bk_col) k.(bk_row)) in
         ac_loop fuel p.(ucFileBuf) ac t iMCU (pZig + 1) k).
Proof.
  intros Hw He Ht Hz Hb Hd Hr. destruct (acw_len _ Hw) as [Hl1 Hl2]. destruct (acw_code _ Hw) as [Hc1 Hc2].
  pose proof (acw_sym _ Hw) as Hs. pose proof (length_word_bits w ltac:(lia)) as Hlen.
  destruct (refill_at _ _ Hb Hr) as (b & Er & Hat & Ho).
  destruct (word_peek F W b G 16 w rest Hat Hd ltac:(lia) ltac:(lia) ltac:(lia)) as [Hx Ex].
  exists (skip b w.(w_len)). split; [rewrite <- Hlen; apply bits_at_skip; [done..|lia]|].
  cbn [ac_loop]. rewrite (proj2 (Z.ltb_lt z 64)) by lia. rewrite Er. cbn [rbind].
  change 0xffff with (Z.ones 16).
  set (x := Z.land (Z.shiftr _ _) (Z.ones 16)) in *.
  assert (Eg : get ac (t * HUFF11SIZE + (if 0xfc00 <=? x then Z.land x 0x7ff else Z.shiftr x 6))
               = Ok (w.(w_len) * 256 + w.(w_sym))).
  { change (if 0xfc00 <=? x then _ else _) with (ac_index x). unfold HUFF11SIZE.
    apply get_ok; [pose proof (ac_index_nonneg x); lia|]. apply He; [lia|done]. }
  rewrite Eg. cbn [rbind]. rewrite (proj2 (Z.eqb_neq _ 0)) by lia.
  rewrite Z.shiftr_div_pow2 by lia. change (2 ^ 8) with 256.
  rewrite Z.div_add_l, (Z.div_small w.(w_sym)), Z.add_0_r by lia.
  change 0xff with (Z.ones 8). rewrite Z.land_ones by lia. change (2 ^ 8) with 256.
  rewrite Z.add_comm, Z.mod_add, (Z.mod_small w.(w_sym) 256) by lia.
  rewrite Z.shiftr_div_pow2 by lia. change (2 ^ 4) with 16.
  change 0xf with (Z.ones 4). rewrite Z.land_ones by lia. change (2 ^ 4) with 16. reflexivity.
Qed.

(** The block at [iMCU] of [sMCUs] holds the coefficients [zz]; the rest is [base]. *)
Definition holds (base : list Z) (iMCU : Z) (k : block) (zz : list Z) : Prop :=
  k.(bk_mcus) = store_at base (Z.to_nat (2 * iMCU)) (block_bytes (unzig zz)) /\
  k.(bk_col) = flags col_bit zz /\ k.(bk_row) = flags row_bit zz.

Lemma holds_zeros base iMCU b k zz (n : nat) :
  holds base iMCU k zz -> holds base iMCU (mk_block b k.(bk_mcus) k.(bk_col) k.(bk_row)) (zz ++ replicate n 0).
Proof.
  unfold holds. rewrite unzig_zeros, !flags_zeros; [done|apply row_bit_0|apply col_bit_0].
Qed.

(** The next coefficient. *)
Lemma holds_snoc base iMCU b mcus (k : block) zz (v : Z) :
  zz <> [] -> v <> 0 -> (length zz < 64)%nat -> holds base iMCU k zz ->
  let z := zpos (length zz) in
  mcus = store_at base (Z.to_nat (2 * iMCU)) (block_bytes (<[z := v]> (unzig zz))) ->
  holds base iMCU
    (mk_block b mcus (Z.lor k.(bk_col) (Z.shiftl 1 (Z.land (Z.of_nat z) 7)))
       (if 0x20 <=? Z.of_nat z then Z.lor k.(bk_row) (Z.shiftl 1 (Z.land (Z.of_nat z) 7)) else k.(bk_row)))
    (zz ++ [v]).
Proof.
  intros Hne Hv Hl (_ & -> & ->) z ->. unfold holds. cbn [bk_mcus bk_col bk_row].
  rewrite unzig_snoc, !flags_snoc by done. fold z. unfold row_bit, col_bit. fold z.
  assert (E0 : (length zz =? 0)%nat = false) by (destruct zz; done). rewrite E0, (proj2 (Z.eqb_neq v 0)) by done.
  cbn [orb]. change 7 with (Z.ones 3). rewrite Z.land_ones by lia. change (2 ^ 3) with 8.
  split; [done|]. split; [done|].
  destruct (Nat.ltb_spec z 32); [rewrite (proj2 (Z.leb_gt _ _)) by lia; by rewrite Z.lor_0_r|].
  by rewrite (proj2 (Z.leb_le _ _)) by lia.
Qed.

Section Ac.
Context (ac : list Z) (t : Z) (h : huffman).
Context (Hwords : Forall ac_word (words h)) (Hentries : Forall (ac_entry ac t) (words h)) (Ht : 0 <= t).
Context (base : list Z) (iMCU : Z) (Hi : 0 <= iMCU) (Hbase : 2 * iMCU + 128 <= Z.of_nat (length base)).

Lemma code_word (sym : Z) (bs : list bool) : code_of h sym = Some bs ->
  exists w, ac_word w /\ ac_entry ac t w /\ w.(w_sym) = sym /\ bs = word_bits w.
Proof.
  unfold code_of. destruct (List.find _ _) as [w|] eqn:E; [|done]. intros [= <-].
  apply List.find_some in E as [Hin Hs]. apply Z.eqb_eq in Hs. apply list_elem_of_In in Hin.
  rewrite Forall_forall in Hwords, Hentries. exists w. by split; [apply Hwords|split; [apply Hentries|]].
Qed.

Lemma zrl_ok (n fuel : nat) : forall done k G code rest,
  encode_tokens h (replicate n (0xf0, 0)) = Some code -> drop G (bits_of F) = code ++ rest ->
  bits_at k.(bk_bits) G -> holds base iMCU k done -> (length done + 16 * n <= 63)%nat ->
  readable_to F W p (G + length code) ->
  exists k', ac_loop (n + fuel) p.(ucFileBuf) ac t iMCU (Z.of_nat (length done)) k
             = ac_loop fuel p.(ucFileBuf) ac t iMCU (Z.of_nat (length done + 16 * n)) k' /\
    bits_at k'.(bk_bits) (G + length code) /\ holds base iMCU k' (done ++ replicate (16 * n) 0).
Proof.
  induction n as [|n IH]; intros done k G code rest Hc Hd Hb Hh Hn Hr.
  { injection Hc as <-. exists k. rewrite Nat.mul_0_r, !Nat.add_0_r, app_nil_r. done. }
  apply encode_tokens_cons in Hc as (a & c & Ea & Ec & ->). change (magnitude 0) with (@nil bool) in *.
  cbn [app] in Hd, Hr |- *. destruct (code_word _ _ Ea) as (w & Hw & He & Hs & ->).
  rewrite <- app_assoc in Hd. rewrite length_app, Nat.add_assoc in Hr.
  change (S n + fuel)%nat with (S (n + fuel)).
  destruct (ac_turn ac t iMCU (Z.of_nat (length done)) w (n + fuel) k G (c ++ rest)) as (b & Hb1 & ->);
    [done..|lia|done|done|eapply readable_between; [apply Hb| |exact Hr]; lia|].
  rewrite Hs. change (0xf0 =? 0) with false. cbn match.
  destruct (refill_at b _ Hb1) as (b' & -> & Hat & Ho); [eapply readable_between; [apply Hb1| |exact Hr]; lia|].
  change (0xf0 / 16) with 15. change (0xf0 mod 16) with 0. change (0 =? 0) with true.
  cbn [negb]. rewrite andb_false_r. cbn [rbind].
  set (k1 := mk_block _ _ _ _).
  assert (Hz : holds base iMCU k1 (done ++ replicate 16 0)).
  { by apply holds_zeros. }
  destruct (IH (done ++ replicate 16 0) k1 (G + length (word_bits w))%nat c rest) as (k' & E & H1 & H2).
  - done.
  - by apply drop_more in Hd.
  - pose proof (bits_at_skip b' _ 0 Hat Ho ltac:(lia)) as Hk. by rewrite Nat.add_0_r in Hk.
  - done.
  - rewrite length_app, length_replicate. lia.
  - done.
  - exists k'. rewrite length_app, length_replicate in E.
    replace (Z.of_nat (length done) + 15 + 1) with (Z.of_nat (length done + 16)) by lia. rewrite E.
    split; [do 2 f_equal; lia|]. rewrite length_app, Nat.add_assoc. split; [done|].
    rewrite <- app_assoc, <- replicate_add in H2. by replace (16 * S n)%nat with (16 + 16 * n)%nat by lia.
Qed.

Lemma short_bytes_u32 v : short_bytes (u32 v) = short_bytes v.
Proof. unfold short_bytes. assert (E : u16 (u32 v) = u16 v); [|by rewrite E]. apply Z.mod_mod_divide. by exists (2 ^ 16). Qed.

Lemma block_bytes_u32 (c : list Z) (z : nat) (v : Z) : (z < length c)%nat ->
  block_bytes (<[z := u32 v]> c) = block_bytes (<[z := v]> c).
Proof. intros. by rewrite !block_bytes_split, short_bytes_u32 by done. Qed.

(** A coefficient behind [r] zeros. *)
Lemma coefficient_ok (fuel r : nat) (v : Z) done k G code rest :
  (r < 16)%nat -> v <> 0 -> - 2 ^ 15 < v < 2 ^ 15 ->
  encode_tokens h [(Z.of_nat r * 16 + category v, v)] = Some code -> drop G (bits_of F) = code ++ rest ->
  bits_at k.(bk_bits) G -> holds base iMCU k done -> (1 <= length done)%nat -> (length done + r <= 63)%nat ->
  readable_to F W p (G + length code) ->
  exists k', ac_loop (S fuel) p.(ucFileBuf) ac t iMCU (Z.of_nat (length done)) k
             = ac_loop fuel p.(ucFileBuf) ac t iMCU (Z.of_nat (length done + r + 1)) k' /\
    bits_at k'.(bk_bits) (G + length code) /\ holds base iMCU k' (done ++ replicate r 0 ++ [v]).
Proof.
  intros Hr16 Hv Hrange Hc Hd Hb Hh H1 Hn Hr. apply encode_tokens_cons in Hc as (a & c & Ea & [= <-] & ->).
  rewrite app_nil_r in Hd, Hr |- *. destruct (code_word _ _ Ea) as (w & Hw & He & Hs & ->).
  pose proof (category_bound v 15 ltac:(lia) Hrange) as Hcat. pose proof (category_pos v Hv) as [Hpos _].
  pose proof (length_magnitude v) as Hlm. rewrite <- app_assoc in Hd. rewrite length_app, Nat.add_assoc in Hr.
  destruct (ac_turn ac t iMCU (Z.of_nat (length done)) w fuel k G (magnitude v ++ rest)) as (b & Hb1 & ->);
    [done..|lia|done|done|eapply readable_between; [apply Hb| |exact Hr]; lia|].
  rewrite (proj2 (Z.eqb_neq _ 0)) by lia.
  destruct (refill_at b _ Hb1) as (b' & -> & Hat & Ho); [eapply readable_between; [apply Hb1| |exact Hr]; lia|].
  cbn [rbind]. rewrite Hs, Z.div_add_l, (Z.div_small (category v)), Z.add_0_r by lia.
  rewrite (Z.add_comm (Z.of_nat r * 16)), Z.mod_add, (Z.mod_small (category v)) by lia.
  rewrite (proj2 (Z.ltb_lt _ 64)), (proj2 (Z.eqb_neq (category v) 0)) by lia. cbn [andb negb].
  apply drop_more in Hd. rewrite <- Hlm. rewrite (extra_bits_ok F W b' _ (magnitude v) rest Hat Hd); [|..|done|lia].
  2:{ rewrite <- length_bits_of. apply (drop_inside _ _ _ _ Hd). intros E. rewrite E in Hlm. cbn in Hlm. lia. }
  rewrite Hlm, extend_magnitude by done. set (i := (length done + r)%nat).
  replace (Z.to_nat (Z.of_nat (length done) + Z.of_nat r)) with i by lia.
  rewrite cZigZag2_zpos. destruct Hh as (Hm & Hcol & Hrow). rewrite Hm, put_short_block; [|done|done|apply length_unzig|apply zpos_range].
  cbn [rbind]. rewrite block_bytes_u32 by (rewrite length_unzig; apply zpos_range).
  eexists. split; [f_equal; lia|]. cbn [bk_bits]. rewrite length_app, Nat.add_assoc.
  split; [rewrite <- Hlm; by apply bits_at_skip; [..|lia]|].
  assert (Ei : i = length (done ++ replicate r 0)) by (rewrite length_app, length_replicate; done).
  rewrite app_assoc, Ei. apply (holds_snoc base iMCU _ _ k); [|done|lia|by apply (holds_zeros _ _ k.(bk_bits)) |].
  - intros E. rewrite E in Ei. cbn in Ei. lia.
  - by rewrite unzig_zeros, <- Ei.
Qed.

Lemma encode_tokens_app ts ts' code : encode_tokens h (ts ++ ts') = Some code ->
  exists c c', encode_tokens h ts = Some c /\ encode_tokens h ts' = Some c' /\ code = c ++ c'.
Proof using.
  revert code. induction ts as [|[sym v] ts IH]; intros code Hc; [by exists [], code|].
  apply encode_tokens_cons in Hc as (a & b & Ea & Eb & ->). destruct (IH b Eb) as (c & c' & Ec & Ec' & ->).
  exists (a ++ magnitude v ++ c), c'. rewrite <- !app_assoc. split; [|done].
  cbn [encode_tokens]. unfold encode_token. cbn [fst snd]. rewrite Ea. simpl. rewrite Ec. simpl. by rewrite <- app_assoc.
Qed.

(** The loop decodes the tokens of the coefficients [zs] behind [run] zeros. *)
Lemma ac_loop_ok (zs : list Z) : forall run done fuel k G code rest,
  encode_tokens h (ac_tokens run zs) = Some code -> drop G (bits_of F) = code ++ rest ->
  bits_at k.(bk_bits) G -> holds base iMCU k done -> (1 <= length done)%nat ->
  (length done + run + length zs = 64)%nat -> Forall (fun v => - 2 ^ 15 < v < 2 ^ 15) zs ->
  (64 - length done <= fuel)%nat -> readable_to F W p (G + length code) ->
  exists k', ac_loop fuel p.(ucFileBuf) ac t iMCU (Z.of_nat (length done)) k = Ok (true, k') /\
    bits_at k'.(bk_bits) (G + length code) /\ holds base iMCU k' (done ++ replicate run 0 ++ zs).
Proof.
  induction zs as [|z zs IH]; intros run done fuel k G code rest Hc Hd Hb Hh H1 Hlen Hf Hfuel Hr.
  - destruct run as [|run]; cbn [ac_tokens] in Hc; cbn [length] in Hlen.
    + injection Hc as <-. exists k. rewrite !app_nil_r, Nat.add_0_r. split; [|done].
      destruct fuel; cbn [ac_loop]; rewrite (proj2 (Z.ltb_ge _ 64)) by lia; done.
    + apply encode_tokens_cons in Hc as (a & c & Ea & [= <-] & ->). change (magnitude 0) with (@nil bool) in *.
      rewrite !app_nil_r in *. destruct (code_word _ _ Ea) as (w & Hw & He & Hs & ->).
      destruct fuel as [|fuel]; [lia|].
      destruct (ac_turn ac t iMCU (Z.of_nat (length done)) w fuel k G rest) as (b & Hb1 & ->);
        [done..|lia|done|done|eapply readable_between; [apply Hb| |exact Hr]; lia|].
      rewrite Hs. change (0 =? 0) with true. eexists. split; [done|]. split; [done|]. by apply holds_zeros.
  - apply Forall_cons in Hf as [Hz Hf]. cbn [ac_tokens length] in *. destruct (Z.eqb_spec z 0) as [->|Hnz].
    + destruct (IH (S run) done fuel k G code rest) as (k' & E & H2 & H3); try done; [lia|].
      exists k'. split; [done|]. split; [done|]. rewrite replicate_S_end, <- app_assoc in H3. done.
    + apply encode_tokens_app in Hc as (c1 & c23 & E1 & E23 & ->).
      change ((Z.of_nat (run mod 16) * 16 + category z, z) :: ac_tokens 0 zs)
        with ([(Z.of_nat (run mod 16) * 16 + category z, z)] ++ ac_tokens 0 zs) in E23.
      apply encode_tokens_app in E23 as (c2 & c3 & E2 & E3 & ->).
      pose proof (Nat.div_mod_eq run 16) as Hdm. pose proof (Nat.mod_upper_bound run 16 ltac:(lia)) as Hm.
      rewrite <- !app_assoc in Hd. rewrite !length_app, !Nat.add_assoc in Hr |- *.
      set (n := (run / 16)%nat) in *. set (r := (run mod 16)%nat) in *.
      destruct (zrl_ok n (fuel - n) done k G c1 (c2 ++ c3 ++ rest) E1 Hd Hb Hh) as (k1 & L1 & B1 & S1);
        [lia|eapply readable_between; [apply Hb| |exact Hr]; lia|].
      destruct (coefficient_ok (fuel - n - 1) r z (done ++ replicate (16 * n) 0) k1 (G + length c1) c2 (c3 ++ rest))
        as (k2 & L2 & B2 & S2); try done.
      { by apply drop_more in Hd. }
      { rewrite length_app. lia. }
      { rewrite length_app, length_replicate. lia. }
      { eapply readable_between; [apply Hb| |exact Hr]; lia. }
      rewrite length_app, length_replicate in L2.
      destruct (IH 0%nat ((done ++ replicate (16 * n) 0) ++ replicate r 0 ++ [z]) (fuel - n - 1)%nat k2
                  (G + length c1 + length c2)%nat c3 rest) as (k3 & L3 & B3 & S3); try done.
      { do 2 apply drop_more in Hd. done. }
      { rewrite !length_app. lia. }
      { rewrite !length_app, !length_replicate. cbn [length]. lia. }
      { rewrite !length_app, !length_replicate. cbn [length]. lia. }
      exists k3. rewrite !length_app, !length_replicate in L3. cbn [length] in L3.
      replace fuel with (n + (fuel - n))%nat by lia. rewrite L1.
      replace (fuel - n)%nat with (S (fuel - n - 1)) by lia. rewrite L2.
      split; [rewrite <- L3; do 2 f_equal; lia|]. split; [done|].
      cbn [replicate] in S3. rewrite app_nil_l in S3. rewrite <- !app_assoc in S3. cbn [app] in S3.
      rewrite (app_assoc (replicate (16 * n) 0)), <- replicate_add, <- Hdm in S3. done.
Qed.
End Ac.

Lemma i8_u8 d : -128 <= d < 128 -> i8 (u8 d) = d.
Proof. intros. unfold i8, u8. rewrite Z.add_mod_idemp_l, Z.mod_small by lia. lia. Qed.

Lemma i32_u32 d : -2147483648 <= d < 2147483648 -> i32 (u32 d) = d.
Proof. intros. unfold i32, u32. rewrite Z.add_mod_idemp_l, Z.mod_small by lia. lia. Qed.

(** The first bits at the position that the table decides by. *)
Lemma dc_lookup (dc : list Z) (t : Z) (w : word) (b : BUFFERED_BITS) (G : nat) (more rest : list bool) :
  0 <= t -> dc_word w -> dc_entry dc t w -> at_bit F W b G -> b.(ulBitOff) <= 15 ->
  drop G (bits_of F) = word_bits w ++ more ++ rest -> Z.of_nat (length more) = w.(w_sym) ->
  let x := Z.land (Z.shiftr b.(ulBits) (REGISTER_WIDTH - 12 - b.(ulBitOff))) 0xfff in
  let o := t * DC_TABLE_SIZE + (if 0xf80 <=? x then Z.land x 0xff else Z.shiftr x 6) in
  get dc o = Ok (dc_byte w) /\
  get dc (o + 512) = Ok (if small w then u8 (extend w.(w_sym) (val more)) else 0).
Proof.
  intros Ht Hw He Hat Ho Hd Hm x o. pose proof (dcw_len _ Hw) as Hl. pose proof (dcw_code _ Hw) as Hc.
  destruct (word_peek F W b G 12 w (more ++ rest) Hat Hd ltac:(lia) ltac:(lia) ltac:(lia)) as [Hx Ex].
  change 0xfff with (Z.ones 12) in x. fold x in Hx, Ex. change (2 ^ 12) with 4096 in Hx.
  destruct (He x (conj Hx Ex)) as [E1 E2]. pose proof (dc_index_range x Hx) as Hr.
  change o with (t * 1024 + dc_index x). split; apply get_ok; [lia|done|lia|rewrite E2].
  unfold dc_coeff. destruct (small w) eqn:Es; [|done]. unfold small in Es. apply andb_true_iff in Es as [E0 E6].
  apply Z.leb_le in E6. do 3 f_equal. pose proof (length_word_bits w ltac:(lia)) as Hlw.
  rewrite app_assoc in Hd.
  assert (HG : (G <= 8 * length F)%nat).
  { rewrite <- length_bits_of. apply (drop_inside _ _ _ _ Hd). intros E.
    apply (f_equal length) in E. rewrite length_app in E. cbn in E. lia. }
  pose proof (peek F W b G 12 _ rest Hat Hd HG ltac:(lia) ltac:(rewrite length_app; lia)) as [_ Hp].
  change (Z.of_nat 12) with 12 in Hp. fold x in Hp. rewrite length_app in Hp.
  replace (Z.of_nat (12 - (length (word_bits w) + length more))) with (12 - w.(w_len) - w.(w_sym)) in Hp by lia.
  change (32 - 12 - ulBitOff b) with (REGISTER_WIDTH - 12 - ulBitOff b) in Hp. fold x in Hp.
  rewrite Hp, val_app, Z.add_comm, <- Hm, Z.mod_add by lia. apply Z.mod_small, val_range.
Qed.

Lemma dc_difference_ok (dc : list Z) (t : Z) (h : huffman) (d : Z) (b : BUFFERED_BITS) (G : nat) code rest :
  Forall dc_word (words h) -> Forall (dc_entry dc t) (words h) -> 0 <= t ->
  encode_token h (category d, d) = Some code -> drop G (bits_of F) = code ++ rest ->
  at_bit F W b G -> b.(ulBitOff) <= 15 -> readable_to F W p (G + length code) ->
  exists b', dc_difference p.(ucFileBuf) dc t b = Ok (Some (b', d)) /\ bits_at b' (G + length code).
Proof.
  intros Hwords Hentries Ht Hc Hd Hat Ho Hr. unfold encode_token, code_of in Hc. cbn [fst snd] in Hc.
  destruct (List.find _ _) as [w|] eqn:Ew; [|done]. simpl in Hc. injection Hc as <-.
  apply List.find_some in Ew as [Hin Hs]. apply Z.eqb_eq in Hs. apply list_elem_of_In in Hin.
  rewrite Forall_forall in Hwords, Hentries. specialize (Hwords w Hin). specialize (Hentries w Hin).
  pose proof (dcw_len _ Hwords) as Hl. pose proof (dcw_sym _ Hwords) as Hsym. pose proof (length_magnitude d) as Hlm.
  pose proof (length_word_bits w ltac:(lia)) as Hlw. rewrite <- app_assoc in Hd. rewrite length_app, Nat.add_assoc in Hr |- *.
  rewrite <- Hs in Hlm. destruct (dc_lookup dc t w b G _ rest Ht Hwords Hentries Hat Ho Hd Hlm) as [E1 E2].
  unfold dc_difference. rewrite E1, E2. cbn [rbind].
  assert (Hbyte : dc_byte w / 16 = (if small w then w.(w_len) + w.(w_sym) else w.(w_len)) /\ dc_byte w mod 16 = w.(w_sym)).
  { unfold dc_byte. generalize (if small w then w.(w_len) + w.(w_sym) else w.(w_len)). intros q.
    rewrite Z.div_add_l, (Z.div_small w.(w_sym)), Z.add_0_r, Z.add_comm, Z.mod_add, Z.mod_small by lia. lia. }
  rewrite Z.shiftr_div_pow2 by lia. change 0xf with (Z.ones 4). rewrite Z.land_ones by lia. change (2 ^ 4) with 16.
  destruct Hbyte as [-> ->]. rewrite (proj2 (Z.eqb_neq (dc_byte w) 0)) by (unfold dc_byte; destruct (small w); lia).
  pose proof (bits_at_skip b G (length (word_bits w)) Hat Ho ltac:(lia)) as Hb1. rewrite Hlw in Hb1.
  destruct (Z.eqb_spec w.(w_sym) 0) as [E0|E0].
  - assert (d = 0) as -> by (destruct (Z.eq_dec d 0); [done|]; pose proof (category_pos d); lia).
    unfold small. rewrite (proj2 (Z.eqb_eq _ 0)) by done. cbn [negb andb]. eexists. split; [done|].
    replace (length (magnitude 0)) with 0%nat by done. by rewrite Nat.add_0_r.
  - assert (Hd0 : d <> 0) by (intros ->; cbn in Hs; lia). destruct (category_pos d Hd0) as [_ Hrange].
    rewrite <- Hs in Hrange. rewrite Hs, extend_magnitude by done. destruct (small w) eqn:Es.
    + unfold small in Es. apply andb_true_iff in Es as [_ E6]. apply Z.leb_le in E6.
      pose proof (Z.pow_le_mono_r 2 w.(w_sym) 5 ltac:(lia) ltac:(lia)) as H5. change (2 ^ 5) with 32 in H5.
      rewrite i8_u8 by lia. rewrite (proj2 (Z.eqb_neq d 0)) by done. cbn [negb]. eexists. split; [done|].
      rewrite <- Hs, <- Nat.add_assoc. rewrite <- Hlw, <- Hlm, <- Nat2Z.inj_add. apply bits_at_skip; [done..|lia].
    + change (negb (i8 0 =? 0)) with false. cbn match.
      destruct (refill_at _ _ Hb1) as (b' & -> & Hat' & Ho'); [eapply readable_between; [exact Hat| |exact Hr]; lia|].
      cbn [rbind]. apply drop_more in Hd. rewrite <- Hs, <- Hlm.
      rewrite (extra_bits_ok F W b' _ (magnitude d) rest Hat' Hd); [|..|done|lia].
      2:{ rewrite <- length_bits_of. apply (drop_inside _ _ _ _ Hd). intros E. rewrite E in Hlm. cbn in Hlm. lia. }
      rewrite Hlm, Hs, extend_magnitude, i32_u32;
        [|pose proof (Z.pow_le_mono_r 2 w.(w_sym) 11 ltac:(lia) ltac:(lia)) as H11; change (2 ^ 11) with 2048 in H11; lia|done].
      eexists. split; [done|]. rewrite <- Hs, <- Hlm. apply bits_at_skip; [done..|lia].
Qed.
End Data.

(** The input at other bits: [JPEGDecodeMCU] changes nothing else of it. *)
Definition move_to (p : input) (b : BUFFERED_BITS) : input :=
  mk_input p.(JPEGFile) p.(ucFileBuf) b.(pBuf) p.(iVLCSize) p.(ucFF) b.

(** The tables of a component. *)
Record component_tables (t : tables) (td ta : Z) (hdc hac : huffman) : Prop := {
  ct_dc : 0 <= td;
  ct_ac : 0 <= ta <= 1;
  ct_dc_words : Forall dc_word (words hdc);
  ct_ac_words : Forall ac_word (words hac);
  ct_dc_entries : Forall (dc_entry t.(ucHuffDC) td) (words hdc);
  ct_ac_entries : Forall (ac_entry t.(usHuffAC) ta) (words hac);
}.

(** 64 coefficients in zigzag order. *)
Record block_wf (zz : list Z) : Prop := {
  bw_length : length zz = 64%nat;
  bw_range : Forall (fun v => - 2 ^ 15 < v < 2 ^ 15) zz;
}.

(** Decoding the code of a block gives the block. *)
Lemma decode_block_code F W (t : tables) (td ta : Z) (hdc hac : huffman) (iMCU pred : Z) (zz : list Z) (w : work)
    (G : nat) (code rest : list bool) :
  component_tables t td ta hdc hac -> block_wf zz -> encode_block hdc hac pred zz = Some code ->
  window F W w.(wk_input) -> bits_at F W w.(wk_input).(bb) G -> drop G (bits_of F) = code ++ rest ->
  readable_to F W w.(wk_input) (G + length code) ->
  0 <= iMCU -> 2 * iMCU + 128 <= Z.of_nat (length w.(wk_mcus)) ->
  exists b, bits_at F W b (G + length code) /\
    JPEGDecodeMCU t td ta iMCU pred w
    = Ok (0, hd 0 zz,
          mk_work (move_to w.(wk_input) b)
            (store_at w.(wk_mcus) (Z.to_nat (2 * iMCU)) (block_bytes (unzig zz)))
            (flags col_bit zz) (flags row_bit zz)).
Proof.
  intros [Htd Hta Hdw Haw Hde Hae] [Hlen Hrange] Hc Hwin Hb Hd Hr Hi Hm.
  destruct zz as [|dc acs]; [done|]. apply Forall_cons in Hrange as [Hdc Hacs]. cbn [encode_block] in Hc.
  destruct (encode_token hdc _) as [c1|] eqn:E1; [|done]. simpl in Hc.
  destruct (encode_tokens hac _) as [c2|] eqn:E2; [|done]. simpl in Hc. injection Hc as <-.
  rewrite <- app_assoc in Hd. rewrite length_app, Nat.add_assoc in Hr |- *. unfold JPEGDecodeMCU.
  destruct (refill_at F W w.(wk_input) Hwin _ _ Hb) as (b1 & -> & Hat1 & Ho1);
    [eapply readable_between; [apply Hb| |exact Hr]; lia|]. cbn [rbind].
  rewrite put_all_ok by (rewrite ?length_replicate; lia). cbn [rbind].
  destruct (dc_difference_ok F W w.(wk_input) Hwin _ td hdc _ b1 G c1 (c2 ++ rest) Hdw Hde Htd E1 Hd Hat1 Ho1)
    as (b2 & -> & Hb2); [eapply readable_between; [apply Hb| |exact Hr]; lia|]. cbn [rbind].
  replace (i32 (pred + (dc - pred))) with dc by (rewrite i32_small; lia).
  change (replicate 128 0) with (block_bytes (unzig [])). 
  pose proof (put_short_block w.(wk_mcus) (unzig []) iMCU 0 dc Hi Hm eq_refl ltac:(lia)) as Ep.
  rewrite Z.add_0_r in Ep. rewrite Ep. cbn [rbind]. rewrite (proj2 (Z.ltb_ge 1 ta)) by lia.
  set (k := mk_block b2 _ 0 0).
  destruct (ac_loop_ok F W w.(wk_input) Hwin t.(usHuffAC) ta hac Haw Hae (proj1 Hta) w.(wk_mcus) iMCU Hi Hm
              acs 0 [dc] 64 k (G + length c1) c2 rest) as (k' & E & Hb3 & Hcol & Hm3 & Hrow); try done.
  - by apply drop_more in Hd.
  - cbn [length]. lia.
  - change (Z.of_nat (length [dc])) with 1 in E. rewrite E. cbn [rbind].
    exists k'.(bk_bits). split; [done|]. cbn [replicate app] in Hcol, Hm3, Hrow. cbn [hd].
    unfold move_to. by rewrite <- Hcol, <- Hm3, <- Hrow.
Qed.

(** ** From coefficients to samples *)

(** What [DecodeJPEG] makes of a block with the prepared quantization table [q]. *)
Definition samples (q zz : list Z) : list Z :=
  let col := flags col_bit zz in
  if col =? 0 then replicate 64 (range (i32 (hd 0 zz * i16 (hd 0 q))))
  else idct_rows col (idct_columns col (flags row_bit zz) (unzig zz) (map i16 q)).

Lemma i16_small z : -32768 <= z < 32768 -> i16 z = z.
Proof. intros. unfold i16. rewrite Z.mod_small by lia. lia. Qed.

Lemma i16_u16 z : i16 (u16 z) = i16 z.
Proof. unfold i16, u16. by rewrite Z.add_mod_idemp_l by lia. Qed.

Lemma shorts_block_bytes c : shorts (block_bytes c) = map i16 c.
Proof.
  induction c as [|x c IH]; [done|]. change (block_bytes (x :: c)) with (short_bytes x ++ block_bytes c).
  cbn [short_bytes app shorts map]. rewrite IH. f_equal. rewrite Z.add_comm, <- (Z.div_mod (u16 x) 256) by lia. apply i16_u16.
Qed.

Lemma unzig_i16 zz : block_wf zz -> map i16 (unzig zz) = unzig zz.
Proof.
  intros [Hl Hr]. unfold unzig. rewrite map_map. apply map_ext. intros j. apply i16_small.
  rewrite nth_lookup. destruct (zz !! _) eqn:E; [|cbn; lia]. pose proof (proj1 (Forall_lookup _ _) Hr _ _ E). cbn in *. lia.
Qed.

Lemma length_row col m : length (row col m) = 8%nat.
Proof. unfold row. destruct (col <? 0x10); [by destruct (col <? 0x04)|done]. Qed.

Lemma length_idct_rows col m : length (idct_rows col m) = 64%nat.
Proof.
  unfold idct_rows. cbn [map seq concat]. rewrite !length_app, !length_map, !length_row. done.
Qed.

Lemma length_idct_columns col rw c q : length (idct_columns col rw c q) = 64%nat.
Proof. unfold idct_columns. by rewrite length_map, length_seq. Qed.

Lemma length_samples q zz : length (samples q zz) = 64%nat.
Proof. unfold samples. destruct (_ =? 0); [done|apply length_idct_rows]. Qed.

Lemma store_overwrite {A} (l xs ys : list A) (j : nat) :
  (length ys <= length xs)%nat -> (j + length xs <= length l)%nat ->
  store_at (store_at l j xs) j ys = store_at l j (ys ++ drop (length ys) xs).
Proof.
  intros H1 H2. pose proof (store_inside l xs ys j 0 ltac:(lia) H2) as E. rewrite Nat.add_0_r in E. by rewrite E.
Qed.

Lemma slice_store_at {A} (l xs : list A) (j : nat) : (j + length xs <= length l)%nat ->
  take (length xs) (drop j (store_at l j xs)) = xs.
Proof.
  intros H. unfold store_at. rewrite drop_app_ge, length_take, Nat.min_l, Nat.sub_diag by (rewrite ?length_take; lia).
  apply take_app_length.
Qed.

(** The table [no] of four. *)
Definition quant (t : tables) (no : Z) : list Z := take 64 (drop (Z.to_nat (no * DCTSIZE)) t.(sQuantTable)).

Lemma quant_first (t : tables) (no : Z) : 0 <= no < 4 -> length t.(sQuantTable) = 256%nat ->
  get t.(sQuantTable) (no * DCTSIZE) = Ok (hd 0 (quant t no)).
Proof.
  intros Hno Hl. unfold quant, DCTSIZE. rewrite get_nth by lia. f_equal.
  set (d := drop (Z.to_nat (no * 64)) t.(sQuantTable)).
  assert (E : t.(sQuantTable) !! Z.to_nat (no * 64) = d !! 0%nat) by (unfold d; by rewrite lookup_drop, Nat.add_0_r).
  rewrite nth_lookup, E. destruct d as [|x l] eqn:El; [|done].
  apply (f_equal length) in El. unfold d in El. rewrite length_drop in El. cbn [length] in El. lia.
Qed.

Lemma decode_block_ok F W (t : tables) (c : JPEGCOMPINFO) (hdc hac : huffman) (iMCU pred : Z) (zz : list Z) (w : work)
    (G : nat) (code rest : list bool) :
  component_tables t c.(dc_tbl_no) c.(ac_tbl_no) hdc hac -> block_wf zz -> encode_block hdc hac pred zz = Some code ->
  0 <= c.(quant_tbl_no) < 4 -> length t.(sQuantTable) = 256%nat ->
  window F W w.(wk_input) -> bits_at F W w.(wk_input).(bb) G -> drop G (bits_of F) = code ++ rest ->
  readable_to F W w.(wk_input) (G + length code) ->
  0 <= iMCU -> 2 * iMCU + 128 <= Z.of_nat (length w.(wk_mcus)) ->
  exists b junk, bits_at F W b (G + length code) /\ length junk = 64%nat /\
    decode_block t c iMCU pred w
    = Ok (0, hd 0 zz,
          mk_work (move_to w.(wk_input) b)
            (store_at w.(wk_mcus) (Z.to_nat (2 * iMCU)) (samples (quant t c.(quant_tbl_no)) zz ++ junk))
            (flags col_bit zz) (flags row_bit zz)).
Proof.
  intros Hct Hwf Hc Hq Hql Hwin Hb Hd Hr Hi Hm.
  destruct (decode_block_code F W t _ _ hdc hac iMCU pred zz w G code rest Hct Hwf Hc Hwin Hb Hd Hr Hi Hm) as (b & Hb' & E).
  exists b. unfold decode_block. rewrite E. cbn [rbind wk_mcus ucMaxACCol ucMaxACRow wk_input].
  pose proof (length_block_bytes (unzig zz)) as Hbb. rewrite length_unzig in Hbb.
  set (c0 := block_bytes (unzig zz)) in *. set (j := Z.to_nat (2 * iMCU)).
  assert (Hls : Z.of_nat (length (store_at w.(wk_mcus) j c0)) = Z.of_nat (length w.(wk_mcus)))
    by (rewrite store_at_length; [done|unfold j; lia]).
  unfold samples. destruct (flags col_bit zz =? 0).
  - exists (drop 64 c0). split; [done|]. split; [rewrite length_drop; lia|].
    rewrite quant_first by done. cbn [rbind]. rewrite put_all_ok by (rewrite ?length_replicate; lia). cbn [rbind]. fold j.
    by rewrite store_overwrite by (rewrite ?length_replicate; unfold j; lia).
  - unfold JPEGIDCT. fold j. set (m := idct_columns _ _ _ _).
    exists (concat (map short_bytes (drop 32 m))). split; [done|].
    assert (Hj : length (concat (map short_bytes (drop 32 m))) = 64%nat).
    { pose proof (length_block_bytes (drop 32 m)) as Hl. unfold block_bytes in Hl. rewrite Hl, length_drop.
      unfold m. by rewrite length_idct_columns. }
    split; [done|]. rewrite get_all_ok by lia. fold j. cbn [rbind].
    replace (Z.to_nat 128) with (length c0) by lia. rewrite slice_store_at by (unfold j; lia).
    rewrite get_all_ok by (unfold DCTSIZE; lia). cbn [rbind].
    change (take (Z.to_nat DCTSIZE) _) with (quant t c.(quant_tbl_no)).
    replace (shorts c0) with (unzig zz) by (unfold c0; by rewrite shorts_block_bytes, unzig_i16). fold m.
    rewrite put_all_ok by (rewrite ?length_app, ?length_idct_rows; lia). cbn [rbind]. fold j.
    rewrite store_overwrite by (rewrite ?length_app, ?length_idct_rows; unfold j; lia).
    by rewrite (drop_ge c0), app_nil_r by (rewrite length_app, length_idct_rows; lia).
Qed.

(** ** The blocks of an MCU *)

(** The code of blocks of the components [js] with the tables [hs] of the components,
    and the predictors afterwards. *)
Fixpoint encode_blocks (hs : list (huffman * huffman)) (js : list nat) (preds : list Z) (zzs : list (list Z))
  : option (list bool * list Z) :=
  match js, zzs with
  | [], [] => Some ([], preds)
  | j :: js, zz :: zzs =>
      h ← hs !! j; pred ← preds !! j; a ← encode_block h.1 h.2 pred zz;
      '(b, preds) ← encode_blocks hs js (<[j := hd 0 zz]> preds) zzs;
      Some (a ++ b, preds)
  | _, _ => None
  end.

(** The samples in block [n] of [sMCUs]. *)
Definition slot (mcus : list Z) (n : nat) : list Z := take 64 (drop (128 * n) mcus).

Lemma slot_of_store mcus (n n' : nat) s junk :
  length s = 64%nat -> length junk = 64%nat -> (128 * n + 128 <= length mcus)%nat ->
  slot (store_at mcus (128 * n) (s ++ junk)) n' = if decide (n' = n) then s else slot mcus n'.
Proof.
  intros Hs Hj Hl. unfold slot. destruct (decide (n' = n)) as [->|Hne].
  - unfold store_at. rewrite drop_app_ge, length_take, Nat.min_l, Nat.sub_diag by (rewrite ?length_take; lia).
    cbn [drop]. rewrite <- app_assoc, <- Hs. apply take_app_length.
  - apply list_eq. intros i. destruct (Nat.lt_ge_cases i 64).
    + rewrite !lookup_take_lt, !lookup_drop, store_lookup by (rewrite ?length_app; lia).
      rewrite decide_False; [done|]. rewrite length_app. lia.
    + rewrite !lookup_take_ge by lia. done.
Qed.

Lemma window_move F W p b : window F W (move_to p b) <-> window F W p.
Proof. split; intros []; constructor; done. Qed.

Lemma readable_to_move F W p b G : readable_to F W (move_to p b) G <-> readable_to F W p G.
Proof. done. Qed.

(** The tables of the components [cs] are [hs]. *)
Definition all_component_tables (t : tables) (cs : list JPEGCOMPINFO) (hs : list (huffman * huffman)) : Prop :=
  forall j h, hs !! j = Some h -> exists c, cs !! j = Some c /\ 0 <= c.(quant_tbl_no) < 4 /\
    component_tables t c.(dc_tbl_no) c.(ac_tbl_no) h.1 h.2.

(** Decoding the blocks at the slots [ns] of the components [js]. *)
Lemma decode_blocks_ok F W (t : tables) cs hs : all_component_tables t cs hs -> length t.(sQuantTable) = 256%nat ->
  forall js ns preds zzs w G code preds' rest,
  length ns = length js -> NoDup ns -> Forall (fun n => (n < 6)%nat) ns -> Forall block_wf zzs ->
  encode_blocks hs js preds zzs = Some (code, preds') ->
  window F W w.(wk_input) -> bits_at F W w.(wk_input).(bb) G -> drop G (bits_of F) = code ++ rest ->
  readable_to F W w.(wk_input) (G + length code) -> length w.(wk_mcus) = 768%nat ->
  w.(wk_input).(iVLCOff) = w.(wk_input).(bb).(pBuf) ->
  exists b mcus col rw, bits_at F W b (G + length code) /\ length mcus = 768%nat /\
    decode_blocks t cs (zip js (map (fun n => DCTSIZE * Z.of_nat n) ns)) preds 0 w
    = Ok (0, preds', mk_work (move_to w.(wk_input) b) mcus col rw) /\
    (forall n, n ∉ ns -> slot mcus n = slot w.(wk_mcus) n) /\
    (forall i j n zz c, js !! i = Some j -> ns !! i = Some n -> zzs !! i = Some zz -> cs !! j = Some c ->
       slot mcus n = samples (quant t c.(quant_tbl_no)) zz).
Proof.
  intros Hct Hql. induction js as [|j js IH]; intros [|n ns] preds zzs w G code preds' rest Hln Hnd Hf Hwf Hc
    Hwin Hb Hd Hr Hm Hoff; try done.
  - destruct zzs; [|done]. injection Hc as <- <-. exists w.(wk_input).(bb), w.(wk_mcus), w.(ucMaxACCol), w.(ucMaxACRow).
    rewrite Nat.add_0_r. split; [done|]. split; [done|]. split; [|split; [done|intros i ? ? ? ? [=]]].
    unfold move_to. rewrite <- Hoff. by destruct w as [[] ? ? ?].
  - destruct zzs as [|zz zzs]; [done|]. cbn [encode_blocks] in Hc.
    destruct (hs !! j) as [h|] eqn:Eh; [|done]. simpl in Hc. destruct (preds !! j) as [pred|] eqn:Ep; [|done]. simpl in Hc.
    destruct (encode_block h.1 h.2 pred zz) as [a|] eqn:Ea; [|done]. simpl in Hc.
    destruct (encode_blocks hs js (<[j:=hd 0 zz]> preds) zzs) as [[c ps]|] eqn:Ec; [|done]. simpl in Hc. injection Hc as <- <-.
    apply NoDup_cons in Hnd as [Hn Hnd]. apply Forall_cons in Hf as [Hn6 Hf]. apply Forall_cons in Hwf as [Hz Hwf].
    destruct (Hct j h Eh) as (cj & Ecj & Hq & Hctj).
    rewrite <- app_assoc in Hd. rewrite length_app, Nat.add_assoc in Hr |- *. unfold DCTSIZE.
    destruct (decode_block_ok F W t cj h.1 h.2 (64 * Z.of_nat n) pred zz w G a (c ++ rest)) as (b & junk & Hb1 & Hj & E);
      try done; [eapply readable_between; [apply Hb| |exact Hr]; lia|lia..|].
    replace (Z.to_nat (2 * (64 * Z.of_nat n))) with (128 * n)%nat in E by lia.
    set (s := samples _ zz) in *. pose proof (length_samples (quant t cj.(quant_tbl_no)) zz) as Hs. fold s in Hs.
    cbn [map zip_with decode_blocks]. rewrite Ecj, Ep, E. cbn [rbind]. change (Z.lor 0 0) with 0.
    set (w1 := mk_work _ _ _ _).
    destruct (IH ns (<[j:=hd 0 zz]> preds) zzs w1 (G + length a)%nat c ps rest) as (b' & mcus & col & rw & Hb' & Hl' & E' & Hout & Hin);
      try done; [cbn in Hln; lia|by apply window_move|by apply drop_more in Hd|..].
    { unfold w1. cbn [wk_mcus]. rewrite store_at_length; [done|]. rewrite length_app. lia. }
    exists b', mcus, col, rw. split; [done|]. split; [done|]. split; [done|].
    assert (Hslot : forall n', slot w1.(wk_mcus) n' = if decide (n' = n) then s else slot w.(wk_mcus) n')
      by (intros; apply slot_of_store; [done..|lia]).
    split.
    + intros n' Hn'. rewrite Hout, Hslot, decide_False; [done|..]; intros H; apply Hn'; [subst; by left|by right].
    + intros [|i] j' n' zz' c' Ej En Ez Ec'; [|by eapply Hin].
      injection Ej as <-. injection En as <-. injection Ez as <-. rewrite Ecj in Ec'. injection Ec' as <-.
      rewrite Hout, Hslot by done. by rewrite decide_True.
Qed.

End JpegBlock.
