(* ===== verification/JpegFilter.v ===== *)
(** * Marker removal and the file buffer

    The compressed data of an image in the file is stuffed: a zero follows every
    0xFF, and markers separate the restart intervals.  [JPEGFilter] undoes this in
    place and in pieces; [JPEGGetMoreData] keeps the buffer a window on the data
    without stuffing. *)
From stdpp Require Import base list.
From Stdlib Require Import ZArith Lia.
From S2P Require Import Prelude Crc JpegTables Jpeg JpegBits JpegBlock.
Import JpegTables Jpeg JpegBits JpegBlock.
Local Open Scope Z_scope.
Local Open Scope run_scope.

Module JpegFilter.

(** ** The data without stuffing and markers *)

(** The bytes that [l] stands for behind the bytes read before, [ff] if the last of
    them was an 0xFF, and whether the last byte is one now. *)
Fixpoint unstuff (ff : bool) (l : list Z) : list Z * bool :=
  match l with
  | [] => ([], ff)
  | c :: l =>
      if ff then let (o, f) := unstuff false l in (if c =? 0 then 0xff :: o else o, f)
      else if c =? 0xff then unstuff true l
      else let (o, f) := unstuff false l in (c :: o, f)
  end.

(** Data in the file. *)
Definition stuff (l : list Z) : list Z := concat (map (fun c => if c =? 0xff then [0xff; 0] else [c]) l).

Lemma unstuff_app ff a b :
  unstuff ff (a ++ b) = let (o, f) := unstuff ff a in let (o', f') := unstuff f b in (o ++ o', f').
Proof.
  revert ff. induction a as [|c a IH]; intros ff; cbn [app unstuff].
  { by destruct (unstuff ff b). }
  destruct ff; [|destruct (c =? 0xff); [apply IH|]].
  - rewrite IH. destruct (unstuff false a) as [o f]. destruct (unstuff f b) as [o' f']. by destruct (c =? 0).
  - rewrite IH. destruct (unstuff false a) as [o f]. by destruct (unstuff f b) as [o' f'].
Qed.

Lemma unstuff_stuff l : unstuff false (stuff l) = (l, false).
Proof.
  induction l as [|c l IH]; [done|]. change (stuff (c :: l)) with ((if c =? 0xff then [0xff; 0] else [c]) ++ stuff l).
  destruct (Z.eqb_spec c 0xff) as [->|Hc]; cbn [app unstuff].
  - change (0xff =? 0xff) with true. cbn match. change (0 =? 0) with true. by rewrite IH.
  - rewrite (proj2 (Z.eqb_neq c 0xff)) by done. by rewrite IH.
Qed.

(** A marker between stuffed data is dropped. *)
Lemma unstuff_marker m l : m <> 0 -> unstuff false (0xff :: m :: l) = unstuff false l.
Proof. intros. cbn. rewrite (proj2 (Z.eqb_neq m 0)) by done. by destruct (unstuff false l). Qed.

Definition count_ff (l : list Z) : nat := length (filter (fun c => c = 0xff) l).

(** Little is dropped when there are few 0xFF. *)
Lemma unstuff_length ff l :
  (length l <= length (fst (unstuff ff l)) + 2 * count_ff l + (if ff then 1 else 0))%nat.
Proof.
  revert ff. induction l as [|c l IH]; intros ff; [cbn; lia|]. unfold count_ff in *. rewrite filter_cons. cbn [unstuff length].
  destruct ff.
  - specialize (IH false). destruct (unstuff false l) as [o f]. cbn [fst] in *.
    destruct (decide (c = 0xff)); destruct (c =? 0); cbn [length fst]; lia.
  - destruct (Z.eqb_spec c 0xff) as [->|Hc].
    + rewrite decide_True by done. specialize (IH true). cbn [length] in *. lia.
    + rewrite decide_False by done. specialize (IH false). destruct (unstuff false l). cbn [fst length] in *. lia.
Qed.

Lemma unstuff_bytes ff l : Forall Crc.is_byte l -> Forall Crc.is_byte (fst (unstuff ff l)).
Proof.
  intros Hl. revert ff. induction Hl as [|c l Hc Hl IH]; intros ff; [constructor|]. cbn [unstuff]. destruct ff.
  - specialize (IH false). destruct (unstuff false l). destruct (c =? 0); cbn [fst] in *; [constructor|]; done.
  - destruct (c =? 0xff); [apply IH|]. specialize (IH false). destruct (unstuff false l). by constructor.
Qed.

(** ** [JPEGFilter] *)

(** The bytes from [a] up to [b]. *)
Definition between (l : list Z) (a b : nat) : list Z := take (b - a) (drop a l).

Lemma between_cons (l : list Z) (a b : nat) (c : Z) :
  l !! a = Some c -> (a < b)%nat -> between l a b = c :: between l (S a) b.
Proof.
  intros Hc Hb. unfold between. rewrite (drop_S _ _ _ Hc). replace (b - a)%nat with (S (b - S a)) by lia. done.
Qed.

Lemma between_drop (l l' : list Z) (a b : nat) : drop a l' = drop a l -> between l' a b = between l a b.
Proof. intros H. unfold between. by rewrite H. Qed.

Lemma between_nil l a b : (b <= a)%nat -> between l a b = [].
Proof. intros. unfold between. by replace (b - a)%nat with 0%nat by lia. Qed.

Lemma put_ok (buf : list Z) (d : nat) (c : Z) : (d < length buf)%nat -> put buf (Z.of_nat d) c = Ok (<[d := c]> buf).
Proof.
  intros Hd. unfold put. rewrite put_all_ok by (cbn; lia). f_equal. rewrite Nat2Z.id.
  apply list_eq. intros k. rewrite store_lookup by (cbn; lia). cbn [length]. rewrite list_lookup_insert.
  destruct (decide (d <= k < d + 1)%nat).
  - rewrite decide_True by lia. by replace (k - d)%nat with 0%nat by lia.
  - by rewrite decide_False by lia.
Qed.

Lemma get_nat (buf : list Z) (s : nat) (c : Z) : buf !! s = Some c -> get buf (Z.of_nat s) = Ok c.
Proof. intros H. apply get_ok; [lia|]. by rewrite Nat2Z.id. Qed.

Lemma take_insert_snoc (l : list Z) (d : nat) (c : Z) : (d < length l)%nat -> take (S d) (<[d := c]> l) = take d l ++ [c].
Proof.
  intros Hd. rewrite (take_S_r _ _ c) by (apply list_lookup_insert_eq; lia). by rewrite take_insert_ge by lia.
Qed.

Lemma filter_loop_ok (fuel : nat) : forall buf (s d pEnd : nat),
  (d <= s <= pEnd + 1)%nat -> (pEnd < length buf)%nat -> (pEnd - s <= fuel)%nat ->
  exists buf' s' out,
    filter_loop fuel buf (Z.of_nat s) (Z.of_nat d) (Z.of_nat pEnd) = Ok (buf', Z.of_nat s', Z.of_nat (d + length out)) /\
    (pEnd <= s' <= pEnd + 1)%nat /\ (s <= s')%nat /\ (d + length out <= s')%nat /\ length buf' = length buf /\
    drop s' buf' = drop s' buf /\ take (d + length out) buf' = take d buf ++ out /\
    unstuff false (between buf s s') = (out, false) /\ (Forall Crc.is_byte buf -> Forall Crc.is_byte buf').
Proof.
  induction fuel as [|fuel IH]; intros buf s d pEnd Hd Hl Hf; cbn [filter_loop].
  { rewrite (proj2 (Z.ltb_ge _ _)) by lia. exists buf, s, []. rewrite Nat.add_0_r, app_nil_r, between_nil by lia.
    split_and!; (done || lia). }
  destruct (Z.ltb_spec (Z.of_nat s) (Z.of_nat pEnd)) as [Hs|Hs].
  2:{ exists buf, s, []. rewrite Nat.add_0_r, app_nil_r, between_nil by lia. split_and!; (done || lia). }
  destruct (lookup_lt_is_Some_2 buf s) as [c Hc]; [lia|]. destruct (lookup_lt_is_Some_2 buf (S s)) as [n Hn]; [lia|].
  rewrite (get_nat _ _ _ Hc). cbn [rbind]. rewrite put_ok by lia. cbn [rbind].
  assert (Hbytes : Forall Crc.is_byte buf -> Forall Crc.is_byte (<[d:=c]> buf)).
  { intros Hb. apply Forall_insert; [done|]. by apply (proj1 (Forall_lookup _ _) Hb s). }
  assert (Hdrop : forall k, (s < k)%nat -> drop k (<[d:=c]> buf) = drop k buf) by (intros; apply drop_insert_lt; lia).
  destruct (Z.eqb_spec c 0xff) as [->|Hff].
  - replace (Z.of_nat s + 1) with (Z.of_nat (S s)) by lia.
    rewrite (get_nat _ _ n) by (rewrite list_lookup_insert_ne by lia; done). cbn [rbind].
    replace (Z.of_nat s + 2) with (Z.of_nat (S (S s))) by lia.
    replace (if n =? 0 then Z.of_nat d + 1 else Z.of_nat d) with (Z.of_nat (if n =? 0 then S d else d)) by (destruct (n =? 0); lia).
    destruct (IH (<[d:=0xff]> buf) (S (S s)) (if n =? 0 then S d else d) pEnd) as (buf' & s' & out & E & H1 & H2 & H3 & H4 & H5 & H6 & H7 & H8);
      [destruct (n =? 0); lia|rewrite length_insert; lia|lia|].
    exists buf', s', (if n =? 0 then 0xff :: out else out). rewrite length_insert in H4.
    rewrite Hdrop in H5 by lia. rewrite (between_drop buf) in H7 by (apply Hdrop; lia).
    rewrite (between_cons _ _ _ _ Hc), (between_cons _ _ _ _ Hn) by lia. cbn [unstuff]. change (0xff =? 0xff) with true.
    cbn match. rewrite H7. destruct (n =? 0).
    + replace (d + length (255%Z :: out))%nat with (S d + length out)%nat by (cbn; lia).
      rewrite H6, take_insert_snoc, <- app_assoc by lia. split_and!; (done || lia || auto).
    + rewrite H6, take_insert_ge by lia. split_and!; (done || lia || auto).
  - replace (Z.of_nat s + 1) with (Z.of_nat (S s)) by lia. replace (Z.of_nat d + 1) with (Z.of_nat (S d)) by lia.
    destruct (IH (<[d:=c]> buf) (S s) (S d) pEnd) as (buf' & s' & out & E & H1 & H2 & H3 & H4 & H5 & H6 & H7 & H8);
      [lia|rewrite length_insert; lia|lia|].
    exists buf', s', (c :: out). rewrite length_insert in H4.
    rewrite Hdrop in H5 by lia. rewrite (between_drop buf) in H7 by (apply Hdrop; lia).
    rewrite (between_cons _ _ _ _ Hc) by lia. cbn [unstuff]. rewrite (proj2 (Z.eqb_neq c 0xff)), H7 by done.
    replace (d + length (c :: out))%nat with (S d + length out)%nat by (cbn; lia).
    rewrite H6, take_insert_snoc, <- app_assoc by lia. split_and!; (done || lia || auto).
Qed.

Lemma between_app l (a b c : nat) : (a <= b <= c)%nat -> between l a c = between l a b ++ between l b c.
Proof.
  intros H. unfold between. rewrite <- (take_drop (b - a) (take (c - a) (drop a l))), take_take, Nat.min_l by lia.
  f_equal. rewrite skipn_firstn_comm, drop_drop. f_equal; [lia|f_equal; lia].
Qed.

(** What [JPEGFilter] does behind the pending 0xFF: from [s] up to [e], with [d] of the
    bytes at [dst] stored. *)
Lemma filter_rest (fuel : nat) (buf : list Z) (s d e : nat) (dst : Z) :
  (d <= s <= e)%nat -> (1 <= e <= length buf)%nat -> (e - 1 - s <= fuel)%nat ->
  exists buf' out ff',
    (let! (buf, s, d) := filter_loop fuel buf (Z.of_nat s) (Z.of_nat d) (Z.of_nat (e - 1)) in
     if s =? Z.of_nat (e - 1) then
       let! c := get buf s in
       if c =? 0xff then Ok (d - dst, buf, true)
       else let! buf := put buf d c in Ok (d + 1 - dst, buf, false)
     else Ok (d - dst, buf, false)) = Ok (Z.of_nat (d + length out) - dst, buf', ff') /\
    unstuff false (between buf s e) = (out, ff') /\
    take (d + length out) buf' = take d buf ++ out /\ (d + length out <= e)%nat /\
    length buf' = length buf /\ (Forall Crc.is_byte buf -> Forall Crc.is_byte buf').
Proof.
  intros Hd He Hf.
  destruct (filter_loop_ok fuel buf s d (e - 1)) as (buf1 & s1 & out & -> & H1 & H2 & H3 & H4 & H5 & H6 & H7 & H8); [lia..|].
  cbn [rbind]. destruct (Z.eqb_spec (Z.of_nat s1) (Z.of_nat (e - 1))) as [E|E].
  - destruct (lookup_lt_is_Some_2 buf s1) as [c Hc]; [lia|].
    assert (Hc1 : buf1 !! s1 = Some c) by (rewrite <- Hc, <- (Nat.add_0_r s1), <- !lookup_drop; by rewrite H5).
    rewrite (get_nat _ _ _ Hc1). cbn [rbind].
    assert (Eb : between buf s e = between buf s s1 ++ [c]).
    { rewrite (between_app _ s s1 e), (between_cons _ s1 e _ Hc), (between_nil _ (S s1)) by lia. done. }
    rewrite Eb, unstuff_app, H7. cbn [unstuff]. destruct (Z.eqb_spec c 0xff) as [->|Hff].
    + exists buf1, out, true. rewrite app_nil_r. split_and!; (done || lia).
    + rewrite put_ok by lia. cbn [rbind]. exists (<[(d + length out)%nat := c]> buf1), (out ++ [c]), false.
      rewrite length_app, length_insert, Nat.add_assoc, Nat.add_1_r, take_insert_snoc, H6 by lia.
      rewrite <- app_assoc. split_and!; (done || lia || idtac); [repeat f_equal; lia|].
      intros Hb. apply Forall_insert; [auto|]. by apply (proj1 (Forall_lookup _ _) Hb s1).
  - assert (s1 = e) as -> by lia. exists buf1, out, false. split_and!; (done || lia).
Qed.

(** [JPEGFilter] removes the stuffing of [n] bytes at [src] and stores the rest at [dst]. *)
Lemma JPEGFilter_ok (buf : list Z) (src dst n : nat) (ff : bool) :
  (dst <= src)%nat -> (1 <= n)%nat -> (src + n <= length buf)%nat ->
  exists buf' out ff',
    JPEGFilter buf (Z.of_nat src) (Z.of_nat dst) (Z.of_nat n) ff = Ok (Z.of_nat (length out), buf', ff') /\
    unstuff ff (between buf src (src + n)) = (out, ff') /\
    take (dst + length out) buf' = take dst buf ++ out /\ (dst + length out <= src + n)%nat /\
    length buf' = length buf /\ (Forall Crc.is_byte buf -> Forall Crc.is_byte buf').
Proof.
  intros Hd Hn Hl. unfold JPEGFilter. destruct (lookup_lt_is_Some_2 buf src) as [c0 Hc0]; [lia|].
  (* the pending 0xFF *)
  set (s0 := if ff then S src else src). set (o0 := if ff then if c0 =? 0 then [0xff] else [] else []).
  set (buf0 := if ff then if c0 =? 0 then <[dst := 0xff]> buf else buf else buf).
  assert (E0 : (if ff then let! c := get buf (Z.of_nat src) in
                  if c =? 0 then let! buf := put buf (Z.of_nat dst) 0xff in Ok (buf, Z.of_nat src + 1, Z.of_nat dst + 1)
                  else Ok (buf, Z.of_nat src + 1, Z.of_nat dst)
                else Ok (buf, Z.of_nat src, Z.of_nat dst))
               = Ok (buf0, Z.of_nat s0, Z.of_nat (dst + length o0))).
  { unfold buf0, s0, o0. destruct ff; [|by rewrite Nat.add_0_r]. rewrite (get_nat _ _ _ Hc0). cbn [rbind].
    destruct (c0 =? 0); [rewrite put_ok by lia|]; cbn [rbind length]; repeat f_equal; lia. }
  rewrite E0. cbn [rbind].
  assert (H0 : length buf0 = length buf /\ drop s0 buf0 = drop s0 buf /\ take (dst + length o0) buf0 = take dst buf ++ o0 /\
               (dst + length o0 <= s0)%nat /\ (Forall Crc.is_byte buf -> Forall Crc.is_byte buf0)).
  { unfold buf0, s0, o0. destruct ff; [destruct (c0 =? 0)|]; cbn [length]; rewrite ?Nat.add_0_r, ?app_nil_r.
    - rewrite length_insert, drop_insert_lt, Nat.add_1_r, take_insert_snoc by lia. split_and!; (done || lia || auto).
      intros. by apply Forall_insert.
    - split_and!; (done || lia || auto).
    - split_and!; (done || lia || auto). }
  destruct H0 as (Hl0 & Hdrop0 & Htake0 & Hle0 & Hb0).
  replace (Z.of_nat src + Z.of_nat n - 1) with (Z.of_nat (src + n - 1)) by lia. rewrite Nat2Z.id.
  assert (Hs0 : (s0 <= src + n)%nat) by (unfold s0; destruct ff; lia).
  destruct (filter_rest n buf0 s0 (dst + length o0) (src + n) (Z.of_nat dst)) as (buf' & out & ff' & -> & H1 & H2 & H3 & H4 & H5);
    [lia..|unfold s0; destruct ff; lia|].
  exists buf', (o0 ++ out), ff'. rewrite length_app. rewrite (between_drop buf) in H1 by done.
  split; [repeat f_equal; lia|]. split.
  { unfold s0, o0 in *. destruct ff; [|by rewrite H1]. rewrite (between_cons _ _ _ _ Hc0) by lia. cbn [unstuff].
    rewrite H1. by destruct (c0 =? 0). }
  rewrite Nat.add_assoc, H2, Htake0, <- app_assoc. split_and!; (done || lia || auto).
Qed.

(** ** The buffer during decoding *)

Section Stream.
(** The file [data]: the compressed data starts at byte [h] of it. *)
Context (data : list Z) (h : nat).
Context (Hbytes : Forall Crc.is_byte data).
Context (Hdense : forall a n, (n <= 2048)%nat -> (count_ff (between data a (a + n)) <= 31)%nat).

(** The data to decode. *)
Definition scan_data : list Z := fst (unstuff false (drop h data)).

(** [pos] bytes of the file have been read; the buffer holds what they stand for from
    byte [W] on. *)
Record stream (W : nat) (p : input) (pos : nat) : Prop := {
  st_window : window scan_data W p;
  st_file : p.(JPEGFile) = mk_file (Z.of_nat pos) (Z.of_nat (length data)) data;
  st_pos : (h <= pos <= length data)%nat;
  st_read : unstuff false (between data h pos) = (take (W + Z.to_nat p.(iVLCSize)) scan_data, p.(ucFF));
}.

(** The buffer is nearly full, or all has been read. *)
Definition filled (p : input) (pos : nat) : Prop := JPEG_FILE_BUF_SIZE - 64 <= p.(iVLCSize) \/ pos = length data.

Lemma scan_prefix (k : nat) o f : (h <= k)%nat -> unstuff false (between data h k) = (o, f) ->
  exists rest, scan_data = o ++ rest.
Proof using.
  intros Hk E. unfold scan_data. rewrite <- (take_drop (k - h) (drop h data)), unstuff_app.
  change (take (k - h) (drop h data)) with (between data h k). rewrite E. destruct (unstuff f _) as [o' f'].
  by exists o'.
Qed.

Lemma scan_all : between data h (length data) = drop h data.
Proof using. unfold between. apply take_ge. rewrite length_drop. lia. Qed.

(** When all has been read the data ends in the buffer. *)
Lemma stream_end W p : stream W p (length data) -> Z.of_nat W + p.(iVLCSize) = Z.of_nat (length scan_data).
Proof using.
  intros [[_ _ Hs _ Hi] _ _ Hr]. rewrite scan_all in Hr. apply (f_equal (fun x => length (fst x))) in Hr.
  cbn [fst] in Hr. fold scan_data in Hr. rewrite length_take in Hr. lia.
Qed.

(** Moving the rest of the data to the start of the buffer. *)
Lemma stream_move W p pos : stream W p pos -> 0 <= p.(iVLCOff) <= p.(iVLCSize) ->
  let d := p.(iVLCSize) - p.(iVLCOff) in
  exists buf, put_all p.(ucFileBuf) 0 (take (Z.to_nat d) (drop (Z.to_nat p.(iVLCOff)) p.(ucFileBuf))) = Ok buf /\
    stream (W + Z.to_nat p.(iVLCOff)) (mk_input p.(JPEGFile) buf 0 d p.(ucFF) (mk_bits 0 p.(bb).(ulBits) p.(bb).(ulBitOff))) pos.
Proof using.
  intros [[Hb Hl Hs Hd Hi] Hf Hp Hr] Ho d. set (o := p.(iVLCOff)) in *. set (n := p.(iVLCSize)) in *.
  set (xs := take (Z.to_nat d) (drop (Z.to_nat o) p.(ucFileBuf))).
  unfold JPEG_FILE_BUF_SIZE in *.
  assert (Hxs : length xs = Z.to_nat d) by (unfold xs; rewrite length_take, length_drop; unfold d; lia).
  rewrite put_all_ok by (unfold d in Hxs; lia). eexists. split; [done|].
  assert (Hx : xs = take (Z.to_nat d) (drop (W + Z.to_nat o) scan_data)).
  { unfold xs. replace (Z.to_nat d) with (Z.to_nat n - Z.to_nat o)%nat by (unfold d; lia).
    rewrite <- !skipn_firstn_comm, Hd, skipn_firstn_comm, drop_drop. done. }
  constructor; [constructor|..]; cbn [ucFileBuf iVLCSize JPEGFile ucFF]; try done.
  - unfold store_at. rewrite !Forall_app. split_and!; [by apply Forall_take|by apply Forall_take, Forall_drop|by apply Forall_drop].
  - rewrite store_at_length; [done|]. rewrite Hxs. unfold d. cbn [Nat.add Z.to_nat]. lia.
  - unfold d, JPEG_FILE_BUF_SIZE. lia.
  - change (Z.to_nat 0) with 0%nat. unfold store_at. rewrite take_0, app_nil_l. rewrite <- Hx.
    rewrite take_app_le by lia. apply take_ge. lia.
  - unfold d. lia.
  - rewrite Hr. do 2 f_equal. unfold d. lia.
Qed.

Lemma between_length l (a b : nat) : (b <= length l)%nat -> length (between l a b) = (b - a)%nat.
Proof. intros. unfold between. rewrite length_take, length_drop. lia. Qed.

Lemma readRAM_ok (pos : nat) (n : Z) : (pos < length data)%nat -> 0 < n ->
  readRAM (mk_file (Z.of_nat pos) (Z.of_nat (length data)) data) n
  = (between data pos (pos + Nat.min (length data - pos) (Z.to_nat n)),
     mk_file (Z.of_nat (pos + Nat.min (length data - pos) (Z.to_nat n))) (Z.of_nat (length data)) data).
Proof using.
  intros Hp Hn. unfold readRAM, between. cbn [iSize iPos pData]. rewrite Nat2Z.id.
  set (k := Nat.min (length data - pos) (Z.to_nat n)).
  assert (Ek : (if Z.of_nat (length data) - Z.of_nat pos <? n then Z.of_nat (length data) - Z.of_nat pos else n) = Z.of_nat k)
    by (destruct (Z.ltb_spec (Z.of_nat (length data) - Z.of_nat pos) n); lia).
  rewrite Ek, (proj2 (Z.leb_gt _ _)) by lia. rewrite Nat2Z.id. repeat f_equal; lia.
Qed.

(** Reading more of the file. *)
Lemma stream_more W p pos : stream W p pos -> (pos < length data)%nat -> p.(iVLCSize) < JPEG_FILE_BUF_SIZE - 64 ->
  exists p' pos',
    (let (bs, f) := readRAM p.(JPEGFile) (JPEG_FILE_BUF_SIZE - p.(iVLCSize)) in
     let! buf := put_all p.(ucFileBuf) p.(iVLCSize) bs in
     let! (n, buf, ff) := JPEGFilter buf p.(iVLCSize) p.(iVLCSize) (Z.of_nat (length bs)) p.(ucFF) in
     Ok (mk_input f buf p.(iVLCOff) (p.(iVLCSize) + n) ff p.(bb))) = Ok p' /\
    stream W p' pos' /\ filled p' pos' /\ p'.(iVLCOff) = p.(iVLCOff) /\ p'.(bb) = p.(bb).
Proof.
  intros [[Hb Hl Hs Hd Hi] Hf Hp Hr] Hlt Hsz. unfold JPEG_FILE_BUF_SIZE in *. rewrite Hf, readRAM_ok by lia.
  set (k := Nat.min _ _). set (bs := between data pos (pos + k)).
  assert (Hk : (1 <= k <= 2048)%nat) by lia. assert (Hbs : length bs = k) by (unfold bs; rewrite between_length; lia).
  set (sz := Z.to_nat p.(iVLCSize)). assert (Esz : p.(iVLCSize) = Z.of_nat sz) by lia.
  rewrite put_all_ok by lia. cbn [rbind]. fold sz. rewrite Hbs, Esz.
  set (buf := store_at p.(ucFileBuf) sz bs).
  assert (Hlb : length buf = 2048%nat) by (unfold buf; rewrite store_at_length; lia).
  destruct (JPEGFilter_ok buf sz sz k p.(ucFF)) as (buf' & out & ff' & -> & E & Et & Hle & Hl' & Hb'); [lia..|].
  cbn [rbind]. eexists _, (pos + k)%nat. split; [done|].
  assert (Ebs : between buf sz (sz + k) = bs).
  { unfold between. replace (sz + k - sz)%nat with (length bs) by lia. apply slice_store_at. lia. }
  rewrite Ebs in E.
  assert (Eall : unstuff false (between data h (pos + k)) = (take (W + sz) scan_data ++ out, ff')).
  { rewrite (between_app _ h pos (pos + k)), unstuff_app by lia. rewrite Hr. fold sz bs. by rewrite E. }
  destruct (scan_prefix (pos + k) _ _ ltac:(lia) Eall) as [rest Erest].
  assert (Hlt' : length (take (W + sz) scan_data) = (W + sz)%nat) by (rewrite length_take; lia).
  assert (Eto : take (W + (sz + length out)) scan_data = take (W + sz) scan_data ++ out).
  { rewrite Erest at 1. rewrite take_app_le, take_ge by (rewrite length_app; lia). done. }
  assert (Htk : take sz buf = take sz p.(ucFileBuf)).
  { unfold buf, store_at. rewrite take_app_le, take_take by (rewrite length_take; lia). f_equal. lia. }
  split; [|split; [|done]].
  - constructor; [constructor|..]; cbn [ucFileBuf iVLCSize JPEGFile ucFF]; unfold JPEG_FILE_BUF_SIZE.
    + apply Hb'. unfold buf, store_at. rewrite !Forall_app.
      split_and!; [by apply Forall_take|by apply Forall_take, Forall_drop|by apply Forall_drop].
    + lia.
    + lia.
    + replace (Z.to_nat (Z.of_nat sz + Z.of_nat (length out))) with (sz + length out)%nat by lia.
      fold sz in Hd. rewrite Et, Htk, Hd. rewrite !take_drop_commute, Eto, drop_app_le by lia. done.
    + apply (f_equal length) in Eto. rewrite length_take, length_app in Eto. lia.
    + done.
    + lia.
    + replace (Z.to_nat (Z.of_nat sz + Z.of_nat (length out))) with (sz + length out)%nat by lia. by rewrite Eto.
  - unfold filled. cbn [iVLCSize]. unfold JPEG_FILE_BUF_SIZE. destruct (Nat.lt_ge_cases (length data - pos) (2048 - sz)%nat).
    + right. lia.
    + left. pose proof (unstuff_length p.(ucFF) bs) as Hu. rewrite E, Hbs in Hu. cbn [fst] in Hu.
      pose proof (Hdense pos k ltac:(lia)) as Hdn. fold bs in Hdn. destruct (p.(ucFF)); lia.
Qed.

(** [JPEGGetMoreData] keeps the buffer a window on the data. *)
Lemma get_more_ok W p pos : stream W p pos -> 0 <= p.(iVLCOff) <= p.(iVLCSize) -> p.(iVLCOff) = p.(bb).(pBuf) ->
  p.(iVLCOff) = 0 \/ p.(iVLCSize) - p.(iVLCOff) < JPEG_FILE_BUF_SIZE - 64 ->
  exists p' pos', JPEGGetMoreData p = Ok p' /\ stream (W + Z.to_nat p.(iVLCOff)) p' pos' /\ filled p' pos' /\
    p'.(iVLCOff) = 0 /\ p'.(bb) = mk_bits 0 p.(bb).(ulBits) p.(bb).(ulBitOff).
Proof.
  intros Hs Ho Hbb Hcase. unfold JPEGGetMoreData, JPEG_FILE_BUF_SIZE in *.
  set (d := p.(iVLCSize) - p.(iVLCOff)) in *. rewrite (proj2 (Z.ltb_ge d 0)), orb_false_r by (unfold d; lia).
  assert (E0 : p.(iVLCOff) = 0 -> p.(bb) = mk_bits 0 p.(bb).(ulBits) p.(bb).(ulBitOff))
    by (intros E; destruct p.(bb); cbn in *; congruence).
  destruct (Z.leb_spec (2048 - 64) d) as [Hd|Hd].
  { exists p, pos. assert (p.(iVLCOff) = 0) as E by lia. rewrite E, Nat.add_0_r.
    split; [done|]. split; [done|]. split; [left; unfold JPEG_FILE_BUF_SIZE; unfold d in Hd; lia|]. auto. }
  set (moved := if p.(iVLCOff) =? 0 then Ok p else _).
  assert (Hm : exists p1, moved = Ok p1 /\ stream (W + Z.to_nat p.(iVLCOff)) p1 pos /\ p1.(iVLCOff) = 0 /\ p1.(iVLCSize) = d /\
                 p1.(bb) = mk_bits 0 p.(bb).(ulBits) p.(bb).(ulBitOff)).
  { unfold moved. destruct (Z.eqb_spec p.(iVLCOff) 0) as [E|E].
    - exists p. rewrite E, Nat.add_0_r. unfold d. split_and!; (done || lia || auto).
    - destruct (stream_move W p pos Hs Ho) as (buf & Eb & Hs1). fold d in Eb, Hs1. destruct Hs as [[? Hl Hsz ? ?] ? ? ?].
      unfold JPEG_FILE_BUF_SIZE in Hl, Hsz.
      rewrite get_all_ok by (unfold d; lia). cbn [rbind]. rewrite Eb. cbn [rbind]. eexists. split; [done|]. done. }
  destruct Hm as (p1 & -> & Hs1 & Ho1 & Hsz1 & Hb1). cbn [rbind].
  rewrite (st_file _ _ _ Hs1). cbn [iPos iSize]. rewrite Hsz1, (proj2 (Z.ltb_lt d (2048 - 64))), andb_true_r by lia.
  destruct (Z.ltb_spec (Z.of_nat pos) (Z.of_nat (length data))) as [Hp|Hp].
  - destruct (stream_more _ p1 pos Hs1) as (p2 & pos' & E & Hs2 & Hf & Ho2 & Hb2); [lia|unfold JPEG_FILE_BUF_SIZE; lia|].
    rewrite (st_file _ _ _ Hs1) in E. unfold JPEG_FILE_BUF_SIZE in E. rewrite Hsz1 in E. rewrite E.
    exists p2, pos'. rewrite Ho2, Hb2. done.
  - exists p1, pos. split; [done|]. split; [done|]. split; [|done]. right. pose proof (st_pos _ _ _ Hs1). lia.
Qed.

(** The next MCU starts at bit [G]. *)
Record ready (W : nat) (p : input) (pos : nat) (G : nat) : Prop := {
  rd_stream : stream W p pos;
  rd_filled : filled p pos;
  rd_off : p.(iVLCOff) = p.(bb).(pBuf);
  rd_low : p.(iVLCOff) < FILE_HIGHWATER;
  rd_bits : bits_at scan_data W p.(bb) G;
}.

(** An MCU of at most 441 bytes can be decoded from the buffer. *)
Lemma ready_readable W p pos (G n : nat) : ready W p pos G -> (n <= 8 * 441)%nat -> (G + n <= 8 * length scan_data)%nat ->
  readable_to scan_data W p (G + n).
Proof using.
  intros [Hs Hf Ho Hlow [Hat H32]] Hn HG. unfold FILE_HIGHWATER, readable_to, readable, filled, JPEG_FILE_BUF_SIZE in *.
  destruct Hat as [Hp Hoff Hpos _]. destruct (st_window _ _ _ Hs) as [_ _ Hsz _ Hin]. unfold JPEG_FILE_BUF_SIZE in *.
  assert (Hlo : 0 <= Z.of_nat (G + n) / 8 - Z.of_nat W).
  { pose proof (Z.div_le_lower_bound (Z.of_nat (G + n)) 8 (Z.of_nat W)). lia. }
  assert (Hhi : Z.of_nat (G + n) / 8 - Z.of_nat W <= 1980).
  { pose proof (Z.div_le_upper_bound (Z.of_nat (G + n)) 8 (Z.of_nat W + p.(bb).(pBuf) + 445)). lia. }
  destruct Hf as [Hf| ->].
  - split; [lia|]. split; [lia|]. left. lia.
  - apply stream_end in Hs. split; [|split; [lia|by right]]. split; [lia|].
    pose proof (Z.div_le_upper_bound (Z.of_nat (G + n)) 8 (Z.of_nat (length scan_data))). lia.
Qed.

(** After an MCU the decoder gets more data if the buffer has run low. *)
Lemma ready_feed W p pos (G : nat) :
  stream W p pos -> filled p pos -> p.(iVLCOff) = p.(bb).(pBuf) -> bits_at scan_data W p.(bb) G -> readable_to scan_data W p G ->
  exists W' p' pos', (if p.(iVLCOff) <? FILE_HIGHWATER then Ok p else JPEGGetMoreData p) = Ok p' /\ ready W' p' pos' G.
Proof.
  intros Hs Hf Ho Hb Hr. destruct (Z.ltb_spec p.(iVLCOff) FILE_HIGHWATER) as [Hlow|Hlow].
  { exists W, p, pos. split; [done|]. by constructor. }
  destruct Hb as [[Hp Hoff Hpos Hw] H32]. unfold FILE_HIGHWATER in *. destruct Hr as (Hr & Hr4 & _).
  pose proof (st_window _ _ _ Hs) as [_ _ Hsz _ _]. unfold JPEG_FILE_BUF_SIZE in *.
  assert (Hle : p.(bb).(pBuf) <= Z.of_nat G / 8 - Z.of_nat W).
  { pose proof (Z.div_le_lower_bound (Z.of_nat G) 8 (Z.of_nat W + p.(bb).(pBuf))). lia. }
  destruct (get_more_ok W p pos Hs) as (p' & pos' & E & Hs' & Hf' & Ho' & Hb'); [lia|done|right; unfold JPEG_FILE_BUF_SIZE; lia|].
  exists (W + Z.to_nat p.(iVLCOff))%nat, p', pos'. split; [done|]. constructor; try done.
  - by rewrite Ho', Hb'.
  - unfold FILE_HIGHWATER. lia.
  - rewrite Hb'. split; [|done]. constructor; cbn; try lia.
    rewrite Ho, Nat.add_0_r. done.
Qed.
End Stream.

End JpegFilter.
