(* ===== verification/JpegPixels.v ===== *)
(** * From samples to pixels

    The color of a pixel and the proof that [put_mcu] stores the pixels of an MCU,
    for each way of subsampling, in its rectangle of the pixel buffer and changes
    nothing else. *)
From stdpp Require Import base list.
From Stdlib Require Import ZArith Lia ZifyNat.
From S2P Require Import Prelude Crc JpegTables Jpeg JpegBits JpegBlock.
Import JpegTables Jpeg JpegBits JpegBlock.
Local Open Scope Z_scope.
Local Open Scope run_scope.

Module JpegPixels.

(** ** Painting *)

(** Pixel [i] of the buffer has the value [v]. *)
Definition pixel_at (px : list Z) (i : nat) (v : Z) : Prop :=
  px !! (2 * i)%nat = Some (u16 v mod 256) /\ px !! (2 * i + 1)%nat = Some (u16 v / 256).

(** Positions in lines of [P]. *)
Lemma line_inj (P a b y y' : nat) : (a < P)%nat -> (b < P)%nat -> (a + y * P = b + y' * P)%nat -> a = b /\ y = y'.
Proof. intros Ha Hb E. assert (y = y') by nia. subst y'. split; [lia|done]. Qed.

Lemma store_two (l : list Z) (i : nat) (a b : Z) : (2 * i + 4 <= length l)%nat ->
  store_at l (2 * i) (short_bytes a ++ short_bytes b) = store_at (store_at l (2 * i) (short_bytes a)) (2 * S i) (short_bytes b).
Proof.
  intros Hl. apply list_eq. intros k.
  rewrite !store_lookup by (rewrite ?store_at_length; cbn [length short_bytes app]; lia). cbn [length short_bytes app].
  destruct (decide (2 * i <= k < 2 * i + 4)%nat).
  - destruct (decide (2 * S i <= k < 2 * S i + 2)%nat).
    + replace (k - 2 * i)%nat with (2 + (k - 2 * S i))%nat by lia. done.
    + rewrite decide_True by lia. assert (k - 2 * i = 0 \/ k - 2 * i = 1)%nat as [-> | ->] by lia; done.
  - rewrite !decide_False by lia. done.
Qed.

Section Paint.
(** A rectangle of [w] by [h] pixels at [x] of lines of [pitch], in a buffer of [L] bytes,
    and the values of its pixels. *)
Context (x pitch w h L : nat) (V : nat -> nat -> Z).
Context (Hx : (x + w <= pitch)%nat) (HL : (2 * (pitch * h) <= L)%nat).

Definition index (q : nat * nat) : nat := x + q.2 * pitch + q.1.

Definition inside (q : nat * nat) : Prop := (q.1 < w)%nat /\ (q.2 < h)%nat.

(** Exactly the pixels [l] have been stored. *)
Record painted (l : list (nat * nat)) (px px' : list Z) : Prop := {
  pt_length : length px' = length px;
  pt_in : forall q, q ∈ l -> pixel_at px' (index q) (V q.1 q.2);
  pt_out : forall k v, (forall q, q ∈ l -> k <> index q) -> pixel_at px k v -> pixel_at px' k v;
}.

Definition paints (l : list (nat * nat)) (f : list Z -> run (list Z)) : Prop :=
  Forall inside l /\ forall px, length px = L -> exists px', f px = Ok px' /\ painted l px px'.

Lemma index_inj q q' : inside q -> inside q' -> index q = index q' -> q = q'.
Proof using All.
  destruct q as [a b], q' as [a' b']. unfold inside, index. cbn. intros [Ha _] [Ha' _] E.
  destruct (line_inj pitch (x + a) (x + a') b b') as [? ->]; [lia..|]. f_equal. lia.
Qed.

Lemma index_bound q : inside q -> (2 * index q + 2 <= L)%nat.
Proof using All. destruct q as [a b]. unfold inside, index. cbn. intros [Ha Hb]. nia. Qed.

Lemma paints_ok l f g : (forall px, length px = L -> f px = g px) -> paints l g -> paints l f.
Proof using. intros E [Hi Hg]. split; [done|]. intros px Hl. rewrite E by done. by apply Hg. Qed.

Lemma paints_nil : paints [] Ok.
Proof using.
  split; [constructor|]. intros px Hl. exists px. split; [done|]. constructor; [done|by intros ? ?%elem_of_nil|done].
Qed.

Lemma paints_seq l l' f g : paints l f -> paints l' g -> paints (l ++ l') (fun px => let! px := f px in g px).
Proof using All.
  intros [Hi Hf] [Hi' Hg]. split; [by apply Forall_app|]. intros px Hl.
  destruct (Hf px Hl) as (p1 & -> & [L1 In1 Out1]). destruct (Hg p1 ltac:(lia)) as (p2 & E & [L2 In2 Out2]).
  exists p2. split; [done|]. constructor; [lia|..].
  - intros q Hq. destruct (decide (q ∈ l')) as [Hq'|Hq']; [by apply In2|].
    apply elem_of_app in Hq as [Hq|Hq]; [|done]. apply Out2; [|by apply In1].
    intros q' Hq2 E2. apply index_inj in E2; [by subst|..].
    + by apply (proj1 (Forall_forall _ _) Hi).
    + by apply (proj1 (Forall_forall _ _) Hi').
  - intros k v Hk Hp. apply Out2; [intros; apply Hk; apply elem_of_app; by right|].
    apply Out1; [intros; apply Hk; apply elem_of_app; by left|done].
Qed.

Lemma paints_for (l : nat -> list (nat * nat)) (f : Z -> list Z -> run (list Z)) (n : nat) : forall i,
  (forall k, (i <= k < i + n)%nat -> paints (l k) (f (Z.of_nat k))) ->
  paints (concat (map l (seq i n))) (for_from i n f).
Proof using All.
  induction n as [|n IH]; intros i H; [apply paints_nil|]. cbn [seq map concat for_from].
  apply paints_seq; [apply H; lia|]. apply IH. intros k Hk. apply H. lia.
Qed.

Lemma paints_loop (l : nat -> list (nat * nat)) (f : Z -> list Z -> run (list Z)) (n : nat) :
  (forall k, (k < n)%nat -> paints (l k) (f (Z.of_nat k))) ->
  paints (concat (map l (seq 0 n))) (for_loop n f).
Proof using All. intros H. apply paints_for. intros k Hk. apply H. lia. Qed.

Lemma paints_one (X Y : nat) (i : Z) : (X < w)%nat -> (Y < h)%nat -> i = Z.of_nat (index (X, Y)) ->
  paints [(X, Y)] (fun px => put_short px i (V X Y)).
Proof using All.
  intros HX HY ->. assert (Hin : inside (X, Y)) by done. pose proof (index_bound _ Hin) as Hb.
  split; [by constructor|]. intros px Hl. unfold put_short. rewrite put_all_ok by (cbn [length short_bytes]; lia).
  set (j := index (X, Y)) in *. replace (Z.to_nat (2 * Z.of_nat j)) with (2 * j)%nat by lia.
  eexists. split; [done|]. constructor.
  - apply store_at_length. cbn [length short_bytes]. lia.
  - intros q ->%list_elem_of_singleton. fold j. unfold pixel_at. rewrite !store_lookup by (cbn [length short_bytes]; lia).
    cbn [length short_bytes fst snd]. rewrite !decide_True by lia. rewrite Nat.sub_diag.
    by replace (2 * j + 1 - 2 * j)%nat with 1%nat by lia.
  - intros k v Hk [P1 P2]. assert (k <> j) by (apply (Hk (X, Y)); by apply list_elem_of_singleton).
    unfold pixel_at. rewrite !store_lookup by (cbn [length short_bytes]; lia). cbn [length short_bytes].
    by rewrite !decide_False by lia.
Qed.

Lemma paints_two (X Y : nat) (i : Z) : (S X < w)%nat -> (Y < h)%nat -> i = Z.of_nat (index (X, Y)) ->
  paints [(X, Y); (S X, Y)] (fun px => put_all px (2 * i) (short_bytes (V X Y) ++ short_bytes (V (S X) Y))).
Proof using All.
  intros HX HY ->. pose proof (index_bound (S X, Y) ltac:(split; [exact HX|exact HY])) as Hb.
  assert (Ei : index (S X, Y) = S (index (X, Y))) by (unfold index; cbn; lia). set (j := index (X, Y)) in *.
  apply (paints_ok _ _ (fun px => let! px := put_short px (Z.of_nat j) (V X Y) in put_short px (Z.of_nat (S j)) (V (S X) Y))).
  - intros px Hl. unfold put_short. rewrite !put_all_ok by (cbn [length short_bytes app]; lia). cbn [rbind].
    rewrite put_all_ok by (rewrite ?store_at_length; cbn [length short_bytes]; lia). f_equal.
    replace (Z.to_nat (2 * Z.of_nat j)) with (2 * j)%nat by lia. replace (Z.to_nat (2 * Z.of_nat (S j))) with (2 * S j)%nat by lia.
    apply store_two. lia.
  - apply (paints_seq [(X, Y)] [(S X, Y)]); apply paints_one; lia || done || (by rewrite Ei).
Qed.
End Paint.

Lemma elem_of_loop {A} (l : nat -> list A) (n k : nat) (q : A) : (k < n)%nat -> q ∈ l k -> q ∈ concat (map l (seq 0 n)).
Proof.
  intros Hk Hq. apply list_elem_of_In, in_concat. exists (l k). split; [|by apply list_elem_of_In].
  apply in_map_iff. exists k. split; [done|]. apply in_seq. lia.
Qed.

(** ** The pixels of an MCU *)

(** Pixel [X], [Y] of an MCU of [hs] by [vs] luminance blocks: [S n] are the samples of
    block [n]. *)
Definition color_pixel (hs vs : nat) (S : nat -> list Z) (X Y : nat) : Z :=
  let c := (8 * (Y / vs) + X / hs)%nat in
  color (Z.shiftl (nth (8 * (Y mod 8) + X mod 8) (S (Y / 8 * hs + X / 8)%nat) 0) 12)
    (nth c (S (hs * vs)%nat) 0) (nth c (S (hs * vs + 1)%nat) 0).

Definition gray_pixel (S : nat -> list Z) (X Y : nat) : Z :=
  nth (Z.to_nat (nth (8 * Y + X) (S 0%nat) 0)) usGrayTo565 0.

Lemma sample_ok mcus (b k : Z) (n j : nat) :
  length mcus = 768%nat -> (n < 6)%nat -> (j < 64)%nat -> 2 * (b * DCTSIZE) + k = Z.of_nat (128 * n + j) ->
  sample mcus b k = Ok (nth j (slot mcus n) 0).
Proof.
  intros Hm Hn Hj E. unfold sample. rewrite E, get_nth, Nat2Z.id by lia. f_equal.
  unfold slot. rewrite !nth_lookup, lookup_take_lt, lookup_drop by done. done.
Qed.

Section Mcu.
Context (mcus : list Z) (Hm : length mcus = 768%nat) (x pitch L : nat).

(** All pixels of the MCU are painted by [f]. *)
Definition paints_all (w h : nat) (V : nat -> nat -> Z) (f : list Z -> run (list Z)) : Prop :=
  exists l, paints x pitch w h L V l f /\ forall X Y, (X < w)%nat -> (Y < h)%nat -> (X, Y) ∈ l.

Lemma put_gray : (x + 8 <= pitch)%nat -> (2 * (pitch * 8) <= L)%nat ->
  paints_all 8 8 (gray_pixel (slot mcus)) (JPEGPutMCUGray mcus (Z.of_nat x) (Z.of_nat pitch)).
Proof.
  intros Hx HL. eexists. split.
  - unfold JPEGPutMCUGray. apply paints_loop; [done..|]. intros Y HY. apply (paints_loop _ _ _ _ _ _ Hx HL (fun X => [(X, Y)])).
    intros X HX. apply paints_ok with
      (g := fun px => put_short px (Z.of_nat x + Z.of_nat Y * Z.of_nat pitch + Z.of_nat X) (gray_pixel (slot mcus) X Y)).
    + intros px _. rewrite (sample_ok mcus _ _ 0 (8 * Y + X)) by (done || unfold DCTSIZE; lia). done.
    + apply paints_one; try done. unfold index. cbn. lia.
  - intros X Y HX HY. apply (elem_of_loop _ 8 Y); [done|]. apply (elem_of_loop (fun X => [(X, Y)]) 8 X); [done|].
    by apply list_elem_of_singleton.
Qed.

(** Divisions by constants. *)
Local Ltac Zify.zify_post_hook ::= Z.to_euclidean_division_equations.

(** [sample] reads sample [j] of block [n]. *)
Local Ltac sample n j := rewrite (sample_ok mcus _ _ n j) by (done || unfold DCTSIZE; lia); cbn [rbind].

(** The pixel from the samples that its position selects. *)
Lemma color_pixel_eq (hs vs X Y n j c : nat) :
  (Y / 8 * hs + X / 8 = n)%nat -> (8 * (Y mod 8) + X mod 8 = j)%nat -> (8 * (Y / vs) + X / hs = c)%nat ->
  color_pixel hs vs (slot mcus) X Y
  = color (Z.shiftl (nth j (slot mcus n) 0) 12) (nth c (slot mcus (hs * vs)) 0) (nth c (slot mcus (hs * vs + 1)) 0).
Proof using. intros <- <- <-. done. Qed.

Lemma put_11 : (x + 8 <= pitch)%nat -> (2 * (pitch * 8) <= L)%nat ->
  paints_all 8 8 (color_pixel 1 1 (slot mcus)) (JPEGPutMCU11 mcus (Z.of_nat x) (Z.of_nat pitch)).
Proof.
  intros Hx HL. eexists. split.
  - unfold JPEGPutMCU11. apply paints_loop; [done..|]. intros Y HY. apply (paints_loop _ _ _ _ _ _ Hx HL (fun X => [(X, Y)])).
    intros X HX. apply paints_ok with
      (g := fun px => put_short px (Z.of_nat x + Z.of_nat Y * Z.of_nat pitch + Z.of_nat X) (color_pixel 1 1 (slot mcus) X Y)).
    + intros px _. sample 2%nat (8 * Y + X)%nat. sample 1%nat (8 * Y + X)%nat. sample 0%nat (8 * Y + X)%nat.
      by rewrite (color_pixel_eq 1 1 X Y 0 (8 * Y + X) (8 * Y + X)) by (rewrite ?Nat.div_1_r; lia).
    + apply paints_one; try done. unfold index. cbn. lia.
  - intros X Y HX HY. apply (elem_of_loop _ 8 Y); [done|]. apply (elem_of_loop (fun X => [(X, Y)]) 8 X); [done|].
    by apply list_elem_of_singleton.
Qed.

Lemma put_12 : (x + 8 <= pitch)%nat -> (2 * (pitch * 16) <= L)%nat ->
  paints_all 8 16 (color_pixel 1 2 (slot mcus)) (JPEGPutMCU12 mcus (Z.of_nat x) (Z.of_nat pitch)).
Proof.
  intros Hx HL. eexists. split.
  - unfold JPEGPutMCU12. apply paints_loop; [done..|]. intros h Hh.
    apply (paints_loop _ _ _ _ _ _ Hx HL (fun X => [(X, 2 * h)%nat] ++ [(X, 2 * h + 1)%nat])).
    intros X HX. set (n := (h / 4)%nat). set (j := (16 * (h mod 4) + X)%nat).
    apply paints_ok with
      (g := fun px => let! px := put_short px (Z.of_nat x + 2 * Z.of_nat h * Z.of_nat pitch + Z.of_nat X) (color_pixel 1 2 (slot mcus) X (2 * h)) in
                      put_short px (Z.of_nat x + 2 * Z.of_nat h * Z.of_nat pitch + Z.of_nat pitch + Z.of_nat X) (color_pixel 1 2 (slot mcus) X (2 * h + 1))).
    + intros px _. assert (Hn : (n < 2)%nat) by lia.
      assert (Ep : 16 * Z.of_nat h + (if 4 <=? Z.of_nat h then 128 - 64 else 0) = Z.of_nat (128 * n + 16 * (h mod 4)))
        by (destruct (Z.leb_spec 4 (Z.of_nat h)); lia).
      rewrite Ep. sample n j. sample n (j + 8)%nat. sample 2%nat (8 * h + X)%nat. sample 3%nat (8 * h + X)%nat.
      rewrite (color_pixel_eq 1 2 X (2 * h) n j (8 * h + X)) by (rewrite ?Nat.div_1_r; lia).
      by rewrite (color_pixel_eq 1 2 X (2 * h + 1) n (j + 8) (8 * h + X)) by (rewrite ?Nat.div_1_r; lia).
    + apply paints_seq; [done..| |]; (apply paints_one; [done..|lia|lia|unfold index; cbn [fst snd]; nia]).
  - intros X Y HX HY. apply (elem_of_loop _ 8 (Y / 2)); [lia|].
    apply (elem_of_loop (fun X => [(X, 2 * (Y / 2))%nat] ++ [(X, 2 * (Y / 2) + 1)%nat]) 8 X); [done|].
    destruct (Nat.eq_dec (Y mod 2) 0); apply elem_of_app; [left|right]; apply list_elem_of_singleton; f_equal; lia.
Qed.

(** Two neighbouring pixels. *)
Definition put_two (V : nat -> nat -> Z) (X Y : nat) (px : list Z) : run (list Z) :=
  put_all px (2 * Z.of_nat (index x pitch (X, Y))) (short_bytes (V X Y) ++ short_bytes (V (S X) Y)).

Lemma put_21 : (x + 16 <= pitch)%nat -> (2 * (pitch * 8) <= L)%nat ->
  paints_all 16 8 (color_pixel 2 1 (slot mcus)) (JPEGPutMCU21 mcus (Z.of_nat x) (Z.of_nat pitch)).
Proof.
  intros Hx HL. set (V := color_pixel 2 1 (slot mcus)). eexists. split.
  - unfold JPEGPutMCU21. apply paints_loop; [done..|]. intros Y HY.
    apply (paints_loop _ _ _ _ _ _ Hx HL
             (fun c => [((2 * c)%nat, Y); (S (2 * c), Y)] ++ [((8 + 2 * c)%nat, Y); (S (8 + 2 * c), Y)])).
    intros c Hc. apply paints_ok with (g := fun px => let! px := put_two V (2 * c) Y px in put_two V (8 + 2 * c) Y px).
    + intros px _. sample 3%nat (8 * Y + c)%nat. sample 2%nat (8 * Y + c)%nat.
      sample 0%nat (8 * Y + 2 * c)%nat. sample 0%nat (8 * Y + 2 * c + 1)%nat.
      sample 3%nat (8 * Y + c + 4)%nat. sample 2%nat (8 * Y + c + 4)%nat.
      sample 1%nat (8 * Y + 2 * c)%nat. sample 1%nat (8 * Y + 2 * c + 1)%nat.
      unfold put_two, V, JPEGPixel2LE.
      rewrite (color_pixel_eq 2 1 (2 * c) Y 0 (8 * Y + 2 * c) (8 * Y + c)) by (rewrite ?Nat.div_1_r; lia).
      rewrite (color_pixel_eq 2 1 (S (2 * c)) Y 0 (8 * Y + 2 * c + 1) (8 * Y + c)) by (rewrite ?Nat.div_1_r; lia).
      rewrite (color_pixel_eq 2 1 (8 + 2 * c) Y 1 (8 * Y + 2 * c) (8 * Y + c + 4)) by (rewrite ?Nat.div_1_r; lia).
      rewrite (color_pixel_eq 2 1 (S (8 + 2 * c)) Y 1 (8 * Y + 2 * c + 1) (8 * Y + c + 4)) by (rewrite ?Nat.div_1_r; lia).
      unfold index. cbn [fst snd].
      replace (Z.of_nat x + Z.of_nat Y * Z.of_nat pitch + Z.of_nat c * 2) with (Z.of_nat (x + Y * pitch + 2 * c)) by nia.
      by replace (Z.of_nat x + Z.of_nat Y * Z.of_nat pitch + 8 + Z.of_nat c * 2) with (Z.of_nat (x + Y * pitch + (8 + 2 * c))) by nia.
    + apply paints_seq; [done..| |]; (apply paints_two; [done..|lia|lia|done]).
  - intros X Y HX HY. apply (elem_of_loop _ 8 Y); [done|].
    apply (elem_of_loop (fun c => [((2 * c)%nat, Y); (S (2 * c), Y)] ++ [((8 + 2 * c)%nat, Y); (S (8 + 2 * c), Y)]) 4 (X mod 8 / 2)); [lia|].
    cbn [app]. rewrite !elem_of_cons.
    assert (X = 2 * (X mod 8 / 2) \/ X = S (2 * (X mod 8 / 2)) \/ X = 8 + 2 * (X mod 8 / 2) \/ X = S (8 + 2 * (X mod 8 / 2)))%nat
      as [E|[E|[E|E]]] by lia; [left|right; left|right; right; left|right; right; right; left]; by f_equal.
Qed.

(** Four pixels that share their chroma, without the odd column if it is not used. *)
Definition square (odd : bool) (X Y : nat) : list (nat * nat) :=
  if odd then [(X, Y); (S X, Y)] ++ [(X, S Y); (S X, S Y)] else [(X, Y)] ++ [(X, S Y)].

Lemma put_square_ok (n r c : nat) (odd : bool) (pY pC pOutput : Z) :
  (x + 16 <= pitch)%nat -> (2 * (pitch * 16) <= L)%nat -> (n < 4)%nat -> (r < 4)%nat -> (c < 4)%nat ->
  let X := (8 * (n mod 2) + 2 * c)%nat in let Y := (8 * (n / 2) + 2 * r)%nat in
  pY = Z.of_nat (128 * n + (16 * r + 2 * c)) -> pC = Z.of_nat (8 * (Y / 2) + X / 2) ->
  pOutput = Z.of_nat (index x pitch (X, Y)) ->
  paints x pitch 16 16 L (color_pixel 2 2 (slot mcus)) (square odd X Y)
    (put_square mcus pY pC pOutput (Z.of_nat pitch) odd).
Proof.
  intros Hx HL Hn Hr Hc X Y -> -> ->. set (V := color_pixel 2 2 (slot mcus)). set (j := (16 * r + 2 * c)%nat).
  set (q := (8 * (Y / 2) + X / 2)%nat). assert (Hq : (q < 64)%nat) by (unfold q, X, Y; lia).
  assert (EX : (X < 15 /\ Y < 15)%nat) by (unfold X, Y; lia). destruct EX as [HX HY].
  assert (EV : forall a b, (a < 2)%nat -> (b < 2)%nat ->
    V (a + X)%nat (b + Y)%nat = color (Z.shiftl (nth (j + a + 8 * b) (slot mcus n) 0) 12) (nth q (slot mcus 4) 0) (nth q (slot mcus 5) 0)).
  { intros a b Ha Hb. apply (color_pixel_eq 2 2); unfold q, j, X, Y; lia. }
  assert (E00 := EV 0%nat 0%nat ltac:(lia) ltac:(lia)). assert (E10 := EV 1%nat 0%nat ltac:(lia) ltac:(lia)).
  assert (E01 := EV 0%nat 1%nat ltac:(lia) ltac:(lia)). assert (E11 := EV 1%nat 1%nat ltac:(lia) ltac:(lia)).
  cbn [Nat.add Nat.mul] in E00, E10, E01, E11. rewrite ?Nat.add_0_r in E00, E10, E01, E11.
  assert (Ei : Z.of_nat (index x pitch (X, Y)) + Z.of_nat pitch = Z.of_nat (index x pitch (X, S Y)))
    by (unfold index; cbn [fst snd]; nia).
  apply paints_ok with (g := fun px =>
    if odd then let! px := put_two V X Y px in put_two V X (S Y) px
    else let! px := put_short px (Z.of_nat (index x pitch (X, Y))) (V X Y) in
         put_short px (Z.of_nat (index x pitch (X, S Y))) (V X (S Y))).
  - intros px _. unfold put_square. sample n j. sample n (j + 1)%nat. sample n (j + 8)%nat. sample n (j + 1 + 8)%nat.
    sample 4%nat q. sample 5%nat q. unfold put_two, JPEGPixel2LE, JPEGPixelLE. by rewrite E00, E10, E01, E11, Ei, !Nat.add_0_r.
  - unfold square. destruct odd; apply paints_seq; try done; [apply paints_two|apply paints_two|apply paints_one|apply paints_one];
      done || lia.
Qed.

Lemma paints_if (b : bool) w h V l f : paints x pitch w h L V l f ->
  paints x pitch w h L V (if b then l else []) (fun px => if b then f px else Ok px).
Proof using. intros H. destruct b; [done|apply paints_nil]. Qed.

(** The squares of row [r] and column [c] in the four blocks. *)
Definition squares (odd1 odd2 right : bool) (r c : nat) : list (nat * nat) :=
  square odd1 (2 * c) (2 * r) ++ (if right then square odd2 (8 + 2 * c) (2 * r) else []) ++
  square odd1 (2 * c) (8 + 2 * r) ++ (if right then square odd2 (8 + 2 * c) (8 + 2 * r) else []).

Lemma squares_ok (odd1 odd2 right : bool) (r c : nat) :
  (x + 16 <= pitch)%nat -> (2 * (pitch * 16) <= L)%nat -> (r < 4)%nat -> (c < 4)%nat ->
  let pY := 16 * Z.of_nat r + Z.of_nat c * 2 in let pC := 8 * Z.of_nat r + Z.of_nat c in
  let pOutput := Z.of_nat x + 2 * Z.of_nat r * Z.of_nat pitch + Z.of_nat c * 2 in let iPitch := Z.of_nat pitch in
  paints x pitch 16 16 L (color_pixel 2 2 (slot mcus)) (squares odd1 odd2 right r c) (fun px =>
    let! px := put_square mcus pY pC pOutput iPitch odd1 px in
    let! px := if right then put_square mcus (pY + DCTSIZE * 2) (pC + 4) (pOutput + 8) iPitch odd2 px else Ok px in
    let! px := put_square mcus (pY + DCTSIZE * 4) (pC + 32) (pOutput + iPitch * 8) iPitch odd1 px in
    if right then put_square mcus (pY + DCTSIZE * 6) (pC + 36) (pOutput + iPitch * 8 + 8) iPitch odd2 px else Ok px).
Proof.
  intros Hx HL Hr Hc pY pC pOutput iPitch. unfold squares.
  assert (Hidx : forall X Y, index x pitch (X, Y) = (x + Y * pitch + X)%nat) by done.
  apply paints_seq; [done..| |apply paints_seq; [done..| |apply paints_seq; [done..| |]]].
  - apply (put_square_ok 0 r c); try lia. rewrite Hidx. nia.
  - apply (paints_if right), (put_square_ok 1 r c); unfold DCTSIZE; try lia. rewrite Hidx. nia.
  - apply (put_square_ok 2 r c); unfold DCTSIZE; try lia. rewrite Hidx. nia.
  - apply (paints_if right), (put_square_ok 3 r c); unfold DCTSIZE; try lia. rewrite Hidx. nia.
Qed.

(** Column [c] of [count] is stored, its odd pixel unless it is the last one and not used. *)
Definition stored (count : Z) (use_odd : bool) (X : nat) : Prop :=
  Z.of_nat (X / 2) < count /\ ((X mod 2 = 0)%nat \/ use_odd || negb (Z.of_nat (X / 2) =? count - 1) = true).

Lemma counts_ok (iWidth : Z) : (x mod 16 = 0)%nat -> (iWidth <= Z.of_nat x + 15 -> Z.of_nat x < iWidth) ->
  exists n1 n2 o1 o2, mcu22_counts iWidth (Z.of_nat x) = (n1, n2, o1, o2) /\ 0 <= n2 <= n1 /\ n1 <= 4 /\
    forall X, (X < 16)%nat -> (iWidth <= Z.of_nat x + 15 -> Z.of_nat x + Z.of_nat X < iWidth) ->
      if (X <? 8)%nat then stored n1 o1 X else stored n2 o2 (X - 8).
Proof.
  intros Hx16 Hw. unfold mcu22_counts, stored. destruct (Z.leb_spec iWidth (Z.of_nat x + 15)) as [Hc|Hc].
  - specialize (Hw Hc).
    assert (E15 : Z.land iWidth 15 = iWidth mod 16) by exact (Z.land_ones iWidth 4 ltac:(lia)).
    assert (E1 : Z.land iWidth 1 = iWidth mod 2) by exact (Z.land_ones iWidth 1 ltac:(lia)).
    set (m := iWidth mod 16) in *. assert (Em : m = iWidth - Z.of_nat x) by (unfold m; lia).
    rewrite E15, E1, Z.shiftr_div_pow2 by lia. change (2 ^ 1) with 2. set (col := (m + 1) / 2).
    destruct (Z.leb_spec 4 col) as [H4|H4]; eexists _, _, _, _; (split; [reflexivity|]); (split; [lia|]); (split; [lia|]);
      intros X HX Hv; specialize (Hv Hc); destruct (Nat.ltb_spec X 8); split; try lia;
      (destruct (Z.eqb_spec (iWidth mod 2) 0); [right; done|]);
      match goal with |- ?n = _ \/ _ => destruct (Nat.eq_dec n 0) end; try lia;
      right; apply orb_true_intro; right; apply negb_true_iff, Z.eqb_neq; lia.
  - eexists _, _, _, _. split; [reflexivity|]. split; [lia|]. split; [lia|]. intros X HX _.
    destruct (Nat.ltb_spec X 8); split; lia || by right.
Qed.

Lemma square_in (odd : bool) (X Y a b : nat) : (a < 2)%nat -> (b < 2)%nat -> a = 0%nat \/ odd = true ->
  ((a + X)%nat, (b + Y)%nat) ∈ square odd X Y.
Proof.
  intros Ha Hb Ho. assert (a = 0 \/ a = 1)%nat as [-> | ->] by lia; assert (b = 0 \/ b = 1)%nat as [-> | ->] by lia;
    destruct odd; unfold square; cbn [app Nat.add]; rewrite !elem_of_cons; destruct Ho; try done; auto 6.
Qed.

Lemma put_22 (iWidth : Z) : (x + 16 <= pitch)%nat -> (2 * (pitch * 16) <= L)%nat -> (x mod 16 = 0)%nat ->
  (iWidth <= Z.of_nat x + 15 -> Z.of_nat x < iWidth) ->
  exists l, paints x pitch 16 16 L (color_pixel 2 2 (slot mcus)) l (JPEGPutMCU22 iWidth mcus (Z.of_nat x) (Z.of_nat pitch)) /\
    forall X Y, (X < 16)%nat -> (Y < 16)%nat -> (iWidth <= Z.of_nat x + 15 -> Z.of_nat x + Z.of_nat X < iWidth) -> (X, Y) ∈ l.
Proof.
  intros Hx HL Hx16 Hw. destruct (counts_ok iWidth Hx16 Hw) as (n1 & n2 & o1 & o2 & E & Hn2 & Hn1 & Hst).
  unfold JPEGPutMCU22. rewrite E.
  set (row := fun r c => squares (o1 || negb (Z.of_nat c =? n1 - 1)) (o2 || negb (Z.of_nat c =? n2 - 1)) (Z.of_nat c <? n2) r c).
  exists (concat (map (fun r => concat (map (row r) (seq 0 (Z.to_nat n1)))) (seq 0 4))). split.
  - apply paints_loop; [done..|]. intros r Hr. apply paints_loop; [done..|]. intros c Hc. apply squares_ok; lia.
  - intros X Y HX HY Hv. specialize (Hst X HX Hv).
    set (r := (Y mod 8 / 2)%nat). set (c := (X mod 8 / 2)%nat).
    apply (elem_of_loop _ 4 r); [unfold r; lia|].
    assert (EY : Y = (Y mod 2 + (if (Y <? 8)%nat then 2 * r else 8 + 2 * r))%nat) by (destruct (Nat.ltb_spec Y 8); unfold r; lia).
    destruct (Nat.ltb_spec X 8) as [H8|H8].
    + destruct Hst as [Hc Ho]. replace (X / 2)%nat with c in Hc, Ho by (unfold c; lia).
      apply (elem_of_loop (row r) _ c); [lia|]. unfold row, squares.
      pose proof (square_in (o1 || negb (Z.of_nat c =? n1 - 1)) (2 * c) (if (Y <? 8)%nat then 2 * r else 8 + 2 * r)
                    (X mod 2) (Y mod 2) ltac:(lia) ltac:(lia) Ho) as Hin.
      rewrite <- EY in Hin. replace (X mod 2 + 2 * c)%nat with X in Hin by (unfold c; lia).
      rewrite !elem_of_app. destruct (Y <? 8)%nat; auto.
    + destruct Hst as [Hc Ho]. replace ((X - 8) / 2)%nat with c in Hc, Ho by (unfold c; lia).
      apply (elem_of_loop (row r) _ c); [lia|]. unfold row, squares. rewrite (proj2 (Z.ltb_lt _ _)) by lia.
      pose proof (square_in (o2 || negb (Z.of_nat c =? n2 - 1)) (8 + 2 * c) (if (Y <? 8)%nat then 2 * r else 8 + 2 * r)
                    ((X - 8) mod 2) (Y mod 2) ltac:(lia) ltac:(lia) Ho) as Hin.
      rewrite <- EY in Hin. replace ((X - 8) mod 2 + (8 + 2 * c))%nat with X in Hin by (unfold c; lia).
      rewrite !elem_of_app. destruct (Y <? 8)%nat; auto.
Qed.
End Mcu.

(** ** Any way of subsampling *)

(** Gray, or the numbers of luminance blocks across and down an MCU. *)
Definition supported (sub : Z) : Prop := sub ∈ [0x00; 0x11; 0x12; 0x21; 0x22].

Definition mcu_width (sub : Z) : nat := if sub =? 0 then 8 else 8 * Z.to_nat (sub / 16).
Definition mcu_height (sub : Z) : nat := if sub =? 0 then 8 else 8 * Z.to_nat (sub mod 16).

Definition mcu_pixel (sub : Z) (S : nat -> list Z) (X Y : nat) : Z :=
  if sub =? 0 then gray_pixel S X Y else color_pixel (Z.to_nat (sub / 16)) (Z.to_nat (sub mod 16)) S X Y.

(** Case analysis on the ways of subsampling. *)
Ltac each_sub H :=
  unfold supported in H; rewrite !elem_of_cons, elem_of_nil in H;
  destruct H as [-> | [-> | [-> | [-> | [-> | [] ] ] ] ] ].

Lemma put_mcu_ok (i : info) mcus (x pitch L : nat) :
  let sub := i.(ucSubSample) in
  supported sub -> length mcus = 768%nat -> (x + mcu_width sub <= pitch)%nat -> (2 * (pitch * mcu_height sub) <= L)%nat ->
  (x mod mcu_width sub = 0)%nat -> (i.(iWidth) <= Z.of_nat x + 15 -> Z.of_nat x < i.(iWidth)) ->
  exists l, paints x pitch (mcu_width sub) (mcu_height sub) L (mcu_pixel sub (slot mcus)) l
              (put_mcu i mcus (Z.of_nat x) (Z.of_nat pitch)) /\
    forall X Y, (X < mcu_width sub)%nat -> (Y < mcu_height sub)%nat ->
      (i.(iWidth) <= Z.of_nat x + 15 -> Z.of_nat x + Z.of_nat X < i.(iWidth)) -> (X, Y) ∈ l.
Proof.
  intros sub Hs Hm Hx HL Hx16 Hw. unfold put_mcu. fold sub. clearbody sub.
  each_sub Hs; unfold mcu_width, mcu_height, mcu_pixel in *; cbn in Hx, HL, Hx16 |- *.
  - destruct (put_gray mcus Hm x pitch L Hx HL) as (l & Hp & Hl). eauto.
  - destruct (put_11 mcus Hm x pitch L Hx HL) as (l & Hp & Hl). eauto.
  - destruct (put_12 mcus Hm x pitch L Hx HL) as (l & Hp & Hl). eauto.
  - destruct (put_21 mcus Hm x pitch L Hx HL) as (l & Hp & Hl). eauto.
  - apply (put_22 mcus Hm x pitch L _ Hx HL Hx16 Hw).
Qed.

End JpegPixels.
