(* ===== verification/JpegImage.v ===== *)
(** * Decoding an image

    The compressed data of an image as the sequence of its MCUs, with restart
    intervals, and the proof that the loops of [DecodeJPEG] decode them and send the
    image to the draw task in blocks that tile it. *)
From stdpp Require Import base list.
From Stdlib Require Import ZArith Lia ZifyNat.
From S2P Require Import Prelude Crc JpegTables Jpeg JpegBits JpegBlock JpegFilter JpegPixels.
Import JpegTables Jpeg JpegBits JpegBlock JpegFilter JpegPixels.
Local Open Scope Z_scope.
Local Open Scope run_scope.

Module JpegImage.

(** Divisions by constants. *)
Local Ltac Zify.zify_post_hook ::= Z.to_euclidean_division_equations.

(** The numbers of blocks across and down an MCU are constants. *)
Local Ltac eval_nat :=
  repeat match goal with
  | |- context [Z.to_nat (Z.div ?a ?b)] => let v := eval vm_compute in (Z.to_nat (Z.div a b)) in change (Z.to_nat (Z.div a b)) with v
  | |- context [Z.to_nat (Z.modulo ?a ?b)] => let v := eval vm_compute in (Z.to_nat (Z.modulo a b)) in change (Z.to_nat (Z.modulo a b)) with v
  end.

(** ** The coded MCUs *)

(** The components of the blocks of an MCU. *)
Definition mcu_components (sub : Z) : list nat :=
  if sub =? 0 then [0%nat] else replicate (Z.to_nat (sub / 16) * Z.to_nat (sub mod 16)) 0%nat ++ [1; 2]%nat.

Definition component_count (sub : Z) : Z := if sub =? 0 then 1 else 3.

Lemma mcu_blocks_eq (sub : Z) : supported sub ->
  mcu_blocks sub (component_count sub)
  = zip (mcu_components sub) (map (fun n => DCTSIZE * Z.of_nat n) (seq 0 (length (mcu_components sub)))).
Proof. intros H. by each_sub H. Qed.

Definition align (G : nat) : nat := 8 * ((G + 7) / 8).

Section Coded.
(** The data [F], the tables [hs] of the components, and the components [js] of the
    blocks of an MCU. *)
Context (F : list Z) (hs : list (huffman * huffman)) (js : list nat).

(** The code of the MCUs [ms] is at bit [G] of the data: the predictors are [preds],
    and the data is aligned and the predictors are reset every [R] MCUs, next after
    [count]. *)
Fixpoint coded (R count : Z) (preds : list Z) (ms : list (list (list Z))) (G : nat) : Prop :=
  match ms with
  | [] => True
  | m :: ms =>
      Forall block_wf m /\
      exists c ps rest,
        encode_blocks hs js preds m = Some (c, ps) /\ (length c <= 8 * 440)%nat /\
        drop G (bits_of F) = c ++ rest /\ (G + length c <= 8 * length F)%nat /\
        let G' := (G + length c)%nat in
        if R =? 0 then coded R count ps ms G'
        else if count - 1 =? 0 then coded R R [0; 0; 0] ms (align G')
        else coded R (count - 1) ps ms G'
  end.
End Coded.

Lemma align_le (G n : nat) : (G <= 8 * n)%nat -> (G <= align G <= 8 * n)%nat /\ (align G <= G + 7)%nat.
Proof. unfold align. lia. Qed.

Lemma align_bits_ok F W b (G : nat) : bits_at F W b G -> bits_at F W (align_bits b) (align G).
Proof.
  intros [[Hp Ho Hg Hw] H32]. unfold align_bits.
  assert (E7 : Z.land b.(ulBitOff) 7 = b.(ulBitOff) mod 8) by exact (Z.land_ones b.(ulBitOff) 3 ltac:(lia)).
  rewrite E7. destruct (Z.eqb_spec (b.(ulBitOff) mod 8) 0) as [E|E].
  - split; [|done]. constructor; try done. unfold align. lia.
  - split; [|cbn; lia]. constructor; cbn [pBuf ulBits ulBitOff]; try done; unfold align; lia.
Qed.

(** ** An image in the file *)

Section Image.
Context (data : list Z) (h : nat) (Hbytes : Forall Crc.is_byte data).
Context (Hdense : forall a n, (n <= 2048)%nat -> (count_ff (between data a (a + n)) <= 31)%nat).
Context (i : info) (t : tables) (hs : list (huffman * huffman)).
Context (Hct : all_component_tables t i.(JPCI) hs) (Hql : length t.(sQuantTable) = 256%nat).

Context (sub : Z) (Esub : i.(ucSubSample) = sub).
Abbreviation F := (scan_data data h).
Abbreviation js := (mcu_components sub).

Context (Hsub : supported sub) (Hcomp : i.(ucNumComponents) = component_count sub).

(** The quantization tables of the components. *)
Context (qs : nat -> list Z).
Context (Hqs : forall j c, is_Some (hs !! j) -> i.(JPCI) !! j = Some c -> quant t c.(quant_tbl_no) = qs j).

(** The samples of block [n] of an MCU. *)
Definition mcu_samples (m : list (list Z)) (n : nat) : list Z := samples (qs (nth n js 0%nat)) (nth n m []).

Lemma mcu_pixel_ext (S S' : nat -> list Z) (X Y : nat) : (forall n, (n < length js)%nat -> S n = S' n) ->
  (X < mcu_width sub)%nat -> (Y < mcu_height sub)%nat -> mcu_pixel sub S X Y = mcu_pixel sub S' X Y.
Proof using Hsub.
  intros HS HX HY. revert HS HX HY Hsub. clear. generalize sub. intros s HS HX HY Hs. revert HS HX HY.
  each_sub Hs; unfold mcu_width, mcu_height, mcu_pixel, mcu_components; eval_nat; cbn [Z.eqb]; intros HS HX HY;
    unfold gray_pixel, color_pixel; cbn [length app replicate Nat.mul Nat.add] in HS; rewrite !HS by lia; done.
Qed.

(** The state of the decoder that the code determines. *)
Definition code_state (d : decoding) (ms : list (list (list Z))) : Prop :=
  length d.(dc_work).(wk_mcus) = 768%nat /\
  exists W pos G, ready data h W d.(dc_work).(wk_input) pos G /\
    coded F hs js i.(iResInterval) d.(iResCount) d.(preds) ms G.

(** What the code leaves to the output. *)
Definition output (d : decoding) :=
  (d.(usPixels), d.(iErr), d.(xoff), d.(iPitch), d.(jd_x), d.(jd_y), d.(jd_iHeight), d.(sent)).

(** At the end of an MCU the decoder gets more data. *)
Lemma feed_ok (d : decoding) W pos (G : nat) :
  stream data h W d.(dc_work).(wk_input) pos -> filled data d.(dc_work).(wk_input) pos ->
  d.(dc_work).(wk_input).(iVLCOff) = d.(dc_work).(wk_input).(bb).(pBuf) ->
  bits_at F W d.(dc_work).(wk_input).(bb) G -> readable_to F W d.(dc_work).(wk_input) G ->
  exists d' W' pos', feed d = Ok d' /\ ready data h W' d'.(dc_work).(wk_input) pos' G /\
    d'.(dc_work).(wk_mcus) = d.(dc_work).(wk_mcus) /\ d'.(preds) = d.(preds) /\ d'.(iResCount) = d.(iResCount) /\
    output d' = output d.
Proof using Hbytes Hdense.
  intros Hs Hf Ho Hb Hr. destruct (ready_feed data h Hbytes Hdense W _ pos G Hs Hf Ho Hb Hr) as (W' & p' & pos' & E & Hrd).
  unfold feed. destruct (_ <? FILE_HIGHWATER).
  - injection E as <-. by exists d, W', pos'.
  - rewrite E. cbn [rbind]. eexists _, W', pos'. done.
Qed.

(** Between MCUs: the restart interval may end, and the decoder gets more data. *)
Lemma next_mcu (d : decoding) W pos (G : nat) (ms : list (list (list Z))) :
  let p := d.(dc_work).(wk_input) in
  stream data h W p pos -> filled data p pos -> p.(iVLCOff) = p.(bb).(pBuf) -> bits_at F W p.(bb) G ->
  readable_to F W p G -> readable_to F W p (align G) -> length d.(dc_work).(wk_mcus) = 768%nat ->
  (if i.(iResInterval) =? 0 then coded F hs js i.(iResInterval) d.(iResCount) d.(preds) ms G
   else if d.(iResCount) - 1 =? 0 then coded F hs js i.(iResInterval) i.(iResInterval) [0; 0; 0] ms (align G)
   else coded F hs js i.(iResInterval) (d.(iResCount) - 1) d.(preds) ms G) ->
  exists d', feed (restart i d) = Ok d' /\ code_state d' ms /\ output d' = output d.
Proof using Hbytes Hdense.
  intros p Hst Hfl Hoff Hb Hr Hr' Hm Hnext. unfold restart.
  destruct (i.(iResInterval) =? 0); [|destruct (d.(iResCount) - 1 =? 0)].
  - destruct (feed_ok d W pos G) as (d' & W' & pos' & Ef & Hrd & Em & Ep & En & Eo); try done.
    exists d'. split; [done|]. split; [|done]. split; [by rewrite Em|]. exists W', pos', G. by rewrite Ep, En.
  - set (d1 := mk_decoding _ _ _ _ _ _ _ _ _ _ _ _).
    destruct (feed_ok d1 W pos (align G)) as (d' & W' & pos' & Ef & Hrd & Em & Ep & En & Eo); try done.
    + destruct Hst as [[] ? ? ?]. constructor; [constructor|..]; done.
    + unfold d1. cbn [bb iVLCOff wk_input dc_work]. unfold align_bits. fold p. by destruct (Z.land p.(bb).(ulBitOff) 7 =? 0).
    + by apply align_bits_ok.
    + exists d'. split; [done|]. split; [|done]. split; [by rewrite Em|]. exists W', pos', (align G). by rewrite Ep, En.
  - set (d1 := mk_decoding _ _ _ _ _ _ _ _ _ _ _ _).
    destruct (feed_ok d1 W pos G) as (d' & W' & pos' & Ef & Hrd & Em & Ep & En & Eo); try done.
    exists d'. split; [done|]. split; [|done]. split; [by rewrite Em|]. exists W', pos', G. by rewrite Ep, En.
Qed.

Lemma encode_blocks_components ks ps m r : encode_blocks hs ks ps m = Some r ->
  length m = length ks /\ forall n j, ks !! n = Some j -> is_Some (hs !! j).
Proof using.
  revert ps m r. induction ks as [|j ks IH]; intros ps [|zz m] r H; try done. cbn [encode_blocks] in H.
  destruct (hs !! j) eqn:Ej; [|done]. simpl in H. destruct (ps !! j); [|done]. simpl in H.
  destruct (encode_block _ _ _ _); [|done]. simpl in H.
  destruct (encode_blocks hs ks _ m) as [[]|] eqn:E; [|done]. destruct (IH _ _ _ E) as [Hl Hh].
  split; [cbn [length]; by f_equal|]. intros [|n] k Hk; [|by apply (Hh n)]. injection Hk as <-. by rewrite Ej.
Qed.

(** Decoding the blocks of an MCU; what remains is to get ready for the next one. *)
Lemma blocks_ok (d : decoding) (m : list (list Z)) (ms : list (list (list Z))) :
  code_state d (m :: ms) ->
  exists ps w, decode_blocks t i.(JPCI) (mcu_blocks sub i.(ucNumComponents)) d.(preds) 0 d.(dc_work) = Ok (0, ps, w) /\
    length w.(wk_mcus) = 768%nat /\ (forall n, (n < length js)%nat -> slot w.(wk_mcus) n = mcu_samples m n) /\
    forall d', d'.(dc_work) = w -> d'.(preds) = ps -> d'.(iResCount) = d.(iResCount) ->
      exists d'', feed (restart i d') = Ok d'' /\ code_state d'' ms /\ output d'' = output d'.
Proof.
  intros (Hm & W & pos & G & Hrd & Hwf & c & ps & rest & Ec & Hlc & Hd & HG & Hnext).
  pose proof (ready_readable data h W _ pos G (length c) Hrd ltac:(lia) HG) as Hr.
  pose proof (align_le _ _ HG) as [Hal1 Hal2].
  assert (Hr' : readable_to F W d.(dc_work).(wk_input) (align (G + length c))).
  { replace (align (G + length c)) with (G + (align (G + length c) - G))%nat by lia.
    apply (ready_readable data h W _ pos G _ Hrd); lia. }
  destruct Hrd as [Hst Hfl Hoff Hlow Hb].
  assert (H6 : (length js <= 6)%nat) by (clear -Hsub; revert Hsub; generalize sub; intros s Hs; each_sub Hs; unfold mcu_components; eval_nat; cbn; lia).
  destruct (decode_blocks_ok F W t i.(JPCI) hs Hct Hql js (seq 0 (length js)) d.(preds) m d.(dc_work) G c ps rest)
    as (b & mcus & col & rw & Hb' & Hl' & E & _ & Hin); try done; [by rewrite length_seq|apply NoDup_seq| |apply Hst|].
  { apply Forall_seq. lia. }
  rewrite Hcomp, (mcu_blocks_eq _ Hsub). exists ps, (mk_work (move_to d.(dc_work).(wk_input) b) mcus col rw).
  split; [done|]. split; [done|]. split.
  - intros n Hn. destruct (encode_blocks_components _ _ _ _ Ec) as [Hlen Hh].
    destruct (lookup_lt_is_Some_2 js n Hn) as [j Ej]. destruct (lookup_lt_is_Some_2 m n ltac:(lia)) as [zz Ez].
    destruct (Hh n j Ej) as [hj Ehj]. destruct (Hct j hj Ehj) as (cj & Ecj & _). cbn [wk_mcus].
    rewrite (Hin n j n zz cj Ej (lookup_seq_lt 0 _ n Hn) Ez Ecj). unfold mcu_samples.
    rewrite (nth_lookup_Some _ _ _ _ Ej), (nth_lookup_Some _ _ _ _ Ez). by rewrite (Hqs j cj (Hh n j Ej) Ecj).
  - intros d' Ew Eps Ecnt. apply (next_mcu d' W pos (G + length c)); rewrite ?Ew; try done.
    + destruct Hst; constructor; [by apply window_move|done..].
    + by rewrite Eps, Ecnt.
Qed.

(** ** The blocks of pixels *)

Context (Wd Ht : nat) (HW : i.(iWidth) = Z.of_nat Wd) (HH : i.(iHeight) = Z.of_nat Ht) (HWd : (0 < Wd)%nat).
Context (malloc : nat -> bool) (Hmalloc : forall n, malloc n = true).
(** The MCUs of the image, line by line. *)
Context (image : list (list (list Z))).

Abbreviation w := (mcu_width sub).
Abbreviation hh := (mcu_height sub).

Definition columns : nat := (Wd + w - 1) / w.
Definition lines : nat := (Ht + hh - 1) / hh.

(** A block of pixels is of up to five MCUs; block [k] of a line starts with column
    [k * group]. *)
Definition group : nat := Nat.min columns 5.
Definition group_size (k : nat) : nat := Nat.min group (columns - k * group).

Definition image_pixel (X Y : nat) : Z :=
  mcu_pixel sub (mcu_samples (nth (Y / hh * columns + X / w) image [])) (X mod w) (Y mod hh).

(** Block [k] of line [r]: where it is, and its visible pixels. *)
Record draw_ok (r k : nat) (dr : JPEGDRAW) : Prop := {
  do_x : dr.(dr_x) = Z.of_nat (k * group * w);
  do_y : dr.(dr_y) = Z.of_nat (r * hh);
  do_width : dr.(dr_iWidth) = Z.of_nat (group_size k * w);
  do_height : dr.(dr_iHeight) = Z.of_nat (Nat.min hh (Ht - r * hh));
  do_pixels : forall X Y, (X < group_size k * w)%nat -> (Y < Nat.min hh (Ht - r * hh))%nat -> (k * group * w + X < Wd)%nat ->
    pixel_at dr.(dr_pPixels) (X + Y * (group_size k * w)) (image_pixel (k * group * w + X) (r * hh + Y));
}.

Lemma mcu_size : (8 <= w /\ 8 <= hh /\ w * hh <= 256 /\ w <= 16)%nat.
Proof using Hsub. clear -Hsub. revert Hsub. generalize sub. intros s Hs. each_sub Hs; unfold mcu_width, mcu_height; eval_nat; cbn; lia. Qed.

Lemma columns_spec : ((columns - 1) * w < Wd <= columns * w)%nat /\ (0 < columns)%nat.
Proof using Hsub HWd.
  clear -Hsub HWd.
  pose proof mcu_size as (Hw & _). unfold columns.
  pose proof (Nat.div_mod_eq (Wd + w - 1) w) as E. pose proof (Nat.mod_upper_bound (Wd + w - 1) w ltac:(lia)).
  set (q := ((Wd + w - 1) / w)%nat) in *. assert (0 < q)%nat by nia. split; [|done].
  split; nia.
Qed.

Lemma geometry_ok : geometry_of i MAX_MCU =
  Ok (mk_geometry (Z.of_nat columns) (Z.of_nat lines) (Z.of_nat w) (Z.of_nat hh) (Z.of_nat group)).
Proof.
  unfold geometry_of. rewrite Esub, HW, HH.
  assert (Eg : mcu_grid sub (Z.of_nat Wd) (Z.of_nat Ht) = (Z.of_nat columns, Z.of_nat lines, Z.of_nat w, Z.of_nat hh)).
  { unfold columns, lines. clear -Hsub. revert Hsub. generalize sub. intros s Hs.
    each_sub Hs; unfold mcu_grid, mcu_width, mcu_height; eval_nat; cbn [Z.eqb Pos.eqb orb]; rewrite !Z.shiftr_div_pow2 by lia;
      repeat f_equal; lia. }
  rewrite Eg. pose proof mcu_size as (? & ? & ? & ?). rewrite (proj2 (Z.eqb_neq _ 0)) by nia. f_equal.
  unfold group, MAX_MCU, MAX_BUFFERED_PIXELS. f_equal.
  assert (10 <= 2560 / (Z.of_nat w * Z.of_nat hh)) by (apply Z.div_le_lower_bound; nia).
  set (q := 2560 / (Z.of_nat w * Z.of_nat hh)) in *. clearbody q.
  destruct (Z.ltb_spec (Z.of_nat columns) q); [destruct (Z.ltb_spec 5 (Z.of_nat columns))|destruct (Z.ltb_spec 5 q)]; lia.
Qed.

Lemma image_pixel_mcu (r c X Y : nat) : (X < w)%nat -> (Y < hh)%nat ->
  image_pixel (c * w + X) (r * hh + Y) = mcu_pixel sub (mcu_samples (nth (r * columns + c) image [])) X Y.
Proof.
  intros HX HY. unfold image_pixel. pose proof mcu_size as (? & ? & _).
  rewrite !Nat.div_add_l, !(Nat.div_small) by lia. rewrite (Nat.add_comm (c * w)), (Nat.add_comm (r * hh)), !Nat.Div0.mod_add.
  by rewrite !Nat.mod_small, !Nat.add_0_r by lia.
Qed.

(** The pixels of the first [o] MCUs of block [k] in line [r] are in the buffer. *)
Definition columns_done (r k o : nat) (px : list Z) : Prop :=
  forall o' X Y, (o' < o)%nat -> (X < w)%nat -> (Y < hh)%nat -> ((k * group + o') * w + X < Wd)%nat ->
    pixel_at px (o' * w + X + Y * (group_size k * w)) (image_pixel ((k * group + o') * w + X) (r * hh + Y)).

(** The lines before and the blocks before block [k] have been sent, and its first
    [o] MCUs have been decoded. *)
Record line_state (sent0 : list JPEGDRAW) (r k o : nat) (d : decoding) : Prop := {
  ls_err : d.(iErr) = 0;
  ls_length : length d.(usPixels) = (64 * 80)%nat;
  ls_xoff : d.(xoff) = Z.of_nat (o * w);
  ls_pitch : d.(iPitch) = Z.of_nat (group_size k * w);
  ls_x : (k * group < columns)%nat -> d.(jd_x) = Z.of_nat (k * group * w);
  ls_y : d.(jd_y) = Z.of_nat (r * hh);
  ls_height : (r * hh + hh <= Ht)%nat -> d.(jd_iHeight) = Z.of_nat hh;
  ls_sent : exists ds, d.(sent) = sent0 ++ ds /\ length ds = k /\ forall j dr, ds !! j = Some dr -> draw_ok r j dr;
  ls_done : columns_done r k o d.(usPixels);
}.

Lemma group_facts (k o : nat) : (o < group_size k)%nat ->
  (k * group + o < columns /\ group_size k <= 5 /\ group <= columns /\ (k = 0 \/ group = 5))%nat /\
  ((k * group + o) * w < Wd)%nat.
Proof.
  intros Ho. unfold group_size in *. pose proof columns_spec as [[H1 H2] H3]. unfold group in *.
  split; [split_and!; try lia; destruct k; [by left|right; nia]|]. nia.
Qed.

(** Storing the pixels of an MCU. *)
Lemma paint_mcu sent0 (r k o : nat) (d : decoding) mcus : line_state sent0 r k o d -> (o < group_size k)%nat ->
  length mcus = 768%nat ->
  (forall n, (n < length js)%nat -> slot mcus n = mcu_samples (nth (r * columns + (k * group + o)) image []) n) ->
  exists px, put_mcu i mcus d.(xoff) d.(iPitch) d.(usPixels) = Ok px /\ length px = (64 * 80)%nat /\ columns_done r k (S o) px.
Proof.
  intros Hls Ho Hm Hsl. destruct (group_facts k o Ho) as [(Hc & H5 & Hg & Hk) Hvis]. pose proof mcu_size as (Hw8 & Hh8 & Hwh & Hw16).
  assert (Hclip : i.(iWidth) <= Z.of_nat (o * w) + 15 -> k = 0%nat) 
    by (intros; destruct Hk as [|Hk]; [done|]; destruct k; [done|]; rewrite Hk in Hvis; lia).
  pose proof (put_mcu_ok i mcus (o * w) (group_size k * w) (64 * 80)) as Hput. cbn zeta in Hput. rewrite Esub in Hput.
  destruct (Hput Hsub Hm) as (l & [Hin Hp] & Hl).
  { pose proof (Nat.mul_le_mono_r (S o) (group_size k) w). lia. }
  { pose proof (Nat.mul_le_mono (group_size k) 5 (w * hh) 256 H5 Hwh). lia. }
  { apply Nat.Div0.mod_mul. }
  { intros Hcl. rewrite (Hclip Hcl) in Hvis. lia. }
  destruct (Hp d.(usPixels) (ls_length _ _ _ _ _ Hls)) as (px & E & [Hlen Hpin Hpout]).
  rewrite (ls_xoff _ _ _ _ _ Hls), (ls_pitch _ _ _ _ _ Hls), E. exists px. split; [done|].
  split; [rewrite Hlen; apply Hls|]. intros o' X Y Ho' HX HY Hv.
  destruct (Nat.eq_dec o' o) as [->|Hne].
  - rewrite image_pixel_mcu by done. rewrite <- (mcu_pixel_ext (slot mcus)) by done.
    replace (o * w + X + Y * (group_size k * w))%nat with (index (o * w) (group_size k * w) (X, Y)) by (unfold index; cbn; lia).
    apply (Hpin (X, Y)). apply Hl; [done|done|]. intros Hcl. rewrite (Hclip Hcl) in Hv. lia.
  - apply Hpout; [|apply Hls; done || lia]. intros [X2 Y2] Hq E2.
    pose proof (proj1 (Forall_forall _ _) Hin _ Hq) as [HX2 HY2]. unfold index in E2. cbn [fst snd] in *.
    pose proof (Nat.mul_le_mono_r (S o) (group_size k) w). pose proof (Nat.mul_le_mono_r (S o') o w).
    destruct (line_inj (group_size k * w) (o' * w + X) (o * w + X2) Y Y2); lia.
Qed.

Abbreviation g := (mk_geometry (Z.of_nat columns) (Z.of_nat lines) (Z.of_nat w) (Z.of_nat hh) (Z.of_nat group)).

(** The height of line [r]. *)
Definition line_height (r : nat) : nat := Nat.min hh (Ht - r * hh).

Lemma take_pixel (px : list Z) (n k : nat) v : (2 * k + 1 < n)%nat -> pixel_at px k v -> pixel_at (take n px) k v.
Proof. unfold pixel_at. intros H [P1 P2]. by rewrite !lookup_take_lt by lia. Qed.

(** A complete block is what the draw task is to get. *)
Lemma block_ok (r k : nat) (px : list Z) : (0 < group_size k)%nat -> columns_done r k (group_size k) px ->
  let len := (2 * (group_size k * w * line_height r))%nat in
  draw_ok r k (mk_draw (Z.of_nat (k * group * w)) (Z.of_nat (r * hh)) (Z.of_nat (group_size k * w)) (Z.of_nat (line_height r))
                 (take len px)).
Proof.
  intros Hk Hd len. constructor; try done. cbn [dr_pPixels]. intros X Y HX HY Hv. pose proof mcu_size as (Hw8 & _).
  pose proof (Nat.div_mod_eq X w) as EX. pose proof (Nat.mod_upper_bound X w ltac:(lia)) as HX'.
  assert (Ho : (X / w < group_size k)%nat) by (apply Nat.Div0.div_lt_upper_bound; lia).
  apply take_pixel.
  - unfold len. fold (line_height r) in HY. pose proof (Nat.mul_le_mono_r (S Y) (line_height r) (group_size k * w)). lia.
  - replace X with (X / w * w + X mod w)%nat by lia.
    replace (k * group * w + (X / w * w + X mod w))%nat with ((k * group + X / w) * w + X mod w)%nat by lia.
    apply Hd; lia.
Qed.

(** Sending it. *)
Lemma send_block_ok (d : decoding) : d.(iPitch) * d.(jd_iHeight) * 2 <= 2560 -> 0 <= d.(iPitch) * d.(jd_iHeight) ->
  length d.(usPixels) = (64 * 80)%nat ->
  send_block malloc d
  = Ok (mk_decoding d.(dc_work) d.(usPixels) d.(preds) d.(iErr) d.(iResCount) d.(xoff) d.(iPitch) d.(jd_x) d.(jd_y)
          d.(jd_iHeight) (S (S d.(mallocs)))
          (d.(sent) ++ [mk_draw d.(jd_x) d.(jd_y) d.(iPitch) d.(jd_iHeight)
                          (take (Z.to_nat (d.(iPitch) * d.(jd_iHeight) * 2)) d.(usPixels))])).
Proof.
  intros Hlen Hpos Hl. unfold send_block. rewrite !Hmalloc. cbn [negb]. rewrite get_all_ok by lia. cbn [rbind drop Z.to_nat].
  unfold MAX_MCU, MCU_SIZE. by rewrite (proj2 (Z.ltb_ge _ _)) by lia.
Qed.

(** What decoding the code determines. *)
Definition code_part (d : decoding) := (d.(dc_work), d.(preds), d.(iResCount)).

Lemma draw_group_ok sent0 (r k : nat) (d : decoding) :
  line_state sent0 r k (group_size k) d -> (0 < group_size k)%nat -> (r * hh < Ht)%nat ->
  exists d', draw_group malloc i g 0 (Z.of_nat (k * group + group_size k - 1)) d = Ok d' /\
    line_state sent0 r (S k) 0 d' /\ code_part d' = code_part d.
Proof.
  intros [Herr Hlen Hxo Hpi Hx Hy Hh Hs Hdone] Hk Hr. pose proof mcu_size as (Hw8 & Hh8 & Hwh & Hw16).
  destruct (group_facts k (group_size k - 1) ltac:(lia)) as [(Hc & H5 & Hg & Hk5) _].
  unfold draw_group. cbn [mcuCY cx iMCUCount mcuCX]. rewrite Hy, Z.sub_0_r, HH.
  set (ht := if Z.of_nat Ht <? Z.of_nat (r * hh) + Z.of_nat hh then Z.of_nat Ht - Z.of_nat (r * hh) else d.(jd_iHeight)).
  assert (Eh : ht = Z.of_nat (line_height r)).
  { unfold ht, line_height. destruct (Z.ltb_spec (Z.of_nat Ht) (Z.of_nat (r * hh) + Z.of_nat hh)); [lia|]. rewrite Hh; lia. }
  rewrite Eh.
  assert (Hlh : (group_size k * w * line_height r <= 1280)%nat).
  { pose proof (Nat.mul_le_mono_l (line_height r) hh (group_size k * w) ltac:(unfold line_height; lia)).
    pose proof (Nat.mul_le_mono (group_size k) 5 (w * hh) 256 H5 Hwh). lia. }
  rewrite send_block_ok; cbn [iPitch jd_iHeight usPixels]; rewrite ?Hpi; [|lia|lia|done]. cbn [rbind].
  eexists. split; [done|]. split; [|done]. specialize (Hx ltac:(lia)).
  assert (Egs : (group_size (S k) = Nat.min group (columns - (k * group + group_size k)))%nat) by (unfold group_size; lia).
  constructor; cbn [iErr usPixels xoff iPitch jd_x jd_y jd_iHeight sent]; try done.
  - replace (Z.of_nat columns - 1 - Z.of_nat (k * group + group_size k - 1)) with (Z.of_nat (columns - (k * group + group_size k))) by lia.
    destruct (Z.ltb_spec (Z.of_nat (columns - (k * group + group_size k))) (Z.of_nat group)).
    + rewrite Egs, Nat.min_r by lia. lia.
    + rewrite Egs, Nat.min_l by lia. replace (group_size k) with group by (unfold group_size; lia). done.
  - intros Hc'. rewrite Hx. replace (group_size k) with group by (unfold group_size; lia). lia.
  - intros. unfold line_height. lia.
  - destruct Hs as (ds & Es & El & Hall). exists (ds ++ [mk_draw (Z.of_nat (k * group * w)) (Z.of_nat (r * hh)) (Z.of_nat (group_size k * w))
      (Z.of_nat (line_height r)) (take (2 * (group_size k * w * line_height r)) d.(usPixels))]).
    split; [|split].
    + rewrite Es, <- app_assoc, Hx.
      by replace (Z.to_nat (Z.of_nat (group_size k * w) * Z.of_nat (line_height r) * 2))
        with (2 * (group_size k * w * line_height r))%nat by lia.
    + rewrite length_app. cbn [length]. lia.
    + intros j dr Hj. apply lookup_app_Some in Hj as [Hj|[Hge Hj]]; [by apply Hall|].
      apply list_lookup_singleton_Some in Hj as [Ej <-]. replace j with k by lia. by apply block_ok.
  - intros o' X Y Ho. lia.
Qed.

Lemma line_state_output sent0 r k o d d' : output d' = output d -> line_state sent0 r k o d -> line_state sent0 r k o d'.
Proof using. unfold output. intros [= E1 E2 E3 E4 E5 E6 E7 E8] []. constructor; by rewrite ?E1, ?E2, ?E3, ?E4, ?E5, ?E6, ?E7, ?E8. Qed.

(** The MCU after the first [o] of block [k]. *)
Lemma decode_mcu_ok sent0 (r k o : nat) (d : decoding) (m : list (list Z)) ms :
  line_state sent0 r k o d -> (o < group_size k)%nat -> (r * hh < Ht)%nat -> code_state d (m :: ms) ->
  m = nth (r * columns + (k * group + o)) image [] ->
  exists d', decode_mcu malloc i t g 0 (Z.of_nat (k * group + o)) d = Ok d' /\ code_state d' ms /\
    if (S o =? group_size k)%nat then line_state sent0 r (S k) 0 d' else line_state sent0 r k (S o) d'.
Proof.
  intros Hls Ho Hr Hcode Em. destruct (blocks_ok d m ms Hcode) as (ps & wk & E & Hm & Hsl & Hnext).
  rewrite Em in Hsl. destruct (paint_mcu sent0 r k o d _ Hls Ho Hm Hsl) as (px & Epx & Hlpx & Hdone).
  destruct (group_facts k o Ho) as [(Hc & H5 & Hg & Hk) _]. pose proof mcu_size as (Hw8 & _).
  unfold decode_mcu. rewrite Esub, (ls_err _ _ _ _ _ Hls), E. cbn [rbind]. rewrite Epx. cbn [rbind mcuCX cx].
  set (d1 := mk_decoding wk px ps _ _ _ _ _ _ _ _ _).
  assert (Hls1 : line_state sent0 r k (S o) d1).
  { destruct Hls. constructor; unfold d1; cbn [iErr usPixels xoff iPitch jd_x jd_y jd_iHeight sent]; try done. lia. }
  assert (Eend : (d1.(xoff) =? d1.(iPitch)) || (Z.of_nat (k * group + o) =? Z.of_nat columns - 1) = (S o =? group_size k)%nat).
  { rewrite (ls_xoff _ _ _ _ _ Hls1), (ls_pitch _ _ _ _ _ Hls1). unfold group_size in *.
    destruct (Nat.eqb_spec (S o) (Nat.min group (columns - k * group))) as [Ee|Ee].
    - rewrite Ee, Z.eqb_refl. done.
    - rewrite (proj2 (Z.eqb_neq _ _)), (proj2 (Z.eqb_neq _ _)) by (lia || nia). done. }
  rewrite Eend. destruct (Nat.eqb_spec (S o) (group_size k)) as [Ee|Ee].
  - rewrite Ee in Hls1. destruct (draw_group_ok sent0 r k d1 Hls1 ltac:(lia) Hr) as (d2 & E2 & Hls2 & Hcp).
    replace (k * group + group_size k - 1)%nat with (k * group + o)%nat in E2 by lia. rewrite E2. cbn [rbind].
    injection Hcp as Ew Ep Ec. destruct (Hnext d2) as (d3 & E3 & Hcs & Eo); [done..|].
    exists d3. split; [done|]. split; [done|]. by eapply line_state_output.
  - cbn [rbind]. destruct (Hnext d1) as (d3 & E3 & Hcs & Eo); [done..|].
    exists d3. split; [done|]. split; [done|]. by eapply line_state_output.
Qed.

(** The columns that remain of a line: the loop stands in block [k] after [o] MCUs, or
    behind the last block. *)
Definition remaining (k o n : nat) : Prop :=
  ((o < group_size k)%nat /\ (n + (k * group + o) = columns)%nat) \/ (o = 0 /\ n = 0 /\ columns <= k * group < columns + group)%nat.

Lemma remaining_start : remaining 0 0 columns.
Proof. left. pose proof columns_spec as [_ H]. unfold group_size, group. lia. Qed.

Lemma remaining_next (k o n : nat) : remaining k o (S n) ->
  (o < group_size k)%nat /\ (S n + (k * group + o) = columns)%nat /\
  if (S o =? group_size k)%nat then remaining (S k) 0 n else remaining k (S o) n.
Proof.
  intros [[Ho Hn]|(? & ? & _)]; [|lia]. split; [done|]. split; [done|]. unfold remaining, group_size in *.
  destruct (Nat.eqb_spec (S o) (Nat.min group (columns - k * group))); [|left; lia].
  destruct (Nat.le_gt_cases columns (S k * group)); [right; lia|left; lia].
Qed.

Lemma x_loop_ok sent0 (r n : nat) : (r * hh < Ht)%nat -> forall k o d ms,
  line_state sent0 r k o d -> remaining k o n ->
  code_state d (take n (drop (r * columns + (columns - n)) image) ++ ms) -> ((r + 1) * columns <= length image)%nat ->
  exists K d', x_loop malloc i t g 0 n (Z.of_nat (columns - n)) d = Ok d' /\ line_state sent0 r K 0 d' /\ code_state d' ms /\
    (columns <= K * group < columns + group)%nat.
Proof.
  intros Hr. induction n as [|n IH]; intros k o d ms Hls Hrem Hcode Hlen.
  - exists k, d. split; [done|]. destruct Hrem as [[Ho Hn]|(-> & _ & Hk)]; [unfold group_size in Ho; lia|]. done.
  - destruct (remaining_next k o n Hrem) as (Ho & Hn & Hrem'). cbn [x_loop]. rewrite (ls_err _ _ _ _ _ Hls). cbn match.
    replace (columns - S n)%nat with (k * group + o)%nat in * by lia.
    destruct (lookup_lt_is_Some_2 image (r * columns + (k * group + o))) as [m Em]; [lia|].
    rewrite (drop_S _ _ _ Em) in Hcode. cbn [take app] in Hcode.
    destruct (decode_mcu_ok sent0 r k o d m _ Hls Ho Hr Hcode) as (d1 & E1 & Hcs & Hls1); [by rewrite (nth_lookup_Some _ _ _ _ Em)|].
    change (0 =? 0) with true. cbn match. rewrite E1. cbn [rbind].
    replace (Z.of_nat (k * group + o) + 1) with (Z.of_nat (columns - n)) by lia.
    replace (S (r * columns + (k * group + o))) with (r * columns + (columns - n))%nat in Hcs by lia.
    destruct (S o =? group_size k)%nat; by eapply IH.
Qed.

(** The blocks of the first [r] lines have been sent. *)
Definition lines_sent (B r : nat) (ds : list JPEGDRAW) : Prop :=
  length ds = (r * B)%nat /\ forall r' k, (r' < r)%nat -> (k < B)%nat -> exists dr, ds !! (r' * B + k)%nat = Some dr /\ draw_ok r' k dr.

Definition blocks_per_line : nat := (columns + group - 1) / group.

Lemma blocks_per_line_spec (K : nat) : (columns <= K * group < columns + group)%nat -> K = blocks_per_line.
Proof.
  intros HK. unfold blocks_per_line. pose proof columns_spec as [_ Hc]. assert (0 < group)%nat by (unfold group; lia).
  apply (Nat.div_unique (columns + group - 1) group K (columns + group - 1 - K * group)); lia.
Qed.

Lemma lines_sent_more r ds0 ds : lines_sent blocks_per_line r ds0 -> length ds = blocks_per_line ->
  (forall j dr, ds !! j = Some dr -> draw_ok r j dr) -> lines_sent blocks_per_line (S r) (ds0 ++ ds).
Proof.
  set (B := blocks_per_line). intros [Hl Hd] Hl' Hall. split; [rewrite length_app; lia|]. intros r' k Hr Hk.
  destruct (Nat.eq_dec r' r) as [->|Hne].
  - destruct (lookup_lt_is_Some_2 ds k ltac:(lia)) as [dr Edr]. exists dr. split; [|by apply Hall].
    rewrite lookup_app_r by lia. by replace (r * B + k - length ds0)%nat with k by lia.
  - destruct (Hd r' k ltac:(lia) Hk) as (dr & Edr & Hok). exists dr. split; [|done]. by apply lookup_app_l_Some.
Qed.

(** Between two lines. *)
Record frame_state (r : nat) (d : decoding) : Prop := {
  fs_err : d.(iErr) = 0;
  fs_length : length d.(usPixels) = (64 * 80)%nat;
  fs_y : d.(jd_y) = Z.of_nat (r * hh);
  fs_height : (r * hh + hh <= Ht)%nat -> d.(jd_iHeight) = Z.of_nat hh;
  fs_sent : lines_sent blocks_per_line r d.(sent);
  fs_code : code_state d (drop (r * columns) image);
}.

Lemma lines_spec (r : nat) : (r < lines)%nat -> (r * hh < Ht)%nat.
Proof using Hsub.
  clear -Hsub.
  intros Hr. pose proof mcu_size as (_ & Hh8 & _). unfold lines in Hr.
  pose proof (Nat.div_mod_eq (Ht + hh - 1) hh) as E. set (q := ((Ht + hh - 1) / hh)%nat) in *.
  pose proof (Nat.mul_le_mono_r (S r) q hh ltac:(lia)). lia.
Qed.

Lemma y_loop_ok (n : nat) : forall d, (n <= lines)%nat -> length image = (lines * columns)%nat -> frame_state (lines - n) d ->
  exists d', y_loop malloc i t g 0 0 n d = Ok d' /\ d'.(iErr) = 0 /\ lines_sent blocks_per_line lines d'.(sent).
Proof.
  induction n as [|n IH]; intros d Hn Hlen [Herr Hpx Hy Hh Hs Hcode].
  { exists d. split; [done|]. rewrite Nat.sub_0_r in Hs. done. }
  set (r := (lines - S n)%nat) in *. pose proof (lines_spec r ltac:(unfold r; lia)) as Hr.
  assert (Hfit : ((r + 1) * columns <= length image)%nat).
  { rewrite Hlen. apply Nat.mul_le_mono_r. unfold r. lia. }
  cbn [y_loop]. rewrite Herr. cbn match. cbn [cx iMCUCount mcuCX mcuCY]. rewrite Nat2Z.id.
  set (d0 := mk_decoding _ _ _ _ _ _ _ _ _ _ _ _).
  assert (Hls : line_state d.(sent) r 0 0 d0).
  { constructor; unfold d0; cbn [iErr usPixels xoff iPitch jd_x jd_y jd_iHeight sent]; try done.
    - unfold group_size. rewrite Nat.mul_0_l, Nat.sub_0_r, Nat.min_l by (unfold group; lia). lia.
    - exists []. rewrite app_nil_r. split; [done|]. split; [done|]. intros j dr Hj. by rewrite lookup_nil in Hj.
    - intros o' X Y Ho'. lia. }
  destruct (x_loop_ok d.(sent) r columns Hr 0 0 d0 (drop ((r + 1) * columns) image) Hls remaining_start) as (K & d1 & E & Hls1 & Hcs & HK).
  { rewrite Nat.sub_diag, Nat.add_0_r. replace ((r + 1) * columns)%nat with (r * columns + columns)%nat by lia.
    rewrite <- drop_drop, take_drop. done. }
  { done. }
  rewrite Nat.sub_diag in E. change (Z.of_nat 0) with 0 in E. change (0 =? 0) with true. cbn match. rewrite E. cbn [rbind].
  apply IH; [lia|done|]. replace (lines - n)%nat with (r + 1)%nat by (unfold r; lia).
  destruct Hls1 as [Herr1 Hpx1 _ _ _ Hy1 Hh1 (ds & Es & El & Hall) _].
  constructor; cbn [iErr usPixels jd_y jd_iHeight sent]; try done.
  - rewrite Hy1. lia.
  - intros. apply Hh1. lia.
  - rewrite Es, Nat.add_1_r. apply lines_sent_more; [done| |done]. rewrite El. by apply blocks_per_line_spec.
Qed.
End Image.

(** ** Quantization tables *)

(** Table [no] of four. *)
Definition table (q : list Z) (no : nat) : list Z := take 64 (drop (64 * no) q).

Lemma length_fix_table p : length (fix_table p) = 64%nat.
Proof. unfold fix_table. rewrite length_zip_with, length_map. done. Qed.

Lemma table_store q (n k : nat) vs : length q = 256%nat -> (n < 4)%nat -> length vs = 64%nat ->
  table (store_at q (64 * n) vs) k = if decide (k = n) then vs else table q k.
Proof.
  intros Hq Hn Hv. unfold table. destruct (decide (k = n)) as [->|Hne].
  - rewrite <- Hv. apply slice_store_at. lia.
  - apply list_eq. intros j. destruct (Nat.lt_ge_cases j 64); [|by rewrite !lookup_take_ge by lia].
    rewrite !lookup_take_lt, !lookup_drop, store_lookup, decide_False by lia. done.
Qed.

(** The first [n] tables are brought into the order of rows and scaled. *)
Lemma FixQuantD_ok (n : nat) (q : list Z) : (n <= 4)%nat -> length q = 256%nat ->
  exists q', JPEGFixQuantD (Z.of_nat n) q = Ok q' /\ length q' = 256%nat /\
    forall k, table q' k = if (k <? n)%nat then fix_table (table q k) else table q k.
Proof.
  intros Hn Hq. unfold JPEGFixQuantD. rewrite Nat2Z.id.
  apply (for_loop_inv (fun m q' => length q' = 256%nat /\
           forall k, table q' k = if (k <? m)%nat then fix_table (table q k) else table q k)).
  - split; [done|]. done.
  - intros m q' Hm [Hl Ht]. unfold DCTSIZE. rewrite get_all_ok by lia. cbn [rbind].
    replace (Z.to_nat (Z.of_nat m * 64)) with (64 * m)%nat by lia. change (Z.to_nat 64) with 64%nat. fold (table q' m).
    rewrite put_all_ok by (rewrite ?length_fix_table; lia). eexists. split; [done|].
    replace (Z.to_nat (Z.of_nat m * 64)) with (64 * m)%nat by lia.
    split; [rewrite store_at_length; [done|rewrite length_fix_table; lia]|]. intros k.
    rewrite table_store by (done || lia || apply length_fix_table). destruct (decide (k = m)) as [->|Hne].
    + rewrite Ht, (proj2 (Nat.ltb_ge _ _)), (proj2 (Nat.ltb_lt _ _)) by lia. done.
    + rewrite Ht. destruct (Nat.ltb_spec k m), (Nat.ltb_spec k (S m)); done || lia.
Qed.

(** ** [DecodeJPEG] *)

(** The image has been opened: the compressed data is at byte [h] of the file, [hs] are
    the Huffman tables of the components and [qs] their quantization tables as the
    file has them. *)
Record opened (data : list Z) (h : nat) (sub : Z) (Wd Ht : nat) (hs : list (huffman * huffman)) (qs : nat -> list Z)
    (p : JPEGIMAGE) (pos : nat) : Prop := {
  op_sub : p.(im_info).(ucSubSample) = sub;
  op_width : p.(im_info).(iWidth) = Z.of_nat Wd;
  op_height : p.(im_info).(iHeight) = Z.of_nat Ht;
  op_components : p.(im_info).(ucNumComponents) = component_count sub;
  op_tables : all_component_tables p.(im_tables) p.(im_info).(JPCI) hs;
  op_quant_length : length p.(im_tables).(sQuantTable) = 256%nat;
  op_quant : forall j c, is_Some (hs !! j) -> p.(im_info).(JPCI) !! j = Some c ->
    c.(quant_tbl_no) < component_count sub /\ table p.(im_tables).(sQuantTable) (Z.to_nat c.(quant_tbl_no)) = qs j;
  op_stream : stream data h 0 p.(im_input) pos;
  op_filled : filled data p.(im_input) pos;
  op_off : p.(im_input).(iVLCOff) = 0;
  op_mcus : length p.(sMCUs) = 768%nat;
  op_pixels : length p.(im_tables).(pHuffVals) = (64 * 80)%nat;
  op_max : p.(iMaxMCUs) = MAX_MCU;
}.

(** The samples are made with the tables in the order of rows and scaled. *)
Definition scaled (qs : nat -> list Z) (j : nat) : list Z := fix_table (qs j).

Lemma DecodeJPEG_ok data h sub (Wd Ht : nat) hs qs p pos image malloc :
  Forall Crc.is_byte data ->
  (forall a n, (n <= 2048)%nat -> (count_ff (between data a (a + n)) <= 31)%nat) ->
  supported sub -> (0 < Wd)%nat -> (forall n, malloc n = true) ->
  opened data h sub Wd Ht hs qs p pos ->
  length image = (lines sub Ht * columns sub Wd)%nat ->
  coded (scan_data data h) hs (mcu_components sub) p.(im_info).(iResInterval) p.(im_info).(iResInterval) [0; 0; 0] image 0 ->
  exists p' draws, DecodeJPEG malloc p 0 0 = Ok (1, p', draws) /\
    lines_sent sub (scaled qs) Wd Ht image (blocks_per_line sub Wd) (lines sub Ht) draws.
Proof.
  intros Hbytes Hdense Hsub HWd Hmalloc [Esub Ew Eh Ec Hct Hql Hq Hst Hfl Hoff Hm Hpx Hmax] Hlen Hcoded.
  unfold DecodeJPEG. set (n := Z.to_nat (component_count sub)).
  assert (Hn : component_count sub = Z.of_nat n /\ (n <= 3)%nat) by (unfold n, component_count; destruct (sub =? 0); lia).
  destruct Hn as [En Hn3]. rewrite Ec, En.
  destruct (FixQuantD_ok n p.(im_tables).(sQuantTable) ltac:(lia) Hql) as (q & Eq & Hlq & Htq). rewrite Eq. cbn [rbind].
  set (t := mk_tables _ _ q _ _).
  destruct (window_word (scan_data data h) 0 p.(im_input) 0) as (word & Eword & Hword); [apply Hst| |].
  { split; [pose proof (win_size _ _ _ (st_window _ _ _ _ _ Hst)); lia|]. split; [unfold JPEG_FILE_BUF_SIZE; lia|].
    destruct Hfl as [Hfl | ->]; [left; unfold JPEG_FILE_BUF_SIZE in Hfl; lia|right; by apply stream_end]. }
  rewrite Eword. cbn [rbind]. rewrite Hmax.
  assert (Hct' : all_component_tables t p.(im_info).(JPCI) hs).
  { intros j hj Ej. destruct (Hct j hj Ej) as (c & Ecj & Hno & [? ? ? ? ? ?]). by exists c. }
  assert (Hqs : forall j c, is_Some (hs !! j) -> p.(im_info).(JPCI) !! j = Some c -> quant t c.(quant_tbl_no) = scaled qs j).
  { intros j c Hj Ecj. destruct (Hq j c Hj Ecj) as [Hlt Htab]. destruct Hj as [hj Ehj].
    destruct (Hct j hj Ehj) as (c' & Ecj' & Hno & _). rewrite Ecj in Ecj'. injection Ecj' as <-.
    unfold scaled. rewrite <- Htab. unfold quant, DCTSIZE. cbn [sQuantTable t].
    replace (Z.to_nat (c.(quant_tbl_no) * 64)) with (64 * Z.to_nat c.(quant_tbl_no))%nat by lia. fold (table q (Z.to_nat c.(quant_tbl_no))).
    rewrite Htq, (proj2 (Nat.ltb_lt _ _)) by lia. done. }
  rewrite geometry_ok with (sub := sub) (Wd := Wd) (Ht := Ht) (t := t) by done. cbn [rbind cy mcuCY]. rewrite Nat2Z.id.
  set (d := mk_decoding _ _ _ _ _ _ _ _ _ _ _ _).
  destruct (y_loop_ok data h Hbytes Hdense p.(im_info) t hs Hct' Hlq sub Esub Hsub Ec (scaled qs) Hqs Wd Ht Ew Eh HWd
              malloc Hmalloc image (lines sub Ht) d) as (d' & E & Herr & Hs); [lia|done| |].
  { rewrite Nat.sub_diag. constructor; unfold d; cbn [iErr usPixels jd_y jd_iHeight sent]; try done.
    - split; [done|]. intros r' k Hr'. lia.
    - split; [done|]. exists 0%nat, pos, 0%nat. split; [|done]. constructor; cbn [dc_work wk_input iVLCOff bb pBuf].
      + destruct Hst as [[] ? ? ?]. constructor; [constructor|..]; done.
      + done.
      + done.
      + rewrite Hoff. done.
      + split; [|cbn; lia]. constructor; cbn; done. }
  rewrite E. cbn [rbind]. rewrite Herr. eexists _, _. done.
Qed.

End JpegImage.
