(* ===== verification/JpegScan.v ===== *)
(** * The compressed data of an image

    The encoding of the MCUs of an image as the JPEG standard has it: restart
    intervals of whole bytes, stuffed, with markers between them; and the proof that
    the data without stuffing is what [coded] describes. *)
From stdpp Require Import base list.
From Stdlib Require Import ZArith Lia ZifyNat.
From S2P Require Import Prelude Crc JpegTables Jpeg JpegBits JpegBlock JpegFilter JpegPixels JpegImage.
Import JpegTables Jpeg JpegBits JpegBlock JpegFilter JpegPixels JpegImage.
Local Open Scope Z_scope.

Module JpegScan.

(** Divisions by constants. *)
Local Ltac Zify.zify_post_hook ::= Z.to_euclidean_division_equations.

(** ** Bits as bytes *)

(** The last byte is filled up with ones. *)
Definition pack (bs : list bool) : list Z :=
  map (fun k => val (take 8 (drop (8 * k) (bs ++ replicate 7 true)))) (seq 0 ((length bs + 7) / 8)).

Lemma bits_val (bs : list bool) : bits (length bs) (val bs) = bs.
Proof.
  induction bs as [|b bs IH] using rev_ind; [done|]. rewrite length_app, Nat.add_1_r, bits_S, val_app. cbn [length].
  change (val [b]) with (Z.b2z b). change (2 ^ Z.of_nat 1) with 2.
  assert (Ed : (val bs * 2 + Z.b2z b) / 2 = val bs) by (destruct b; cbn [Z.b2z]; lia).
  assert (Eo : Z.odd (val bs * 2 + Z.b2z b) = b) by (rewrite Z.add_comm, Z.mul_comm, Z.odd_add_mul_2; by destruct b).
  by rewrite Ed, Eo, IH.
Qed.

Lemma chunks (bs : list bool) (n : nat) : (8 * n <= length bs)%nat ->
  concat (map (fun k => take 8 (drop (8 * k) bs)) (seq 0 n)) = take (8 * n) bs.
Proof.
  induction n as [|n IH]; intros Hn; [done|]. rewrite seq_S, map_app, concat_app, IH by lia. cbn [map concat Nat.add].
  rewrite app_nil_r. replace (8 * S n)%nat with (8 * n + 8)%nat by lia. apply take_take_drop.
Qed.

Lemma bits_of_pack (bs : list bool) : exists pad, bits_of (pack bs) = bs ++ pad /\ (length pad < 8)%nat /\
  (8 * length (pack bs) = length bs + length pad)%nat.
Proof.
  set (n := ((length bs + 7) / 8)%nat). exists (replicate (8 * n - length bs) true).
  rewrite length_replicate. unfold pack. rewrite length_map, length_seq. fold n. split; [|lia].
  unfold bits_of. rewrite map_map. set (l := bs ++ replicate 7 true).
  assert (Hl : (8 * n <= length l)%nat) by (unfold l; rewrite length_app, length_replicate; lia).
  transitivity (concat (map (fun k => take 8 (drop (8 * k) l)) (seq 0 n))).
  - f_equal. apply map_ext_in. intros k Hk%in_seq. set (c := take 8 (drop (8 * k) l)).
    assert (Hc : length c = 8%nat) by (unfold c; rewrite length_take, length_drop; lia). rewrite <- Hc at 1. apply bits_val.
  - rewrite chunks by done. unfold l. rewrite take_app_ge by lia. f_equal. rewrite take_replicate. f_equal. lia.
Qed.

Lemma pack_bytes (bs : list bool) : Forall Crc.is_byte (pack bs).
Proof.
  unfold pack. apply Forall_forall. intros v Hv%list_elem_of_In. apply in_map_iff in Hv as (k & <- & _).
  set (c := take 8 _). pose proof (val_range c) as Hr.
  assert (Hc : (length c <= 8)%nat) by (unfold c; rewrite length_take; lia).
  pose proof (Z.pow_le_mono_r 2 (Z.of_nat (length c)) 8 ltac:(lia) ltac:(lia)). unfold Crc.is_byte. change (2 ^ 8) with 256 in *. lia.
Qed.

(** ** Restart intervals *)

Section Scan.
(** The tables of the components and the components of the blocks of an MCU. *)
Context (hs : list (huffman * huffman)) (js : list nat).

(** The bits of the intervals: [acc] are those of the current one, [count] the number of
    MCUs left in it. *)
Fixpoint intervals (R count : Z) (preds : list Z) (acc : list bool) (ms : list (list (list Z))) : option (list (list bool)) :=
  match ms with
  | [] => Some [acc]
  | m :: ms =>
      '(c, ps) ← encode_blocks hs js preds m;
      if R =? 0 then intervals R count ps (acc ++ c) ms
      else if count - 1 =? 0 then
        match ms with
        | [] => Some [acc ++ c]
        | _ => rest ← intervals R R [0; 0; 0] [] ms; Some ((acc ++ c) :: rest)
        end
      else intervals R (count - 1) ps (acc ++ c) ms
  end.

(** The data without stuffing, and as the file has it: [k] numbers the markers, and
    the end-of-image marker follows. *)
Definition plain (ivs : list (list bool)) : list Z := concat (map pack ivs).

Fixpoint marked (k : nat) (ivs : list (list bool)) : list Z :=
  match ivs with
  | [] => [0xff; 0xd9]
  | [b] => stuff (pack b) ++ [0xff; 0xd9]
  | b :: ivs => stuff (pack b) ++ [0xff; 0xd0 + Z.of_nat (k mod 8)] ++ marked (S k) ivs
  end.

Lemma unstuff_marked (k : nat) ivs : unstuff false (marked k ivs) = (plain ivs, false).
Proof using.
  revert k. induction ivs as [|b ivs IH]; intros k; [done|]. unfold plain in *. cbn [map concat].
  destruct ivs as [|b' ivs].
  - cbn [marked map concat]. rewrite unstuff_app, unstuff_stuff, app_nil_r. cbn. by rewrite app_nil_r.
  - change (marked k (b :: b' :: ivs)) with (stuff (pack b) ++ [0xff; 0xd0 + Z.of_nat (k mod 8)] ++ marked (S k) (b' :: ivs)).
    rewrite unstuff_app, unstuff_stuff. cbn [app]. rewrite unstuff_marker by lia. by rewrite IH.
Qed.

Lemma plain_bytes ivs : Forall Crc.is_byte (plain ivs).
Proof using. unfold plain. apply Forall_concat, Forall_forall. intros l Hl%list_elem_of_In. apply in_map_iff in Hl as (b & <- & _). apply pack_bytes. Qed.

Lemma intervals_acc R ms : forall count preds acc ivs, intervals R count preds acc ms = Some ivs ->
  exists b ivs', ivs = (acc ++ b) :: ivs'.
Proof using.
  induction ms as [|m ms IH]; intros count preds acc ivs H; cbn [intervals] in H.
  { injection H as <-. exists [], []. by rewrite app_nil_r. }
  destruct (encode_blocks hs js preds m) as [[c ps]|]; [|done]. simpl in H.
  destruct (R =? 0); [|destruct (count - 1 =? 0)].
  - apply IH in H as (b & ivs' & ->). exists (c ++ b), ivs'. by rewrite app_assoc.
  - destruct ms; [injection H as <-; by exists c, []|].
    destruct (intervals _ _ _ _ _) as [rest|]; [|done]. simpl in H. injection H as <-. by exists c, rest.
  - apply IH in H as (b & ivs' & ->). exists (c ++ b), ivs'. by rewrite app_assoc.
Qed.

(** MCUs of at most 440 bytes each, of well-formed blocks. *)
Fixpoint small_mcus (R count : Z) (preds : list Z) (ms : list (list (list Z))) : Prop :=
  match ms with
  | [] => True
  | m :: ms =>
      Forall block_wf m /\
      match encode_blocks hs js preds m with
      | None => False
      | Some (c, ps) =>
          (length c <= 8 * 440)%nat /\
          if R =? 0 then small_mcus R count ps ms
          else if count - 1 =? 0 then small_mcus R R [0; 0; 0] ms else small_mcus R (count - 1) ps ms
      end
  end.

(** The first interval starts with [acc ++ c]; [c] is found behind [acc]. *)
Lemma plain_head A acc c b ivs (G : nat) : G = (8 * length A + length acc)%nat ->
  let F := A ++ plain ((acc ++ c ++ b) :: ivs) in
  (exists rest, drop G (bits_of F) = c ++ rest) /\ (G + length c <= 8 * length F)%nat.
Proof using.
  intros ->. unfold plain. cbn [map concat]. destruct (bits_of_pack (acc ++ c ++ b)) as (pad & Ep & _ & El).
  rewrite !length_app in El. split.
  - rewrite !bits_of_app, Ep. eexists. rewrite <- drop_drop, drop_app_length' by (symmetry; apply length_bits_of).
    rewrite <- !app_assoc, drop_app_length. done.
  - rewrite !length_app. lia.
Qed.

(** The bytes of the intervals are coded as the decoder expects them. *)
Lemma intervals_coded R ms : forall count preds acc ivs A (G : nat),
  intervals R count preds acc ms = Some ivs -> small_mcus R count preds ms -> G = (8 * length A + length acc)%nat ->
  coded (A ++ plain ivs) hs js R count preds ms G.
Proof using.
  induction ms as [|m ms IH]; intros count preds acc ivs A G H Hs HG; [done|].
  destruct Hs as [Hwf Hs]. cbn [intervals] in H. cbn [coded]. split; [done|].
  destruct (encode_blocks hs js preds m) as [[c ps]|]; [|done]. simpl in H. destruct Hs as [Hc Hs].
  assert (Hhead : exists b ivs', ivs = (acc ++ c ++ b) :: ivs').
  { destruct (R =? 0); [|destruct (count - 1 =? 0)].
    1, 3: apply intervals_acc in H as (b & ivs' & ->); exists b, ivs'; by rewrite app_assoc.
    destruct ms; [injection H as <-; exists [], []; by rewrite app_nil_r|].
    destruct (intervals _ _ _ _ _) as [rest|]; [|done]. simpl in H. injection H as <-.
    exists [], rest. by rewrite app_nil_r. }
  assert (Hd : (exists rest, drop G (bits_of (A ++ plain ivs)) = c ++ rest) /\ (G + length c <= 8 * length (A ++ plain ivs))%nat).
  { destruct Hhead as (b & ivs' & ->). by apply plain_head. }
  destruct Hd as [[rest Hd] Hl]. exists c, ps, rest. repeat split; [done..|]. cbv zeta.
  destruct (R =? 0); [|destruct (count - 1 =? 0)].
  - eapply IH; [done..|]. rewrite length_app. lia.
  - destruct ms as [|m' ms]; [done|].
    destruct (intervals R R _ _ _) as [ivs'|] eqn:Ei; [|done]. simpl in H. injection H as <-.
    change (plain ((acc ++ c) :: ivs')) with (pack (acc ++ c) ++ plain ivs'). rewrite app_assoc.
    eapply IH; [done..|]. destruct (bits_of_pack (acc ++ c)) as (pad & _ & Hp & El).
    rewrite length_app in *. cbn [length]. unfold align. lia.
  - eapply IH; [done..|]. rewrite length_app. lia.
Qed.
End Scan.

End JpegScan.
