(* ===== verification/JpegFormat.v ===== *)
(** * The headers of a file

    A baseline JPEG file as the standard lays it out - tables, frame header, scan
    header, compressed data - and the proof that [JPEGParseInfo] takes from it what
    the decoder needs. *)
From stdpp Require Import base list.
From Stdlib Require Import ZArith Lia.
From S2P Require Import Prelude Crc JpegTables Jpeg JpegBits JpegBlock JpegFilter JpegPixels JpegImage JpegScan.
Import JpegTables Jpeg JpegBits JpegBlock JpegFilter JpegPixels JpegImage JpegScan.
Local Open Scope Z_scope.
Local Open Scope run_scope.

Module JpegFormat.

(** ** Segments *)

(** Quantization tables by their number, Huffman tables by their class and number (the
    tables 0 and 1 for DC, 4 and 5 for AC), the restart interval, and a segment without
    meaning for the decoder. *)
Inductive segment_of :=
| Dqt (ts : list (Z * list Z))
| Dht (ts : list (Z * huffman))
| Dri (r : Z)
| Other (m : Z) (payload : list Z).

Definition short (v : Z) : list Z := [v / 256; v mod 256].

Definition dqt_bytes (t : Z * list Z) : list Z := t.1 :: t.2.

Definition dht_bytes (t : Z * huffman) : list Z :=
  (if t.1 <? 4 then t.1 else 0x10 + (t.1 - 4)) :: t.2.(counts) ++ t.2.(symbols).

Definition seg_marker (s : segment_of) : Z :=
  match s with Dqt _ => 0xdb | Dht _ => 0xc4 | Dri _ => 0xdd | Other m _ => m end.

Definition seg_payload (s : segment_of) : list Z :=
  match s with
  | Dqt ts => concat (map dqt_bytes ts)
  | Dht ts => concat (map dht_bytes ts)
  | Dri r => short r
  | Other _ payload => payload
  end.

(** A marker, the length and the payload. *)
Definition marked_segment (m : Z) (payload : list Z) : list Z :=
  [0xff; m] ++ short (Z.of_nat (2 + length payload)) ++ payload.

Definition seg_bytes (s : segment_of) : list Z := marked_segment (seg_marker s) (seg_payload s).

(** What the standard asks for, as far as the decoder supports it. *)
Definition seg_wf (s : segment_of) : Prop :=
  match s with
  | Dqt ts => Forall (fun t => 0 <= t.1 < 4 /\ length t.2 = 64%nat) ts
  | Dht ts => Forall (fun t => (t.1 = 0 \/ t.1 = 1 \/ t.1 = 4 \/ t.1 = 5) /\ huffman_wf t.2 /\ 0 < total t.2.(counts) <= 256) ts
  | Dri r => 0 <= r < 65536
  | Other m _ => 0xc4 < m < 0xff /\ m <> 0xdb /\ m <> 0xdd /\ m <> 0xda /\ m <> 0xe1
  end.

(** What the segments define; the last definition counts. *)
Record header := mk_header {
  h_huffman : Z -> option huffman;
  h_quant : Z -> list Z;
  h_interval : Z;
}.

Definition define {A} (f : Z -> A) (t : Z * A) : Z -> A := fun j => if j =? t.1 then t.2 else f j.

Definition add_segment (h : header) (s : segment_of) : header :=
  match s with
  | Dqt ts => mk_header h.(h_huffman) (fold_left define ts h.(h_quant)) h.(h_interval)
  | Dht ts => mk_header (fold_left (fun f t => define f (t.1, Some t.2)) ts h.(h_huffman)) h.(h_quant) h.(h_interval)
  | Dri r => mk_header h.(h_huffman) h.(h_quant) r
  | Other _ _ => h
  end.

Definition no_header : header := mk_header (fun _ => None) (fun _ => replicate 64 0) 0.

(** ** Reading the buffer *)

(** The bytes [l] are at [o] of the buffer. *)
Definition holds_at (buf : list Z) (o : nat) (l : list Z) : Prop := exists rest, drop o buf = l ++ rest.

Lemma holds_app buf o a b : holds_at buf o (a ++ b) <-> holds_at buf o a /\ holds_at buf (o + length a) b.
Proof.
  split.
  - intros [rest E]. split; [exists (b ++ rest); by rewrite E, app_assoc|].
    exists rest. by rewrite <- drop_drop, E, <- app_assoc, drop_app_length.
  - intros [[r1 E1] [r2 E2] ]. exists r2. rewrite <- drop_drop, E1, drop_app_length in E2. by rewrite E1, E2, app_assoc.
Qed.

Lemma holds_length buf o l : holds_at buf o l -> l <> [] -> (o + length l <= length buf)%nat.
Proof.
  intros [rest E] Hl. apply (f_equal length) in E. rewrite length_drop, length_app in E.
  destruct l; [done|]. cbn [length] in *. lia.
Qed.

Lemma get_holds buf (o k : nat) l v z : holds_at buf o l -> l !! k = Some v -> z = Z.of_nat (o + k) -> get buf z = Ok v.
Proof.
  intros [rest E] Hk ->. apply get_nat. rewrite <- lookup_drop, E. by apply lookup_app_l_Some.
Qed.

Lemma short_holds buf (o k : nat) l v z : 0 <= v < 65536 -> holds_at buf o l -> take 2 (drop k l) = short v ->
  z = Z.of_nat (o + k) -> MOTOSHORT buf z = Ok v.
Proof.
  intros Hv H Hk ->. unfold MOTOSHORT.
  assert (H0 : l !! k = Some (v / 256)) by (rewrite <- (Nat.add_0_r k), <- lookup_drop, <- (lookup_take_lt _ 2), Hk by lia; done).
  assert (H1 : l !! (k + 1)%nat = Some (v mod 256)) by (rewrite <- lookup_drop, <- (lookup_take_lt _ 2), Hk by lia; done).
  rewrite (get_holds _ _ _ _ _ _ H H0) by done. cbn [rbind].
  rewrite (get_holds _ _ _ _ _ _ H H1) by lia. cbn [rbind]. f_equal. pose proof (Z.div_mod v 256 ltac:(lia)). lia.
Qed.

Lemma get_all_holds buf (o : nat) l z n : holds_at buf o l -> l <> [] -> z = Z.of_nat o -> n = Z.of_nat (length l) ->
  get_all buf z n = Ok l.
Proof.
  intros H Hl -> ->. pose proof (holds_length _ _ _ H Hl). rewrite get_all_ok by lia. rewrite !Nat2Z.id.
  destruct H as [rest ->]. by rewrite take_app_length.
Qed.

(** ** Quantization tables *)

Definition quant_read (f : Z -> list Z) (q : list Z) : Prop :=
  length q = 256%nat /\ forall no, 0 <= no < 4 -> table q (Z.to_nat no) = f no.

Lemma quant_read_store f q no vs : quant_read f q -> 0 <= no < 4 -> length vs = 64%nat ->
  quant_read (define f (no, vs)) (store_at q (Z.to_nat (no * 64)) vs).
Proof.
  intros [Hl Hq] Hno Hv. replace (Z.to_nat (no * 64)) with (64 * Z.to_nat no)%nat by lia.
  split; [by rewrite store_at_length by lia|]. intros k Hk. rewrite table_store by lia. unfold define. cbn [fst snd].
  destruct (Z.eqb_spec k no) as [->|Hne]; [by rewrite decide_True|]. rewrite decide_False by lia. by apply Hq.
Qed.

Lemma quant_tables_ok ts : forall (fuel : nat) buf (o : nat) f q,
  seg_wf (Dqt ts) -> (length ts <= fuel)%nat -> 65 * Z.of_nat (length ts) < 65536 ->
  holds_at buf o (concat (map dqt_bytes ts)) -> quant_read f q ->
  exists q', quant_tables fuel buf (Z.of_nat o) (65 * Z.of_nat (length ts)) q
      = Ok (true, Z.of_nat (o + 65 * length ts), 0, q') /\ quant_read (fold_left define ts f) q'.
Proof.
  induction ts as [|[no vs] ts IH]; intros fuel buf o f q Hwf Hf Hlt Hh Hq.
  { exists q. rewrite Nat.add_0_r. by destruct fuel. }
  apply Forall_cons in Hwf as [[Hno Hvs] Hwf]. cbn [fst snd] in Hno, Hvs. cbn [length] in Hf, Hlt.
  destruct fuel as [|fuel]; [lia|]. cbn [map concat] in Hh. apply holds_app in Hh as [Hh1 Hh].
  change (dqt_bytes (no, vs)) with ([no] ++ vs) in *. cbn [length app] in Hh. apply holds_app in Hh1 as [Hn Hv].
  cbn [quant_tables length]. rewrite (proj2 (Z.eqb_neq (65 * _) 0)) by lia.
  rewrite (get_holds _ _ 0 _ no _ Hn) by (done || lia). cbn [rbind].
  assert (El : Z.land no 0xf = no /\ Z.land no 0xf0 = 0).
  { assert (no = 0 \/ no = 1 \/ no = 2 \/ no = 3) as [-> | [-> | [-> | ->] ] ] by lia; done. }
  destruct El as [-> ->]. rewrite (proj2 (Z.ltb_ge 3 no)) by lia. change (0 =? 0) with true. cbv iota.
  rewrite (get_all_holds _ _ _ _ _ Hv) by (try (by destruct vs); cbn [length]; unfold DCTSIZE; lia). cbn [rbind].
  unfold DCTSIZE. pose proof Hq as [Hlq _]. rewrite put_all_ok by lia. cbn [rbind].
  destruct (IH fuel buf (o + S (length vs))%nat _ _ Hwf ltac:(lia) ltac:(lia) Hh (quant_read_store _ _ _ _ Hq Hno Hvs))
    as (q' & E & Hq').
  exists q'. split; [|done].
  replace (Z.of_nat o + 1 + 64) with (Z.of_nat (o + S (length vs))) by lia.
  replace (u16 (65 * Z.of_nat (S (length ts)) - (64 + 1))) with (65 * Z.of_nat (length ts)) by (unfold u16; rewrite Z.mod_small; lia).
  rewrite E. by replace (o + S (length vs) + 65 * length ts)%nat with (o + 65 * S (length ts))%nat by lia.
Qed.

(** ** Huffman tables *)

Lemma store_at_app {A} (l a b : list A) (j : nat) : (j + length a + length b <= length l)%nat ->
  store_at (store_at l j a) (j + length a) b = store_at l j (a ++ b).
Proof.
  intros H. apply list_eq. intros k.
  rewrite !store_lookup by (rewrite ?store_at_length, ?length_app by lia; lia). rewrite length_app.
  destruct (decide (j + length a <= k < j + length a + length b)%nat).
  - rewrite decide_True, lookup_app_r by lia. f_equal. lia.
  - destruct (decide (j <= k < j + length a)%nat).
    + by rewrite decide_True, lookup_app_l by lia.
    + by rewrite decide_False by lia.
Qed.

Lemma slice_store_other {A} (l xs : list A) (j p n : nat) : (j + length xs <= length l)%nat ->
  (p + n <= j \/ j + length xs <= p)%nat -> take n (drop p (store_at l j xs)) = take n (drop p l).
Proof.
  intros H Hd. apply list_eq. intros k. destruct (Nat.lt_ge_cases k n); [|by rewrite !lookup_take_ge by lia].
  rewrite !lookup_take_lt, !lookup_drop, store_lookup, decide_False by lia. done.
Qed.

Definition huffman_bytes (h : huffman) : list Z := h.(counts) ++ h.(symbols).

Lemma stored_slice vals p h : 0 <= p ->
  stored_at vals p h <-> take (length (huffman_bytes h)) (drop (Z.to_nat p) vals) = huffman_bytes h.
Proof.
  intros Hp. unfold stored_at, huffman_bytes. split.
  - intros [_ [rest ->] ]. rewrite app_assoc. apply take_app_length.
  - intros E. split; [done|]. eexists. rewrite app_assoc, <- E. symmetry. apply take_drop.
Qed.

(** The tables [tabs] as [huff_tables] leaves them; a table takes 272 bytes at most. *)
Definition huffman_read (tabs : Z -> option huffman) (used : Z) (vals : list Z) : Prop :=
  length vals = (64 * 80)%nat /\
  (forall j h, 0 <= j < 8 -> tabs j = Some h -> (length (huffman_bytes h) <= 272)%nat) /\
  forall dc ac q, tables_read tabs (mk_tables used vals q dc ac).

Lemma huffman_read_store tabs used vals j h : huffman_read tabs used vals -> j = 0 \/ j = 1 \/ j = 4 \/ j = 5 ->
  (length (huffman_bytes h) <= 272)%nat ->
  huffman_read (define tabs (j, Some h)) (u8 (Z.lor used (sal 1 j))) (store_at vals (Z.to_nat (j * HUFF_TABLEN)) (huffman_bytes h)).
Proof.
  intros (Hl & Hs & Hr) Hj Hh. unfold HUFF_TABLEN in *. assert (Hj7 : 0 <= j < 8) by lia.
  assert (Hfit : (Z.to_nat (j * 273) + length (huffman_bytes h) <= length vals)%nat) by (rewrite Hl; lia).
  split; [by rewrite store_at_length|]. unfold define. cbn [fst snd]. split.
  { intros k h' Hk E. destruct (k =? j); [|eauto]. by injection E as <-. }
  assert (Esal : sal 1 j = 2 ^ j) by (destruct Hj as [-> | [-> | [-> | ->] ] ]; done).
  intros dc ac q k Hk. cbn [ucHuffTableUsed pHuffVals] in *. specialize (Hr dc ac q k Hk). cbn [ucHuffTableUsed pHuffVals] in Hr.
  rewrite Esal. unfold u8, HUFF_TABLEN in *. rewrite Z.mod_pow2_bits_low, Z.lor_spec, Z.pow2_bits_eqb by lia.
  destruct (Z.eqb_spec k j) as [->|Hne].
  - rewrite Z.eqb_refl, orb_true_r. split; [done|]. apply stored_slice; [lia|]. by apply slice_store_at.
  - rewrite (proj2 (Z.eqb_neq j k)), orb_false_r by done. destruct (tabs k) as [h'|] eqn:E; [|done].
    destruct Hr as [Hu Hst]. split; [done|]. apply stored_slice in Hst; [|lia]. apply stored_slice; [lia|].
    specialize (Hs k h' Hk E). rewrite slice_store_other; [done|done|lia].
Qed.

Lemma wf_bytes_length h : huffman_wf h -> Z.of_nat (length (huffman_bytes h)) = 16 + total h.(counts).
Proof. intros [H1 _ H2 _]. unfold huffman_bytes. rewrite length_app. lia. Qed.

Lemma length_dht_bytes t : length (dht_bytes t) = S (length (huffman_bytes t.2)).
Proof. done. Qed.

Lemma huff_tables_ok ts : forall (fuel : nat) buf (o : nat) tabs used vals,
  seg_wf (Dht ts) -> (length ts <= fuel)%nat -> holds_at buf o (concat (map dht_bytes ts)) -> huffman_read tabs used vals ->
  exists used' vals', huff_tables fuel buf (Z.of_nat o) (Z.of_nat (length (concat (map dht_bytes ts)))) used vals
      = Ok (0, used', vals') /\ huffman_read (fold_left (fun f t => define f (t.1, Some t.2)) ts tabs) used' vals'.
Proof.
  induction ts as [|[j h] ts IH]; intros fuel buf o tabs used vals Hwf Hf Hh Hr.
  { exists used, vals. by destruct fuel. }
  apply Forall_cons in Hwf as [(Hj & Hwh & Ht) Hwf]. cbn [fst snd] in Hj, Hwh, Ht. cbn [length] in Hf.
  pose proof (wf_bytes_length h Hwh) as Hlen. pose proof Hwh as [Hc _ Hsy _].
  destruct fuel as [|fuel]; [lia|]. cbn [map concat] in Hh. apply holds_app in Hh as [Hh1 Hh].
  set (t := if j <? 4 then j else 0x10 + (j - 4)). change (dht_bytes (j, h)) with ([t] ++ counts h ++ symbols h) in Hh1.
  apply holds_app in Hh1 as [Hj1 Hh1]. apply holds_app in Hh1 as [Hcs Hss]. cbn [length] in Hcs, Hss. rewrite Hc in Hss.
  cbn [map concat huff_tables]. rewrite length_app, length_dht_bytes in *. cbn [snd] in *.
  rewrite (proj2 (Z.leb_gt _ 17)) by lia. rewrite (get_holds _ _ 0 _ t _ Hj1) by (done || lia). cbn [rbind].
  assert (Et : (if Z.land t 0x10 =? 0 then t else Z.lxor t 0x14) = j) by (destruct Hj as [-> | [-> | [-> | ->] ] ]; done).
  rewrite Et, (proj2 (Z.leb_le j 7)) by lia.
  assert (Hcn : counts h <> []) by (intros E; by rewrite E in Hc).
  assert (Hsn : symbols h <> []) by (intros E; rewrite E in Hsy; cbn in Hsy; lia).
  rewrite (get_all_holds _ _ _ _ _ Hcs Hcn) by lia. cbn [rbind].
  pose proof Hr as (Hlv & _). rewrite put_all_ok by (unfold HUFF_TABLEN; lia). cbn [rbind].
  rewrite (proj2 (Z.eqb_neq (total _) 0)), (proj2 (Z.ltb_ge 256 _)), (proj2 (Z.ltb_ge _ (total _))) by lia. cbn [orb].
  rewrite (get_all_holds _ _ _ _ _ Hss Hsn) by lia. cbn [rbind].
  rewrite put_all_ok by (rewrite ?store_at_length; unfold HUFF_TABLEN; lia). cbn [rbind].
  replace (Z.to_nat (j * HUFF_TABLEN + 16)) with (Z.to_nat (j * HUFF_TABLEN) + length (counts h))%nat by (unfold HUFF_TABLEN; lia).
  rewrite store_at_app by (unfold HUFF_TABLEN; lia).
  destruct (IH fuel buf (o + S (length (huffman_bytes h)))%nat _ _ _ Hwf ltac:(lia) Hh (huffman_read_store _ _ _ j h Hr Hj ltac:(lia)))
    as (used' & vals' & E & Hr').
  exists used', vals'. split; [|done]. rewrite <- E. f_equal; lia.
Qed.

(** ** A segment *)

(** What has been read of [h]. *)
Record header_read (h : header) (i : info) (t : tables) : Prop := {
  hr_huffman : huffman_read h.(h_huffman) t.(ucHuffTableUsed) t.(pHuffVals);
  hr_quant : quant_read h.(h_quant) t.(sQuantTable);
  hr_dc : t.(ucHuffDC) = replicate 2048 0;
  hr_ac : length t.(usHuffAC) = 4096%nat;
  hr_interval : i.(iResInterval) = h.(h_interval);
}.

Lemma set_interval_same i : set_interval i i.(iResInterval) = i.
Proof. by destruct i. Qed.

Lemma length_concat_ge {A} (f : A -> list Z) ts : (forall t, (1 <= length (f t))%nat) ->
  (length ts <= length (concat (map f ts)))%nat.
Proof. intros Hf. induction ts as [|t ts IH]; [done|]. cbn [map concat length]. rewrite length_app. specialize (Hf t). lia. Qed.

Lemma holds_count {A} (f : A -> list Z) ts buf o : (forall t, (1 <= length (f t))%nat) ->
  holds_at buf o (concat (map f ts)) -> (length ts <= S (length buf))%nat.
Proof.
  intros Hf Hh. pose proof (length_concat_ge f ts Hf) as Hc. destruct ts; [cbn; lia|].
  apply holds_length in Hh; [lia|]. intros E. rewrite E in Hc. cbn in Hc. lia.
Qed.

Lemma length_dqt ts : seg_wf (Dqt ts) -> length (concat (map dqt_bytes ts)) = (65 * length ts)%nat.
Proof.
  induction 1 as [|[no vs] ts [_ Hv] _ IH]; [done|]. cbn [map concat length]. rewrite length_app, IH. cbn in *. lia.
Qed.

Section Parse.
(** The file, the buffer and the number of bytes in it. *)
Context (f : JPEGFILE) (buf : list Z) (n : Z).

Definition reading (o : Z) (i : info) (t : tables) : parsing := mk_parsing f buf n o n i t.

Lemma segment_ok h s (o : nat) i t : seg_wf s -> Z.of_nat (2 + length (seg_payload s)) < 65536 ->
  holds_at buf o (short (Z.of_nat (2 + length (seg_payload s))) ++ seg_payload s) -> header_read h i t ->
  let h' := add_segment h s in
  exists len o' t',
    segment (0xff00 + seg_marker s) (Z.of_nat (2 + length (seg_payload s))) (reading (Z.of_nat o) i t)
      = Ok (true, len, reading o' (set_interval i h'.(h_interval)) t') /\
    o' + len = Z.of_nat (o + 2 + length (seg_payload s)) /\
    header_read h' (set_interval i h'.(h_interval)) t'.
Proof using.
  intros Hwf Hlt Hh Hr. pose proof Hr as [Hhu Hq Hdc Hac Hi]. apply holds_app in Hh as [_ Hh].
  change (length (short _)) with 2%nat in Hh. unfold segment, reading. cbn [p_buf iOffset p_info p_tables].
  destruct s as [ts|ts|r|m payload]; cbn [seg_marker seg_payload add_segment h_interval] in *.
  - pose proof (length_dqt ts Hwf) as El. rewrite El in *. remember (Z.of_nat (2 + 65 * length ts)) as len eqn:Elen.
    change (0xff00 + 0xdb) with 0xffdb. cbn -[quant_tables u16].
    replace (u16 (len - 2)) with (65 * Z.of_nat (length ts)) by (unfold u16; rewrite Z.mod_small; lia).
    replace (Z.of_nat o + 2) with (Z.of_nat (o + 2)) by lia.
    pose proof (holds_count dqt_bytes ts buf (o + 2) ltac:(cbn; lia) Hh) as Hfuel.
    destruct (quant_tables_ok ts (S (length buf)) buf (o + 2) _ _ Hwf Hfuel ltac:(lia) Hh Hq) as (q' & E & Hq').
    cbn [length] in E. rewrite E. cbn [rbind]. do 3 eexists. rewrite <- Hi, set_interval_same. split; [done|]. split; [cbn [iOffset at_offset]; lia|]. by constructor.
  - remember (length (concat (map dht_bytes ts))) as L eqn:EL. remember (Z.of_nat (2 + L)) as len eqn:Elen.
    change (0xff00 + 0xc4) with 0xffc4. cbn -[JPEGGetHuffTables u16].
    replace (u16 (len - 2)) with (Z.of_nat L) by (unfold u16; rewrite Z.mod_small; lia).
    replace (Z.of_nat o + 2) with (Z.of_nat (o + 2)) by lia. unfold JPEGGetHuffTables.
    pose proof (holds_count dht_bytes ts buf (o + 2) ltac:(cbn; lia) Hh) as Hfuel.
    destruct (huff_tables_ok ts (S (length buf)) buf (o + 2) _ _ _ Hwf Hfuel Hh Hhu) as (used' & vals' & E & Hr').
    rewrite <- EL in E. rewrite E. cbn [rbind]. do 3 eexists. rewrite <- Hi, set_interval_same. split; [done|].
    split; [cbn [iOffset at_offset]; lia|]. by constructor.
  - change (0xff00 + 0xdd) with 0xffdd. change (Z.of_nat (2 + length (short r))) with 4. cbn -[MOTOSHORT Z.add].
    rewrite (short_holds _ _ 0 _ r _ Hwf Hh) by (done || lia). cbn [rbind].
    do 3 eexists. split; [done|]. split; [cbn [iOffset at_offset]; lia|]. by constructor.
  - cbn [seg_wf] in Hwf. set (M := 0xff00 + m). assert (HM : 0xffc4 < M < 0xffff /\ M <> 0xffdb /\ M <> 0xffdd /\ M <> 0xffda /\ M <> 0xffe1) by (unfold M; lia).
    rewrite (proj2 (Z.leb_gt M 0xffc3)), andb_false_r, (proj2 (Z.eqb_neq M 0xffe1)), (proj2 (Z.eqb_neq M 0xffc0)),
      (proj2 (Z.eqb_neq M 0xffdd)), (proj2 (Z.eqb_neq M 0xffc4)), (proj2 (Z.eqb_neq M 0xffdb)) by lia.
    do 3 eexists. rewrite <- Hi, set_interval_same. split; [done|]. split; [cbn [iOffset at_offset]; lia|]. by constructor.
Qed.

(** ** The loop over the markers *)

Lemma markers_step (fuel : nat) m0 l0 (o : nat) i t m payload :
  m0 <> 0xffda -> Z.of_nat o < f.(iSize) -> (o < 1024)%nat -> 0xc0 <= m < 0xff -> Z.of_nat (2 + length payload) < 65536 ->
  holds_at buf o (marked_segment m payload) ->
  markers (S fuel) m0 l0 (reading (Z.of_nat o) i t)
  = let! (good, len, s) := segment (0xff00 + m) (Z.of_nat (2 + length payload)) (reading (Z.of_nat (o + 2)) i t) in
    if good : bool then markers fuel (0xff00 + m) len (at_offset s (s.(iOffset) + len)) else Ok (false, 0xff00 + m, len, s).
Proof using.
  intros Hm0 Ho Ho' Hm Hlen Hh. cbn [markers]. rewrite (proj2 (Z.eqb_neq m0 0xffda)) by done.
  cbn [iOffset p_file reading negb andb]. rewrite (proj2 (Z.ltb_lt _ _) Ho).
  unfold read_more at 1. cbn [iOffset reading]. rewrite (proj2 (Z.ltb_lt (Z.of_nat o) (JPEG_FILE_BUF_SIZE / 2))) by (change (JPEG_FILE_BUF_SIZE / 2) with 1024; lia).
  cbn [rbind p_buf iOffset reading].
  assert (Em : [0xff; m] = short (0xff00 + m)).
  { unfold short. f_equal; [|f_equal]; [apply (Z.div_unique_pos _ _ _ m)|apply (Z.mod_unique_pos _ _ 0xff)]; lia. }
  rewrite (short_holds buf o 0 _ (0xff00 + m) _ ltac:(lia) Hh) by first [lia | rewrite <- Em; done]. cbn [rbind].
  rewrite (short_holds buf o 2 _ (Z.of_nat (2 + length payload)) _ ltac:(lia) Hh) by (done || lia). cbn [rbind].
  rewrite (proj2 (Z.ltb_ge (0xff00 + m) 0xffc0)), (proj2 (Z.eqb_neq (0xff00 + m) 0xffff)) by lia. cbn [orb].
  by replace (Z.of_nat o + 2) with (Z.of_nat (o + 2)) by lia.
Qed.

Definition segments_bytes (segs : list segment_of) : list Z := concat (map seg_bytes segs).

Lemma seg_marker_range s : seg_wf s -> 0xc0 <= seg_marker s < 0xff /\ seg_marker s <> 0xda.
Proof using. destruct s; cbn; lia. Qed.

Lemma length_seg_bytes s : length (seg_bytes s) = (4 + length (seg_payload s))%nat.
Proof using. done. Qed.

Lemma markers_segments segs : forall (fuel : nat) m0 l0 (o : nat) h i t,
  m0 <> 0xffda -> Forall seg_wf segs -> (o + length (segments_bytes segs) <= 1024)%nat ->
  Z.of_nat (o + length (segments_bytes segs)) <= f.(iSize) ->
  holds_at buf o (segments_bytes segs) -> header_read h i t ->
  let h' := fold_left add_segment segs h in
  exists m l t', m <> 0xffda /\
    markers (length segs + fuel) m0 l0 (reading (Z.of_nat o) i t)
    = markers fuel m l (reading (Z.of_nat (o + length (segments_bytes segs))) (set_interval i h'.(h_interval)) t') /\
    header_read h' (set_interval i h'.(h_interval)) t'.
Proof using.
  induction segs as [|s segs IH]; intros fuel m0 l0 o h i t Hm0 Hwf Ho Hsz Hh Hr h'.
  { exists m0, l0, t. unfold h'. cbn [fold_left]. rewrite <- (hr_interval _ _ _ Hr), set_interval_same. by rewrite Nat.add_0_r. }
  apply Forall_cons in Hwf as [Hs Hwf]. unfold segments_bytes in *. cbn [map concat] in *. rewrite length_app in *.
  pose proof (length_seg_bytes s) as Els.
  apply holds_app in Hh as [Hh1 Hh]. cbn [length Nat.add]. rewrite (markers_step _ _ _ _ _ _ (seg_marker s) (seg_payload s)); try done; try lia.
  2: by apply seg_marker_range.
  unfold seg_bytes, marked_segment in Hh1. apply holds_app in Hh1 as [_ Hh1]. cbn [length] in Hh1.
  destruct (segment_ok h s (o + 2) i t Hs ltac:(lia) Hh1 Hr) as (len & o' & t1 & E & Eo & Hr1).
  rewrite E. cbn [rbind]. unfold at_offset, reading. cbn [iOffset p_file p_buf iBytesRead iFilePos p_info p_tables].
  replace (o' + len) with (Z.of_nat (o + length (seg_bytes s))) by lia.
  destruct (IH fuel (0xff00 + seg_marker s) len (o + length (seg_bytes s))%nat _ _ _
              ltac:(pose proof (seg_marker_range s Hs); lia) Hwf ltac:(lia) ltac:(lia) Hh Hr1) as (m & l & t' & Hm & E' & Hr').
  exists m, l, t'. rewrite Nat.add_assoc. split; [done|]. split; [exact E'|exact Hr'].
Qed.
End Parse.

(** ** The frame header and the scan header *)

(** A component: its identifier and the numbers of its tables. *)
Record component := mk_component { c_id : Z; c_quant : Z; c_dc : Z; c_ac : Z }.

(** Only the first component of a color image is sampled more than once in an MCU. *)
Definition frame_payload (sub : Z) (Wd Ht : nat) (cs : list component) : list Z :=
  [8] ++ short (Z.of_nat Ht) ++ short (Z.of_nat Wd) ++ [Z.of_nat (length cs)] ++
  concat (imap (fun k c => [c.(c_id); if (k =? 0)%nat && negb (sub =? 0) then sub else 0x11; c.(c_quant)]) cs).

Definition scan_payload (cs : list component) : list Z :=
  [Z.of_nat (length cs)] ++ concat (map (fun c => [c.(c_id); c.(c_dc) * 16 + c.(c_ac)]) cs) ++ [0; 63; 0].

(** The decoder takes the tables 0 for a gray image; it puts only the tables with the
    numbers of components into the order of rows. *)
Definition components_wf (sub : Z) (cs : list component) : Prop :=
  if sub =? 0 then exists id, cs = [mk_component id 0 0 0]
  else exists a b c, cs = [a; b; c] /\ a.(c_id) <> b.(c_id) /\ a.(c_id) <> c.(c_id) /\ b.(c_id) <> c.(c_id) /\
    Forall (fun c => 0 <= c.(c_quant) < 3 /\ 0 <= c.(c_dc) <= 1 /\ 0 <= c.(c_ac) <= 1) cs.

Definition blank_comp : JPEGCOMPINFO := mk_comp 0 0 0 0 0 0.

Definition frame_comps (sub : Z) (cs : list component) : list JPEGCOMPINFO :=
  if sub =? 0 then replicate 4 blank_comp
  else imap (fun k c => mk_comp 0 c.(c_id) (Z.of_nat k) c.(c_quant) 0 0) cs ++ [blank_comp].

Definition scan_comps (sub : Z) (cs : list component) : list JPEGCOMPINFO :=
  if sub =? 0 then replicate 4 blank_comp
  else imap (fun k c => mk_comp 1 c.(c_id) (Z.of_nat k) c.(c_quant) c.(c_dc) c.(c_ac)) cs ++ [blank_comp].

(** What the frame header leaves. *)
Record frame_read (sub : Z) (Wd Ht : nat) (comps : list JPEGCOMPINFO) (i : info) : Prop := {
  fr_width : i.(iWidth) = Z.of_nat Wd;
  fr_height : i.(iHeight) = Z.of_nat Ht;
  fr_bpp : i.(ucBpp) = 8 * component_count sub;
  fr_sub : i.(ucSubSample) = sub;
  fr_mode : i.(ucMode) = 0xc0;
  fr_number : i.(ucNumComponents) = component_count sub;
  fr_comps : i.(JPCI) = comps;
}.

(** The byte at index [k] of what [H] says the buffer holds. *)
Ltac read_byte H k := rewrite (get_holds _ _ k _ _ _ H eq_refl) by lia; cbn [rbind].

Section Frame.
Context (f : JPEGFILE) (buf : list Z) (n : Z).

(** One turn of the loop over the components. *)
Lemma frame_component (k : nat) (j : Z) (p : nat) len sub0 cs c id samp q :
  holds_at buf p [id; samp; q] -> cs !! Z.to_nat j = Some c -> q <= 3 ->
  frame_components (S k) j buf (Z.of_nat p) len sub0 cs
  = frame_components k (j + 1) buf (Z.of_nat (p + 3)) (u16 (len - 3)) (if j =? 0 then samp else sub0)
      (<[Z.to_nat j := mk_comp c.(component_needed) id j q c.(dc_tbl_no) c.(ac_tbl_no)]> cs).
Proof using.
  intros H Hc Hq. cbn [frame_components]. rewrite Hc. read_byte H 0%nat. read_byte H 1%nat. read_byte H 2%nat.
  rewrite (proj2 (Z.ltb_ge 3 q)) by lia. by replace (Z.of_nat p + 3) with (Z.of_nat (p + 3)) by lia.
Qed.

Lemma frame_components_ok (p : nat) sub sub0 a b c : sub <> 0 ->
  Forall (fun c => 0 <= c.(c_quant) < 3 /\ 0 <= c.(c_dc) <= 1 /\ 0 <= c.(c_ac) <= 1) [a; b; c] ->
  holds_at buf p ([c_id a; sub; c_quant a] ++ [c_id b; 0x11; c_quant b] ++ [c_id c; 0x11; c_quant c]) ->
  frame_components 3 0 buf (Z.of_nat p) 9 sub0 (replicate 4 blank_comp)
  = Ok (true, Z.of_nat (p + 9), 0, sub, frame_comps sub [a; b; c]).
Proof using.
  intros Hsub Hcs Hh. rewrite !Forall_cons in Hcs. destruct Hcs as ([Ha _] & [Hb _] & [Hc _] & _).
  apply holds_app in Hh as [Hh1 Hh]. apply holds_app in Hh as [Hh2 Hh3]. cbn [length] in *.
  rewrite (frame_component _ _ _ _ _ _ blank_comp _ _ _ Hh1) by (done || lia).
  rewrite (frame_component _ _ _ _ _ _ blank_comp _ _ _ Hh2) by (done || lia).
  rewrite (frame_component _ _ _ _ _ _ blank_comp _ _ _ Hh3) by (done || lia).
  unfold frame_comps. rewrite (proj2 (Z.eqb_neq sub 0) Hsub). cbn [frame_components].
  by replace (p + 3 + 3 + 3)%nat with (p + 9)%nat by lia.
Qed.

Lemma frame_ok sub (Wd Ht : nat) cs (o : nat) i t :
  components_wf sub cs -> Z.of_nat Wd < 65536 -> Z.of_nat Ht < 65536 -> i.(JPCI) = replicate 4 blank_comp ->
  let payload := frame_payload sub Wd Ht cs in
  holds_at buf o (short (Z.of_nat (2 + length payload)) ++ payload) ->
  exists len o' i', segment 0xffc0 (Z.of_nat (2 + length payload)) (reading f buf n (Z.of_nat o) i t)
      = Ok (true, len, reading f buf n o' i' t) /\
    o' + len = Z.of_nat (o + 2 + length payload) /\ i'.(iResInterval) = i.(iResInterval) /\
    frame_read sub Wd Ht (frame_comps sub cs) i'.
Proof using.
  intros Hcs HW HH Hj payload Hh. unfold segment, reading. cbn [p_buf iOffset p_info p_tables].
  cbn -[get MOTOSHORT frame_components Z.of_nat rbind payload Nat.add].
  rewrite Hj. unfold components_wf in Hcs. destruct (sub =? 0) eqn:E0.
  - apply Z.eqb_eq in E0 as ->. destruct Hcs as [id ->]. read_byte Hh 2%nat.
    rewrite (short_holds _ _ 3 _ (Z.of_nat Ht) _ ltac:(lia) Hh eq_refl) by lia. cbn [rbind].
    rewrite (short_holds _ _ 5 _ (Z.of_nat Wd) _ ltac:(lia) Hh eq_refl) by lia. cbn [rbind]. read_byte Hh 7%nat.
    cbn -[replicate]. do 3 eexists. split; [done|]. split; [cbn; lia|]. done.
  - destruct Hcs as (a & b & c & -> & _ & _ & _ & Hcs). apply Z.eqb_neq in E0.
    set (comps := [c_id a; sub; c_quant a] ++ [c_id b; 0x11; c_quant b] ++ [c_id c; 0x11; c_quant c]).
    assert (Epay : payload = ([8] ++ short (Z.of_nat Ht) ++ short (Z.of_nat Wd) ++ [3]) ++ comps).
    { unfold payload, frame_payload. cbn -[short]. by rewrite (proj2 (Z.eqb_neq sub 0) E0). }
    clearbody payload. subst payload. change (length (_ ++ comps)) with 15%nat in *. read_byte Hh 2%nat.
    rewrite (short_holds _ _ 3 _ (Z.of_nat Ht) _ ltac:(lia) Hh eq_refl) by lia. cbn [rbind].
    rewrite (short_holds _ _ 5 _ (Z.of_nat Wd) _ ltac:(lia) Hh eq_refl) by lia. cbn [rbind]. read_byte Hh 7%nat.
    apply holds_app in Hh as [_ Hh]. apply holds_app in Hh as [_ Hh].
    change (3 =? 1) with false. cbv iota. change (u16 (Z.of_nat (2 + 15) - 8)) with 9. change (Z.to_nat 3) with 3%nat.
    replace (Z.of_nat o + 8) with (Z.of_nat (o + 2 + 6)) by lia.
    rewrite (frame_components_ok _ _ _ _ _ _ E0 Hcs Hh). cbn [rbind].
    do 3 eexists. split; [done|]. split; [cbn -[Z.of_nat Z.add]; lia|]. split; [done|].
    constructor; unfold component_count; rewrite ?(proj2 (Z.eqb_neq sub 0) E0); done.
Qed.

Lemma scan_step (k p : nat) comps (j : nat) id td ta :
  holds_at buf p [id; td * 16 + ta] -> find_component comps id = j -> j <> 4%nat -> 0 <= td <= 1 -> 0 <= ta <= 1 ->
  scan_components (S k) buf (Z.of_nat p) comps
  = scan_components k buf (Z.of_nat (p + 2))
      (alter (fun x => mk_comp 1 x.(component_id) x.(component_index) x.(quant_tbl_no) td ta) j comps).
Proof using.
  intros H Hj Hne Htd Hta. cbn [scan_components]. read_byte H 0%nat. read_byte H 1%nat.
  rewrite Hj, (proj2 (Nat.eqb_neq j 4) Hne). replace (Z.of_nat p + 2) with (Z.of_nat (p + 2)) by lia.
  unfold scan_component.
  assert (td = 0 \/ td = 1) as [-> | ->] by lia; assert (ta = 0 \/ ta = 1) as [-> | ->] by lia; done.
Qed.

Lemma scan_components_ok (p : nat) sub cs : sub <> 0 -> components_wf sub cs ->
  holds_at buf p (concat (map (fun c => [c.(c_id); c.(c_dc) * 16 + c.(c_ac)]) cs)) ->
  scan_components 3 buf (Z.of_nat p) (map (set_needed 0) (frame_comps sub cs)) = Ok (true, Z.of_nat (p + 6), scan_comps sub cs).
Proof using.
  intros Hs Hcs Hh. unfold components_wf, frame_comps, scan_comps in *. rewrite (proj2 (Z.eqb_neq sub 0) Hs) in *.
  destruct Hcs as (a & b & c & -> & Hab & Hac & Hbc & Hcs). rewrite !Forall_cons in Hcs.
  destruct Hcs as ((_ & Ha1 & Ha2) & (_ & Hb1 & Hb2) & (_ & Hc1 & Hc2) & _).
  cbn [map concat] in Hh. apply holds_app in Hh as [H1 Hh]. apply holds_app in Hh as [H2 Hh].
  apply holds_app in Hh as [H3 _]. cbn [length] in *.
  assert (Eab : (c_id a =? c_id b) = false) by by apply Z.eqb_neq. assert (Eac : (c_id a =? c_id c) = false) by by apply Z.eqb_neq.
  assert (Ebc : (c_id b =? c_id c) = false) by by apply Z.eqb_neq.
  rewrite (scan_step _ _ _ 0 _ _ _ H1); [|cbn; by rewrite Z.eqb_refl|done..].
  rewrite (scan_step _ _ _ 1 _ _ _ H2); [|cbn; by rewrite Eab, Z.eqb_refl|done..].
  rewrite (scan_step _ _ _ 2 _ _ _ H3); [|cbn; by rewrite Eac, Ebc, Z.eqb_refl|done..].
  cbn [scan_components]. by replace (p + 2 + 2 + 2)%nat with (p + 6)%nat by lia.
Qed.

Lemma sos_ok sub cs (o : nat) i : sub <> 0 -> components_wf sub cs -> i.(JPCI) = frame_comps sub cs ->
  holds_at buf o (short (Z.of_nat (2 + length (scan_payload cs))) ++ scan_payload cs) ->
  exists sc, JPEGGetSOS buf (Z.of_nat o) i
    = Ok (0, set_scan i (scan_comps sub cs) sc, Z.of_nat (o + 2 + length (scan_payload cs))).
Proof using.
  intros Hs Hcs Hj Hh.
  assert (H3 : exists a b c, cs = [a; b; c]).
  { unfold components_wf in Hcs. rewrite (proj2 (Z.eqb_neq sub 0) Hs) in Hcs. destruct Hcs as (a & b & c & -> & _). by exists a, b, c. }
  assert (El : length (scan_payload cs) = 10%nat) by (by destruct H3 as (a & b & c & ->)).
  unfold JPEGGetSOS. rewrite El in *. rewrite (short_holds _ _ 0 _ 12 _ ltac:(lia) Hh eq_refl) by lia. cbn [rbind].
  assert (Hh3 : holds_at buf (o + 2) ([3] ++ concat (map (fun c => [c.(c_id); c.(c_dc) * 16 + c.(c_ac)]) cs) ++ [0; 63; 0])).
  { apply holds_app in Hh as [_ Hh]. by destruct H3 as (a & b & c & ->). }
  apply holds_app in Hh3 as [Hn Hh3]. apply holds_app in Hh3 as [Hc He].
  assert (El6 : length (concat (map (fun c => [c.(c_id); c.(c_dc) * 16 + c.(c_ac)]) cs)) = 6%nat) by (by destruct H3 as (a & b & c & ->)).
  rewrite El6 in He. cbn [length] in *. read_byte Hn 0%nat. change (Z.to_nat 3) with 3%nat.
  change ((3 <? 1) || (MAX_COMPS_IN_SCAN <? 3) || negb (i16 (i16 12 - 3) =? 3 * 2 + 3)) with false. cbv iota.
  replace (Z.of_nat o + 3) with (Z.of_nat (o + 2 + 1)) by lia. rewrite Hj, (scan_components_ok _ _ _ Hs Hcs Hc). cbn [rbind].
  read_byte He 0%nat. read_byte He 1%nat. read_byte He 2%nat. eexists. do 2 f_equal. lia.
Qed.
End Frame.

(** ** The file *)

(** A picture: its tables in the segments before and behind the frame header, and the
    coefficients of its MCUs, quantized and in zigzag order. *)
Record picture := mk_picture {
  pc_width : nat;
  pc_height : nat;
  pc_sub : Z;
  pc_components : list component;
  pc_before : list segment_of;
  pc_after : list segment_of;
  pc_mcus : list (list (list Z));
}.

Definition pc_header (p : picture) : header := fold_left add_segment (p.(pc_before) ++ p.(pc_after)) no_header.

(** The Huffman tables and the quantization tables of the components. *)
Definition pc_huffman (p : picture) (c : component) : huffman * huffman :=
  let table j := default (mk_huffman [] []) ((pc_header p).(h_huffman) j) in (table c.(c_dc), table (4 + c.(c_ac))).
Definition pc_tables (p : picture) : list (huffman * huffman) := map (pc_huffman p) p.(pc_components).
Definition pc_quant (p : picture) (j : nat) : list Z :=
  (pc_header p).(h_quant) (c_quant (nth j p.(pc_components) (mk_component 0 0 0 0))).

Definition header_bytes (p : picture) : list Z :=
  [0xff; 0xd8] ++ segments_bytes p.(pc_before) ++
  marked_segment 0xc0 (frame_payload p.(pc_sub) p.(pc_width) p.(pc_height) p.(pc_components)) ++
  segments_bytes p.(pc_after) ++ marked_segment 0xda (scan_payload p.(pc_components)).

(** The file; [None] when a table has no code for a coefficient. *)
Definition encode (p : picture) : option (list Z) :=
  let R := (pc_header p).(h_interval) in
  ivs ← intervals (pc_tables p) (mcu_components p.(pc_sub)) R R [0; 0; 0] [] p.(pc_mcus);
  Some (header_bytes p ++ marked 0 ivs).

(** Headers the decoder reads as they are meant: tables 0 and 1 with codes of at most
    12 and 16 bits as [tables_wf] says, components as [components_wf] says, all within
    the first half of the file buffer.  The sampling factors do not matter. *)
Record headers_wf (p : picture) : Prop := {
  hw_width : 0 < Z.of_nat p.(pc_width) < 65536;
  hw_height : Z.of_nat p.(pc_height) < 65536;
  hw_components : components_wf p.(pc_sub) p.(pc_components);
  hw_segments : Forall seg_wf (p.(pc_before) ++ p.(pc_after));
  hw_tables : tables_wf (pc_header p).(h_huffman);
  hw_defined : Forall (fun c => is_Some ((pc_header p).(h_huffman) c.(c_dc)) /\
                                is_Some ((pc_header p).(h_huffman) (4 + c.(c_ac)))) p.(pc_components);
  hw_header : (length (header_bytes p) <= 1024)%nat;
}.

(** What the decoder supports: besides, the sampling factors of [mcu_grid], as many
    MCUs as the size asks for, MCUs of at most 440 bytes. *)
Record picture_wf (p : picture) : Prop := {
  pw_headers : headers_wf p;
  pw_sub : supported p.(pc_sub);
  pw_mcus : length p.(pc_mcus) = (lines p.(pc_sub) p.(pc_height) * columns p.(pc_sub) p.(pc_width))%nat;
  pw_small : small_mcus (pc_tables p) (mcu_components p.(pc_sub)) (pc_header p).(h_interval) (pc_header p).(h_interval)
               [0; 0; 0] p.(pc_mcus);
}.

Lemma frame_read_interval sub Wd Ht comps i r : frame_read sub Wd Ht comps i -> frame_read sub Wd Ht comps (set_interval i r).
Proof. by intros []. Qed.

Lemma frame_read_scan sub Wd Ht comps comps' i sc : frame_read sub Wd Ht comps i -> frame_read sub Wd Ht comps' (set_scan i comps' sc).
Proof. by intros []. Qed.

Lemma frame_payload_length sub Wd Ht cs : components_wf sub cs -> (length (frame_payload sub Wd Ht cs) <= 15)%nat.
Proof.
  unfold components_wf. destruct (sub =? 0); [intros [id ->]|intros (a & b & c & -> & _)]; cbn; lia.
Qed.

Lemma scan_payload_length sub cs : components_wf sub cs -> (length (scan_payload cs) <= 10)%nat.
Proof.
  unfold components_wf. destruct (sub =? 0); [intros [id ->]|intros (a & b & c & -> & _)]; cbn; lia.
Qed.

Lemma length_marked_segment m payload : length (marked_segment m payload) = (4 + length payload)%nat.
Proof. done. Qed.

(** Where the parts of the headers are. *)
Lemma header_layout (p : picture) buf : holds_at buf 0 (header_bytes p) ->
  let frame := frame_payload p.(pc_sub) p.(pc_width) p.(pc_height) p.(pc_components) in
  exists o1 o2, (2 + length (segments_bytes p.(pc_before)) = o1)%nat /\
    (o1 + 4 + length frame + length (segments_bytes p.(pc_after)) = o2)%nat /\
    (o2 + 4 + length (scan_payload p.(pc_components)) = length (header_bytes p))%nat /\
    holds_at buf 2 (segments_bytes p.(pc_before)) /\
    holds_at buf o1 (marked_segment 0xc0 frame) /\
    holds_at buf (o1 + 4 + length frame) (segments_bytes p.(pc_after)) /\
    holds_at buf o2 (marked_segment 0xda (scan_payload p.(pc_components))).
Proof.
  intros Hh. do 2 eexists. split; [done|]. split; [done|]. unfold header_bytes in *.
  rewrite !length_app, !length_marked_segment. cbn [length]. split; [lia|].
  apply holds_app in Hh as [_ Hh]. apply holds_app in Hh as [H1 Hh]. apply holds_app in Hh as [H2 Hh].
  apply holds_app in Hh as [H3 H4]. rewrite length_marked_segment, ?Nat.add_assoc in *. by split_and!.
Qed.

Lemma marked_behind buf o m payload : holds_at buf o (marked_segment m payload) ->
  holds_at buf (o + 2) (short (Z.of_nat (2 + length payload)) ++ payload).
Proof. intros H. by apply holds_app in H as [_ H]. Qed.

(** The loop over the markers reads all headers. *)
Lemma headers_ok (p : picture) f buf n (k : nat) i t :
  headers_wf p -> Z.of_nat (length (header_bytes p)) <= f.(iSize) -> holds_at buf 0 (header_bytes p) ->
  header_read no_header i t -> i.(JPCI) = replicate 4 blank_comp ->
  exists i' t',
    markers (length p.(pc_before) + S (length p.(pc_after) + S k)) 0 0 (reading f buf n 2 i t)
    = Ok (true, 0xffda, Z.of_nat (2 + length (scan_payload p.(pc_components))),
          reading f buf n (Z.of_nat (length (header_bytes p))) i' t') /\
    header_read (pc_header p) i' t' /\
    frame_read p.(pc_sub) p.(pc_width) p.(pc_height) (frame_comps p.(pc_sub) p.(pc_components)) i'.
Proof.
  intros [HW HH Hcs Hseg _ _ Hlen] Hsz Hh Hr Hj. apply Forall_app in Hseg as [Hs1 Hs2].
  set (frame := frame_payload (pc_sub p) (pc_width p) (pc_height p) (pc_components p)).
  pose proof (frame_payload_length _ (pc_width p) (pc_height p) _ Hcs : length frame <= 15)%nat as Hl1.
  pose proof (scan_payload_length _ _ Hcs) as Hl2.
  destruct (header_layout p buf Hh) as (o1 & o2 & Eo1 & Eo2 & El & H1 & H2 & H3 & H4). fold frame in Eo2, H2, H3.
  destruct (markers_segments f buf n _ (S (length (pc_after p) + S k)) 0 0 2 _ i t ltac:(done) Hs1 ltac:(lia) ltac:(lia) H1 Hr)
    as (m1 & x1 & t1 & Hm1 & E1 & Hr1). rewrite Eo1 in E1. change 2 with (Z.of_nat 2). rewrite E1.
  rewrite (markers_step f buf n _ _ _ o1 _ _ 0xc0 frame Hm1 ltac:(lia) ltac:(lia) ltac:(lia) ltac:(lia) H2).
  apply marked_behind in H2. set (h1 := fold_left add_segment (pc_before p) no_header) in *.
  destruct (frame_ok f buf n _ _ _ _ (o1 + 2) (set_interval i (h_interval h1)) t1 Hcs (proj2 HW) HH Hj H2)
    as (x2 & o2' & i2 & E2 & Ex2 & Ei2 & Hf2). fold frame in E2, Ex2.
  change (0xff00 + 0xc0) with 0xffc0. rewrite E2. cbn [rbind].
  change (at_offset (reading f buf n o2' i2 t1) _) with (reading f buf n (o2' + x2) i2 t1). rewrite Ex2.
  replace (o1 + 2 + 2 + length frame)%nat with (o1 + 4 + length frame)%nat by lia.
  assert (Hr2 : header_read h1 i2 t1) by (destruct Hr1; constructor; by rewrite ?Ei2).
  destruct (markers_segments f buf n _ (S k) 0xffc0 x2 (o1 + 4 + length frame)%nat _ i2 t1 ltac:(done) Hs2 ltac:(lia) ltac:(lia) H3 Hr2) as (m3 & x3 & t3 & Hm3 & E3 & Hr3).
  rewrite Eo2 in E3. rewrite E3. clear E1 E2 E3.
  rewrite (markers_step f buf n _ _ _ o2 _ _ 0xda (scan_payload (pc_components p)) Hm3 ltac:(lia) ltac:(lia) ltac:(lia) ltac:(lia) H4).
  assert (Eh : fold_left add_segment (pc_after p) h1 = pc_header p) by (unfold h1, pc_header; by rewrite fold_left_app).
  eexists _, t3. rewrite Eh in *. split; [|split; [exact Hr3|by apply frame_read_interval] ].
  change (segment (0xff00 + 0xda) ?l ?s) with (Ok (true, l, s)). cbn [rbind].
  change (at_offset (reading f buf n ?o ?i3 t3) _) with (reading f buf n (o + Z.of_nat (2 + length (scan_payload (pc_components p)))) i3 t3).
  rewrite <- El. replace (Z.of_nat (o2 + 2) + _) with (Z.of_nat (o2 + 4 + length (scan_payload (pc_components p)))) by lia.
  by destruct k.
Qed.

(** ** Opening the file *)

Lemma scan_comps_lookup sub cs j c : components_wf sub cs -> cs !! j = Some c ->
  (exists x, scan_comps sub cs !! j = Some x /\ x.(quant_tbl_no) = c.(c_quant) /\ x.(dc_tbl_no) = c.(c_dc) /\ x.(ac_tbl_no) = c.(c_ac)) /\
  0 <= c.(c_quant) < component_count sub /\ component_count sub <= 3 /\ 0 <= c.(c_dc) <= 1 /\ 0 <= c.(c_ac) <= 1.
Proof.
  unfold components_wf, scan_comps, component_count. destruct (sub =? 0).
  - intros [id ->] Hj. apply list_lookup_singleton_Some in Hj as [-> <-]. cbn. split; [by exists blank_comp|lia].
  - intros (a & b & d & -> & _ & _ & _ & Hcs) Hj. rewrite Forall_forall in Hcs.
    pose proof (Hcs c (list_elem_of_lookup_2 _ _ _ Hj)) as Hc. split; [|lia].
    eexists. split; [apply lookup_app_l_Some; rewrite list_lookup_imap, Hj; done|done].
Qed.

Lemma tables_ok p i t : headers_wf p -> header_read (pc_header p) i t ->
  exists dc ac, let t' := mk_tables t.(ucHuffTableUsed) t.(pHuffVals) t.(sQuantTable) dc ac in
    JPEGMakeHuffTables 0xc0 t = Ok (1, t') /\
    all_component_tables t' (scan_comps p.(pc_sub) p.(pc_components)) (pc_tables p).
Proof.
  intros [_ _ Hcs _ Hwf Hdef _] [(_ & _ & Hhu) _ Hdc Hac _].
  assert (Hread : tables_read (h_huffman (pc_header p)) t) by (destruct t; apply Hhu).
  destruct (make_huff_tables _ 0xc0 t Hwf Hread ltac:(done) Hdc Hac) as (dc & ac & E & _ & _ & Hdec).
  exists dc, ac. split; [done|]. intros j h Hj. apply list_lookup_fmap_Some in Hj as (c & -> & Hj).
  destruct (scan_comps_lookup _ _ _ _ Hcs Hj) as ((x & Hx & Eq & Ed & Ea) & Hq & Hn & Hd & Ha).
  rewrite Forall_forall in Hdef. destruct (Hdef c (list_elem_of_lookup_2 _ _ _ Hj)) as [[h1 E1] [h2 E2] ].
  exists x. split; [done|]. split; [lia|]. unfold pc_huffman. rewrite E1, E2, Ed, Ea. cbn [default fst snd].
  pose proof (Hdec _ _ E1) as D1. pose proof (Hdec _ _ E2) as D2.
  rewrite (proj2 (Z.ltb_lt (c_dc c) 4)) in D1 by lia. rewrite (proj2 (Z.ltb_ge (4 + c_ac c) 4)) in D2 by lia.
  replace (4 + c_ac c - 4) with (c_ac c) in D2 by lia. constructor; try done; try lia.
  - by apply (tw_dc _ Hwf _ _ E1); lia.
  - by apply (tw_ac _ Hwf _ _ E2); lia.
Qed.

(** The data behind the headers. *)
Lemma start_stream data (h n : nat) buf bits :
  Forall Crc.is_byte data -> (forall a n, (n <= 2048)%nat -> (count_ff (between data a (a + n)) <= 31)%nat) ->
  n = Nat.min (length data) 2048 -> (h < n)%nat -> length buf = 2048%nat -> Forall Crc.is_byte buf -> take n buf = take n data ->
  bits.(pBuf) = 0 ->
  exists buf' k ff inp pos,
    JPEGFilter buf (Z.of_nat h) 0 (Z.of_nat n - Z.of_nat h) false = Ok (k, buf', ff) /\
    JPEGGetMoreData (mk_input (mk_file (Z.of_nat n) (Z.of_nat (length data)) data) buf' 0 k ff bits) = Ok inp /\
    stream data h 0 inp pos /\ filled data inp pos /\ inp.(iVLCOff) = 0.
Proof.
  intros Hbytes Hdense Hn Hh Hl Hb Ht Hbits.
  destruct (JPEGFilter_ok buf h 0 (n - h) false ltac:(lia) ltac:(lia) ltac:(lia)) as (buf' & out & ff & E & Hu & Htk & Hle & Hl' & Hb').
  replace (h + (n - h))%nat with n in * by lia. replace (Z.of_nat (n - h)) with (Z.of_nat n - Z.of_nat h) in E by lia.
  assert (Eb : between buf h n = between data h n).
  { unfold between. by rewrite <- !skipn_firstn_comm, Ht. }
  rewrite Eb in Hu. destruct (scan_prefix data h n out ff ltac:(lia) Hu) as [rest Erest].
  set (p := mk_input (mk_file (Z.of_nat n) (Z.of_nat (length data)) data) buf' 0 (Z.of_nat (length out)) ff bits).
  assert (Hs : stream data h 0 p n).
  { constructor; cbn [p JPEGFile iVLCSize ucFF ucFileBuf]; rewrite ?Nat2Z.id, ?Nat.add_0_l.
    - constructor; cbn [p ucFileBuf iVLCSize]; rewrite ?Nat2Z.id; [by apply Hb'|unfold JPEG_FILE_BUF_SIZE; lia..| |].
      + rewrite drop_0, Erest, take_app_length. by rewrite Nat.add_0_l in Htk.
      + rewrite Erest, length_app. lia.
    - done.
    - lia.
    - by rewrite Erest, take_app_length. }
  destruct (get_more_ok data h Hbytes Hdense 0 p n Hs ltac:(cbn; lia) ltac:(done) ltac:(by left)) as (inp & pos & E2 & Hs2 & Hf & Ho & _).
  exists buf', (Z.of_nat (length out)), ff, inp, pos. by split_and!.
Qed.

(** The scan header; it is not read for a gray image. *)
Lemma scan_header_ok p f buf n (h : nat) i t :
  let cs := p.(pc_components) in let len := (2 + length (scan_payload cs))%nat in
  components_wf p.(pc_sub) cs -> (len <= h)%nat -> holds_at buf (h - len) (short (Z.of_nat len) ++ scan_payload cs) ->
  frame_read p.(pc_sub) p.(pc_width) p.(pc_height) (frame_comps p.(pc_sub) cs) i ->
  let s := reading f buf n (Z.of_nat h) i t in
  exists i',
    (if s.(p_info).(ucBpp) =? 8 then Ok (s, s.(p_info))
     else let! (_, i, o) := JPEGGetSOS s.(p_buf) (s.(iOffset) - Z.of_nat len) s.(p_info) in Ok (at_offset s o, i)) = Ok (s, i') /\
    i'.(iResInterval) = i.(iResInterval) /\
    frame_read p.(pc_sub) p.(pc_width) p.(pc_height) (scan_comps p.(pc_sub) cs) i'.
Proof.
  intros cs len Hcs Hle Hh Hf s. cbn [s reading p_info p_buf iOffset]. rewrite (fr_bpp _ _ _ _ _ Hf). unfold component_count.
  destruct (Z.eqb_spec (pc_sub p) 0) as [E0|E0].
  - exists i. split; [done|]. split; [done|]. unfold frame_comps, scan_comps in *. by rewrite E0 in *.
  - change (8 * 3 =? 8) with false. cbv iota. replace (Z.of_nat h - Z.of_nat len) with (Z.of_nat (h - len)) by lia.
    destruct (sos_ok buf (pc_sub p) cs (h - len) i E0 Hcs (fr_comps _ _ _ _ _ Hf) Hh) as [sc E]. rewrite E. cbn [rbind].
    exists (set_scan i (scan_comps (pc_sub p) cs) sc). split; [|split; [done|by eapply frame_read_scan] ].
    replace (h - len + 2 + length (scan_payload cs))%nat with h by (unfold len in *; lia). done.
Qed.

Lemma holds_prefix (a b : list Z) (n : nat) buf : (length a <= n)%nat -> take n buf = take n (a ++ b) -> holds_at buf 0 a.
Proof.
  intros Hl Ht. exists (take (n - length a) b ++ drop n buf). rewrite drop_0, app_assoc, <- (take_drop n buf) at 1. f_equal.
  by rewrite Ht, take_app_ge by done.
Qed.

Lemma length_segments segs : (length segs <= length (segments_bytes segs))%nat.
Proof. apply length_concat_ge. intros s. rewrite length_seg_bytes. lia. Qed.

Lemma blank_header_read data : header_read no_header (im_info (blank_image data)) (im_tables (blank_image data)).
Proof.
  constructor; cbn [blank_image im_info im_tables ucHuffTableUsed pHuffVals sQuantTable ucHuffDC usHuffAC iResInterval].
  - unfold huffman_read. split; [done|]. split; [done|]. intros dc ac q j Hj. cbn. apply Z.bits_0.
  - split; [done|]. intros no Hno. cbn [no_header h_quant].
    assert (no = 0 \/ no = 1 \/ no = 2 \/ no = 3) as [-> | [-> | [-> | ->] ] ] by lia; done.
  - done.
  - done.
  - done.
Qed.

(** The image as [openRAM] leaves it. *)
Lemma opened_ok data (h : nat) p i t dc ac inp pos :
  headers_wf p -> header_read (pc_header p) i t ->
  frame_read p.(pc_sub) p.(pc_width) p.(pc_height) (scan_comps p.(pc_sub) p.(pc_components)) i ->
  let t' := mk_tables t.(ucHuffTableUsed) t.(pHuffVals) t.(sQuantTable) dc ac in
  all_component_tables t' (scan_comps p.(pc_sub) p.(pc_components)) (pc_tables p) ->
  stream data h 0 inp pos -> filled data inp pos -> inp.(iVLCOff) = 0 ->
  opened data h p.(pc_sub) p.(pc_width) p.(pc_height) (pc_tables p) (pc_quant p)
    (setMaxOutputSize MAX_MCU (mk_image i t' inp (zeros (2 * (DCTSIZE * MAX_MCU_COUNT))) 1000)) pos.
Proof.
  intros Hwf [(Hlv & _ & _) [Hlq Hq] _ _ _] [Hw Hh _ Hs _ Hn Hc] t' Hct Hst Hfl Ho.
  constructor; cbn [setMaxOutputSize im_info im_tables im_input Jpeg.sMCUs sQuantTable pHuffVals t' iMaxMCUs]; try done.
  - by rewrite Hc.
  - intros j x [hh Hj] Hx. apply list_lookup_fmap_Some in Hj as (c & _ & Hj). rewrite Hc in Hx.
    destruct (scan_comps_lookup _ _ _ _ (hw_components _ Hwf) Hj) as ((x' & Hx' & Eq & _) & Hcq & Hn3 & _).
    rewrite Hx in Hx'. injection Hx' as <-. rewrite Eq. split; [lia|].
    unfold pc_quant. rewrite (nth_lookup_Some _ _ _ _ Hj). apply Hq. lia.
Qed.

(** The first read fills the buffer with the start of the file. *)
Lemma first_buffer data (n : nat) : Forall Crc.is_byte data -> n = Nat.min (length data) 2048 ->
  exists buf, put_all (zeros JPEG_FILE_BUF_SIZE) 0 (between data 0 n) = Ok buf /\
    length (between data 0 n) = n /\ length buf = 2048%nat /\ Forall Crc.is_byte buf /\ take n buf = take n data.
Proof.
  intros Hb Hn. assert (Hl : length (between data 0 n) = n) by (rewrite between_length; lia).
  assert (Hz : length (zeros JPEG_FILE_BUF_SIZE) = 2048%nat) by done.
  eexists. rewrite put_all_ok by lia. split; [done|]. change (Z.to_nat 0) with 0%nat. split; [done|].
  rewrite store_at_length by lia. split; [done|]. split.
  - unfold store_at, between. rewrite take_0, app_nil_l. apply Forall_app. split; [by apply Forall_take, Forall_drop|].
    apply Forall_drop, Forall_replicate. unfold Crc.is_byte. lia.
  - rewrite <- Hl at 1. unfold store_at. rewrite take_0, app_nil_l, take_app_length. unfold between. by rewrite drop_0, Nat.sub_0_r.
Qed.

Lemma start_of_scan_ok p data (h n : nat) buf i t :
  let f := mk_file (Z.of_nat n) (Z.of_nat (length data)) data in
  let len := (2 + length (scan_payload p.(pc_components)))%nat in
  headers_wf p -> Forall Crc.is_byte data -> (forall a n, (n <= 2048)%nat -> (count_ff (between data a (a + n)) <= 31)%nat) ->
  n = Nat.min (length data) 2048 -> (len <= h < n)%nat -> length buf = 2048%nat -> Forall Crc.is_byte buf -> take n buf = take n data ->
  holds_at buf (h - len) (short (Z.of_nat len) ++ scan_payload p.(pc_components)) ->
  header_read (pc_header p) i t ->
  frame_read p.(pc_sub) p.(pc_width) p.(pc_height) (frame_comps p.(pc_sub) p.(pc_components)) i ->
  exists im pos, start_of_scan (Z.of_nat len) (blank_image data) (reading f buf (Z.of_nat n) (Z.of_nat h) i t) = Ok (1, im) /\
    opened data h p.(pc_sub) p.(pc_width) p.(pc_height) (pc_tables p) (pc_quant p) (setMaxOutputSize MAX_MCU im) pos /\
    im.(im_info).(iResInterval) = (pc_header p).(h_interval).
Proof.
  intros f len Hwf Hbytes Hdense Hn Hh Hl Hb Ht Hsos Hr Hf. unfold start_of_scan.
  destruct (scan_header_ok p f buf (Z.of_nat n) h i t (hw_components _ Hwf) (proj1 Hh) Hsos Hf) as (i' & E & Ei & Hf').
  fold len in E. rewrite E. cbn [rbind]. rewrite (fr_mode _ _ _ _ _ Hf').
  destruct (tables_ok p i t Hwf Hr) as (dc & ac & Et & Hct). cbn [reading p_tables]. rewrite Et. cbn [rbind].
  change (1 =? 0) with false. cbv iota.
  destruct (start_stream data h n buf (mk_bits 0 0 0) Hbytes Hdense Hn (proj2 Hh) Hl Hb Ht eq_refl)
    as (buf' & m & ff & inp & pos & E1 & E2 & Hst & Hfl & Ho).
  cbn [with_tables reading p_file p_buf iBytesRead iOffset blank_image im_input ucFF bb]. rewrite E1. cbn [rbind].
  fold f in E2. rewrite E2. cbn [rbind Jpeg.sMCUs iMaxMCUs]. eexists _, pos. split; [done|].
  assert (Hr' : header_read (pc_header p) i' t) by (destruct Hr; constructor; by rewrite ?Ei).
  split; [by apply opened_ok|apply (hr_interval _ _ _ Hr')].
Qed.

Lemma openRAM_ok p tail :
  let data := header_bytes p ++ tail in
  headers_wf p -> tail <> [] -> (256 <= length data)%nat -> Forall Crc.is_byte data ->
  (forall a n, (n <= 2048)%nat -> (count_ff (between data a (a + n)) <= 31)%nat) ->
  exists im pos, openRAM data = Ok (1, im) /\
    opened data (length (header_bytes p)) p.(pc_sub) p.(pc_width) p.(pc_height) (pc_tables p) (pc_quant p)
      (setMaxOutputSize MAX_MCU im) pos /\
    im.(im_info).(iResInterval) = (pc_header p).(h_interval).
Proof.
  intros data Hwf Htail H256 Hbytes Hdense. unfold openRAM, JPEGInit, JPEGParseInfo.
  cbn [blank_image im_input JPEGFile ucFileBuf]. set (n := Nat.min (length data) 2048).
  set (h := length (header_bytes p)). pose proof (hw_header _ Hwf : h <= 1024)%nat as Hh1024.
  assert (Hhn : (h < n)%nat).
  { assert (1 <= length tail)%nat by (destruct tail; [done|cbn; lia]). unfold n, data. rewrite length_app. fold h. lia. }
  change (mk_file 0) with (mk_file (Z.of_nat 0)). rewrite readRAM_ok by (unfold JPEG_FILE_BUF_SIZE; lia).
  rewrite Nat.sub_0_r, Nat.add_0_l. change (Z.to_nat JPEG_FILE_BUF_SIZE) with 2048%nat. fold n.
  destruct (first_buffer data n Hbytes eq_refl) as (buf & Ebuf & Hbl & Hl & Hb & Ht). rewrite Ebuf. cbn [rbind]. rewrite Hbl.
  rewrite (proj2 (Z.ltb_ge (Z.of_nat n) 256)) by (unfold n; lia).
  assert (Hh : holds_at buf 0 (header_bytes p)) by (apply (holds_prefix _ tail n); [fold h; lia|exact Ht]).
  rewrite (short_holds buf 0 0 (header_bytes p) 0xffd8 _ ltac:(lia) Hh) by done. cbn [rbind].
  change (negb (0xffd8 =? 0xffd8)) with false. cbv iota. set (f := mk_file (Z.of_nat n) _ _).
  assert (Hk : exists k, markers_fuel f = (length (pc_before p) + S (length (pc_after p) + S k))%nat).
  { exists (length data - length (pc_before p) - length (pc_after p) - 1)%nat. unfold markers_fuel, f. cbn [pData].
    pose proof (length_segments (pc_before p)). pose proof (length_segments (pc_after p)).
    unfold data, header_bytes. rewrite !length_app, !length_marked_segment. cbn [length]. lia. }
  destruct Hk as [k ->].
  destruct (headers_ok p f buf (Z.of_nat n) k _ _ Hwf ltac:(unfold f; cbn [iSize]; fold h; unfold n in *; lia) Hh
    (blank_header_read data) ltac:(done)) as (i & t & E & Hr & Hf).
  fold h in E. unfold reading at 1 in E. rewrite E. cbn [rbind]. change (0xffda =? 0xffda) with true. cbv iota.
  destruct (header_layout p buf Hh) as (o1 & o2 & _ & _ & El & _ & _ & _ & Hs). apply marked_behind in Hs.
  apply start_of_scan_ok; try done; [fold h in El; lia|].
  by replace (h - (2 + length (scan_payload (pc_components p))))%nat with (o2 + 2)%nat by (fold h in El; lia).
Qed.

End JpegFormat.
