(* ===== verification/JpegIdct.v ===== *)
(** * The shortcuts of the inverse DCT

    [JPEGIDCT] skips empty columns and takes shorter calculations for columns and rows
    whose upper coefficients are zero.  The reference here is the full calculation for
    every column and row; the shortcuts round differently, a column by at most two steps
    and a sample by at most one. *)
From stdpp Require Import base list.
From Stdlib Require Import ZArith Lia.
From S2P Require Import Prelude JpegTables Jpeg JpegBits JpegBlock.
Import JpegTables Jpeg JpegBits JpegBlock.
Local Open Scope Z_scope.

Module JpegIdct.

(** The results of two calculations, value by value. *)
Definition near (d : Z) (a b : list Z) : Prop := Forall2 (fun x y => Z.abs (x - y) <= d) a b.

Lemma shiftr8 (x : Z) : 256 * Z.shiftr x 8 <= x < 256 * Z.shiftr x 8 + 256.
Proof. rewrite Z.shiftr_div_pow2 by lia. pose proof (Z.div_mod x (2 ^ 8) ltac:(lia)). pose proof (Z.mod_pos_bound x (2 ^ 8) ltac:(lia)). lia. Qed.

(** Calculations in [int] that stay in range, as linear arithmetic: from the inside, an
    [i32] is left out and a shift becomes a variable with its bounds. *)
Ltac linear :=
  repeat match goal with
  | |- context [i32 ?e] =>
      lazymatch e with context [i32 _] => fail | context [Z.shiftr _ _] => fail | _ => rewrite (i32_small e) by lia end
  | |- context [Z.shiftr ?e 8] =>
      lazymatch e with
      | context [i32 _] => fail
      | context [Z.shiftr _ _] => fail
      | _ => let v := fresh "v" in pose proof (shiftr8 e); generalize dependent (Z.shiftr e 8); intros v ?
      end
  end.

Lemma half_column_near (m q : nat -> Z) :
  (forall r, (r < 4)%nat -> Z.abs (m r * q r) < 2 ^ 15) -> (forall r, (4 <= r < 8)%nat -> m r = 0) ->
  near 2 (half_column m q) (full_column m q).
Proof.
  intros Hb Hz. pose proof (Hb 0%nat ltac:(lia)) as H0. pose proof (Hb 1%nat ltac:(lia)) as H1. pose proof (Hb 2%nat ltac:(lia)) as H2.
  pose proof (Hb 3%nat ltac:(lia)) as H3. unfold half_column, full_column, odd_part.
  rewrite (Hz 4%nat), (Hz 5%nat), (Hz 6%nat), (Hz 7%nat) by lia. change (0 =? 0) with true. cbv iota.
  set (a := m 0%nat * q 0%nat) in *. set (b := m 1%nat * q 1%nat) in *. set (c := m 2%nat * q 2%nat) in *.
  assert (E3 : m 3%nat = 0 -> m 3%nat * q 3%nat = 0) by (intros ->; lia).
  set (d := m 3%nat * q 3%nat) in *. clearbody a b c d. change (2 ^ 15) with 32768 in *. clear Hb Hz.
  cbv zeta. unfold butterfly, near.
  destruct (Z.eqb_spec (m 3%nat) 0) as [E|_]; [rewrite (E3 E)|]; clear E3.
  - change (i32 0) with 0. linear. repeat constructor; lia.
  - linear. repeat constructor; lia.
Qed.

(** The even and the odd part of a full calculation on [m], without overflow. *)
Definition even (m0 m2 m4 m6 : Z) : Z * Z * Z * Z :=
  let tmp12 := Z.shiftr ((m2 - m6) * 362) 8 - (m2 + m6) in
  (m0 + m4 + (m2 + m6), m0 - m4 + tmp12, m0 - m4 - tmp12, m0 + m4 - (m2 + m6)).

Definition odd (m1 m3 m5 m7 : Z) : Z * Z * Z * Z :=
  let tmp7 := m1 + m7 + (m5 + m3) in
  let tmp11 := Z.shiftr ((m1 + m7 - (m5 + m3)) * 362) 8 in
  let z5 := Z.shiftr ((m5 - m3 + (m1 - m7)) * 473) 8 in
  let tmp6 := Z.shiftr ((m5 - m3) * -669) 8 + z5 - tmp7 in
  let tmp5 := tmp11 - tmp6 in
  (Z.shiftr ((m1 - m7) * 277) 8 - z5 + tmp5, tmp5, tmp6, tmp7).

Definition combine (e o : Z * Z * Z * Z) : list Z :=
  let '(t0, t1, t2, t3) := e in let '(t4, t5, t6, t7) := o in
  [t0 + t7; t1 + t6; t2 + t5; t3 - t4; t3 + t4; t2 - t5; t1 - t6; t0 - t7].

(** The values [m] of a row, named. *)
Ltac name_row m :=
  let go k := let v := fresh "x" in set (v := m k) in *; clearbody v in
  go 0%nat; go 1%nat; go 2%nat; go 3%nat; go 4%nat; go 5%nat; go 6%nat; go 7%nat.

Lemma row_full (col : Z) (m : nat -> Z) : 0x10 <= col -> (forall c, (c < 8)%nat -> Z.abs (m c) <= 2 ^ 15) ->
  row col m = combine (even (m 0%nat) (m 2%nat) (m 4%nat) (m 6%nat)) (odd (m 1%nat) (m 3%nat) (m 5%nat) (m 7%nat)).
Proof.
  intros Hc H. unfold row. rewrite (proj2 (Z.ltb_ge _ _) Hc).
  pose proof (H 0%nat ltac:(lia)). pose proof (H 1%nat ltac:(lia)). pose proof (H 2%nat ltac:(lia)). pose proof (H 3%nat ltac:(lia)).
  pose proof (H 4%nat ltac:(lia)). pose proof (H 5%nat ltac:(lia)). pose proof (H 6%nat ltac:(lia)). pose proof (H 7%nat ltac:(lia)).
  clear H. change (2 ^ 15) with 32768 in *. unfold odd_part, butterfly, combine, even, odd. cbv zeta. name_row m.
  linear. done.
Qed.

Definition near4 (k : Z * Z * Z * Z) (a b : Z * Z * Z * Z) : Prop :=
  let '(k0, k1, k2, k3) := k in let '(a0, a1, a2, a3) := a in let '(b0, b1, b2, b3) := b in
  Z.abs (a0 - b0) <= k0 /\ Z.abs (a1 - b1) <= k1 /\ Z.abs (a2 - b2) <= k2 /\ Z.abs (a3 - b3) <= k3.

Lemma even_near a0 a2 a4 a6 b0 b2 b4 b6 :
  Z.abs (a0 - b0) <= 2 -> Z.abs (a2 - b2) <= 2 -> Z.abs (a4 - b4) <= 2 -> Z.abs (a6 - b6) <= 2 ->
  near4 (8, 10, 10, 8) (even a0 a2 a4 a6) (even b0 b2 b4 b6).
Proof. intros. unfold even, near4. cbv zeta. linear. lia. Qed.

Lemma odd_near a1 a3 a5 a7 b1 b3 b5 b7 :
  Z.abs (a1 - b1) <= 2 -> Z.abs (a3 - b3) <= 2 -> Z.abs (a5 - b5) <= 2 -> Z.abs (a7 - b7) <= 2 ->
  near4 (19, 15, 13, 8) (odd a1 a3 a5 a7) (odd b1 b3 b5 b7).
Proof. intros. unfold odd, near4. cbv zeta. linear. split; [|split; [|split] ]; lia. Qed.

(** Empty columns make no difference to the shortcut of the first four. *)
Lemma row_half (col : Z) (m : nat -> Z) : 0x04 <= col < 0x10 -> (forall c, (c < 4)%nat -> Z.abs (m c) <= 2 ^ 15) ->
  row col m = combine (even (m 0%nat) (m 2%nat) 0 0) (odd (m 1%nat) (m 3%nat) 0 0).
Proof.
  intros [Hc Hc'] H. unfold row. rewrite (proj2 (Z.ltb_lt _ _) Hc'), (proj2 (Z.ltb_ge _ _) Hc).
  pose proof (H 0%nat ltac:(lia)). pose proof (H 1%nat ltac:(lia)). pose proof (H 2%nat ltac:(lia)). pose proof (H 3%nat ltac:(lia)).
  clear H. change (2 ^ 15) with 32768 in *. unfold butterfly, combine, even, odd. cbv zeta.
  set (x0 := m 0%nat) in *. set (x1 := m 1%nat) in *. set (x2 := m 2%nat) in *. set (x3 := m 3%nat) in *. clearbody x0 x1 x2 x3.
  linear. repeat f_equal; lia.
Qed.

Lemma row_quarter (col : Z) (m : nat -> Z) : col < 0x04 -> (forall c, (c < 2)%nat -> Z.abs (m c) <= 2 ^ 15) ->
  near 2 (row col m) (combine (even (m 0%nat) 0 0 0) (odd (m 1%nat) 0 0 0)).
Proof.
  intros Hc H. unfold row. rewrite (proj2 (Z.ltb_lt col 0x10)), (proj2 (Z.ltb_lt _ _) Hc) by lia.
  pose proof (H 0%nat ltac:(lia)). pose proof (H 1%nat ltac:(lia)).
  clear H. change (2 ^ 15) with 32768 in *. unfold butterfly, combine, even, odd, near. cbv zeta.
  set (x0 := m 0%nat) in *. set (x1 := m 1%nat) in *. clearbody x0 x1.
  linear. repeat constructor; lia.
Qed.

Lemma combine_near e e' o o' : near4 (8, 10, 10, 8) e e' -> near4 (19, 15, 13, 8) o o' -> near 27 (combine e o) (combine e' o').
Proof.
  destruct e as [[[e0 e1] e2] e3], e' as [[[f0 f1] f2] f3], o as [[[o0 o1] o2] o3], o' as [[[p0 p1] p2] p3].
  unfold near4, near, combine. intros (? & ? & ? & ?) (? & ? & ? & ?). repeat constructor; lia.
Qed.

Lemma near_trans a b l l' l'' : near a l l' -> near b l' l'' -> near (a + b) l l''.
Proof.
  intros H. revert l''. induction H as [|x y l l' Hxy H IH]; intros l'' H2; inversion H2; subst; constructor; [lia|].
  by apply IH.
Qed.

Lemma near_refl d l : 0 <= d -> near d l l.
Proof. intros Hd. apply Forall2_same_length_lookup. split; [done|]. intros i x y Hx Hy. rewrite Hx in Hy. injection Hy as ->. lia. Qed.

Lemma near_weaken d d' l l' : near d l l' -> d <= d' -> near d' l l'.
Proof. intros H Hd. eapply Forall2_impl; [exact H|]. cbn. lia. Qed.

(** A row with columns that differ by two at most, by whatever shortcut. *)
Lemma row_near (col : Z) (m m' : nat -> Z) :
  (forall c, (c < 8)%nat -> Z.abs (m c) <= 2 ^ 15 /\ Z.abs (m' c) <= 2 ^ 15 /\ Z.abs (m c - m' c) <= 2) ->
  (col < 0x10 -> forall c, (4 <= c < 8)%nat -> m c = 0 /\ m' c = 0) ->
  (col < 0x04 -> forall c, (2 <= c < 8)%nat -> m c = 0 /\ m' c = 0) ->
  near 29 (row col m) (row 0xff m').
Proof.
  intros H H4 H2. rewrite (row_full 0xff m') by (lia || (intros c Hc; apply H; lia)).
  assert (Hn : near 27 (combine (even (m 0%nat) (m 2%nat) (m 4%nat) (m 6%nat)) (odd (m 1%nat) (m 3%nat) (m 5%nat) (m 7%nat)))
                       (combine (even (m' 0%nat) (m' 2%nat) (m' 4%nat) (m' 6%nat)) (odd (m' 1%nat) (m' 3%nat) (m' 5%nat) (m' 7%nat)))).
  { apply combine_near; [apply even_near|apply odd_near]; apply H; lia. }
  destruct (Z.lt_ge_cases col 0x10) as [Hc|Hc]; [|rewrite row_full by (done || (intros c Hc'; apply H; lia)); by eapply near_weaken].
  apply (near_trans 2 27) with (2 := Hn). specialize (H4 Hc).
  rewrite !(proj1 (H4 4%nat ltac:(lia))), !(proj1 (H4 5%nat ltac:(lia))), !(proj1 (H4 6%nat ltac:(lia))), !(proj1 (H4 7%nat ltac:(lia))).
  destruct (Z.lt_ge_cases col 0x04) as [Hq|Hq].
  - specialize (H2 Hq). rewrite (proj1 (H2 2%nat ltac:(lia))), (proj1 (H2 3%nat ltac:(lia))).
    apply row_quarter; [done|]. intros c Hc'. apply H. lia.
  - rewrite row_half by (done || (intros c Hc'; apply H; lia)). by apply near_refl.
Qed.

(** ** Samples *)

Lemma range_clamp (v : Z) : - 2 ^ 14 <= v < 2 ^ 14 -> range v = clamp (Z.shiftr v 5 + 128).
Proof.
  intros Hv. unfold range. rewrite Z.shiftr_div_pow2 by lia.
  assert (Hd : - 512 <= v / 2 ^ 5 < 512).
  { split; [apply Z.div_le_lower_bound|apply Z.div_lt_upper_bound]; lia. }
  destruct (signed10_land _ Hd) as [Hr E]. by rewrite ucRangeTable_entries, nth_entries, E by lia.
Qed.

Lemma range_near (v v' : Z) : Z.abs v' <= 16351 -> Z.abs (v - v') <= 29 -> Z.abs (range v - range v') <= 1.
Proof.
  intros Hv' Hd. rewrite !range_clamp by lia. rewrite !Z.shiftr_div_pow2 by lia. change (2 ^ 5) with 32. unfold clamp.
  pose proof (Z.div_mod v 32 ltac:(lia)). pose proof (Z.mod_pos_bound v 32 ltac:(lia)).
  pose proof (Z.div_mod v' 32 ltac:(lia)). pose proof (Z.mod_pos_bound v' 32 ltac:(lia)). lia.
Qed.

(** ** Columns *)

Lemma nth_map_seq {A} (f : nat -> A) (n k : nat) (d : A) : (k < n)%nat -> nth k (map f (seq 0 n)) d = f k.
Proof.
  intros Hk. rewrite (nth_indep _ d (f 0%nat)) by (rewrite length_map, length_seq; lia).
  by rewrite (map_nth f (seq 0 n) 0%nat), seq_nth.
Qed.

Lemma nth_replicate {A} (n k : nat) (x d : A) : (k < n)%nat -> nth k (replicate n x) d = x.
Proof. intros Hk. apply nth_lookup_Some. by apply lookup_replicate_2. Qed.

Lemma high_bit_clear (x : Z) (n c : nat) : 0 <= x < 2 ^ Z.of_nat n -> (n <= c)%nat -> Z.testbit x (Z.of_nat c) = false.
Proof.
  intros Hx Hc. rewrite <- (Z.mod_small x (2 ^ Z.of_nat n)) by lia. apply Z.mod_pow2_bits_high. lia.
Qed.

Section Columns.
Context (src q : list Z).

Definition coefficient (c r : nat) : Z := nth (c + 8 * r) src 0.
Definition divisor (c r : nat) : Z := nth (c + 8 * r) q 0.

(** No 16-bit overflow in the full calculation of the columns. *)
Definition columns_fit : Prop := forall c, (c < 8)%nat ->
  (forall r, (r < 8)%nat -> Z.abs (coefficient c r * divisor c r) < 2 ^ 15) /\
  Forall (fun v => Z.abs v <= 32765) (full_column (coefficient c) (divisor c)).

Definition column (col row : Z) (c : nat) : list Z :=
  if Z.testbit (Z.lor col 1) (Z.of_nat c)
  then map i16 ((if Z.testbit row (Z.of_nat c) then full_column else half_column) (coefficient c) (divisor c))
  else map (coefficient c) (seq 0 8).

Lemma nth_columns col row (c r : nat) : (c < 8)%nat -> (r < 8)%nat ->
  nth (8 * r + c) (idct_columns col row src q) 0 = nth r (column col row c) 0.
Proof using.
  intros Hc Hr. unfold idct_columns.
  change (nth (8 * r + c) (map (fun i => nth (i / 8) (nth (i mod 8) (map (column col row) (seq 0 8)) []) 0) (seq 0 64)) 0
          = nth r (column col row c) 0).
  rewrite nth_map_seq by lia. rewrite nth_map_seq by (apply Nat.mod_upper_bound; lia).
  replace ((8 * r + c) / 8)%nat with r by (apply (Nat.div_unique (8 * r + c) 8 r c); lia).
  by replace ((8 * r + c) mod 8)%nat with c by (apply (Nat.mod_unique (8 * r + c) 8 r c); lia).
Qed.

Lemma full_zero (m d : nat -> Z) : (forall r, (r < 8)%nat -> m r = 0) -> full_column m d = replicate 8 0.
Proof using.
  intros H. unfold full_column. rewrite (H 0%nat), (H 1%nat), (H 2%nat), (H 3%nat), (H 4%nat), (H 5%nat), (H 6%nat), (H 7%nat) by lia. done.
Qed.

(** The flags say which columns and lower halves are empty. *)
Context (col row : Z).
Context (Hcol : forall c r, (1 <= c < 8)%nat -> (r < 8)%nat -> Z.testbit col (Z.of_nat c) = false -> coefficient c r = 0).
Context (Hrow : forall c r, (c < 8)%nat -> (4 <= r < 8)%nat -> Z.testbit row (Z.of_nat c) = false -> coefficient c r = 0).
Context (Hfit : columns_fit).

Lemma column_full (c : nat) : (c < 8)%nat -> column 0xff 0xff c = full_column (coefficient c) (divisor c).
Proof using Hfit.
  intros Hc. unfold column. assert (Hb : Z.testbit 0xff (Z.of_nat c) = true).
  { change 0xff with (Z.ones 8). rewrite Z.ones_spec_low; [done|lia]. }
  change (Z.lor 0xff 1) with 0xff. rewrite Hb. destruct (Hfit c Hc) as [_ Hf].
  rewrite <- (list_fmap_id (full_column _ _)) at 2. apply list_fmap_ext. intros i v Hv. rewrite Forall_forall in Hf.
  unfold id. apply i16_small. specialize (Hf v (list_elem_of_lookup_2 _ _ _ Hv)). cbn beta in Hf. lia.
Qed.

Lemma column_near (c : nat) : (c < 8)%nat -> near 2 (column col row c) (column 0xff 0xff c).
Proof using All.
  intros Hc. rewrite column_full by done. unfold column.
  destruct (Hfit c Hc) as [Hm Hf]. rewrite Z.lor_spec.
  destruct (Z.testbit col (Z.of_nat c) || Z.testbit 1 (Z.of_nat c)) eqn:Eb.
  - destruct (Z.testbit row (Z.of_nat c)) eqn:Er.
    + pose proof (column_full c Hc) as E. unfold column in E.
      replace (Z.testbit (Z.lor 0xff 1) (Z.of_nat c)) with true in E by (change (Z.lor 0xff 1) with (Z.ones 8); by rewrite Z.ones_spec_low by lia).
      replace (Z.testbit 0xff (Z.of_nat c)) with true in E by (change 0xff with (Z.ones 8); by rewrite Z.ones_spec_low by lia).
      rewrite E. by apply near_refl.
    + pose proof (half_column_near (coefficient c) (divisor c) ltac:(intros; apply Hm; lia) ltac:(intros; by apply Hrow)) as Hn.
      unfold near in *. rewrite Forall_forall in Hf. apply Forall2_fmap_l. apply Forall2_same_length_lookup.
      apply Forall2_same_length_lookup in Hn as [Hl Hn]. split; [done|]. intros i x y Hx Hy. specialize (Hn i x y Hx Hy).
      specialize (Hf y (list_elem_of_lookup_2 _ _ _ Hy)). cbn beta in Hf, Hn. unfold compose. rewrite i16_small by lia. done.
  - apply orb_false_iff in Eb as [E1 E2]. assert (Hc1 : (1 <= c)%nat) by (destruct c; [done|lia]).
    rewrite full_zero by (intros; by apply Hcol; try lia).
    replace (map (coefficient c) (seq 0 8)) with (replicate 8 0); [by apply near_refl|].
    apply replicate_as_Forall. split; [by rewrite length_map, length_seq|].
    apply Forall_fmap, Forall_forall. intros r Hr%elem_of_seq. unfold compose. symmetry. apply Hcol; try lia. done.
Qed.
Lemma column_values (c r : nat) : (c < 8)%nat -> (r < 8)%nat ->
  let x := nth r (column col row c) 0 in let y := nth r (column 0xff 0xff c) 0 in
  Z.abs x <= 2 ^ 15 /\ Z.abs y <= 2 ^ 15 /\ Z.abs (x - y) <= 2 /\
  ((1 <= c)%nat -> Z.testbit col (Z.of_nat c) = false -> x = 0 /\ y = 0).
Proof using All.
  intros Hc Hr x y.
  assert (Hy : Z.abs y <= 32765).
  { unfold y. rewrite column_full by done. destruct (Hfit c Hc) as [_ Hf]. rewrite nth_lookup.
    destruct (full_column _ _ !! r) as [v|] eqn:Ev; [|done]. by apply (Forall_lookup_1 _ _ _ _ Hf Ev). }
  assert (Hxy : Z.abs (x - y) <= 2).
  { unfold x, y. rewrite !nth_lookup. pose proof (column_near c Hc) as Hn. destruct (column col row c !! r) as [v|] eqn:Ev.
    - destruct (Forall2_lookup_l _ _ _ _ _ Hn Ev) as (v' & -> & Hv). exact Hv.
    - apply lookup_ge_None in Ev. rewrite (Forall2_length _ _ _ Hn) in Ev. by rewrite lookup_ge_None_2. }
  split; [lia|]. split; [lia|]. split; [done|]. intros Hc1 Hb.
  assert (Ex : x = 0).
  { unfold x, column. rewrite Z.lor_spec, Hb. replace (Z.testbit 1 (Z.of_nat c)) with false by (symmetry; by apply (high_bit_clear 1 1)).
    cbn [orb]. rewrite nth_map_seq by done. by apply Hcol. }
  split; [done|]. unfold y. rewrite column_full, full_zero by (done || (intros; by apply Hcol)). by apply nth_replicate.
Qed.
End Columns.

(** ** Blocks *)

Lemma flags_bits (bit : nat -> Z -> Z) zz (c : Z) k v : zz !! k = Some v -> Z.testbit (bit k v) c = true ->
  Z.testbit (flags bit zz) c = true.
Proof.
  intros Hk Hb. unfold flags. assert (Hin : imap bit zz !! k = Some (bit k v)) by (by rewrite list_lookup_imap, Hk).
  assert (Hgen : forall l a, (Z.testbit a c = true \/ exists x, x ∈ l /\ Z.testbit x c = true) -> Z.testbit (foldl Z.lor a l) c = true).
  { clear. induction l as [|y l IH]; intros a [Ha|(x & Hx & Ht)]; cbn [foldl]; try done.
    - by apply elem_of_nil in Hx.
    - apply IH. left. by rewrite Z.lor_spec, Ha.
    - apply IH. apply elem_of_cons in Hx as [->|Hx]; [left; by rewrite Z.lor_spec, Ht, orb_true_r|right; by exists x]. }
  apply Hgen. right. exists (bit k v). split; [by eapply list_elem_of_lookup_2|done].
Qed.

Lemma zorder_range (j : nat) : (j < 64)%nat -> (zorder j < 64)%nat.
Proof.
  intros Hj. assert (H : forallb (fun j => (zorder j <? 64)%nat) (seq 0 64) = true) by (vm_compute; reflexivity).
  rewrite forallb_forall in H. apply Nat.ltb_lt, H, in_seq. lia.
Qed.

(** The flags of a block say which columns and lower halves are empty. *)
Lemma flags_columns zz (c r : nat) : length zz = 64%nat -> (c < 8)%nat -> (r < 8)%nat ->
  ((1 <= c + r)%nat -> Z.testbit (flags col_bit zz) (Z.of_nat c) = false -> coefficient (unzig zz) c r = 0) /\
  ((4 <= r)%nat -> Z.testbit (flags row_bit zz) (Z.of_nat c) = false -> coefficient (unzig zz) c r = 0).
Proof.
  intros Hl Hc Hr. unfold coefficient. set (j := (c + 8 * r)%nat). assert (Hj : (j < 64)%nat) by (unfold j; lia).
  rewrite (nth_lookup_Some _ _ _ _ (lookup_unzig zz j Hj)). pose proof (zorder_range j Hj) as Hk. set (k := zorder j) in *.
  pose proof (proj1 (zorder_zpos k j Hk Hj) eq_refl) as Ej. destruct (lookup_lt_is_Some_2 zz k ltac:(lia)) as [v Ev].
  rewrite (nth_lookup_Some _ _ _ _ Ev).
  assert (Hbit : k <> 0%nat -> v <> 0 -> Z.testbit (col_bit k v) (Z.of_nat c) = true).
  { intros Hk0 Hv. unfold col_bit. rewrite (proj2 (Nat.eqb_neq k 0) Hk0), (proj2 (Z.eqb_neq v 0) Hv), <- Ej. cbn [orb].
    replace (Z.of_nat j mod 8) with (Z.of_nat c) by (apply (Z.mod_unique_pos _ 8 (Z.of_nat r)); unfold j; lia).
    rewrite Z.shiftl_1_l. apply Z.pow2_bits_true. lia. }
  assert (Hk0 : (1 <= j)%nat -> k <> 0%nat) by (intros Hj1 E; rewrite E in Ej; change (zpos 0) with 0%nat in Ej; lia).
  split; intros Hlow Ht; destruct (Z.eq_dec v 0) as [|Hv]; try done; exfalso.
  - by rewrite (flags_bits _ _ _ _ _ Ev (Hbit (Hk0 ltac:(unfold j; lia)) Hv)) in Ht.
  - rewrite (flags_bits row_bit _ _ _ _ Ev) in Ht; [done|]. unfold row_bit. rewrite <- Ej, (proj2 (Nat.ltb_ge j 32)) by (unfold j; lia).
    apply Hbit; [|done]. apply Hk0. unfold j. lia.
Qed.

Lemma flags_nonneg bit zz : (forall k v, 0 <= bit k v) -> 0 <= flags bit zz.
Proof.
  intros Hb. unfold flags. assert (Hgen : forall l a, Forall (fun x => 0 <= x) l -> 0 <= a -> 0 <= foldl Z.lor a l).
  { clear. induction l as [|x l IH]; intros a Hl Ha; [done|]. apply Forall_cons in Hl as [Hx Hl]. apply IH; [done|]. by apply Z.lor_nonneg. }
  apply Hgen; [|done]. apply Forall_lookup. intros i x Hx. rewrite list_lookup_imap in Hx.
  destruct (zz !! i); [|done]. injection Hx as <-. apply Hb.
Qed.

Lemma col_bit_nonneg k v : 0 <= col_bit k v.
Proof. unfold col_bit. destruct (_ || _); [done|]. rewrite Z.shiftl_1_l. apply Z.pow_nonneg. lia. Qed.

(** All columns and rows in full. *)
Definition full_samples (q zz : list Z) : list Z := idct_rows 0xff (idct_columns 0xff 0xff (unzig zz) (map i16 q)).

(** The full calculation stays in range. *)
Definition block_fits (q zz : list Z) : Prop :=
  columns_fit (unzig zz) (map i16 q) /\
  forall r, (r < 8)%nat ->
    Forall (fun v => Z.abs v <= 16351) (row 0xff (fun c => nth (8 * r + c) (idct_columns 0xff 0xff (unzig zz) (map i16 q)) 0)).

Lemma full_dc (m d : nat -> Z) : Z.abs (m 0%nat * d 0%nat) < 2 ^ 15 -> (forall r, (1 <= r < 8)%nat -> m r = 0) ->
  full_column m d = replicate 8 (m 0%nat * d 0%nat).
Proof.
  intros Hb H. unfold full_column. rewrite (H 1%nat), (H 2%nat), (H 3%nat), (H 4%nat), (H 5%nat), (H 6%nat), (H 7%nat) by lia.
  change (0 =? 0) with true. cbv iota. rewrite !Z.mul_0_l. set (a := m 0%nat * d 0%nat) in *. clearbody a.
  change (2 ^ 15) with 32768 in Hb. change (i32 0) with 0. rewrite (i32_small a) by lia.
  unfold odd_part, butterfly. cbn -[i32 Z.add Z.sub]. linear. repeat f_equal; lia.
Qed.

Lemma row_dc (m : nat -> Z) : Z.abs (m 0%nat) <= 2 ^ 15 -> (forall c, (1 <= c < 8)%nat -> m c = 0) ->
  row 0xff m = replicate 8 (m 0%nat).
Proof.
  intros Hb H. rewrite row_full by first [lia | intros [|c] Hc; [done|rewrite H; lia] ].
  rewrite (H 1%nat), (H 2%nat), (H 3%nat), (H 4%nat), (H 5%nat), (H 6%nat), (H 7%nat) by lia.
  unfold combine, even, odd. cbv zeta. linear. cbn [replicate]. repeat f_equal; lia.
Qed.

Lemma near_concat d (f g : nat -> list Z) l : (forall r, r ∈ l -> near d (f r) (g r)) -> near d (concat (map f l)) (concat (map g l)).
Proof.
  induction l as [|x l IH]; intros H; [constructor|]. cbn [map concat]. apply Forall2_app; [apply H; by left|].
  apply IH. intros r Hr. apply H. by right.
Qed.

(** What the decoder shows of a block with coefficients only in the first place. *)
Lemma dc_samples q zz : block_wf zz -> block_fits q zz -> flags col_bit zz = 0 -> q <> [] -> samples q zz = full_samples q zz.
Proof.
  intros [Hl _] [Hcf _] E0 Hq. unfold samples. rewrite E0. change (0 =? 0) with true. cbv iota.
  assert (Hz : forall c r, (c < 8)%nat -> (r < 8)%nat -> (1 <= c + r)%nat -> coefficient (unzig zz) c r = 0).
  { intros c r Hc Hr H1. apply (proj1 (flags_columns zz c r Hl Hc Hr)); [done|]. rewrite E0. apply Z.bits_0. }
  set (a := hd 0 zz * i16 (hd 0 q)).
  assert (Ea : coefficient (unzig zz) 0 0 * divisor (map i16 q) 0 0 = a).
  { unfold a, coefficient, divisor. rewrite (nth_lookup_Some _ _ _ _ (lookup_unzig zz (0 + 8 * 0) ltac:(lia))).
    by destruct q, zz. }
  destruct (Hcf 0%nat ltac:(lia)) as [Hb0 _]. specialize (Hb0 0%nat ltac:(lia)). rewrite Ea in Hb0.
  assert (Hm : forall c r, (c < 8)%nat -> (r < 8)%nat ->
    nth (8 * r + c) (idct_columns 0xff 0xff (unzig zz) (map i16 q)) 0 = if (c =? 0)%nat then a else 0).
  { intros c r Hc Hr. rewrite nth_columns, column_full by done. destruct (Nat.eqb_spec c 0) as [->|Hc0].
    - rewrite full_dc; [rewrite Ea; by apply nth_replicate|by rewrite Ea|intros; apply Hz; lia].
    - rewrite full_zero by (intros; apply Hz; lia). by apply nth_replicate. }
  rewrite i32_small by lia. unfold full_samples, idct_rows.
  assert (Hrow : forall r, r ∈ seq 0 8 ->
    map range (row 0xff (fun c => nth (8 * r + c) (idct_columns 0xff 0xff (unzig zz) (map i16 q)) 0)) = replicate 8 (range a)).
  { intros r Hr%elem_of_seq. rewrite row_dc; rewrite ?Hm by lia; cbn [Nat.eqb]; [by rewrite fmap_replicate|lia|].
    intros c Hc. rewrite Hm by lia. destruct c; [lia|done]. }
  rewrite (map_ext_in _ (fun _ => replicate 8 (range a))); [done|]. intros r Hr. by apply Hrow, list_elem_of_In.
Qed.

(** C27: Skipping empty columns and taking the short calculations for columns and rows
    whose upper coefficients are zero, as the flags collected while decoding a block
    allow, changes no sample by more than one step against the code's own full
    calculation, for a block on which that calculation stays in range: no dequantized
    coefficient and no value after the columns exceeds 16 bits, and no value after the
    rows is so large that the range table wraps around. *)
Theorem idct_shortcuts_near (q zz : list Z) : block_wf zz -> block_fits q zz -> q <> [] -> near 1 (samples q zz) (full_samples q zz).
Proof.
  intros Hwf Hfit Hq. destruct (Z.eq_dec (flags col_bit zz) 0) as [E0|E0].
  { rewrite dc_samples by done. by apply near_refl. }
  pose proof Hwf as [Hl _]. destruct Hfit as [Hcf Hrf]. unfold samples, full_samples. rewrite (proj2 (Z.eqb_neq _ 0) E0).
  set (col := flags col_bit zz) in *. set (rw := flags row_bit zz).
  assert (Hcol0 : 0 <= col) by (apply flags_nonneg, col_bit_nonneg).
  assert (Hc : forall c r, (1 <= c < 8)%nat -> (r < 8)%nat -> Z.testbit col (Z.of_nat c) = false -> coefficient (unzig zz) c r = 0).
  { intros c r Hc Hr. apply (proj1 (flags_columns zz c r Hl ltac:(lia) Hr)). lia. }
  assert (Hr : forall c r, (c < 8)%nat -> (4 <= r < 8)%nat -> Z.testbit rw (Z.of_nat c) = false -> coefficient (unzig zz) c r = 0).
  { intros c r Hc' Hr. apply (proj2 (flags_columns zz c r Hl Hc' ltac:(lia))). lia. }
  unfold idct_rows. apply near_concat. intros r Hr8%elem_of_seq.
  specialize (Hrf r ltac:(lia)). set (m := fun c => nth (8 * r + c) (idct_columns col rw _ _) 0).
  set (m' := fun c => nth (8 * r + c) (idct_columns 0xff 0xff _ _) 0) in *.
  assert (Hm : forall c, (c < 8)%nat -> Z.abs (m c) <= 2 ^ 15 /\ Z.abs (m' c) <= 2 ^ 15 /\ Z.abs (m c - m' c) <= 2 /\
    ((1 <= c)%nat -> Z.testbit col (Z.of_nat c) = false -> m c = 0 /\ m' c = 0)).
  { intros c Hc8. unfold m, m'. rewrite !nth_columns by lia. apply column_values; try done. lia. }
  assert (Hn : near 29 (row col m) (row 0xff m')).
  { apply row_near.
    - intros c Hc8. destruct (Hm c Hc8) as (? & ? & ? & _). done.
    - intros H16 c Hc8. apply Hm; [lia..|]. apply (high_bit_clear col 4); [change (2 ^ Z.of_nat 4) with 16|]; lia.
    - intros H4 c Hc8. apply Hm; [lia..|]. apply (high_bit_clear col 2); [change (2 ^ Z.of_nat 2) with 4|]; lia. }
  apply Forall2_fmap. apply Forall2_same_length_lookup. apply Forall2_same_length_lookup in Hn as [Hlen Hn]. split; [done|].
  intros i x y Hx Hy. rewrite Forall_forall in Hrf. apply range_near; [|by apply (Hn i)].
  apply Hrf. by eapply list_elem_of_lookup_2.
Qed.

Definition block_fitsb (q zz : list Z) : bool :=
  forallb (fun c => forallb (fun r => Z.abs (coefficient (unzig zz) c r * divisor (map i16 q) c r) <? 2 ^ 15) (seq 0 8) &&
                    forallb (fun v => Z.abs v <=? 32765) (full_column (coefficient (unzig zz) c) (divisor (map i16 q) c))) (seq 0 8) &&
  forallb (fun r => forallb (fun v => Z.abs v <=? 16351)
    (row 0xff (fun c => nth (8 * r + c) (idct_columns 0xff 0xff (unzig zz) (map i16 q)) 0))) (seq 0 8).

Lemma bounded_checked (k : Z) l : forallb (fun v => Z.abs v <=? k) l = true -> Forall (fun v => Z.abs v <= k) l.
Proof. intros H. apply Forall_forall. intros v Hv%list_elem_of_In. rewrite forallb_forall in H. by apply Z.leb_le, H. Qed.

Lemma block_fits_checked q zz : block_fitsb q zz = true -> block_fits q zz.
Proof.
  unfold block_fitsb. rewrite andb_true_iff, !forallb_forall. intros [Hc Hr]. split.
  - intros c Hc8. specialize (Hc c ltac:(apply in_seq; lia)). rewrite andb_true_iff, forallb_forall in Hc. destruct Hc as [H1 H2].
    split; [|by apply bounded_checked]. intros r Hr8. apply Z.ltb_lt, H1, in_seq. lia.
  - intros r Hr8. apply bounded_checked, Hr, in_seq. lia.
Qed.

Lemma idct_shortcuts_near_witness : let zz := [40; -3; 5; 0; 2; 1] ++ replicate 58 0 in let q := replicate 64 90 in
  block_wf zz /\ block_fits q zz /\ near 1 (samples q zz) (full_samples q zz).
Proof.
  assert (Hwf : block_wf ([40; -3; 5; 0; 2; 1] ++ replicate 58 0)) by (constructor; [done|repeat constructor; done]).
  assert (Hfit : block_fits (replicate 64 90) ([40; -3; 5; 0; 2; 1] ++ replicate 58 0)) by (apply block_fits_checked; vm_compute; done).
  intros zz q. split; [exact Hwf|]. split; [exact Hfit|]. exact (idct_shortcuts_near q zz Hwf Hfit ltac:(done)).
Defined.
End JpegIdct.
