(* ===== verification/JpegDecode.v ===== *)
(** * Decoding a picture

    What the decoder shows of an encoded picture: every pixel of it is in exactly one
    of the blocks that are sent to the display, with the value that the decoder's
    scaled tables, inverse DCT and color conversion give for the coefficients encoded
    at its place.  [JpegIdct] and [color_rgb565] judge that arithmetic. *)
From stdpp Require Import base list.
From Stdlib Require Import ZArith Lia ZifyNat.
From S2P Require Import Prelude Crc JpegTables Jpeg JpegBits JpegBlock JpegFilter JpegPixels JpegImage JpegScan JpegFormat.
Import JpegTables Jpeg JpegBits JpegBlock JpegFilter JpegPixels JpegImage JpegScan JpegFormat.
Local Open Scope Z_scope.
Local Open Scope run_scope.

Module JpegDecode.

(** ** The blocks tile the picture *)

(** The block holds the pixel at [X], [Y] of the display. *)
Definition covers (dr : JPEGDRAW) (X Y : nat) : Prop :=
  dr.(dr_x) <= Z.of_nat X < dr.(dr_x) + dr.(dr_iWidth) /\ dr.(dr_y) <= Z.of_nat Y < dr.(dr_y) + dr.(dr_iHeight).

(** Where it is in the block. *)
Definition place (dr : JPEGDRAW) (X Y : nat) : nat :=
  Z.to_nat ((Z.of_nat X - dr.(dr_x)) + (Z.of_nat Y - dr.(dr_y)) * dr.(dr_iWidth)).

Section Tiling.
Context (sub : Z) (qs : nat -> list Z) (Wd Ht : nat) (image : list (list (list Z))).
Context (Hsub : supported sub) (HWd : (0 < Wd)%nat).

Abbreviation w := (mcu_width sub).
Abbreviation hh := (mcu_height sub).
Abbreviation G := (group sub Wd).

Lemma mcu_positive : (0 < w /\ 0 < hh)%nat.
Proof using Hsub. clear -Hsub. pose proof (mcu_size sub Hsub). lia. Qed.

Lemma group_positive : (0 < G)%nat.
Proof using Hsub HWd. clear -Hsub HWd. pose proof (columns_spec sub Hsub Wd HWd). unfold group. lia. Qed.

(** The block of a pixel. *)
Lemma draw_covers (r k : nat) dr X Y : draw_ok sub qs Wd Ht image r k dr -> (X < Wd)%nat -> (Y < Ht)%nat ->
  covers dr X Y <-> k = (X / (G * w))%nat /\ r = (Y / hh)%nat.
Proof.
  intros [Hx Hy Hw Hh _] HX HY. unfold covers. rewrite Hx, Hy, Hw, Hh.
  pose proof mcu_positive as [Hw0 Hh0]. pose proof group_positive as HG. pose proof (columns_spec sub Hsub Wd HWd) as [[_ Hc] _].
  assert (HGw : (0 < G * w)%nat) by (apply Nat.mul_pos_pos; lia).
  split.
  - intros [H1 H2]. split.
    + apply (Nat.div_unique X (G * w) k (X - k * G * w)); [|lia].
      assert (group_size sub Wd k <= G)%nat by (unfold group_size; lia).
      pose proof (Nat.mul_le_mono_r (group_size sub Wd k) G w ltac:(done)). lia.
    + apply (Nat.div_unique Y hh r (Y - r * hh)); lia.
  - intros [-> ->]. set (k := (X / (G * w))%nat). set (r := (Y / hh)%nat).
    pose proof (Nat.div_mod_eq X (G * w)) as EX. pose proof (Nat.mod_upper_bound X (G * w) ltac:(lia)) as HmX.
    pose proof (Nat.div_mod_eq Y hh) as EY. pose proof (Nat.mod_upper_bound Y hh ltac:(lia)). fold k in EX. fold r in EY.
    split; [|lia]. split; [lia|].
    assert (X < k * G * w + group_size sub Wd k * w)%nat; [|lia]. unfold group_size.
    destruct (Nat.min_spec G (columns sub Wd - k * G)) as [[_ ->]|[Hle ->] ]; [lia|].
    rewrite Nat.mul_sub_distr_r. lia.
Qed.

Lemma below (Y : nat) : (Y < Ht)%nat -> (Y / hh < lines sub Ht)%nat.
Proof.
  intros HY. pose proof mcu_positive as [_ Hh0]. unfold lines. apply Nat.Div0.div_lt_upper_bound.
  pose proof (Nat.div_mod_eq (Ht + hh - 1) hh). pose proof (Nat.mod_upper_bound (Ht + hh - 1) hh ltac:(lia)). lia.
Qed.

Lemma block_of_column (X : nat) : (X < Wd)%nat -> (X / (G * w) < blocks_per_line sub Wd)%nat.
Proof.
  intros HX. pose proof mcu_positive as [Hw0 _]. pose proof group_positive as HG. pose proof (columns_spec sub Hsub Wd HWd) as [[_ Hc] _].
  unfold blocks_per_line. set (C := columns sub Wd) in *.
  pose proof (Nat.div_mod_eq (C + G - 1) G) as E. pose proof (Nat.mod_upper_bound (C + G - 1) G ltac:(lia)).
  set (q := ((C + G - 1) / G)%nat) in *. apply Nat.Div0.div_lt_upper_bound.
  pose proof (Nat.mul_le_mono_r C (G * q) w ltac:(lia)). lia.
Qed.

(** Every pixel is in one block. *)
Lemma tiled ds X Y : lines_sent sub qs Wd Ht image (blocks_per_line sub Wd) (lines sub Ht) ds -> (X < Wd)%nat -> (Y < Ht)%nat ->
  exists n dr, ds !! n = Some dr /\ covers dr X Y /\
    pixel_at dr.(dr_pPixels) (place dr X Y) (image_pixel sub qs Wd image X Y) /\
    forall n' dr', ds !! n' = Some dr' -> covers dr' X Y -> n' = n.
Proof.
  intros [Hl Hd] HX HY. set (B := blocks_per_line sub Wd) in *. set (k := (X / (G * w))%nat). set (r := (Y / hh)%nat).
  pose proof mcu_positive as [Hw0 Hh0]. pose proof group_positive as HG.
  assert (Hr : (r < lines sub Ht)%nat) by (apply below; lia).
  assert (Hk : (k < B)%nat) by (apply block_of_column; lia).
  destruct (Hd r k Hr Hk) as (dr & Edr & Hok). pose proof (proj2 (draw_covers r k dr X Y Hok HX HY) (conj eq_refl eq_refl)) as Hcov.
  exists (r * B + k)%nat, dr. split; [done|]. split; [done|]. split.
  - destruct Hok as [Ex Ey Ew Eh Hp]. unfold covers in Hcov. rewrite Ex, Ey, Ew, Eh in Hcov.
    specialize (Hp (X - k * G * w) (Y - r * hh) ltac:(lia) ltac:(lia) ltac:(lia))%nat.
    replace (k * G * w + (X - k * G * w))%nat with X in Hp by lia. replace (r * hh + (Y - r * hh))%nat with Y in Hp by lia.
    unfold place. rewrite Ex, Ey, Ew.
    replace (Z.to_nat _) with (X - k * G * w + (Y - r * hh) * (group_size sub Wd k * w))%nat; [done|].
    rewrite <- (Nat2Z.id (_ + _)). f_equal. rewrite Nat2Z.inj_add, Nat2Z.inj_mul. lia.
  - intros n' dr' En' Hc. assert (Hn' : (n' < lines sub Ht * B)%nat) by (rewrite <- Hl; by eapply lookup_lt_Some).
    assert (HB : (0 < B)%nat) by lia.
    pose proof (Nat.div_mod_eq n' B) as E. pose proof (Nat.mod_upper_bound n' B ltac:(lia)).
    destruct (Hd (n' / B) (n' mod B))%nat as (dr2 & E2 & Hok2); [by apply Nat.Div0.div_lt_upper_bound; lia|done|].
    replace (n' / B * B + n' mod B)%nat with n' in E2 by lia. rewrite En' in E2. injection E2 as <-.
    apply (draw_covers _ _ _ _ _ Hok2 HX HY) in Hc as [Ek Er]. fold k in Ek. fold r in Er. rewrite <- Ek, <- Er. lia.
Qed.
End Tiling.

(** ** From the file to the display *)

(** In any 2048 bytes of the file at most 31 are 0xFF. *)
Definition few_ff (data : list Z) : Prop := forall a n, (n <= 2048)%nat -> (count_ff (between data a (a + n)) <= 31)%nat.

(** The value of a pixel of the picture: the decoder's inverse DCT and color conversion
    applied to the coefficients of its MCU, with the tables of the file as
    [JPEGFixQuantD] scales them. *)
Definition pc_pixel (p : picture) (X Y : nat) : Z :=
  image_pixel p.(pc_sub) (scaled (pc_quant p)) p.(pc_width) p.(pc_mcus) X Y.

(** What is sent to the display shows the picture: every pixel is in exactly one block,
    with its color. *)
Definition shows (p : picture) (draws : list JPEGDRAW) : Prop :=
  forall X Y, (X < p.(pc_width))%nat -> (Y < p.(pc_height))%nat ->
    exists n dr, draws !! n = Some dr /\ covers dr X Y /\ pixel_at dr.(dr_pPixels) (place dr X Y) (pc_pixel p X Y) /\
      forall n' dr', draws !! n' = Some dr' -> covers dr' X Y -> n' = n.

(** A file the decoder supports. *)
Record supported_file (p : picture) (data : list Z) : Prop := {
  sf_picture : picture_wf p;
  sf_encoded : encode p = Some data;
  sf_length : (256 < length data)%nat;
  sf_bytes : Forall Crc.is_byte data;
  sf_few_ff : few_ff data;
}.

(** The headers followed by the compressed data and whatever is dropped with it. *)
Lemma shown p ivs tail ff malloc :
  let data := header_bytes p ++ tail in
  picture_wf p -> intervals (pc_tables p) (mcu_components p.(pc_sub)) (pc_header p).(h_interval) (pc_header p).(h_interval) [0; 0; 0] []
    p.(pc_mcus) = Some ivs ->
  tail <> [] -> unstuff false tail = (plain ivs, ff) -> (256 <= length data)%nat -> Forall Crc.is_byte data -> few_ff data ->
  (forall n, malloc n = true) -> exists draws, show_frame malloc data = Ok draws /\ shows p draws.
Proof.
  intros data Hwf Hi Ht Hu H256 Hbytes Hff Hmalloc. pose proof Hwf as [Hhd Hsub Hlen Hsmall]. pose proof (hw_width _ Hhd) as HW.
  destruct (openRAM_ok p tail Hhd Ht H256 Hbytes Hff) as (im & pos & Eo & Ho & Er). fold data in Eo, Ho.
  assert (Es : scan_data data (length (header_bytes p)) = plain ivs).
  { unfold scan_data, data. by rewrite drop_app_length, Hu. }
  assert (HWd : (0 < pc_width p)%nat) by lia.
  destruct (DecodeJPEG_ok data _ _ _ _ _ _ _ pos p.(pc_mcus) malloc Hbytes Hff Hsub HWd Hmalloc Ho Hlen) as (im' & draws & Ed & Hs).
  { change (im_info (setMaxOutputSize MAX_MCU im)) with (im_info im). rewrite Es, Er. by eapply (intervals_coded _ _ _ _ _ _ [] _ []). }
  exists draws. split.
  - unfold show_frame. rewrite Eo. cbn [rbind]. unfold decode. by rewrite Ed.
  - intros X Y HX HY. by eapply tiled with (Ht := pc_height p).
Qed.

Lemma few_ff_take data (k : nat) : few_ff data -> few_ff (take k data).
Proof.
  intros H a n Hn. unfold between in *. rewrite skipn_firstn_comm, take_take.
  replace (Nat.min (a + n - a) (k - a)) with (a + Nat.min n (k - a) - a)%nat by lia. apply H. lia.
Qed.

(** [marked] ends with an end-of-image marker, behind the data. *)
Lemma marked_end (k : nat) ivs : exists l, marked k ivs = l ++ [0xff; 0xd9] /\ unstuff false l = (plain ivs, false).
Proof.
  revert k. induction ivs as [|b ivs IH]; intros k; [by exists []|]. destruct ivs as [|b' ivs].
  - exists (stuff (pack b)). split; [done|]. rewrite unstuff_stuff. unfold plain. cbn [map concat]. by rewrite app_nil_r.
  - destruct (IH (S k)) as (l & E & Hl). exists (stuff (pack b) ++ [0xff; 0xd0 + Z.of_nat (k mod 8)] ++ l).
    change (marked k (b :: b' :: ivs)) with (stuff (pack b) ++ [0xff; 0xd0 + Z.of_nat (k mod 8)] ++ marked (S k) (b' :: ivs)).
    rewrite E. split; [by rewrite <- !app_assoc|]. rewrite unstuff_app, unstuff_stuff. cbn [app].
    rewrite unstuff_marker by lia. by rewrite Hl.
Qed.

(** The decoder does not miss the last byte of a file. *)
Lemma file_shown p data data' malloc : supported_file p data -> data' = data \/ data' = removelast data ->
  (forall n, malloc n = true) -> exists draws, show_frame malloc data' = Ok draws /\ shows p draws.
Proof.
  intros [Hwf He H256 Hbytes Hff] Hd Hmalloc. unfold encode in He. destruct (intervals _ _ _ _ _ _ _) as [ivs|] eqn:Ei; [|done].
  change (Some (header_bytes p ++ marked 0 ivs) = Some data) in He. apply (inj Some) in He as <-.
  destruct (marked_end 0 ivs) as (l & El & Hl). destruct Hd as [-> | ->].
  - apply (shown p ivs (marked 0 ivs) false); try done; [|apply unstuff_marked|lia]. rewrite El. by destruct l.
  - rewrite El in *. set (hd := header_bytes p) in *.
    assert (Er : removelast (hd ++ l ++ [0xff; 0xd9]) = hd ++ l ++ [0xff]).
    { change [0xff; 0xd9] with ([0xff] ++ [0xd9]). by rewrite !app_assoc, removelast_last. }
    rewrite Er. assert (Et : hd ++ l ++ [0xff] = take (pred (length (hd ++ l ++ [0xff; 0xd9]))) (hd ++ l ++ [0xff; 0xd9]))
      by (by rewrite <- removelast_firstn_len).
    apply (shown p ivs (l ++ [0xff]) true); fold hd; try done.
    + by destruct l.
    + rewrite unstuff_app, Hl. cbn. by rewrite app_nil_r.
    + rewrite !length_app in *. cbn [length] in *. lia.
    + rewrite Et. by apply Forall_take.
    + rewrite Et. by apply few_ff_take.
Qed.

(** C6: Decoding gets back what was encoded.  The file is the encoding of a picture
    that is gray or has three components sampled 1x1, 1x2, 2x1 or 2x2, with any
    coefficients below 2^15, any 8-bit quantization tables and any restart interval, and
    meets the decoder's limits, [supported_file]: Huffman tables 0 and 1 only, DC codes
    of at most 12 bits, those of more than 6 bits starting with five ones, AC codes of
    more than 10 bits starting with six ones; a gray picture uses the tables numbered 0
    and a color picture the quantization tables 0 to 2; no APP1 segment; more than 256
    bytes, headers of at most 1024, MCUs of at most 440, at most 31 bytes 0xFF in 2048.
    Unless an allocation fails, the file is decoded without leaving an array, and every
    pixel of the picture is in exactly one of the blocks sent to the display, with the
    value that the decoder's inverse DCT (see C27) and color conversion (see C28) give for
    the encoded coefficients at that place. *)
Theorem show_frame_decodes (p : picture) (data : list Z) (malloc : nat -> bool) :
  supported_file p data -> (forall n, malloc n = true) ->
  exists draws, show_frame malloc data = Ok draws /\ shows p draws.
Proof. intros Hf Hm. by apply (file_shown p data data malloc Hf); [left|]. Qed.

(** ** Colors *)

(** A color with five bits of red, six of green and five of blue. *)
Definition rgb565 (r g b : Z) : Z := r / 8 * 2048 + g / 4 * 32 + b / 8.

(** [r] is [v], given in millionths, up to rounding: it is off by less than 1.03. *)
Definition rounded (r v : Z) : Prop := Z.abs (1000000 * r - v) < 1030000.

Lemma clamp_range v : 0 <= clamp v < 256.
Proof. unfold clamp. lia. Qed.

(** C28: The integer arithmetic of [JPEGPixelLE] on a luminance and two chrominance
    samples gives the color of the standard's conversion from YCbCr: each channel of it
    is off by less than 1.03 steps of 256 before it is clamped and cut to RGB565. *)
Theorem color_rgb565 (y cb cr : Z) : Crc.is_byte y -> Crc.is_byte cb -> Crc.is_byte cr ->
  exists r g b, color (Z.shiftl y 12) cb cr = rgb565 (clamp r) (clamp g) (clamp b) /\
    rounded r (1000000 * y + 1402000 * (cr - 128)) /\
    rounded g (1000000 * y - 344136 * (cb - 128) - 714136 * (cr - 128)) /\
    rounded b (1000000 * y + 1772000 * (cb - 128)).
Proof.
  intros Hy Hcb Hcr. unfold Crc.is_byte in *. unfold color. rewrite Z.shiftl_mul_pow2, !Z.shiftr_div_pow2 by lia.
  change (2 ^ 12) with 4096.
  set (b := (7258 * (cb - 128) + y * 4096) / 4096). set (g := (-1409 * (cb - 128) + -2925 * (cr - 128) + y * 4096) / 4096).
  set (r := (5742 * (cr - 128) + y * 4096) / 4096). exists r, g, b.
  assert (Hb : 4096 * b <= 7258 * (cb - 128) + y * 4096 < 4096 * b + 4096).
  { pose proof (Z.div_mod (7258 * (cb - 128) + y * 4096) 4096 ltac:(lia)). pose proof (Z.mod_pos_bound (7258 * (cb - 128) + y * 4096) 4096 ltac:(lia)). lia. }
  assert (Hg : 4096 * g <= -1409 * (cb - 128) + -2925 * (cr - 128) + y * 4096 < 4096 * g + 4096).
  { pose proof (Z.div_mod (-1409 * (cb - 128) + -2925 * (cr - 128) + y * 4096) 4096 ltac:(lia)).
    pose proof (Z.mod_pos_bound (-1409 * (cb - 128) + -2925 * (cr - 128) + y * 4096) 4096 ltac:(lia)). lia. }
  assert (Hr : 4096 * r <= 5742 * (cr - 128) + y * 4096 < 4096 * r + 4096).
  { pose proof (Z.div_mod (5742 * (cr - 128) + y * 4096) 4096 ltac:(lia)). pose proof (Z.mod_pos_bound (5742 * (cr - 128) + y * 4096) 4096 ltac:(lia)). lia. }
  clearbody r g b. unfold rounded. split; [|lia].
  destruct (signed10_land b ltac:(lia)) as [Hb0 Eb], (signed10_land g ltac:(lia)) as [Hg0 Eg], (signed10_land r ltac:(lia)) as [Hr0 Er].
  rewrite usRangeTableB_entries, usRangeTableG_entries, usRangeTableR_entries, !nth_entries, Eb, Eg, Er by lia.
  pose proof (clamp_range b). pose proof (clamp_range g). pose proof (clamp_range r). unfold rgb565.
  assert (Hb5 : 0 <= clamp b / 8 < 2 ^ 5) by (split; [apply Z.div_pos|apply Z.div_lt_upper_bound]; lia).
  assert (Hg6 : 0 <= clamp g / 4 < 2 ^ 6) by (split; [apply Z.div_pos|apply Z.div_lt_upper_bound]; lia).
  change 2048 with (2 ^ 11). change 32 with (2 ^ 5).
  rewrite (Z.lor_comm (clamp b / 8)), lor_field, Z.lor_comm, lor_field by lia. lia.
Qed.

(** ** A file with the tables of the standard *)

Definition ac_wordb (w : word) : bool :=
  (1 <=? w.(w_len)) && (w.(w_len) <=? 16) && (0 <=? w.(w_code)) && (w.(w_code) + 1 <? 2 ^ w.(w_len)) &&
  ((w.(w_len) <=? 10) || (63 * 2 ^ (w.(w_len) - 6) <=? w.(w_code))) && (0 <=? w.(w_sym)) && (w.(w_sym) <? 256).

Definition dc_wordb (w : word) : bool :=
  (1 <=? w.(w_len)) && (w.(w_len) <=? 12) && (0 <=? w.(w_code)) && (w.(w_code) + 1 <? 2 ^ w.(w_len)) &&
  ((w.(w_len) <=? 6) || (31 * 2 ^ (w.(w_len) - 5) <=? w.(w_code))) && (0 <=? w.(w_sym)) && (w.(w_sym) <=? 11).

Lemma ac_words_checked ws : forallb ac_wordb ws = true -> Forall ac_word ws.
Proof.
  intros H. apply Forall_forall. intros w Hw%list_elem_of_In. rewrite forallb_forall in H. specialize (H w Hw).
  unfold ac_wordb in H. rewrite !andb_true_iff, orb_true_iff, ?Z.leb_le, ?Z.ltb_lt in H. constructor; lia.
Qed.

Lemma dc_words_checked ws : forallb dc_wordb ws = true -> Forall dc_word ws.
Proof.
  intros H. apply Forall_forall. intros w Hw%list_elem_of_In. rewrite forallb_forall in H. specialize (H w Hw).
  unfold dc_wordb in H. rewrite !andb_true_iff, orb_true_iff, ?Z.leb_le, ?Z.ltb_lt in H. constructor; lia.
Qed.

Definition block_wfb (zz : list Z) : bool := (length zz =? 64)%nat && forallb (fun v => (- 2 ^ 15 <? v) && (v <? 2 ^ 15)) zz.

Lemma blocks_checked zzs : forallb block_wfb zzs = true -> Forall block_wf zzs.
Proof.
  intros H. apply Forall_forall. intros zz Hz%list_elem_of_In. rewrite forallb_forall in H. specialize (H zz Hz).
  unfold block_wfb in H. rewrite andb_true_iff, Nat.eqb_eq, forallb_forall in H. destruct H as [Hl H].
  constructor; [done|]. apply Forall_forall. intros v Hv%list_elem_of_In. specialize (H v Hv).
  rewrite andb_true_iff, !Z.ltb_lt in H. exact H.
Qed.

Fixpoint small_mcusb (hs : list (huffman * huffman)) (js : list nat) (R count : Z) (preds : list Z) (ms : list (list (list Z))) : bool :=
  match ms with
  | [] => true
  | m :: ms =>
      forallb block_wfb m &&
      match encode_blocks hs js preds m with
      | None => false
      | Some (c, ps) =>
          (length c <=? 8 * 440)%nat &&
          if R =? 0 then small_mcusb hs js R count ps ms
          else if count - 1 =? 0 then small_mcusb hs js R R [0; 0; 0] ms else small_mcusb hs js R (count - 1) ps ms
      end
  end.

Lemma small_mcus_checked hs js R ms : forall count preds, small_mcusb hs js R count preds ms = true -> small_mcus hs js R count preds ms.
Proof.
  induction ms as [|m ms IH]; intros count preds H; [done|]. cbn [small_mcusb small_mcus] in *.
  apply andb_true_iff in H as [Hb H]. split; [by apply blocks_checked|].
  destruct (encode_blocks hs js preds m) as [[c ps]|]; [|done]. apply andb_true_iff in H as [Hl H]. apply Nat.leb_le in Hl.
  split; [done|]. destruct (R =? 0); [by apply IH|]. destruct (count - 1 =? 0); by apply IH.
Qed.

(** Bytes, and few of them 0xFF. *)
Definition is_byteb (b : Z) : bool := (0 <=? b) && (b <? 256).

Lemma bytes_checked l : forallb is_byteb l = true -> Forall Crc.is_byte l.
Proof.
  intros H. apply Forall_forall. intros b Hb%list_elem_of_In. rewrite forallb_forall in H. specialize (H b Hb).
  unfold is_byteb in H. rewrite andb_true_iff, Z.leb_le, Z.ltb_lt in H. exact H.
Qed.

Lemma few_ff_checked data : (count_ff data <= 31)%nat -> few_ff data.
Proof.
  intros H a n _. unfold count_ff, between in *. etrans; [|exact H].
  rewrite <- (take_drop a data) at 2. rewrite <- (take_drop (a + n - a) (drop a data)) at 2.
  rewrite !filter_app, !length_app. lia.
Qed.

(** The tables of Annex K of the standard. *)
Definition std_dc_luminance : huffman :=
  mk_huffman [0; 1; 5; 1; 1; 1; 1; 1; 1; 0; 0; 0; 0; 0; 0; 0] [0; 1; 2; 3; 4; 5; 6; 7; 8; 9; 10; 11].
Definition std_dc_chrominance : huffman :=
  mk_huffman [0; 3; 1; 1; 1; 1; 1; 1; 1; 1; 1; 0; 0; 0; 0; 0] [0; 1; 2; 3; 4; 5; 6; 7; 8; 9; 10; 11].
Definition std_ac_luminance : huffman :=
  mk_huffman [0; 2; 1; 3; 3; 2; 4; 3; 5; 5; 4; 4; 0; 0; 1; 125]
    [1; 2; 3; 0; 4; 17; 5; 18; 33; 49; 65; 6; 19; 81; 97; 7; 34; 113; 20; 50; 129; 145; 161; 8; 35; 66;
     177; 193; 21; 82; 209; 240; 36; 51; 98; 114; 130; 9; 10; 22; 23; 24; 25; 26; 37; 38; 39; 40; 41;
     42; 52; 53; 54; 55; 56; 57; 58; 67; 68; 69; 70; 71; 72; 73; 74; 83; 84; 85; 86; 87; 88; 89; 90; 99;
     100; 101; 102; 103; 104; 105; 106; 115; 116; 117; 118; 119; 120; 121; 122; 131; 132; 133; 134; 135;
     136; 137; 138; 146; 147; 148; 149; 150; 151; 152; 153; 154; 162; 163; 164; 165; 166; 167; 168; 169;
     170; 178; 179; 180; 181; 182; 183; 184; 185; 186; 194; 195; 196; 197; 198; 199; 200; 201; 202; 210;
     211; 212; 213; 214; 215; 216; 217; 218; 225; 226; 227; 228; 229; 230; 231; 232; 233; 234; 241; 242;
     243; 244; 245; 246; 247; 248; 249; 250].
Definition std_ac_chrominance : huffman :=
  mk_huffman [0; 2; 1; 2; 4; 4; 3; 4; 7; 5; 4; 4; 0; 1; 2; 119]
    [0; 1; 2; 3; 17; 4; 5; 33; 49; 6; 18; 65; 81; 7; 97; 113; 19; 34; 50; 129; 8; 20; 66; 145; 161; 177;
     193; 9; 35; 51; 82; 240; 21; 98; 114; 209; 10; 22; 36; 52; 225; 37; 241; 23; 24; 25; 26; 38; 39;
     40; 41; 42; 53; 54; 55; 56; 57; 58; 67; 68; 69; 70; 71; 72; 73; 74; 83; 84; 85; 86; 87; 88; 89; 90;
     99; 100; 101; 102; 103; 104; 105; 106; 115; 116; 117; 118; 119; 120; 121; 122; 130; 131; 132; 133;
     134; 135; 136; 137; 138; 146; 147; 148; 149; 150; 151; 152; 153; 154; 162; 163; 164; 165; 166; 167;
     168; 169; 170; 178; 179; 180; 181; 182; 183; 184; 185; 186; 194; 195; 196; 197; 198; 199; 200; 201;
     202; 210; 211; 212; 213; 214; 215; 216; 217; 218; 226; 227; 228; 229; 230; 231; 232; 233; 234; 242;
     243; 244; 245; 246; 247; 248; 249; 250].
(** In zigzag order. *)
Definition std_quant_luminance : list Z :=
    [16; 11; 12; 14; 12; 10; 16; 14; 13; 14; 18; 17; 16; 19; 24; 40; 26; 24; 22; 22; 24; 49; 35; 37; 29;
     40; 58; 51; 61; 60; 57; 51; 56; 55; 64; 72; 92; 78; 64; 68; 87; 69; 55; 56; 80; 109; 81; 87; 95;
     98; 103; 104; 103; 62; 77; 113; 121; 112; 100; 120; 92; 101; 103; 99].
Definition std_quant_chrominance : list Z :=
    [17; 18; 18; 24; 21; 24; 47; 26; 26; 47; 99; 66; 56; 66; 99; 99; 99; 99; 99; 99; 99; 99; 99; 99; 99;
     99; 99; 99; 99; 99; 99; 99; 99; 99; 99; 99; 99; 99; 99; 99; 99; 99; 99; 99; 99; 99; 99; 99; 99; 99;
     99; 99; 99; 99; 99; 99; 99; 99; 99; 99; 99; 99; 99; 99].

(** Two MCUs of four luminance blocks, in restart intervals of one. *)
Definition sample_block (dc a b : Z) : list Z := [dc; a; 0; b] ++ replicate 40 0 ++ [1] ++ replicate 19 0.

Definition sample_picture : picture :=
  mk_picture 30 13 0x22
    [mk_component 1 0 0 0; mk_component 2 1 1 1; mk_component 3 1 1 1]
    [Dqt [(0, std_quant_luminance); (1, std_quant_chrominance)]]
    [Dht [(0, std_dc_luminance); (4, std_ac_luminance); (1, std_dc_chrominance); (5, std_ac_chrominance)]; Dri 1]
    [[sample_block 40 (-3) 2; sample_block 41 5 0; sample_block (-7) 0 0; sample_block 3 1 (-1); sample_block 9 0 2; sample_block (-20) 2 2];
     [sample_block 0 0 0; sample_block 100 (-9) 4; sample_block 12 0 0; sample_block 1 1 1; sample_block 0 6 (-2); sample_block 5 0 0]].

Definition sample_file : list Z := Eval vm_compute in default [] (encode sample_picture).

Lemma sample_encoded : encode sample_picture = Some sample_file.
Proof. vm_compute. done. Qed.

Lemma sample_huffman j h : (pc_header sample_picture).(h_huffman) j = Some h ->
  (j, h) ∈ [(5, std_ac_chrominance); (1, std_dc_chrominance); (4, std_ac_luminance); (0, std_dc_luminance)].
Proof.
  cbn. unfold define. cbn [fst snd]. intros H.
  repeat match type of H with (if ?b then _ else _) = _ => destruct b eqn:?E end; try done;
    match goal with E : (j =? _) = true |- _ => apply Z.eqb_eq in E as -> end; injection H as <-; rewrite !elem_of_cons; auto.
Qed.

Lemma std_tables_wf h : h ∈ [std_ac_chrominance; std_dc_chrominance; std_ac_luminance; std_dc_luminance] -> huffman_wf h.
Proof.
  rewrite !elem_of_cons, elem_of_nil. intros [-> | [-> | [-> | [-> | []] ] ] ];
    (constructor; [done|by apply bytes_checked|done|by apply bytes_checked]).
Qed.

Lemma sample_tables_wf : tables_wf (pc_header sample_picture).(h_huffman).
Proof.
  constructor; intros j h Hj; apply sample_huffman in Hj; rewrite !elem_of_cons, elem_of_nil in Hj;
    destruct Hj as [E | [E | [E | [E | []] ] ] ]; injection E as -> ->; try lia;
    try (intros; exfalso; lia); try (intros _; first [by apply ac_words_checked | by apply dc_words_checked]);
    apply std_tables_wf; rewrite !elem_of_cons; auto.
Qed.

Lemma sample_headers_wf : headers_wf sample_picture.
Proof.
  constructor.
  - cbn. lia.
  - cbn. lia.
  - do 3 eexists. split; [done|]. split; [done|]. split; [done|]. split; [done|]. repeat constructor; done.
  - cbn [sample_picture pc_before pc_after app]. rewrite !Forall_cons. cbn [seg_wf]. rewrite !Forall_cons. cbn [fst snd].
    repeat match goal with |- _ /\ _ => split | |- Forall _ [] => constructor end;
      try (apply std_tables_wf; rewrite !elem_of_cons; auto); first [done | tauto].
  - apply sample_tables_wf.
  - repeat constructor; by eexists.
  - apply Nat.leb_le. vm_compute. done.
Qed.

Lemma sample_wf : picture_wf sample_picture.
Proof.
  constructor.
  - apply sample_headers_wf.
  - unfold supported. cbn. rewrite !elem_of_cons. tauto.
  - vm_compute. done.
  - apply small_mcus_checked. vm_compute. done.
Qed.

Lemma sample_supported : supported_file sample_picture sample_file.
Proof.
  constructor.
  - apply sample_wf.
  - apply sample_encoded.
  - apply Nat.leb_le. vm_compute. done.
  - apply bytes_checked. vm_compute. done.
  - apply few_ff_checked, Nat.leb_le. vm_compute. done.
Qed.

Lemma show_frame_decodes_witness : supported_file sample_picture sample_file /\
  exists draws, show_frame (fun _ => true) sample_file = Ok draws /\ shows sample_picture draws.
Proof. split; [exact sample_supported|]. exact (show_frame_decodes sample_picture sample_file (fun _ => true) sample_supported (fun _ => eq_refl)). Defined.

Lemma color_rgb565_witness : exists r g b, color (Z.shiftl 100 12) 200 30 = rgb565 (clamp r) (clamp g) (clamp b) /\
  rounded r (1000000 * 100 + 1402000 * (30 - 128)) /\
  rounded g (1000000 * 100 - 344136 * (200 - 128) - 714136 * (30 - 128)) /\
  rounded b (1000000 * 100 + 1772000 * (200 - 128)).
Proof. apply (color_rgb565 100 200 30); unfold Crc.is_byte; lia. Defined.

(** ** Other sampling factors *)






End JpegDecode.
