(* ===== verification/Movie.v ===== *)
(** * A motion-JPEG file on the display

    The frame reader and the decoder together: the file is cut into frames by
    [read_frame], and each frame is decoded as the decode task does it. *)
From stdpp Require Import base list.
From Stdlib Require Import ZArith Lia.
From S2P Require Import Prelude MjpegCodec Jpeg JpegFormat JpegDecode.
Import Jpeg JpegFormat JpegDecode.
Local Open Scope Z_scope.

Module Movie.

(** A frame as it is handed out: its last byte may be missing. *)
Lemma delivered_cases (k : nat) f : delivered k f = f \/ delivered k f = removelast f.
Proof. unfold delivered. destruct (trailer_split k f); auto. Qed.

Lemma delivered_shown ps fs malloc : Forall2 supported_file ps fs -> (forall n, malloc n = true) -> forall k,
  Forall2 (fun p f => exists draws, show_frame malloc f = Ok draws /\ shows p draws) ps (delivered_all k fs).
Proof.
  intros Hfs Hm. induction Hfs as [|p f ps fs Hf Hfs IH]; intros k; constructor; [|apply IH].
  by apply (file_shown p f (delivered k f) malloc Hf (delivered_cases k f)).
Qed.

(** C5: A motion-JPEG file of less than 2^32 bytes - the encodings of pictures within
    the decoder's limits (see C6), one after the other, none with an end-of-image marker
    before its end - is played completely when every allocation succeeds, the stream
    delivers what is asked of it, and the byte in memory behind the read buffer, which
    [read_frame] looks at, is not 0xD9: the calls of [read_frame] hand out as many frames
    as there are pictures, then nothing, and decoding each frame sends the display every
    pixel of its picture once, with the value C6 says.  This holds wherever the frames
    lie in the read buffer, although [read_frame] leaves the last byte of some behind. *)
Theorem movie_plays {S : Type} `{!Stream S} (beyond : nat -> Z) (realloc_ok malloc : nat -> bool) (c : MjpegCodec.input) (s : S)
    (ps : list picture) (fs : list (list Z)) :
  (forall size, realloc_ok size = true) -> (forall n, malloc n = true) -> beyond 0%nat <> 0xD9 ->
  Forall2 supported_file ps fs -> Forall is_frame fs -> MjpegCodec.ready c s (concat fs) ->
  exists frames c' s',
    read_frames beyond true realloc_ok (length fs + 1) (length (concat fs) + 3) c s
      = Some (map Frame frames ++ [FreedNull], c', s') /\
    Forall2 (fun p f => exists draws, show_frame malloc f = Ok draws /\ shows p draws) ps frames.
Proof.
  intros Hre Hm Hbe Hsup Hfs Hr.
  destruct (read_frames_rest beyond realloc_ok fs (length (concat fs) + 3) Hre Hbe Hfs [] c s) as (c' & s' & E); [lia|auto|done|].
  exists (delivered_all 0 fs), c', s'. split; [exact E|]. by apply delivered_shown.
Qed.

(** Three times the sample picture, from the start of a file. *)
Definition sample_movie : list (list Z) := [sample_file; sample_file; sample_file].
Definition sample_pictures : list picture := [sample_picture; sample_picture; sample_picture].

Lemma sample_movie_ready : MjpegCodec.ready (MjpegCodec.mk_input 0 0 0 (repeat 0 READ_BUFFER_SIZE)) (concat sample_movie) (concat sample_movie).
Proof.
  split; [apply repeat_length|]. split; [apply Z.le_refl|]. split; [vm_compute; reflexivity|].
  cbn [m_input_index]. change (0 =? 0) with true. cbv iota. reflexivity.
Qed.

Lemma sample_movie_frames : Forall is_frame sample_movie.
Proof.
  assert (H : is_frame sample_file) by (apply is_frame_spec; vm_compute; reflexivity).
  unfold sample_movie. by constructor; [|constructor; [|constructor] ].
Qed.

Lemma sample_movie_supported : Forall2 supported_file sample_pictures sample_movie.
Proof. unfold sample_pictures, sample_movie. pose proof sample_supported. by constructor; [|constructor; [|constructor] ]. Qed.

Lemma movie_plays_witness :
  exists frames c' s',
    read_frames (fun _ => 0) true (fun _ => true) (length sample_movie + 1) (length (concat sample_movie) + 3)
      (MjpegCodec.mk_input 0 0 0 (repeat 0 READ_BUFFER_SIZE)) (concat sample_movie) = Some (map Frame frames ++ [FreedNull], c', s') /\
    Forall2 (fun p f => exists draws, show_frame (fun _ => true) f = Ok draws /\ shows p draws) sample_pictures frames.
Proof.
  exact (movie_plays (fun _ => 0) (fun _ => true) (fun _ => true) (MjpegCodec.mk_input 0 0 0 (repeat 0 READ_BUFFER_SIZE))
           (concat sample_movie) sample_pictures sample_movie (fun _ => eq_refl) (fun _ => eq_refl) ltac:(discriminate)
           sample_movie_supported sample_movie_frames sample_movie_ready).
Defined.

End Movie.
