(* ===== verification/Player.v ===== *)
(** * The animation player

    [MjpegDriver.cpp], [AnimDriver.cpp], [AudioDriver.cpp] and [IvyAnim.cpp]: the task
    that reads the frames of a file, hands them to the decoder in time and repeats the
    file, and what the application starts it with.  The frame reader is that of
    [MjpegCodec]. *)
From stdpp Require Import base list strings.
From Stdlib Require Import ZArith Lia.
From S2P Require Import Prelude MjpegCodec.
Local Open Scope Z_scope.

Module Player.

(** ** State and calls *)

Record MjpegDriver := mk_driver {
  m_playing : bool;
  m_fps : Z;
  m_repeat : Z;
  m_current_repeat : Z;
  m_next_frame_ms : Z;
  m_start_ms : Z;
  m_is_image : bool;
  m_current_frames : Z;
  m_faded : bool;
}.

(** The members as they are initialized. *)
Definition MjpegDriver_new : MjpegDriver := mk_driver false 25 0 0 0 0 false 0 false.

Inductive play_status_t := normal | complete | error.

(** The calls on the file, the codec, the clock and the operating system.  The codec is
    the one [prepare_resource] creates: [m_decoder] is not null. *)
Inductive driver_call : Type -> Type :=
| SD_MMC_open (name : string) : driver_call unit
| file_available : driver_call bool
| file_seek_0 : driver_call unit
| file_is_open : driver_call bool
| file_close : driver_call unit
| codec_new : driver_call unit
| codec_delete : driver_call unit
| codec_reset_input_status : driver_call unit
| codec_read_frame : driver_call (option (list Z))
| codec_decode_frame (data : list Z) : driver_call bool
| codec_stop : driver_call unit
| free_ (data : list Z) : driver_call unit
| millis : driver_call Z
| vTaskDelay (ticks : Z) : driver_call unit
| mutex_lock : driver_call unit
| mutex_unlock : driver_call unit
| xTaskCreatePinnedToCore (name : string) (stack priority core : Z) : driver_call bool
| CoreWDT (enable : bool) : driver_call unit.

Abbreviation driver := (prog driver_call).

(** [std::lock_guard]: the mutex is not recursive, so a task that holds it waits for
    itself. *)
Definition lock_guard (held : bool) : driver unit := if held then Halt Blocked else call mutex_lock.

Definition set_playing (d : MjpegDriver) (b : bool) : MjpegDriver :=
  mk_driver b d.(m_fps) d.(m_repeat) d.(m_current_repeat) d.(m_next_frame_ms) d.(m_start_ms) d.(m_is_image)
    d.(m_current_frames) d.(m_faded).

(** ** [MjpegDriver] *)

Definition set_repeat (d : MjpegDriver) (n : Z) : MjpegDriver :=
  mk_driver d.(m_playing) d.(m_fps) n d.(m_current_repeat) d.(m_next_frame_ms) d.(m_start_ms) d.(m_is_image)
    d.(m_current_frames) d.(m_faded).

Definition reset_play_status (d : MjpegDriver) : driver MjpegDriver :=
  do open <- call file_is_open;
  (if open : bool then call file_close else Ret tt) >>
  call codec_reset_input_status >>
  Ret (mk_driver d.(m_playing) d.(m_fps) d.(m_repeat) 0 0 0 false 0 false).

(** [held]: the caller holds [m_lock]. *)
Definition stop (held : bool) (d : MjpegDriver) : driver MjpegDriver :=
  if d.(m_playing) then
    lock_guard held >>
    call mutex_unlock >>
    call codec_stop >>
    reset_play_status (set_playing d false)
  else Ret d.

(** [while (millis() < m_next_frame_ms) vTaskDelay(pdMS_TO_TICKS(1))]; [None] when
    [fuel] turns have not been enough. *)
Fixpoint wait_until (fuel : nat) (next : Z) : driver (option unit) :=
  match fuel with
  | O => Ret None
  | S fuel =>
      do now <- call millis;
      if now <? next then call (vTaskDelay 1) >> wait_until fuel next else Ret (Some tt)
  end.

(** A frame has been decoded or skipped. *)
Definition count_frame (d : MjpegDriver) (faded : bool) (start : Z) : MjpegDriver :=
  let frames := u32 (d.(m_current_frames) + 1) in
  mk_driver d.(m_playing) d.(m_fps) d.(m_repeat) d.(m_current_repeat)
    (u32 (start + u32 (frames * 1000) / d.(m_fps))) start d.(m_is_image) frames faded.

(** The part of the loop behind the end-of-file test: the driver and whether the frame
    was skipped. *)
Definition next_frame (fuel : nat) (d : MjpegDriver) (data : list Z) : driver (option (MjpegDriver * bool)) :=
  do now <- call millis;
  let skip := (d.(m_next_frame_ms) <? now) && (0 <? d.(m_start_ms)) in
  do waited <-
    (if skip then call (free_ data) >> Ret (Some tt)
     else call (codec_decode_frame data) >> wait_until fuel d.(m_next_frame_ms));
  match waited with
  | None => Ret None
  | Some _ =>
      if d.(m_start_ms) =? 0 then
        do now <- call millis;
        Ret (Some (count_frame d true (u32 now), skip))
      else Ret (Some (count_frame d d.(m_faded) d.(m_start_ms), skip))
  end.

Definition rewind (d : MjpegDriver) : MjpegDriver :=
  mk_driver d.(m_playing) d.(m_fps) d.(m_repeat) (u32 (d.(m_current_repeat) + 1)) d.(m_next_frame_ms) 0 d.(m_is_image) 0 d.(m_faded).

(** What the end-of-file test finds. *)
Inductive file_state := Ready (d : MjpegDriver) | Image | Ended.

Definition check_file (d : MjpegDriver) : driver file_state :=
  do avail <- call file_available;
  if avail : bool then Ret (Ready d)
  else if (d.(m_repeat) =? -1) || (d.(m_current_repeat) <? u32 d.(m_repeat)) then
    if d.(m_current_frames) =? 1 then Ret Image
    else call file_seek_0 >> call codec_reset_input_status >> Ret (Ready (rewind d))
  else Ret Ended.

Definition set_image (d : MjpegDriver) : MjpegDriver :=
  mk_driver d.(m_playing) d.(m_fps) d.(m_repeat) d.(m_current_repeat) d.(m_next_frame_ms) d.(m_start_ms) true
    d.(m_current_frames) d.(m_faded).

(** [while (true)] of [play_frame]; every turn but the last skips a frame. *)
Fixpoint play_loop (fuel : nat) (wait : nat) (d : MjpegDriver) : driver (option (play_status_t * MjpegDriver)) :=
  match fuel with
  | O => Ret None
  | S fuel =>
      do st <- check_file d;
      match st with
      | Image => Ret (Some (normal, set_image d))
      | Ended => do d <- stop true d; Ret (Some (complete, d))
      | Ready d =>
          do data <- call codec_read_frame;
          match data with
          | None => do d <- stop true d; Ret (Some (error, d))
          | Some data =>
              do r <- next_frame wait d data;
              match r with
              | None => Ret None
              | Some (d, skip) => if skip : bool then play_loop fuel wait d else Ret (Some (normal, d))
              end
          end
      end
  end.

Definition play_frame (fuel wait : nat) (d : MjpegDriver) : driver (option (play_status_t * MjpegDriver)) :=
  lock_guard false >>
  do r <-
    (if negb d.(m_playing) then Ret (Some (complete, d))
     else if d.(m_is_image) then Ret (Some (normal, d))
     else play_loop fuel wait d);
  call mutex_unlock >> Ret r.

(** The task, for [n] turns. *)
Fixpoint play_routine (n fuel wait : nat) (d : MjpegDriver) : driver (option MjpegDriver) :=
  match n with
  | O => Ret (Some d)
  | S n =>
      do r <- play_frame fuel wait d;
      match r with
      | None => Ret None
      | Some (_, d) => call (vTaskDelay 10) >> play_routine n fuel wait d
      end
  end.

(** A task that cannot be created is only logged. *)
Definition MjpegDriver_begin : driver unit :=
  do _ <- call (xTaskCreatePinnedToCore "VideoDecoder" (1024 * 6) 6 1); Ret tt.

Definition drv_activation_cb (activate : bool) (d : MjpegDriver) : driver MjpegDriver :=
  if activate then call (CoreWDT false) >> Ret d
  else do d <- stop false d; call (CoreWDT true) >> Ret d.

Definition prepare_resource : driver unit := call codec_new.
Definition release_resource : driver unit := call codec_delete.

(** [AnimDriver::anim_bind_assets]. *)
Definition AnimDriver_bind_assets (name : string) : driver bool := call (SD_MMC_open name) >> call file_available.

Definition anim_bind_assets (name : string) (d : MjpegDriver) : driver (bool * MjpegDriver) :=
  if d.(m_playing) then Ret (false, d)
  else
    let d := set_playing d true in
    do r <- AnimDriver_bind_assets name; Ret (r, d).

(** ** [AudioDriver] and [IvyAnim] *)

Definition AUDIO_I2S_BCLK : Z := 13.
Definition AUDIO_I2S_LRC : Z := 14.
Definition AUDIO_I2S_DOUT : Z := 40.
Definition SD_CLK : Z := 45.
Definition SD_CMD : Z := 47.
Definition SD_D0 : Z := 48.
Definition mount_name : string := "/sd".
Definition ASSETS_PATH : string := "/video".

(** The calls of the application: those of the video driver, of the audio library and
    of the card. *)
Inductive anim_call : Type -> Type :=
| video {A : Type} (e : driver_call A) : anim_call A
| Audio_new : anim_call unit
| Audio_delete : anim_call unit
| setPinout (bclk lrc dout : Z) : anim_call unit
| setVolume (volume : Z) : anim_call unit
| isRunning : anim_call bool
| stopSong : anim_call unit
| connecttoFS (name : string) : anim_call bool
| audio_loop : anim_call unit
| SD_MMC_setPins (clk cmd d0 : Z) : anim_call bool
| SD_MMC_begin (mount : string) (one_bit : bool) : anim_call bool
| SD_MMC_exists (name : string) : anim_call bool.

Abbreviation anim := (prog anim_call).

(** A step of the video driver within the application. *)
Fixpoint on_video {A} (p : driver A) : anim A :=
  match p with
  | Ret a => Ret a
  | Halt h => Halt h
  | Vis e k => Vis (video e) (fun x => on_video (k x))
  end.

Definition AudioDriver_prepare_resource : anim unit :=
  call Audio_new >> call (setPinout AUDIO_I2S_BCLK AUDIO_I2S_LRC AUDIO_I2S_DOUT) >> call (setVolume 5).

Definition AudioDriver_stop : anim unit :=
  do running <- call isRunning; if running : bool then call stopSong else Ret tt.

Definition AudioDriver_release_resource : anim unit := AudioDriver_stop >> call Audio_delete.

Definition AudioDriver_begin : anim unit :=
  do _ <- call (video (xTaskCreatePinnedToCore "AudioDecoder" (1024 * 6) 10 0)); Ret tt.

Definition AudioDriver_bind_assets (name : string) : anim bool :=
  do _ <- call (connecttoFS name); Ret true.

(** The audio task, for [n] turns. *)
Fixpoint AudioDriver_play_routine (n : nat) : anim unit :=
  match n with O => Ret tt | S n => call audio_loop >> AudioDriver_play_routine n end.

(** Whether there is an audio driver, and the video driver. *)
Record IvyAnim := mk_anim { m_audio_decoder : bool; m_video_decoder : option MjpegDriver }.

Definition init_file_sys : anim unit :=
  do _ <- call (SD_MMC_setPins SD_CLK SD_CMD SD_D0);
  do _ <- call (SD_MMC_begin mount_name true); Ret tt.

Definition asset (name extension : string) : string :=
  (ASSETS_PATH +:+ "/" +:+ name +:+ "/" +:+ name +:+ extension)%string.

Definition bind_assets (name : string) (a : IvyAnim) : anim IvyAnim :=
  do has_audio <- call (SD_MMC_exists (asset name ".aac"));
  do audio <-
    (if has_audio : bool then
       AudioDriver_prepare_resource >> do _ <- AudioDriver_bind_assets (asset name ".aac"); Ret true
     else Ret a.(m_audio_decoder));
  do has_video <- call (SD_MMC_exists (asset name ".mjpeg"));
  do video <-
    (if has_video : bool then
       on_video prepare_resource >>
       do r <- on_video (anim_bind_assets (asset name ".mjpeg") MjpegDriver_new); Ret (Some r.2)
     else Ret a.(m_video_decoder));
  Ret (mk_anim audio video).

Definition play (a : IvyAnim) : anim unit :=
  (if a.(m_audio_decoder) then AudioDriver_begin else Ret tt) >>
  (match a.(m_video_decoder) with Some _ => on_video MjpegDriver_begin | None => Ret tt end).

(** ** A player with its file *)

(** The clock in milliseconds since the start, the number of calls made, the file and
    what is unread of it, the reader, and the frames taken from it: decoded or freed. *)
Record world := mk_world {
  w_clock : Z;
  w_calls : nat;
  w_file : list Z;
  w_rest : list Z;
  w_input : input;
  w_log : list (bool * list Z);
}.

Inductive result (A : Type) := Finished (a : A) | Hung (h : halt) | TimeUp.
Arguments Finished {A} a.
Arguments Hung {A} h.
Arguments TimeUp {A}.

Section World.
(** What lies behind the read buffer, how long each call takes, and whether a frame
    can be decoded. *)
Context (beyond : nat -> Z) (elapse : nat -> nat) (decodes : list Z -> bool).

Definition set_clock (w : world) (t : Z) : world :=
  mk_world t (S w.(w_calls)) w.(w_file) w.(w_rest) w.(w_input) w.(w_log).
Definition set_stream (w : world) (s : list Z) (c : input) : world :=
  mk_world w.(w_clock) w.(w_calls) w.(w_file) s c w.(w_log).
Definition add_log (w : world) (b : bool) (data : list Z) : world :=
  mk_world w.(w_clock) w.(w_calls) w.(w_file) w.(w_rest) w.(w_input) (w.(w_log) ++ [(b, data)]).

Definition reading (w : world) : option (list Z) * world :=
  match read_frame beyond true (fun _ => true) (length w.(w_file) + 3) w.(w_input) w.(w_rest) with
  | Some (c, s, Frame data) => (Some data, set_stream w s c)
  | Some (c, s, _) => (None, set_stream w s c)
  | None => (None, w)
  end.

Definition answer {X} (e : driver_call X) (w : world) : X * world :=
  match e in driver_call X return X * world with
  | file_available => (match w.(w_rest) with [] => false | _ => true end, w)
  | file_seek_0 => (tt, set_stream w w.(w_file) w.(w_input))
  | codec_reset_input_status => (tt, set_stream w w.(w_rest) (reset_input_status w.(w_input)))
  | codec_read_frame => reading w
  | codec_decode_frame data => (decodes data, add_log w true data)
  | free_ data => (tt, add_log w false data)
  | millis => (u32 w.(w_clock), w)
  | vTaskDelay n => (tt, set_clock w (w.(w_clock) + u32 n))
  | file_is_open => (true, w)
  | xTaskCreatePinnedToCore _ _ _ _ => (true, w)
  | SD_MMC_open _ | file_close | codec_new | codec_delete | codec_stop
  | mutex_lock | mutex_unlock | CoreWDT _ => (tt, w)
  end.

(** The run of a program, up to the wrap of the clock after 49 days. *)
Fixpoint perform {A} (p : driver A) (w : world) : result A * world :=
  match p with
  | Ret a => (Finished a, w)
  | Halt h => (Hung h, w)
  | Vis e k =>
      let w := set_clock w (w.(w_clock) + Z.of_nat (elapse w.(w_calls))) in
      if w.(w_clock) <? 2 ^ 32 then let '(x, w) := answer e w in perform (k x) w else (TimeUp, w)
  end.
End World.

(** ** Runs *)

Section Runs.
Context (beyond : nat -> Z) (elapse : nat -> nat) (decodes : list Z -> bool).
Context (blocked : world -> Prop).

(** The program finishes with [Q], or its task is blocked with [blocked], unless the
    clock wraps. *)
Definition runs {A} (p : driver A) (w : world) (Q : A -> world -> Prop) : Prop :=
  match perform beyond elapse decodes p w with
  | (Finished a, w') => Q a w'
  | (Hung Blocked, w') => blocked w'
  | (Hung _, _) => False
  | (TimeUp, _) => True
  end.

Lemma runs_ret {A} (a : A) w (Q : A -> world -> Prop) : Q a w -> runs (Ret a) w Q.
Proof. done. Qed.

Lemma runs_bind {A B} (p : driver A) (f : A -> driver B) w (Q : B -> world -> Prop) :
  runs p w (fun a w' => runs (f a) w' Q) -> runs (bind p f) w Q.
Proof.
  unfold runs. revert w. induction p as [a|h|X e k IH]; intros w; cbn; [done|done|].
  destruct (_ <? _); [|done]. destruct (answer _ _ e _) as [x w']. apply IH.
Qed.

Lemma runs_mono {A} (p : driver A) w (Q Q' : A -> world -> Prop) :
  runs p w Q -> (forall a w', Q a w' -> Q' a w') -> runs p w Q'.
Proof. unfold runs. destruct (perform _ _ _ p w) as [[a|[]|] w']; auto. Qed.

(** A call takes some time, and is answered. *)
Lemma runs_call {X A} (e : driver_call X) (k : X -> driver A) w (Q : A -> world -> Prop) :
  (forall t, w.(w_clock) <= t < 2 ^ 32 ->
     let '(x, w') := answer beyond decodes e (set_clock w t) in runs (k x) w' Q) ->
  runs (bind (call e) k) w Q.
Proof.
  intros H. unfold runs. cbn.
  set (t := w.(w_clock) + Z.of_nat (elapse w.(w_calls))).
  destruct (Z.ltb_spec t (2 ^ 32)) as [Ht|Ht]; [|done].
  specialize (H t ltac:(unfold t in *; lia)). by destruct (answer _ _ e _).
Qed.

Lemma runs_blocked {A} w (Q : A -> world -> Prop) : blocked w -> runs (Halt Blocked) w Q.
Proof. done. Qed.

(** Time passes; nothing else happens. *)
Definition later (w w' : world) : Prop :=
  w.(w_clock) <= w'.(w_clock) /\ w'.(w_file) = w.(w_file) /\ w'.(w_rest) = w.(w_rest) /\
  w'.(w_input) = w.(w_input) /\ w'.(w_log) = w.(w_log).

Lemma later_clock w t : w.(w_clock) <= t -> later w (set_clock w t).
Proof. intros Ht. unfold later. by split_and!. Qed.

Lemma later_trans w1 w2 w3 : later w1 w2 -> later w2 w3 -> later w1 w3.
Proof. unfold later. intros (?&?&?&?&?) (?&?&?&?&?). split_and!; congruence || lia. Qed.

Lemma wait_runs next (Q : option unit -> world -> Prop) fuel : forall w,
  0 < w.(w_clock) -> Z.max 0 (next - w.(w_clock)) < Z.of_nat fuel ->
  (forall w', later w w' -> Q (Some tt) w') -> runs (wait_until fuel next) w Q.
Proof.
  induction fuel as [|fuel IH]; intros w Hw Hn HQ; cbn [wait_until].
  - lia.
  - apply runs_call. intros t Ht. cbn [answer]. cbn [set_clock w_clock]. rewrite u32_small by lia.
    destruct (Z.ltb_spec t next).
    + apply runs_call. intros t' Ht'. cbn [answer]. change (u32 1) with 1. cbn [set_clock w_clock] in Ht'.
      apply IH; cbn [set_clock w_clock]; [lia|lia|].
      intros w' Hw'. apply HQ. eapply later_trans; [|exact Hw']. unfold later. split_and!; simpl; try done. lia.
    + apply runs_ret, HQ, later_clock. lia.
Qed.
End Runs.

(** ** The reader within a file *)

Lemma rest_long (l : list (list Z)) : l <> [] -> (length (List.last l []) <= length (concat l))%nat.
Proof.
  induction l as [|f l IH]; [done|]. intros _. destruct l as [|g l]; [simpl; rewrite app_nil_r; lia|].
  change (List.last (f :: g :: l) []) with (List.last (g :: l) []).
  cbn [concat]. rewrite length_app. specialize (IH ltac:(done)). cbn [concat] in IH. lia.
Qed.

Lemma last_drop (l : list (list Z)) (j : nat) : (j < length l)%nat -> List.last (drop j l) [] = List.last l [].
Proof.
  revert j. induction l as [|f l IH]; intros j Hj; [simpl in Hj; lia|].
  destruct j as [|j]; [done|]. simpl in Hj |- *. rewrite IH by lia. destruct l; [simpl in Hj; lia|done].
Qed.

Lemma drop_elem (l : list (list Z)) (j : nat) : (j < length l)%nat ->
  exists f, drop j l = f :: drop (S j) l /\ f ∈ l.
Proof.
  intros Hj. destruct (lookup_lt_is_Some_2 l j Hj) as [f Hf]. exists f.
  split; [by apply drop_S|by eapply list_elem_of_lookup_2].
Qed.

Section Position.
Context (beyond : nat -> Z) (elapse : nat -> nat) (decodes : list Z -> bool).
Context (fs : list (list Z)) (R : nat).
Context (Hbeyond : beyond 0%nat <> 0xD9) (Hfs : Forall is_frame fs) (Htwo : (2 <= length fs)%nat).
Context (Hlast : (READ_BUFFER_SIZE < length (List.last fs []))%nat).
Context (Hsize : Z.of_nat (length (concat fs)) < 2 ^ 32) (HR : Z.of_nat R < 2 ^ 31).

(** The reader stands before frame [j]. *)
Definition reader (j : nat) (c : input) (s : list Z) : Prop :=
  exists junk, (junk = [] \/ junk = [0xD9]) /\ ready c s (junk ++ concat (drop j fs)) /\
    delivered_all (length junk) (drop j fs) = drop j (delivered_all 0 fs) /\
    (if bool_decide (j = 0%nat) then c.(m_input_index) = 0 /\ junk = [] else 0 < c.(m_input_index)).

Lemma rest_over (j : nat) : (j < length fs)%nat -> (READ_BUFFER_SIZE < length (concat (drop j fs)))%nat.
Proof.
  intros Hj. pose proof (rest_long (drop j fs)) as H. rewrite last_drop in H by done.
  enough (drop j fs <> []) by (specialize (H ltac:(done)); lia).
  intros E. apply (f_equal length) in E. rewrite length_drop in E. simpl in E. lia.
Qed.

(** The file has bytes to read just while a frame is left. *)
Lemma reader_available j c s : (j <= length fs)%nat -> reader j c s ->
  match s with [] => false | _ => true end = (j <? length fs)%nat.
Proof.
  intros Hj (junk & Hjunk & (_ & _ & _ & Hr) & _ & Hi).
  assert (Hs : (0 < length s)%nat <-> (j < length fs)%nat).
  { case_bool_decide as E; [destruct Hi as [Hi ->]|]; cbn [contents file_stream] in Hr.
    - rewrite Hi in Hr. simpl in Hr. subst s j. pose proof (rest_over 0 ltac:(lia)). lia.
    - rewrite (proj2 (Z.eqb_neq _ 0)) in Hr by lia. destruct Hr as [W _].
      pose proof (window_full _ _ _ _ _ W) as Hn. pose proof (window_rest _ _ _ _ _ W) as Hs.
      cbn [contents file_stream] in Hs. rewrite Hs, length_drop, Hn, length_app.
      destruct (decide (j = length fs)) as [->|]; [|pose proof (rest_over j ltac:(lia)); lia].
      rewrite drop_all. destruct Hjunk as [->| ->]; unfold READ_BUFFER_SIZE; simpl; lia. }
  destruct s; simpl in Hs; symmetry; [apply Nat.ltb_ge|apply Nat.ltb_lt]; lia.
Qed.

Lemma reader_rewind c : length c.(m_read_buf) = READ_BUFFER_SIZE -> reader 0 (reset_input_status c) (concat fs).
Proof. intros Hc. exists []. split_and!; [auto| |done|done]. split_and!; done || (simpl; lia). Qed.

Lemma reading_frame j w : (j < length fs)%nat -> w.(w_file) = concat fs -> reader j w.(w_input) w.(w_rest) ->
  exists data c s, delivered_all 0 fs !! j = Some data /\ reading beyond w = (Some data, set_stream w s c) /\ reader (S j) c s.
Proof.
  intros Hj Hfile (junk & Hjunk & Hr & HD & _). destruct (drop_elem fs j Hj) as (f & Hd & Hf).
  assert (Hframe : is_frame f) by (by eapply (proj1 (Forall_forall _ _) Hfs)).
  rewrite Hd in Hr, HD. cbn [concat delivered_all] in Hr, HD.
  assert (Hlen : (length f <= length (concat fs))%nat).
  { rewrite <- (take_drop j fs) at 1. rewrite concat_app, length_app, Hd. simpl. rewrite length_app. lia. }
  destruct (read_frame_frame beyond (fun _ => true) (length w.(w_file) + 3) _ _ junk f _ ltac:(done) Hbeyond Hframe Hr)
    as (c & s & E & Hr' & _ & Hidx).
  - destruct Hjunk as [->| ->]; simpl; unfold READ_BUFFER_SIZE; lia.
  - destruct Hjunk as [->| ->]; simpl; intros i ?; [lia|]. by assert (i = 0%nat) as -> by lia; intros [].
  - rewrite Hfile. lia.
  - exists (delivered (length junk) f), c, s. unfold reading. rewrite E.
    split_and!; [|done|].
    + replace j with (j + 0)%nat by lia. by rewrite <- lookup_drop, <- HD.
    + exists (leftover (length junk) f). split_and!; [|done| |done].
      * unfold leftover. destruct (trailer_split _ _); auto.
      * replace (S j) with (j + 1)%nat by lia. by rewrite <- !drop_drop, <- HD, Hd.
Qed.

(** ** Playing *)

Abbreviation frames := (delivered_all 0 fs).
Definition patience : Z := Z.of_nat (length fs) * 40.

(** The driver in pass [p] before frame [j], at time [t]. *)
Record driver_at (p j : nat) (d : MjpegDriver) (t : Z) : Prop := {
  at_mode : d.(m_playing) = true /\ d.(m_fps) = 25 /\ d.(m_repeat) = Z.of_nat R /\ d.(m_is_image) = false;
  at_count : d.(m_current_repeat) = Z.of_nat p /\ d.(m_current_frames) = Z.of_nat j;
  at_start : 0 <= d.(m_start_ms) <= t /\ (d.(m_start_ms) = 0 <-> j = 0%nat);
  at_time : 0 < t /\ d.(m_next_frame_ms) <= t + patience;
}.

Definition reads (j : nat) (w : world) : Prop := w.(w_file) = concat fs /\ reader j w.(w_input) w.(w_rest).

(** The frames taken so far: [p] whole passes and [j] more, the first of each decoded. *)
Definition logged (p j : nat) (w : world) : Prop :=
  map snd w.(w_log) = concat (replicate p frames) ++ take j frames /\
  forall q b data, w.(w_log) !! (q * length fs)%nat = Some (b, data) -> b = true.

Definition at_pos (p j : nat) (d : MjpegDriver) (w : world) : Prop :=
  (p <= R)%nat /\ (j <= length fs)%nat /\ driver_at p j d w.(w_clock) /\ reads j w /\ logged p j w.

Lemma driver_later p j d t t' : driver_at p j d t -> t <= t' -> driver_at p j d t'.
Proof. intros [] ?. constructor; [done|done|intuition lia|lia]. Qed.

Lemma reads_later j w w' : reads j w -> later w w' -> reads j w'.
Proof. unfold reads. by intros H (_ & -> & -> & -> & _). Qed.

Lemma logged_later p j w w' : logged p j w -> later w w' -> logged p j w'.
Proof. unfold logged. by intros H (_ & _ & _ & _ & ->). Qed.

Lemma at_later p j d w w' : at_pos p j d w -> later w w' -> at_pos p j d w'.
Proof.
  intros (Hp & Hj & Hd & Hr & Hl) H. pose proof H as (Hc & _).
  unfold at_pos. split_and!; [done|done|by eapply driver_later|by eapply reads_later|by eapply logged_later].
Qed.

Lemma frames_length k (l : list (list Z)) : length (delivered_all k l) = length l.
Proof. revert k. induction l as [|f l IH]; intros k; simpl; [done|]. by rewrite IH. Qed.

Lemma log_length p j w : logged p j w -> (j <= length fs)%nat -> length w.(w_log) = (p * length fs + j)%nat.
Proof.
  intros [E _] Hj. apply (f_equal length) in E. rewrite length_map, length_app, length_take, frames_length in E.
  assert (Hc : length (concat (replicate p frames)) = (p * length fs)%nat).
  { clear. induction p; simpl; [done|]. by rewrite length_app, frames_length, IHp. }
  lia.
Qed.

(** All passes are complete. *)
Definition played (w : world) : Prop := logged (S R) 0 w.

Lemma concat_replicate_S p : concat (replicate p frames) ++ frames = concat (replicate (S p) frames).
Proof. rewrite replicate_S_end, concat_app. simpl. by rewrite app_nil_r. Qed.

Abbreviation runs_here := (runs beyond elapse decodes played).

Lemma add_logged p j w b data : logged p j w -> frames !! j = Some data -> (j = 0%nat -> b = true) ->
  logged p (S j) (add_log w b data).
Proof.
  intros Hl Hj Hb. pose proof (lookup_lt_Some _ _ _ Hj) as Hlt. rewrite frames_length in Hlt.
  pose proof (log_length _ _ _ Hl ltac:(lia)) as Hlen. destruct Hl as [E Hfirst].
  split; cbn [w_log add_log].
  - rewrite map_app, E, <- app_assoc. f_equal. by rewrite (take_S_r _ _ _ Hj).
  - intros q b' data' Hq. apply lookup_app_Some in Hq as [Hq|[Hq E']]; [by eapply Hfirst|].
    apply list_lookup_singleton_Some in E' as [E' [= <- _] ]. apply Hb.
    assert (q * length fs = p * length fs + j)%nat by lia. assert (q = p) by nia. subst. lia.
Qed.

Lemma logged_pass p w : logged p (length fs) w -> logged (S p) 0 w.
Proof.
  intros [E Hf]. split; [|done]. rewrite E, take_ge by (rewrite frames_length; lia).
  by rewrite concat_replicate_S, take_0, app_nil_r.
Qed.

Lemma count_frames : (length fs <= length (concat fs))%nat.
Proof.
  clear -Hfs. induction Hfs as [|f l Hf Hl IH]; [done|].
  cbn [length concat]. rewrite length_app. apply frame_long in Hf. specialize (IH Hl). lia.
Qed.

Lemma count_driver p j d t faded start : driver_at p j d t -> (j < length fs)%nat -> 0 < start <= t ->
  driver_at p (S j) (count_frame d faded start) t.
Proof.
  intros [(? & Hfps & ? & ?) [? Hj] ? ?] Hlt Hs.
  pose proof count_frames as Hc.
  unfold count_frame. rewrite Hj, Hfps, (u32_small (Z.of_nat j + 1)) by lia.
  constructor; cbn; [done|lia|lia|]. split; [lia|]. unfold patience, u32.
  pose proof (Z.mod_le ((Z.of_nat j + 1) * 1000) (2 ^ 32) ltac:(lia) ltac:(lia)) as Hle1.
  set (m := ((Z.of_nat j + 1) * 1000) mod 2 ^ 32) in *.
  assert (0 <= m) by (apply Z.mod_pos_bound; lia).
  pose proof (Z.div_le_mono m ((Z.of_nat j + 1) * 40 * 25) 25 ltac:(lia) ltac:(lia)) as Hle2.
  rewrite Z.div_mul in Hle2 by lia. pose proof (Z.div_pos m 25 ltac:(lia) ltac:(lia)).
  pose proof (Z.mod_le (start + m / 25) (2 ^ 32) ltac:(lia) ltac:(lia)). lia.
Qed.

Context (wait : nat) (Hwait : patience < Z.of_nat wait).

Lemma next_frame_runs p j data d w :
  (p <= R)%nat -> (j < length fs)%nat -> frames !! j = Some data ->
  driver_at p j d w.(w_clock) -> reads (S j) w -> logged p j w ->
  runs_here (next_frame wait d data) w (fun r w' =>
    exists d' skip, r = Some (d', skip) /\ at_pos p (S j) d' w' /\ (j = 0%nat -> skip = false)).
Proof.
  intros Hp Hj Hdata Hd Hr Hl. unfold next_frame. apply runs_call. intros t Ht. cbn [answer].
  set (skip := (_ && _)). pose proof (later_clock w t ltac:(lia)) as Hw.
  assert (Hskip : j = 0%nat -> skip = false).
  { intros H0. unfold skip. rewrite (proj2 (proj2 (at_start _ _ _ _ Hd)) H0). by rewrite andb_comm. }
  apply runs_bind. eapply (runs_mono _ _ _ _ _ _ (fun r w' => r = Some tt /\ driver_at p j d w'.(w_clock) /\ reads (S j) w' /\ logged p (S j) w')).
  - pose proof (driver_later _ _ _ _ t Hd ltac:(lia)) as Hd'.
    pose proof (reads_later _ _ _ Hr Hw) as Hr'. pose proof (logged_later _ _ _ _ Hl Hw) as Hl'.
    destruct skip eqn:Es.
    + apply runs_call. intros t' Ht'. apply runs_ret. cbn in Ht'. split_and!; [done| |done|].
      * cbn. eapply driver_later; [exact Hd'|lia].
      * apply (add_logged p j (set_clock (set_clock w t) t') false data); [done|done|].
        intros H0. by specialize (Hskip H0).
    + apply runs_call. intros t' Ht'. cbn [answer]. cbn in Ht'.
      destruct (at_time _ _ _ _ Hd) as [H0 Hn].
      apply wait_runs; cbn; [lia|unfold patience in *; lia|]. intros w' Hw'.
      pose proof Hw' as (Hc & _). cbn in Hc. split_and!; [done| | |].
      * eapply driver_later; [exact Hd'|lia].
      * eapply reads_later; [|exact Hw']. exact Hr'.
      * eapply logged_later; [|exact Hw'].
        by apply (add_logged p j (set_clock (set_clock w t) t') true data).
  - intros r w' (-> & Hd' & Hr' & Hl'). destruct (Z.eqb_spec d.(m_start_ms) 0) as [H0|H0].
    + apply runs_call. intros t' Ht'. cbn [answer]. apply runs_ret. do 2 eexists. split; [done|].
      destruct (at_time _ _ _ _ Hd') as [H1 _]. cbn [w_clock set_clock]. do 2 rewrite (u32_small t') by lia.
      split; [|done]. unfold at_pos. split_and!; [lia|lia| |done|done].
      apply count_driver; [|done|cbn; lia]. eapply driver_later; [exact Hd'|cbn; lia].
    + apply runs_ret. do 2 eexists. split; [done|]. split; [|done].
      unfold at_pos. split_and!; [lia|lia| |done|done].
      pose proof (at_start _ _ _ _ Hd') as [H1 _]. apply count_driver; [done|done|lia].
Qed.

Lemma reader_buffer j c s : reader j c s -> length c.(m_read_buf) = READ_BUFFER_SIZE.
Proof. by intros (junk & _ & (H & _) & _). Qed.

(** What the end-of-file test finds at a position. *)
Lemma check_file_runs p j d w : at_pos p j d w ->
  runs_here (check_file d) w (fun st w' =>
    (exists p' j' d', st = Ready d' /\ at_pos p' j' d' w' /\ (j' < length fs)%nat /\
       (p' = p /\ j' = j \/ j = length fs /\ p' = S p /\ j' = 0%nat)) \/
    (st = Ended /\ played w')).
Proof.
  intros (Hp & Hj & Hd & [Hfile Hr] & Hl). unfold check_file. apply runs_call. intros t Ht. cbn [answer w_rest set_clock].
  rewrite (reader_available j _ _ Hj Hr). destruct (Nat.ltb_spec j (length fs)) as [Hlt|Hge].
  { apply runs_ret. left. exists p, j, d. split; [done|]. split; [|auto].
    eapply at_later; [|apply later_clock; lia]. by unfold at_pos. }
  assert (j = length fs) as -> by lia. apply logged_pass in Hl.
  destruct (at_mode _ _ _ _ Hd) as (? & ? & HRd & ?). destruct (at_count _ _ _ _ Hd) as [Hcp Hcj].
  rewrite HRd, Hcp, Hcj, (u32_small (Z.of_nat R)) by lia.
  rewrite (proj2 (Z.eqb_neq (Z.of_nat R) (-1))), (proj2 (Z.eqb_neq (Z.of_nat (length fs)) 1)) by lia. cbn [orb].
  destruct (Z.ltb_spec (Z.of_nat p) (Z.of_nat R)).
  - do 2 (apply runs_call; intros ? ?; cbn [answer]). apply runs_ret. left.
    exists (S p), 0%nat, (rewind d). split; [done|]. split; [|split; [lia|auto]].
    cbn in *. unfold at_pos. split_and!; [lia|lia| |split; [done|] |done].
    + destruct Hd as [? ? Hs Htm]. unfold rewind. constructor; cbn; [done| |lia|lia].
      rewrite Hcp, u32_small by lia. lia.
    + cbn. rewrite Hfile. apply reader_rewind. by eapply reader_buffer.
  - apply runs_ret. right. split; [done|]. by assert (p = R) as -> by lia.
Qed.

Lemma stop_blocks d w (Q : play_status_t -> MjpegDriver -> world -> Prop) st :
  d.(m_playing) = true -> played w ->
  runs_here (do d' <- stop true d; Ret (Some (st, d'))) w (fun r w' => exists s d', r = Some (s, d') /\ Q s d' w').
Proof. intros Hd Hw. unfold stop. rewrite Hd. by apply runs_blocked. Qed.

(** [play_frame] takes at least one frame, or hangs after the last pass. *)
Lemma play_loop_runs fuel : forall p j d w, at_pos p j d w -> (length fs - j < fuel)%nat ->
  runs_here (play_loop fuel wait d) w (fun r w' =>
    exists s d', r = Some (s, d') /\ s = normal /\ exists p' j', at_pos p' j' d' w' /\ (p * length fs + j < p' * length fs + j')%nat).
Proof.
  induction fuel as [|fuel IH]; intros p j d w H Hf; [lia|]. cbn [play_loop].
  pose proof H as (_ & _ & Hd0 & _). apply runs_bind. eapply runs_mono; [by apply (check_file_runs p j)|]. cbn beta.
  intros st w1 [(p1 & j1 & d1 & -> & H1 & Hj1 & Hpos)|[-> Hpl] ].
  2: { apply (stop_blocks d w1 (fun s d' w' => s = normal /\ _)); [apply Hd0|done]. }
  apply runs_call. intros t Ht. cbn [answer].
  apply (at_later _ _ _ _ (set_clock w1 t)) in H1; [|apply later_clock; lia].
  destruct H1 as (Hp1 & _ & Hd1 & [Hfile Hr1] & Hl1).
  destruct (reading_frame j1 _ Hj1 Hfile Hr1) as (data & c & s & Hdata & -> & Hr2).
  apply runs_bind. eapply runs_mono; [by apply (next_frame_runs p1 j1)|]. cbn beta.
  intros r w2 (d2 & skip & -> & H2 & Hskip).
  assert (Hadv : (p * length fs + j < p1 * length fs + S j1)%nat) by (destruct Hpos as [[-> ->]|(-> & -> & ->)]; lia).
  destruct skip.
  - assert (j1 <> 0%nat) by (intros E; by specialize (Hskip E)).
    destruct Hpos as [[-> ->]|(_ & _ & ->)]; [|done].
    eapply runs_mono; [apply (IH p (S j)); [done|lia]|].
    intros r w3 (st & d3 & -> & -> & p3 & j3 & H3 & ?). exists normal, d3. split_and!; [done..|].
    exists p3, j3. split; [done|lia].
  - apply runs_ret. exists normal, d2. split_and!; [done..|]. by exists p1, (S j1).
Qed.

Lemma play_routine_runs fuel n : (length fs < fuel)%nat -> forall p j d w, at_pos p j d w ->
  (S R * length fs < n + (p * length fs + j))%nat -> runs_here (play_routine n fuel wait d) w (fun _ _ => False).
Proof.
  intros Hf. induction n as [|n IH]; intros p j d w H Hn; cbn [play_routine].
  { destruct H as (Hp & Hj & _). nia. }
  unfold play_frame. pose proof H as (_ & _ & Hd & _). destruct (at_mode _ _ _ _ Hd) as (-> & _ & _ & ->). cbn [negb lock_guard].
  apply runs_bind, runs_call. intros t Ht. cbn [answer]. apply runs_bind.
  apply (at_later _ _ _ _ (set_clock w t)) in H; [|apply later_clock; lia].
  eapply runs_mono; [apply (play_loop_runs fuel p j); [done|lia]|].
  intros r w1 (st & d1 & -> & -> & p1 & j1 & H1 & Hadv). apply runs_call. intros t1 Ht1. apply runs_ret. cbn [answer].
  apply runs_call. intros t2 Ht2. cbn [answer]. change (u32 10) with 10. cbn in Ht2. apply (IH p1 j1); [|lia].
  eapply at_later; [exact H1|]. unfold later; cbn. split_and!; try done. lia.
Qed.
End Position.

(** ** What the player does with a file *)

(** A driver that has opened its file, and a file with its reader. *)
Definition bound (R : Z) : MjpegDriver := set_repeat (set_playing MjpegDriver_new true) R.
Definition opened (t : Z) (file buf : list Z) : world := mk_world t 0 file file (mk_input 0 0 0 buf) [].

(** C35: A file of at least two frames, the last longer than the read buffer, is played
    [m_repeat] + 1 times: in every pass each frame is taken once, in order, and either
    decoded or, when it is late, freed, the first one of a pass always being decoded.
    This holds however long the calls take, until the clock wraps.  After the last pass
    the task waits for the mutex it holds itself, and never returns. *)
Theorem player_repeats_then_blocks (beyond : nat -> Z) (elapse : nat -> nat) (decodes : list Z -> bool)
    (fs : list (list Z)) (R : nat) (t : Z) (buf : list Z) (n fuel wait : nat) :
  beyond 0%nat <> 0xD9 -> Forall is_frame fs -> (2 <= length fs)%nat ->
  (READ_BUFFER_SIZE < length (List.last fs []))%nat ->
  Z.of_nat (length (concat fs)) < 2 ^ 32 -> Z.of_nat R < 2 ^ 31 -> 0 < t -> length buf = READ_BUFFER_SIZE ->
  (length fs < fuel)%nat -> Z.of_nat (length fs) * 40 < Z.of_nat wait -> (S R * length fs < n)%nat ->
  let run := perform beyond elapse decodes (play_routine n fuel wait (bound (Z.of_nat R))) (opened t (concat fs) buf) in
  run.1 <> TimeUp ->
  run.1 = Hung Blocked /\
  map snd run.2.(w_log) = concat (replicate (S R) (delivered_all 0 fs)) /\
  forall q b data, run.2.(w_log) !! (q * length fs)%nat = Some (b, data) -> b = true.
Proof.
  intros Hbe Hfs Htwo Hlast Hsize HR Ht Hbuf Hfuel Hwait Hn run Hup.
  assert (Hpos : at_pos fs R 0 0 (bound (Z.of_nat R)) (opened t (concat fs) buf)).
  { unfold at_pos. split_and!; [lia|lia| | |done].
    - constructor; cbn; [done|done|lia|unfold patience; lia].
    - split; [done|]. by apply (reader_rewind fs Hsize (mk_input 0 0 0 buf)). }
  pose proof (play_routine_runs beyond elapse decodes fs R Hbe Hfs Htwo Hlast Hsize HR wait Hwait fuel n Hfuel
                0 0 _ _ Hpos ltac:(lia)) as H.
  unfold runs in H. fold run in H. destruct run as [[|[]|] w]; try done.
  destruct H as [H1 H2]. rewrite take_0, app_nil_r in H1. done.
Qed.

(** Two frames, played twice. *)
Definition two_frames : list (list Z) :=
  [ [0xFF; 0xD8; 1; 2; 3; 0xFF; 0xD9]; [0xFF; 0xD8] ++ repeat 0 1100 ++ [0xFF; 0xD9] ].
Definition empty_buffer : list Z := repeat 0 READ_BUFFER_SIZE.

Lemma two_frames_ok : Forall is_frame two_frames.
Proof. constructor; [|constructor; [|constructor] ]; apply is_frame_spec; vm_compute; reflexivity. Qed.

Lemma player_repeats_then_blocks_witness :
  let run := perform (fun _ => 0) (fun _ => 3%nat) (fun _ => true) (play_routine 5 3 81 (bound 1))
               (opened 1 (concat two_frames) empty_buffer) in
  run.1 = Hung Blocked /\
  map snd run.2.(w_log) = concat (replicate 2 (delivered_all 0 two_frames)) /\
  forall q b data, run.2.(w_log) !! (q * length two_frames)%nat = Some (b, data) -> b = true.
Proof.
  apply (player_repeats_then_blocks (fun _ => 0) (fun _ => 3%nat) (fun _ => true) two_frames 1 1 empty_buffer 5 3 81);
    [discriminate|exact two_frames_ok|apply le_n| |vm_compute; reflexivity|vm_compute; reflexivity|reflexivity|
     apply repeat_length|apply le_n|vm_compute; reflexivity|apply le_n|vm_compute; discriminate].
  apply Nat.ltb_lt. vm_compute. reflexivity.
Defined.

(** ** Pacing *)

Section Pace.
Context (beyond : nat -> Z) (elapse : nat -> nat) (decodes : list Z -> bool).

(** A pass that has not begun, or one whose frames are 40 ms apart at least. *)
Definition paced (d : MjpegDriver) (t : Z) : Prop :=
  d.(m_fps) = 25 /\ 0 < t /\
  (d.(m_start_ms) = 0 /\ d.(m_current_frames) = 0 \/
   0 < d.(m_start_ms) /\ 0 < d.(m_current_frames) /\
   d.(m_next_frame_ms) = d.(m_start_ms) + d.(m_current_frames) * 40 /\
   (d.(m_current_frames) - 1) * 40 <= t - d.(m_start_ms)).

(** 47 and a half hours: [m_current_frames * 1000] has not wrapped. *)
Definition first_days : Z := 171000000.

Lemma paced_later d t t' : paced d t -> t <= t' -> paced d t'.
Proof. unfold paced. intros (? & ? & [?|?]) ?; split_and!; auto; [lia|lia|right; lia]. Qed.

Lemma paced_count d t start faded : paced d t -> t <= first_days ->
  (d.(m_start_ms) = 0 -> 0 < start <= t) -> (d.(m_start_ms) <> 0 -> start = d.(m_start_ms) /\ d.(m_next_frame_ms) <= t) ->
  paced (count_frame d faded start) t.
Proof.
  unfold first_days. intros (Hfps & Ht & H) Hb H0 H1. unfold paced, count_frame; cbn. rewrite Hfps.
  assert (Hf : 0 <= d.(m_current_frames) /\ d.(m_current_frames) * 40 <= t) by lia.
  rewrite (u32_small (d.(m_current_frames) + 1)) by lia.
  rewrite (u32_small ((d.(m_current_frames) + 1) * 1000)) by lia.
  replace ((d.(m_current_frames) + 1) * 1000) with ((d.(m_current_frames) + 1) * 40 * 25) by lia.
  rewrite Z.div_mul by lia. split_and!; [done|done|right].
  rewrite u32_small; lia.
Qed.

Lemma clock_read w : (reading beyond w).2.(w_clock) = w.(w_clock).
Proof. unfold reading. by repeat case_match. Qed.

Lemma clock_answer {X} (e : driver_call X) w : w.(w_clock) <= (answer beyond decodes e w).2.(w_clock).
Proof.
  destruct e; cbn [answer snd]; rewrite ?clock_read; cbn; try lia. pose proof (u32_range ticks). lia.
Qed.

Lemma clock_perform {A} (p : driver A) : forall w, w.(w_clock) <= (perform beyond elapse decodes p w).2.(w_clock).
Proof.
  induction p as [a|h|X e k IH]; intros w; cbn; [lia|lia|]. set (w1 := set_clock w _).
  assert (w.(w_clock) <= w1.(w_clock)) by (cbn; lia). destruct (_ <? _); [|done].
  pose proof (clock_answer e w1). destruct (answer _ _ e w1) as [x w2]. specialize (IH x w2). cbn in *. lia.
Qed.

(** If the program finishes within the first days, it does so with [Q]. *)
Definition soon {A} (p : driver A) (w : world) (Q : A -> world -> Prop) : Prop :=
  match perform beyond elapse decodes p w with
  | (Finished a, w') => w'.(w_clock) <= first_days -> Q a w'
  | _ => True
  end.

Lemma soon_ret {A} (a : A) w (Q : A -> world -> Prop) : (w.(w_clock) <= first_days -> Q a w) -> soon (Ret a) w Q.
Proof. done. Qed.

Lemma soon_mono {A} (p : driver A) w (Q Q' : A -> world -> Prop) :
  soon p w Q -> (forall a w', w.(w_clock) <= w'.(w_clock) -> Q a w' -> Q' a w') -> soon p w Q'.
Proof. unfold soon. pose proof (clock_perform p w). destruct (perform _ _ _ p w) as [[] ?]; auto. Qed.

Lemma perform_bind {A B} (p : driver A) (f : A -> driver B) : forall w,
  perform beyond elapse decodes (bind p f) w =
  match perform beyond elapse decodes p w with
  | (Finished a, w') => perform beyond elapse decodes (f a) w'
  | (Hung h, w') => (Hung h, w')
  | (TimeUp, w') => (TimeUp, w')
  end.
Proof.
  induction p as [a|h|X e k IH]; intros w; cbn; [done|done|].
  destruct (_ <? _); [|done]. destruct (answer _ _ e _) as [x w']. apply IH.
Qed.

Lemma soon_bind {A B} (p : driver A) (f : A -> driver B) w (Q : B -> world -> Prop) :
  soon p w (fun a w' => soon (f a) w' Q) -> soon (bind p f) w Q.
Proof.
  unfold soon. rewrite perform_bind. destruct (perform _ _ _ p w) as [[a|h|] w']; [|done..].
  pose proof (clock_perform (f a) w'). destruct (perform _ _ _ (f a) w') as [[b|h|] w'']; [|done..].
  cbn in *. intros Hq ?. apply Hq; lia.
Qed.

Lemma soon_call {X A} (e : driver_call X) (k : X -> driver A) w (Q : A -> world -> Prop) :
  (forall t, w.(w_clock) <= t <= first_days ->
     let '(x, w') := answer beyond decodes e (set_clock w t) in soon (k x) w' Q) ->
  soon (bind (call e) k) w Q.
Proof.
  intros H. unfold soon. cbn. set (t := w.(w_clock) + Z.of_nat (elapse w.(w_calls))).
  destruct (Z.ltb_spec t (2 ^ 32)) as [Ht|Ht]; [|done]. specialize (H t).
  pose proof (clock_answer e (set_clock w t)) as Hc. destruct (answer _ _ e _) as [x w'].
  pose proof (clock_perform (k x) w') as Hp. unfold soon in H. destruct (perform _ _ _ (k x) w') as [[b|h|] w'']; [|done..].
  cbn in *. intros Hb. apply H; [unfold t in *; lia|done].
Qed.

Lemma wait_paced next fuel : forall w, 0 < w.(w_clock) -> soon (wait_until fuel next) w (fun r w' =>
  w.(w_clock) <= w'.(w_clock) /\ (r = Some tt -> next <= w'.(w_clock))).
Proof.
  unfold first_days. induction fuel as [|fuel IH]; intros w Hw; cbn [wait_until]; [by apply soon_ret|].
  apply soon_call. unfold first_days. intros t Ht. cbn [answer w_clock set_clock]. rewrite u32_small by lia.
  destruct (Z.ltb_spec t next).
  - apply soon_call. intros t' Ht'. cbn [answer]. change (u32 1) with 1. cbn [set_clock w_clock] in Ht'.
    eapply soon_mono; [apply IH; cbn [set_clock w_clock]; lia|]. cbn [set_clock w_clock]. intros r w' _ [? H']. split; [lia|done].
  - apply soon_ret. cbn [set_clock w_clock]. lia.
Qed.

Lemma next_frame_paced wait d data w : paced d w.(w_clock) ->
  soon (next_frame wait d data) w (fun r w' => forall d' skip, r = Some (d', skip) ->
    d'.(m_playing) = d.(m_playing) /\ paced d' w'.(w_clock)).
Proof.
  intros Hd. pose proof Hd as (_ & Hpos & Hcase). unfold next_frame. apply soon_call. intros t Ht. cbn [answer w_clock set_clock].
  assert (Hlim : first_days < 2 ^ 32) by done.
  rewrite u32_small by lia. set (skip := (_ && _)). apply soon_bind.
  eapply (soon_mono _ _ (fun r w' => t <= w'.(w_clock) /\ (r = Some tt -> d.(m_start_ms) <> 0 -> d.(m_next_frame_ms) <= w'.(w_clock)))).
  - destruct skip eqn:Es; unfold skip in *.
    + apply andb_true_iff in Es as [Es _]. apply Z.ltb_lt in Es.
      apply soon_call. intros t' Ht'. cbn [answer]. cbn [set_clock w_clock] in Ht'. apply soon_ret. cbn. lia.
    + apply soon_call. intros t' Ht'. cbn [answer]. cbn [set_clock w_clock] in Ht'.
      eapply soon_mono; [apply wait_paced; cbn; lia|]. cbn. intros r w' _ [? H']. split; [lia|]. intros. by apply H'.
  - intros [[]|] w' _ [Hw' Hn]; [|by apply soon_ret].
    pose proof (paced_later d _ w'.(w_clock) Hd ltac:(lia)) as Hp. specialize (Hn eq_refl).
    destruct (Z.eqb_spec d.(m_start_ms) 0) as [H0|H0].
    + apply soon_call. intros t' Ht'. cbn [answer w_clock set_clock]. do 2 rewrite (u32_small t') by lia. apply soon_ret. cbn [w_clock set_clock].
      intros Hb ? ? [= <- _]. split; [done|]. apply paced_count; [by eapply paced_later, Ht'|done|lia|done].
    + apply soon_ret. intros Hb ? ? [= <- _]. split; [done|]. apply paced_count; [done|done|done|auto].
Qed.

Lemma check_file_paced d w : paced d w.(w_clock) ->
  soon (check_file d) w (fun st w' => w.(w_clock) <= w'.(w_clock) /\
    forall d', st = Ready d' -> d'.(m_playing) = d.(m_playing) /\ paced d' w'.(w_clock)).
Proof.
  intros Hd. unfold check_file. apply soon_call. intros t Ht. cbn [answer].
  pose proof (paced_later d _ t Hd ltac:(lia)) as Hp. destruct (match _ with [] => _ | _ => _ end).
  { apply soon_ret. split; [cbn; lia|]. by intros ? [= <-]. }
  destruct (_ || _); [destruct (_ =? 1)|]; [by apply soon_ret; cbn; split; [lia|]| |by apply soon_ret; cbn; split; [lia|]].
  do 2 (apply soon_call; intros ? ?; cbn [answer]). cbn [set_clock set_stream w_clock] in *. apply soon_ret.
  cbn [set_clock set_stream w_clock]. intros _. split; [lia|]. intros ? [= <-].
  destruct Hd as (? & ? & _). unfold paced, rewind; cbn. split_and!; [done|done|lia|auto].
Qed.

Lemma paced_image d t : paced d t -> paced (set_image d) t.
Proof. done. Qed.

Lemma play_loop_paced wait fuel : forall d w, d.(m_playing) = true -> paced d w.(w_clock) ->
  soon (play_loop fuel wait d) w (fun r w' => forall st d', r = Some (st, d') -> d'.(m_playing) = true /\ paced d' w'.(w_clock)).
Proof.
  induction fuel as [|fuel IH]; intros d w Hm Hd; cbn [play_loop]; [by apply soon_ret|].
  apply soon_bind. eapply soon_mono; [by apply check_file_paced|]. intros st w1 Hw1 [_ Hst].
  destruct st as [d1| |].
  - destruct (Hst d1 eq_refl) as [Hm1 Hd1]. rewrite Hm in Hm1. apply soon_call. intros t Ht. cbn [answer].
    pose proof (clock_read (set_clock w1 t)) as Hc. destruct (reading _ _) as [[data|] w2]; cbn in Hc.
    + apply soon_bind. eapply soon_mono; [apply next_frame_paced, (paced_later _ _ _ Hd1); lia|].
      intros [[d2 skip]|] w3 Hw3 Hr; [|by apply soon_ret]. destruct (Hr _ _ eq_refl) as [Hm2 Hd2]. rewrite Hm1 in Hm2.
      destruct skip; [by apply IH|]. apply soon_ret. by intros _ ? ? [= _ <-].
    + unfold stop. by rewrite Hm1.
  - apply soon_ret. intros _ ? ? [= _ <-]. split; [done|]. by apply paced_image, (paced_later _ _ _ Hd).
  - unfold stop. by rewrite Hm.
Qed.

Lemma play_routine_paced fuel wait n : forall d w, d.(m_playing) = true -> paced d w.(w_clock) ->
  soon (play_routine n fuel wait d) w (fun r w' => forall d', r = Some d' -> d'.(m_playing) = true /\ paced d' w'.(w_clock)).
Proof.
  induction n as [|n IH]; intros d w Hm Hd; cbn [play_routine]; [apply soon_ret; by intros _ ? [= <-]|].
  apply soon_bind. eapply (soon_mono _ _ (fun r w' => forall st d', r = Some (st, d') -> d'.(m_playing) = true /\ paced d' w'.(w_clock))).
  - unfold play_frame, lock_guard. rewrite Hm. cbn [negb]. apply soon_call. intros t Ht. cbn [answer]. apply soon_bind.
    apply (paced_later _ _ t) in Hd; [|lia].
    eapply (soon_mono _ _ (fun r w' => forall st d', r = Some (st, d') -> d'.(m_playing) = true /\ paced d' w'.(w_clock))).
    + destruct (m_is_image d); [apply soon_ret; by intros _ ? ? [= _ <-]|by apply play_loop_paced].
    + intros r w' _ Hr. apply soon_call. intros t' Ht'. cbn [answer]. apply soon_ret. cbn. intros _ st d' E.
      destruct (Hr st d' E) as [? Hp]. split; [done|]. apply (paced_later _ _ _ Hp). lia.
  - intros [[st d']|] w' _ Hr; [|by apply soon_ret]. destruct (Hr _ _ eq_refl) as [? Hp].
    apply soon_call. intros t Ht. cbn [answer]. change (u32 10) with 10. apply IH; [done|].
    apply (paced_later _ _ _ Hp). cbn. lia.
Qed.
End Pace.

(** C36: The player is never ahead of its 25 frames a second: whatever is in the file, however
    long the calls take and however often the task has run, [k] frames of the current
    pass have not been finished before 40 ([k] - 1) ms after its start.  The bound on the
    clock is there because [m_current_frames * 1000] wraps in a pass of 47 hours. *)
Theorem player_not_early (beyond : nat -> Z) (elapse : nat -> nat) (decodes : list Z -> bool) (R t : Z) (file buf : list Z)
    (n fuel wait : nat) (d : MjpegDriver) (w : world) :
  0 < t -> perform beyond elapse decodes (play_routine n fuel wait (bound R)) (opened t file buf) = (Finished (Some d), w) ->
  w.(w_clock) <= first_days ->
  (d.(m_current_frames) - 1) * 40 <= w.(w_clock) - d.(m_start_ms).
Proof.
  intros Ht E Hb. assert (Hp : paced (bound R) t) by (split_and!; [done|done|by left]).
  pose proof (play_routine_paced beyond elapse decodes fuel wait n (bound R) (opened t file buf) eq_refl Hp) as H.
  unfold soon in H. rewrite E in H. destruct (H Hb d eq_refl) as (_ & _ & H0 & [?|?]); lia.
Qed.

Lemma player_not_early_witness :
  exists d w,
    perform (fun _ => 0) (fun _ => 0%nat) (fun _ => true) (play_routine 3 3 81 (bound 1)) (opened 1 (concat two_frames) empty_buffer)
      = (Finished (Some d), w) /\ w.(w_clock) <= first_days /\
    (d.(m_current_frames) - 1) * 40 <= w.(w_clock) - d.(m_start_ms).
Proof.
  eexists _, _. split; [vm_compute; reflexivity|]. split; [vm_compute; discriminate|].
  eapply (player_not_early (fun _ => 0) (fun _ => 0%nat) (fun _ => true) 1 1 (concat two_frames) empty_buffer 3 3 81);
    [reflexivity|vm_compute; reflexivity|vm_compute; discriminate].
Defined.

(** ** Files that fit in the read buffer *)

Section Short.
Context (beyond : nat -> Z) (elapse : nat -> nat) (decodes : list Z -> bool) (f rest : list Z) (R : Z).
Context (Hbeyond : beyond 0%nat <> 0xD9) (Hf : is_frame f) (Hshort : (length (f ++ rest) <= READ_BUFFER_SIZE)%nat).
Context (HR : R <> 0) (HRr : -1 <= R < 2 ^ 31).

Lemma short_first t buf k : length buf = READ_BUFFER_SIZE ->
  exists c, let w := mk_world t k (f ++ rest) (f ++ rest) (mk_input 0 0 0 buf) [] in
    reading beyond w = (Some f, set_stream w [] c).
Proof.
  intros Hbuf. pose proof (frame_long _ Hf) as Hlong. pose proof Hshort as Hs. rewrite length_app in Hs.
  assert (Hsp : trailer_split 0 f = false).
  { unfold trailer_split. apply Nat.eqb_neq. rewrite Nat.mod_small; unfold READ_BUFFER_SIZE in *; lia. }
  destruct (read_frame_frame beyond (fun _ => true) (length (f ++ rest) + 3) (mk_input 0 0 0 buf) (f ++ rest) [] f rest
              ltac:(done) Hbeyond Hf) as (c & s & E & Hr & _ & Hi).
  - unfold ready. cbn [m_read_buf m_input_index contents file_stream]. split_and!; [done|done| |done].
    cbn [app]. rewrite length_app. unfold READ_BUFFER_SIZE in *. lia.
  - simpl. unfold READ_BUFFER_SIZE. lia.
  - simpl. lia.
  - rewrite length_app. lia.
  - exists c. cbn zeta. unfold reading. cbn [w_file w_input w_rest]. rewrite E. unfold delivered. cbn [length]. rewrite Hsp.
    do 2 f_equal. destruct Hr as (_ & _ & _ & Hr). rewrite (proj2 (Z.eqb_neq _ 0)) in Hr by lia. destruct Hr as [W _].
    pose proof (window_full _ _ _ _ _ W) as Hn. pose proof (window_rest _ _ _ _ _ W) as Hc. cbn [contents file_stream] in Hc.
    unfold leftover in Hn, Hc. cbn [length] in Hn, Hc. rewrite Hsp in Hn, Hc. cbn [app] in Hn, Hc. rewrite Hc. apply drop_ge. lia.
Qed.

(** The file has been read, its first frame shown. *)
Definition first_shown (w : world) : Prop := w.(w_rest) = [] /\ w.(w_log) = [(true, f)].

Abbreviation runs_short := (runs beyond elapse decodes (fun _ => False)).

Lemma image_stays fuel wait n : forall d w, d.(m_playing) = true -> first_shown w ->
  (d.(m_is_image) = true \/ d.(m_repeat) = R /\ d.(m_current_repeat) = 0 /\ d.(m_current_frames) = 1) ->
  runs_short (play_routine n (S fuel) wait d) w (fun r w' =>
    exists d', r = Some d' /\ first_shown w' /\ ((0 < n)%nat \/ d.(m_is_image) = true -> d'.(m_is_image) = true)).
Proof.
  induction n as [|n IH]; intros d w Hm Hw Hd; cbn [play_routine]; [apply runs_ret; exists d; split_and!; [done|done|by intros [?%Nat.lt_irrefl|?] ]|].
  apply runs_bind. eapply (runs_mono _ _ _ _ _ _ (fun r w' => exists st d', r = Some (st, d') /\
    d'.(m_playing) = true /\ d'.(m_is_image) = true /\ first_shown w')).
  - unfold play_frame, lock_guard. rewrite Hm. cbn [negb]. apply runs_call. intros t Ht. cbn [answer]. apply runs_bind.
    eapply (runs_mono _ _ _ _ _ _ (fun r w' => exists st d', r = Some (st, d') /\
      d'.(m_playing) = true /\ d'.(m_is_image) = true /\ first_shown w')).
    + destruct (m_is_image d) eqn:Ei; [apply runs_ret; eauto 7|]. destruct Hd as [?|(HRd & H0 & H1)]; [done|].
      cbn [play_loop]. unfold check_file. apply runs_bind, runs_call. intros t' Ht'. cbn [answer set_clock w_rest].
      destruct Hw as [Hrest Hlog]. rewrite Hrest, HRd, H0, H1. cbn iota.
      assert (Hrep : (R =? -1) || (0 <? u32 R) = true).
      { destruct (Z.eqb_spec R (-1)); [done|]. rewrite u32_small by lia. apply Z.ltb_lt. lia. }
      rewrite Hrep. apply runs_ret. exists normal, (set_image d). by split_and!.
    + intros r w' (st & d' & -> & ?). apply runs_call. intros t' Ht'. cbn [answer]. apply runs_ret. eauto 7.
  - intros r w' (st & d' & -> & Hm' & Hi' & Hw'). apply runs_call. intros t Ht. cbn [answer].
    eapply runs_mono; [apply (IH d'); [done|done|by left]|]. intros r w2 (d2 & -> & Hw2 & Hi2). exists d2. split_and!; [done|done|].
    intros _. apply Hi2. by right.
Qed.

Lemma first_available : match f ++ rest with [] => false | _ => true end = true.
Proof. clear -Hf. by destruct f; [destruct (frame_soi _ Hf)|]. Qed.

Lemma first_turn t buf fuel wait : 0 < t -> length buf = READ_BUFFER_SIZE ->
  runs_short (play_frame (S fuel) (S wait) (bound R)) (opened t (f ++ rest) buf) (fun r w' =>
    exists d, r = Some (normal, d) /\ first_shown w' /\
      d.(m_playing) = true /\ d.(m_repeat) = R /\ d.(m_current_repeat) = 0 /\ d.(m_current_frames) = 1).
Proof.
  intros Ht Hbuf. unfold play_frame, lock_guard. cbn [negb bound set_repeat set_playing m_playing m_is_image MjpegDriver_new].
  apply runs_call. intros t0 Ht0. cbn [answer]. apply runs_bind. cbn [play_loop]. apply runs_bind. unfold check_file.
  apply runs_call. intros t1 Ht1. cbn [answer set_clock opened w_rest].
  rewrite first_available. apply runs_ret. apply runs_call. intros t2 Ht2. cbn [answer].
  destruct (short_first t2 buf 3 Hbuf) as [c E]. cbn in E.
  unfold set_clock, opened. cbn [w_clock w_calls w_file w_rest w_input w_log]. rewrite E. cbn in Ht0, Ht1, Ht2. apply runs_bind. unfold next_frame. apply runs_call. intros t3 Ht3. cbn [answer].
  cbn [m_start_ms m_next_frame_ms Z.ltb Z.compare]. rewrite andb_false_r. apply runs_bind, runs_call. intros t4 Ht4. cbn [answer].
  cbn in Ht3, Ht4. apply wait_runs; [cbn; lia|cbn; lia|]. intros w' (Hc & _ & Hr & _ & Hl). cbn in Hr, Hl.
  apply runs_call. intros t5 Ht5. cbn [answer]. do 2 apply runs_ret. apply runs_call. intros t6 Ht6. cbn [answer]. apply runs_ret.
  eexists. by split_and!.
Qed.
End Short.

(** A file whose frames all fit in the read buffer and that is to be repeated is taken for an image:
    [available] is false once the buffer has been loaded, so only the first frame is
    ever shown, whatever the others are. *)
Theorem short_movie_is_image (beyond : nat -> Z) (elapse : nat -> nat) (decodes : list Z -> bool)
    (f rest : list Z) (R t : Z) (buf : list Z) (n fuel wait : nat) :
  beyond 0%nat <> 0xD9 -> is_frame f -> (length (f ++ rest) <= READ_BUFFER_SIZE)%nat ->
  R <> 0 -> -1 <= R < 2 ^ 31 -> 0 < t -> length buf = READ_BUFFER_SIZE ->
  let run := perform beyond elapse decodes (play_routine (S (S n)) (S fuel) (S wait) (bound R)) (opened t (f ++ rest) buf) in
  run.1 <> TimeUp ->
  run.2.(w_log) = [(true, f)] /\ exists d, run.1 = Finished (Some d) /\ d.(m_is_image) = true.
Proof.
  intros Hbe Hf Hs HR HRr Ht Hbuf run Hup.
  assert (H : runs beyond elapse decodes (fun _ => False) (play_routine (S (S n)) (S fuel) (S wait) (bound R)) (opened t (f ++ rest) buf)
    (fun r w' => exists d, r = Some d /\ first_shown f w' /\ d.(m_is_image) = true)).
  { change (play_routine (S (S n)) (S fuel) (S wait) (bound R)) with
      (do r <- play_frame (S fuel) (S wait) (bound R);
       match r with None => Ret None | Some (_, d) => call (vTaskDelay 10) >> play_routine (S n) (S fuel) (S wait) d end).
    apply runs_bind. eapply runs_mono; [by apply first_turn|]. intros r w1 (d & -> & Hw & Hm & Hd).
    apply runs_call. intros t1 _. cbn [answer]. eapply runs_mono; [by apply (image_stays beyond elapse decodes f rest R); auto|].
    intros r w2 (d' & -> & Hw2 & Hi). exists d'. split_and!; [done|done|]. apply Hi. left. lia. }
  unfold runs in H. fold run in H. destruct run as [[r|[]|] w]; try done. destruct H as (d & -> & [_ Hl] & Hi). split; [done|eauto].
Qed.

(** Two frames of seven bytes: the second one is never seen. *)
Lemma short_movie_is_image_witness :
  let run := perform (fun _ => 0) (fun _ => 1%nat) (fun _ => true) (play_routine 8 1 1 (bound (-1)))
               (opened 1 ([0xFF; 0xD8; 1; 2; 3; 0xFF; 0xD9] ++ [0xFF; 0xD8; 4; 5; 6; 0xFF; 0xD9]) empty_buffer) in
  run.2.(w_log) = [(true, [0xFF; 0xD8; 1; 2; 3; 0xFF; 0xD9])] /\ exists d, run.1 = Finished (Some d) /\ d.(m_is_image) = true.
Proof.
  apply (short_movie_is_image (fun _ => 0) (fun _ => 1%nat) (fun _ => true) [0xFF; 0xD8; 1; 2; 3; 0xFF; 0xD9]
           [0xFF; 0xD8; 4; 5; 6; 0xFF; 0xD9] (-1) 1 empty_buffer 6 0 0);
    [discriminate|apply is_frame_spec; vm_compute; reflexivity| |discriminate|split; [discriminate|reflexivity]|reflexivity|
     apply repeat_length|vm_compute; discriminate].
  apply Nat.leb_le. vm_compute. reflexivity.
Defined.

(** ** The state of the driver *)

(** Every member within its type; the divisor [m_fps] is not zero; and a driver that does
    not play is reset. *)
Record driver_wf (d : MjpegDriver) : Prop := {
  wf_fps : 0 < d.(m_fps) < 2 ^ 8;
  wf_repeat : - 2 ^ 31 <= d.(m_repeat) < 2 ^ 31;
  wf_current_repeat : 0 <= d.(m_current_repeat) < 2 ^ 32;
  wf_next : 0 <= d.(m_next_frame_ms) < 2 ^ 32;
  wf_start : 0 <= d.(m_start_ms) < 2 ^ 32;
  wf_frames : 0 <= d.(m_current_frames) < 2 ^ 32;
  wf_idle : d.(m_playing) = false ->
    d = mk_driver false d.(m_fps) d.(m_repeat) 0 0 0 false 0 false;
}.

(** The operations of the class. *)
Inductive driver_op :=
| OpBind (name : string)
| OpSetRepeat (n : Z)
| OpActivate (activate : bool)
| OpStop
| OpPlay (fuel wait : nat).

Definition apply_op (o : driver_op) (d : MjpegDriver) : driver (option MjpegDriver) :=
  match o with
  | OpBind name => do r <- anim_bind_assets name d; Ret (Some r.2)
  | OpSetRepeat n => Ret (Some (set_repeat d (i32 n)))
  | OpActivate b => do d <- drv_activation_cb b d; Ret (Some d)
  | OpStop => do d <- stop false d; Ret (Some d)
  | OpPlay fuel wait => do r <- play_frame fuel wait d; Ret (match r with Some (_, d) => Some d | None => None end)
  end.

Fixpoint apply_ops (os : list driver_op) (d : MjpegDriver) : driver (option MjpegDriver) :=
  match os with
  | [] => Ret (Some d)
  | o :: os => do r <- apply_op o d; match r with Some d => apply_ops os d | None => Ret None end
  end.

(** The result, if there is one, satisfies [P]. *)
Definition gives {A} (P : A -> Prop) (l : list (event driver_call)) (o : outcome A) : Prop :=
  match o with Done a => P a | Stopped _ => True end.

Lemma gives_bind {A B} (p : driver A) (f : A -> driver B) (P : A -> Prop) (Q : B -> Prop) :
  wp p (gives P) -> (forall a, P a -> wp (f a) (gives Q)) -> wp (bind p f) (gives Q).
Proof. intros Hp Hf. apply (wp_call _ _ _ _ Hp); [intros l a Ha; exact (Hf a Ha)|done]. Qed.

Lemma wp_gives_call {X} (e : driver_call X) : wp (call e) (gives (fun _ => True)).
Proof. done. Qed.

Lemma stop_wf held d : driver_wf d -> wp (stop held d) (gives driver_wf).
Proof.
  intros H. unfold stop. destruct (m_playing d) eqn:Hp; [|done]. destruct held; cbn [lock_guard]; [done|].
  repeat (eapply gives_bind; [apply wp_gives_call|intros _ _]).
  unfold reset_play_status. intros []; cbn; repeat intro; destruct H; constructor; cbn; lia || done.
Qed.

Lemma count_wf d faded start : driver_wf d -> d.(m_playing) = true -> 0 <= start < 2 ^ 32 ->
  driver_wf (count_frame d faded start) /\ m_playing (count_frame d faded start) = true.
Proof.
  intros [] Hp Hs. split; [|done]. unfold count_frame. pose proof u32_range. constructor; cbn; auto; congruence.
Qed.

(** A driver that plays, in its types. *)
Definition playing_wf (d : MjpegDriver) : Prop := driver_wf d /\ d.(m_playing) = true.

Lemma check_file_wf d : playing_wf d ->
  wp (check_file d) (gives (fun st => match st with Ready d => playing_wf d | _ => True end)).
Proof.
  intros [H Hp]. unfold check_file. intros []; cbn [bind]; [done|]. destruct (_ || _); [|done].
  destruct (_ =? 1); [done|]. intros ? ?. cbn. split; [|done]. pose proof (u32_range (d.(m_current_repeat) + 1)).
  destruct H. constructor; cbn; auto; lia || congruence.
Qed.

Lemma wait_wf fuel next : wp (wait_until fuel next) (gives (fun _ => True)).
Proof.
  induction fuel as [|fuel IH]; cbn [wait_until]; [done|].
  eapply gives_bind; [apply wp_gives_call|]. intros now _. destruct (_ <? _); [|done].
  eapply gives_bind; [apply wp_gives_call|done].
Qed.

Lemma next_frame_wf wait d data : playing_wf d ->
  wp (next_frame wait d data) (gives (fun r => match r with Some (d, _) => playing_wf d | None => True end)).
Proof.
  intros [H Hp]. unfold next_frame. eapply gives_bind; [apply wp_gives_call|]. intros now _.
  eapply (gives_bind _ _ (fun _ => True)).
  { destruct (_ && _); (eapply gives_bind; [apply wp_gives_call|]); [done|]. intros _ _. apply wait_wf. }
  intros [[]|] _; [|done]. destruct (_ =? 0).
  - eapply gives_bind; [apply wp_gives_call|]. intros t _. apply count_wf; [done|done|apply u32_range].
  - apply count_wf; [done|done|apply H].
Qed.

Lemma play_loop_wf wait fuel : forall d, playing_wf d ->
  wp (play_loop fuel wait d) (gives (fun r => match r with Some (_, d) => driver_wf d | None => True end)).
Proof.
  induction fuel as [|fuel IH]; intros d Hd; cbn [play_loop]; [done|].
  eapply gives_bind; [by apply check_file_wf|]. intros [d1| |] Hst.
  - eapply gives_bind; [apply wp_gives_call|]. intros [data|] _.
    + eapply gives_bind; [by apply next_frame_wf|]. intros [[d2 []]|] Hr; [by apply IH|apply Hr|done].
    + eapply gives_bind; [apply stop_wf, Hst|done].
  - destruct Hd as [[] Hp]. constructor; cbn; auto. congruence.
  - eapply gives_bind; [apply stop_wf, Hd|done].
Qed.

Lemma op_wf o d : driver_wf d ->
  wp (apply_op o d) (gives (fun r => match r with Some d => driver_wf d | None => True end)).
Proof.
  intros H. destruct o as [name|n|b| |fuel wait]; cbn [apply_op].
  - unfold anim_bind_assets. destruct (m_playing d) eqn:Hp; [done|]. intros ? ?. destruct H. constructor; cbn; auto. done.
  - pose proof (i32_range n). destruct H. constructor; cbn; auto. intros Hp. apply wf_idle0 in Hp. by rewrite Hp.
  - unfold drv_activation_cb. destruct b; [by intros ?|]. eapply gives_bind; [|intros ? Ha; exact Ha].
    eapply gives_bind; [by apply stop_wf|]. intros d' Hd'. eapply gives_bind; [apply wp_gives_call|done].
  - eapply gives_bind; [by apply stop_wf|done].
  - eapply gives_bind; [|intros r Hr; exact Hr]. unfold play_frame, lock_guard.
    eapply gives_bind; [apply wp_gives_call|]. intros _ _.
    eapply (gives_bind _ _ (fun r => match r with Some (_, d) => driver_wf d | None => True end)).
    + destruct (m_playing d) eqn:Hp; [|done]. destruct (m_is_image d); [done|]. by apply play_loop_wf.
    + intros r Hr. eapply gives_bind; [apply wp_gives_call|]. intros _ _. by destruct r as [[]|].
Qed.

(** C37: Whatever sequence of its operations is carried out on a new driver, and whatever the file, the clock,
    the codec and the operating system answer, every member stays within its type, the
    divisor [m_fps] is never zero, and a driver that does not play is reset, so that the next
    animation starts with its first frame. *)
Theorem driver_stays_wf (os : list driver_op) :
  always (apply_ops os MjpegDriver_new) (gives (fun r => match r with Some d => driver_wf d | None => True end)).
Proof.
  apply wp_always. assert (H : driver_wf MjpegDriver_new) by (constructor; done). revert H. generalize MjpegDriver_new.
  induction os as [|o os IH]; intros d H; [done|]. cbn [apply_ops].
  eapply gives_bind; [by apply op_wf|]. intros [d'|] Hd; [by apply IH|done].
Qed.

End Player.
