(* ===== verification/Wifi.v ===== *)
(** * The Wi-Fi adapter: [tkl_wifi.c]

    The driver is a set of calls whose answers are arbitrary; the state are the file's
    static variables.  Strings are lists of bytes without the terminating zero, callbacks
    are kept as whether they are set. *)
From stdpp Require Import base list strings.
From Stdlib Require Import ZArith Lia.
From S2P Require Import Prelude Oprt Lwip.
Import Lwip.
Local Open Scope Z_scope.

Module Wifi.

(** ** Types *)

Inductive WF_IF_E := WF_STATION | WF_AP.
Inductive WF_WK_MD_E := WWM_POWERDOWN | WWM_SNIFFER | WWM_STATION | WWM_SOFTAP | WWM_STATIONAP | WWM_UNKNOWN.
Inductive WF_STATION_STAT_E :=
| WSS_IDLE | WSS_CONNECTING | WSS_PASSWD_WRONG | WSS_NO_AP_FOUND | WSS_CONN_FAIL | WSS_CONN_SUCCESS | WSS_GOT_IP | WSS_DHCP_FAIL.
Inductive WF_EVENT_E := WFE_CONNECTED | WFE_CONNECT_FAILED | WFE_DISCONNECTED.
Inductive COUNTRY_CODE_E := COUNTRY_CODE_CN | COUNTRY_CODE_US | COUNTRY_CODE_JP | COUNTRY_CODE_EU.
Inductive WF_AP_AUTH_MODE_E :=
| WAAM_OPEN | WAAM_WEP | WAAM_WPA_PSK | WAAM_WPA2_PSK | WAAM_WPA_WPA2_PSK | WAAM_WPA_WPA3_SAE | WAAM_UNKNOWN.
Inductive wifi_mode_t := WIFI_MODE_NULL | WIFI_MODE_STA | WIFI_MODE_AP | WIFI_MODE_APSTA | WIFI_MODE_MAX.
Inductive wifi_auth_mode_t :=
| WIFI_AUTH_OPEN | WIFI_AUTH_WEP | WIFI_AUTH_WPA_PSK | WIFI_AUTH_WPA2_PSK | WIFI_AUTH_WPA_WPA2_PSK
| WIFI_AUTH_WPA2_ENTERPRISE | WIFI_AUTH_WPA3_PSK | WIFI_AUTH_WPA2_WPA3_PSK | WIFI_AUTH_WAPI_PSK | WIFI_AUTH_MAX.

#[global] Instance WF_WK_MD_E_eq_dec : EqDecision WF_WK_MD_E.
Proof. solve_decision. Defined.
#[global] Instance WF_STATION_STAT_E_eq_dec : EqDecision WF_STATION_STAT_E.
Proof. solve_decision. Defined.
#[global] Instance WF_EVENT_E_eq_dec : EqDecision WF_EVENT_E.
Proof. solve_decision. Defined.

Record NW_IP_S := mk_ip { ip : list Z; mask : list Z; gw : list Z }.

(** The size of each of the three arrays. *)
Definition IP_SIZE : nat := 16.

Record AP_IF_S := mk_ap {
  channel : Z;
  rssi : Z;
  bssid : list Z;
  ssid : list Z;
  s_len : Z;
  security : Z;
}.

(** What [memset] leaves. *)
Definition no_ap : AP_IF_S := mk_ap 0 0 (repeat 0 6) [] 0 0.

Record wifi_ap_record_t := mk_record {
  rec_bssid : list Z;
  rec_ssid : list Z;
  rec_primary : Z;
  rec_rssi : Z;
  rec_authmode : Z;
}.

Record wifi_country_t := mk_country { cc : string; schan : Z; nchan : Z }.

Definition WIFI_SSID_LEN : nat := 32.
Definition WIFI_PASSWD_LEN : nat := 64.

(** The arrays [ssid] and [password] lie one behind the other. *)
Record wifi_sta_config_t := mk_sta {
  sta_names : list Z;
  listen_interval : Z;
  pmf_capable : bool;
  threshold_authmode : wifi_auth_mode_t;
}.

Record wifi_ap_config_t := mk_ap_config {
  ap_names : list Z;
  ap_channel : Z;
  ap_authmode : wifi_auth_mode_t;
  ap_ssid_hidden : Z;
  ap_max_connection : Z;
  ap_beacon_interval : Z;
}.

Record WF_AP_CFG_IF_S := mk_ap_cfg {
  cfg_ssid : list Z;
  cfg_s_len : Z;
  cfg_passwd : list Z;
  cfg_p_len : Z;
  cfg_chan : Z;
  cfg_md : WF_AP_AUTH_MODE_E;
  cfg_ssid_hidden : Z;
  cfg_max_conn : Z;
  cfg_ms_interval : Z;
  cfg_ip : NW_IP_S;
}.

(** The static variables; [s_wifi_sta_conne_evt_state] is 0xFF ([None]) at first. *)
Record wifi_state := mk_wifi {
  wifi_sta_ip_addrs : NW_IP_S;
  wifi_sta_conn_status : WF_STATION_STAT_E;
  tkl_event_cb : bool;
  g_wifi_work_mode : WF_WK_MD_E;
  tuya_sniffer_cb : bool;
  mgnt_recv_cb : bool;
  netif_sta : bool;
  netif_ap : bool;
  s_wifi_sta_conne_evt_state : option WF_EVENT_E;
}.

Definition no_addrs : NW_IP_S := mk_ip [] [] [].
Definition wifi_start_state : wifi_state := mk_wifi no_addrs WSS_IDLE false WWM_UNKNOWN false false false false None.

(** The events the handler knows, with what it uses of their data. *)
Inductive wifi_event :=
| WIFI_EVENT_STA_START
| WIFI_EVENT_STA_STOP
| WIFI_EVENT_STA_CONNECTED
| WIFI_EVENT_STA_DISCONNECTED (reason : Z)
| WIFI_EVENT_SCAN_DONE
| WIFI_EVENT_STA_AUTHMODE_CHANGE
| WIFI_EVENT_STA_BSS_RSSI_LOW
| WIFI_EVENT_ACTION_TX_STATUS
| WIFI_EVENT_ROC_DONE
| WIFI_EVENT_STA_BEACON_TIMEOUT
| IP_EVENT_STA_GOT_IP (ip_addr netmask gw_addr : Z)
| WIFI_EVENT_AP_STACONNECTED
| WIFI_EVENT_AP_STADISCONNECTED.

(** The calls: [Z] is an [esp_err_t], an [option] the result of a call that may fail. *)
Inductive wifi_call : Type -> Type :=
| event_cb (e : WF_EVENT_E) : wifi_call unit
| sniffer_cb (data : list Z) (len rssi : Z) : wifi_call unit
| esp_wifi_connect : wifi_call Z
| esp_wifi_disconnect : wifi_call Z
| esp_wifi_start : wifi_call Z
| esp_wifi_stop : wifi_call Z
| esp_wifi_init : wifi_call Z
| esp_wifi_restore : wifi_call Z
| esp_wifi_set_storage_ram : wifi_call Z
| esp_wifi_set_ps_min_modem : wifi_call Z
| esp_wifi_set_mode (m : wifi_mode_t) : wifi_call Z
| esp_wifi_get_mode : wifi_call (option wifi_mode_t)
| esp_wifi_set_channel (chan : Z) : wifi_call Z
| esp_wifi_get_channel : wifi_call (option Z)
| esp_wifi_set_promiscuous_filter (mask : Z) : wifi_call Z
| esp_wifi_set_promiscuous_rx_cb (local : bool) : wifi_call Z
| esp_wifi_set_promiscuous (en : bool) : wifi_call Z
| esp_wifi_scan_start (block : bool) : wifi_call Z
| esp_wifi_scan_get_ap_num : wifi_call (option Z)
| esp_wifi_scan_get_ap_records (room : Z) : wifi_call (option (list wifi_ap_record_t))
| esp_wifi_sta_get_ap_info : wifi_call (option wifi_ap_record_t)
| esp_wifi_get_mac (wf : WF_IF_E) : wifi_call (option (list Z))
| esp_wifi_set_mac (wf : WF_IF_E) (mac : list Z) : wifi_call Z
| esp_wifi_set_country (c : wifi_country_t) : wifi_call Z
| esp_wifi_80211_tx (wf : WF_IF_E) (buf : list Z) : wifi_call Z
| esp_wifi_set_default_handlers (wf : WF_IF_E) : wifi_call Z
| esp_wifi_set_sta_config (c : wifi_sta_config_t) : wifi_call Z
| esp_wifi_set_ap_config (c : wifi_ap_config_t) : wifi_call Z
| esp_base_mac_addr_set (mac : list Z) : wifi_call Z
| esp_efuse_mac_get_default : wifi_call (list Z)
| esp_netif_init : wifi_call Z
| esp_netif_new (wf : WF_IF_E) : wifi_call bool
| esp_netif_attach (wf : WF_IF_E) : wifi_call Z
| esp_netif_get_ip_info : wifi_call (option (Z * Z * Z))
| esp_netif_set_ip_info (ip_addr netmask gw_addr : Z) : wifi_call Z
| esp_event_loop_create_default : wifi_call Z
| esp_event_handler_register (e : wifi_event) : wifi_call Z
| nvs_open : wifi_call Z
| nvs_get_mac : wifi_call (option (list Z))
| nvs_set_mac (mac : list Z) : wifi_call Z
| nvs_commit : wifi_call Z
| nvs_close : wifi_call unit
| wifi_malloc (size : Z) : wifi_call bool
| wifi_free : wifi_call unit
| write_behind (bytes : list Z) : wifi_call unit.

Abbreviation wifi := (prog wifi_call).

(** [if (ESP_OK != ...) return OPRT_COM_ERROR]. *)
Definition try_ (e : wifi_call Z) {A} (s : A) (k : wifi (A * Z)) : wifi (A * Z) :=
  do ret <- call e; if ret =? ESP_OK then k else Ret (s, OPRT_COM_ERROR).

(** ** Setters *)

Definition set_status (s : wifi_state) (st : WF_STATION_STAT_E) : wifi_state :=
  mk_wifi s.(wifi_sta_ip_addrs) st s.(tkl_event_cb) s.(g_wifi_work_mode) s.(tuya_sniffer_cb) s.(mgnt_recv_cb)
    s.(netif_sta) s.(netif_ap) s.(s_wifi_sta_conne_evt_state).
Definition set_addrs (s : wifi_state) (a : NW_IP_S) : wifi_state :=
  mk_wifi a s.(wifi_sta_conn_status) s.(tkl_event_cb) s.(g_wifi_work_mode) s.(tuya_sniffer_cb) s.(mgnt_recv_cb)
    s.(netif_sta) s.(netif_ap) s.(s_wifi_sta_conne_evt_state).
Definition set_evt (s : wifi_state) (e : WF_EVENT_E) : wifi_state :=
  mk_wifi s.(wifi_sta_ip_addrs) s.(wifi_sta_conn_status) s.(tkl_event_cb) s.(g_wifi_work_mode) s.(tuya_sniffer_cb)
    s.(mgnt_recv_cb) s.(netif_sta) s.(netif_ap) (Some e).
Definition set_event_cb (s : wifi_state) : wifi_state :=
  mk_wifi s.(wifi_sta_ip_addrs) s.(wifi_sta_conn_status) true s.(g_wifi_work_mode) s.(tuya_sniffer_cb) s.(mgnt_recv_cb)
    s.(netif_sta) s.(netif_ap) s.(s_wifi_sta_conne_evt_state).
Definition set_work_mode (s : wifi_state) (m : WF_WK_MD_E) : wifi_state :=
  mk_wifi s.(wifi_sta_ip_addrs) s.(wifi_sta_conn_status) s.(tkl_event_cb) m s.(tuya_sniffer_cb) s.(mgnt_recv_cb)
    s.(netif_sta) s.(netif_ap) s.(s_wifi_sta_conne_evt_state).
Definition set_callbacks (s : wifi_state) (sniffer mgnt : bool) : wifi_state :=
  mk_wifi s.(wifi_sta_ip_addrs) s.(wifi_sta_conn_status) s.(tkl_event_cb) s.(g_wifi_work_mode) sniffer mgnt
    s.(netif_sta) s.(netif_ap) s.(s_wifi_sta_conne_evt_state).
Definition set_netif (s : wifi_state) (sta ap : bool) : wifi_state :=
  mk_wifi s.(wifi_sta_ip_addrs) s.(wifi_sta_conn_status) s.(tkl_event_cb) s.(g_wifi_work_mode) s.(tuya_sniffer_cb)
    s.(mgnt_recv_cb) sta ap s.(s_wifi_sta_conne_evt_state).

(** ** Events of the station *)

Definition WIFI_REASON_NO_AP_FOUND : Z := 201.
Definition WIFI_REASON_HANDSHAKE_TIMEOUT : Z := 204.

(** [if (tkl_event_cb) tkl_event_cb(e, NULL)]. *)
Definition notify (s : wifi_state) (e : WF_EVENT_E) : wifi unit :=
  if s.(tkl_event_cb) then call (event_cb e) else Ret tt.

(** The branches of WIFI_EVENT_STA_AUTHMODE_CHANGE and WIFI_EVENT_STA_BEACON_TIMEOUT. *)
Definition connection_lost (s : wifi_state) : wifi wifi_state :=
  if s.(tkl_event_cb) && negb (bool_decide (s.(s_wifi_sta_conne_evt_state) = Some WFE_DISCONNECTED)) then
    call (event_cb WFE_DISCONNECTED) >>
    Ret (set_addrs (set_status (set_evt s WFE_DISCONNECTED) WSS_CONN_FAIL) no_addrs)
  else Ret s.

(** [esp_ip4addr_ntoa] into one of the arrays. *)
Definition write_addr (addr : Z) (old : list Z) : list Z * bool :=
  match ip4addr_ntoa_r (u32 addr) IP_SIZE with Some str => (str, true) | None => (old, false) end.

Definition write_addrs (a m g : Z) (old : NW_IP_S) : NW_IP_S * bool :=
  let '(i', ok_i) := write_addr a old.(ip) in
  let '(m', ok_m) := write_addr m old.(mask) in
  let '(g', ok_g) := write_addr g old.(gw) in
  (mk_ip i' m' g', ok_i && ok_m && ok_g).

Definition tkl_wifi_event_handler (e : wifi_event) (s : wifi_state) : wifi wifi_state :=
  match e with
  | WIFI_EVENT_STA_START =>
      do ret <- call esp_wifi_connect;
      Ret (if ret =? ESP_OK then set_status s WSS_CONNECTING else s)
  | WIFI_EVENT_STA_CONNECTED => Ret (set_status s WSS_CONN_SUCCESS)
  | WIFI_EVENT_STA_DISCONNECTED reason =>
      let s := set_status s
        (if reason =? WIFI_REASON_NO_AP_FOUND then WSS_NO_AP_FOUND
         else if reason =? WIFI_REASON_HANDSHAKE_TIMEOUT then WSS_PASSWD_WRONG
         else WSS_CONN_FAIL) in
      let s := set_addrs s no_addrs in
      if bool_decide (s.(s_wifi_sta_conne_evt_state) = Some WFE_CONNECTED) then
        notify s WFE_DISCONNECTED >> Ret (set_evt s WFE_DISCONNECTED)
      else notify s WFE_CONNECT_FAILED >> Ret (set_evt s WFE_CONNECT_FAILED)
  | WIFI_EVENT_SCAN_DONE =>
      do num <- call esp_wifi_scan_get_ap_num;
      let ssid_num := default 0 num in
      if ssid_num =? 0 then
        let s := set_addrs (set_status s WSS_NO_AP_FOUND) no_addrs in
        if s.(tkl_event_cb) && negb (bool_decide (s.(s_wifi_sta_conne_evt_state) = Some WFE_CONNECT_FAILED)) then
          call (event_cb WFE_CONNECT_FAILED) >> Ret s
        else Ret s
      else Ret s
  | WIFI_EVENT_STA_AUTHMODE_CHANGE | WIFI_EVENT_STA_BEACON_TIMEOUT => connection_lost s
  | IP_EVENT_STA_GOT_IP ip_addr netmask gw_addr =>
      let '(addrs, ok) := write_addrs ip_addr netmask gw_addr s.(wifi_sta_ip_addrs) in
      let s := set_addrs s addrs in
      if ok && s.(tkl_event_cb) then
        call (event_cb WFE_CONNECTED) >> Ret (set_evt (set_status s WSS_GOT_IP) WFE_CONNECTED)
      else Ret s
  | WIFI_EVENT_STA_STOP | WIFI_EVENT_STA_BSS_RSSI_LOW | WIFI_EVENT_ACTION_TX_STATUS | WIFI_EVENT_ROC_DONE
  | WIFI_EVENT_AP_STACONNECTED | WIFI_EVENT_AP_STADISCONNECTED => Ret s
  end.

(** ** Sniffer *)

Definition WIFI_PROMIS_FILTER_MASK_MGMT : Z := 1.
Definition WIFI_PROMIS_FILTER_MASK_DATA : Z := 4.

Definition wifi_sniffer_start (filter : Z) : wifi unit :=
  do _ <- call (esp_wifi_set_promiscuous_filter filter);
  do _ <- call (esp_wifi_set_promiscuous_rx_cb true);
  do _ <- call (esp_wifi_set_promiscuous true);
  Ret tt.

Definition wifi_sniffer_stop : wifi unit :=
  do _ <- call (esp_wifi_set_promiscuous false);
  do _ <- call (esp_wifi_set_promiscuous_rx_cb false);
  Ret tt.

Definition sniffer_local_cb (data : list Z) (sig_len rssi : Z) (s : wifi_state) : wifi unit :=
  if s.(tuya_sniffer_cb) then call (sniffer_cb data (u16 sig_len) rssi) else Ret tt.

(** [cb]: the callback is not NULL. *)
Definition tkl_wifi_set_sniffer (en cb : bool) (s : wifi_state) : wifi (wifi_state * Z) :=
  if en && negb cb then Ret (s, OPRT_INVALID_PARM)
  else
    let filter := Z.lor WIFI_PROMIS_FILTER_MASK_DATA WIFI_PROMIS_FILTER_MASK_MGMT in
    if en then
      let s := set_callbacks s cb s.(mgnt_recv_cb) in
      wifi_sniffer_start filter >> Ret (s, OPRT_OK)
    else wifi_sniffer_stop >> Ret (set_callbacks s false s.(mgnt_recv_cb), OPRT_OK).

Definition tkl_wifi_register_recv_mgnt_callback (enable recv_cb : bool) (s : wifi_state) : wifi (wifi_state * Z) :=
  if enable then
    let s := set_callbacks s s.(tuya_sniffer_cb) recv_cb in
    wifi_sniffer_start (Z.lor WIFI_PROMIS_FILTER_MASK_DATA WIFI_PROMIS_FILTER_MASK_MGMT) >> Ret (s, OPRT_OK)
  else
    (if s.(tuya_sniffer_cb) then wifi_sniffer_stop else Ret tt) >>
    Ret (set_callbacks s s.(tuya_sniffer_cb) false, OPRT_OK).

(** ** Scan *)

(** [!strncmp(ssid, name, strlen(ssid))] on strings without a zero byte. *)
Definition strncmp_eq (ssid name : list Z) : bool := bool_decide (take (length ssid) name = ssid).

Definition ap_of_record (r : wifi_ap_record_t) : AP_IF_S :=
  mk_ap r.(rec_primary) r.(rec_rssi) r.(rec_bssid) r.(rec_ssid) (Z.of_nat (length r.(rec_ssid))) r.(rec_authmode).

(** The loop from [i] on: the array and [total]. *)
Fixpoint fill_items (ssid : option (list Z)) (recs : list wifi_ap_record_t) (i : nat) (items : list AP_IF_S) (total : Z)
  : list AP_IF_S * Z :=
  match recs with
  | [] => (items, total)
  | r :: recs =>
      if match ssid with Some name => strncmp_eq name r.(rec_ssid) | None => false end
      then fill_items ssid recs (S i) items total
      else fill_items ssid recs (S i) (<[i := ap_of_record r]> items) (total + 1)
  end.

(** Sizes of [wifi_ap_record_t] and [AP_IF_S]. *)
Definition RECORD_SIZE : Z := 80.
Definition AP_IF_SIZE : Z := 45.

(** The array, its items, and [num]. *)
Definition _tkl_wifi_all_ap_scan (ssid : option (list Z)) : wifi (option (list AP_IF_S) * Z * Z) :=
  do ret <- call (esp_wifi_scan_start true);
  if negb (ret =? ESP_OK) then Ret (None, 0, OPRT_COM_ERROR)
  else
    do num <- call esp_wifi_scan_get_ap_num;
    match num with
    | None => Ret (None, 0, OPRT_COM_ERROR)
    | Some numbers =>
        do ok <- call (wifi_malloc (numbers * RECORD_SIZE));
        if negb ok then Ret (None, 0, OPRT_COM_ERROR)
        else
          do recs <- call (esp_wifi_scan_get_ap_records numbers);
          match recs with
          | None => call wifi_free >> Ret (None, 0, OPRT_COM_ERROR)
          | Some recs =>
              do ok <- call (wifi_malloc (Z.of_nat (length recs) * AP_IF_SIZE));
              if negb ok then call wifi_free >> Ret (None, 0, OPRT_COM_ERROR)
              else
                let '(items, total) := fill_items ssid recs 0 (repeat no_ap (length recs)) 0 in
                call wifi_free >> Ret (Some items, total, OPRT_OK)
          end
    end.

Definition tkl_wifi_all_ap_scan : wifi (option (list AP_IF_S) * Z * Z) := _tkl_wifi_all_ap_scan None.
Definition tkl_wifi_scan_ap (ssid : option (list Z)) : wifi (option (list AP_IF_S) * Z * Z) := _tkl_wifi_all_ap_scan ssid.

Definition tkl_wifi_release_ap (ap : bool) : wifi Z := assert_ ap >> call wifi_free >> Ret OPRT_OK.

(** ** Channel, addresses, mode, country *)

Definition tkl_wifi_set_cur_channel (chan : Z) : wifi Z :=
  do ret <- call (esp_wifi_set_channel chan); Ret (if ret =? ESP_OK then OPRT_OK else OPRT_COM_ERROR).

Definition tkl_wifi_get_cur_channel : wifi (option Z * Z) :=
  do r <- call esp_wifi_get_channel;
  Ret (match r with Some chan => (Some chan, OPRT_OK) | None => (None, OPRT_COM_ERROR) end).

Definition tkl_wifi_get_mac (wf : WF_IF_E) (mac : bool) : wifi (option (list Z) * Z) :=
  assert_ mac >>
  do r <- call (esp_wifi_get_mac wf);
  Ret (match r with Some mac => (Some mac, OPRT_OK) | None => (None, OPRT_COM_ERROR) end).

(** [WF_AP == wf ? ... : ...]. *)
Definition mode_of (wf : WF_IF_E) : wifi_mode_t := match wf with WF_AP => WIFI_MODE_AP | WF_STATION => WIFI_MODE_STA end.

Definition tkl_wifi_set_mac (wf : WF_IF_E) (mac : option (list Z)) : wifi Z :=
  match mac with
  | None => Halt Aborted
  | Some mac =>
      do r <-
        try_ nvs_open tt (
        try_ (nvs_set_mac mac) tt (
        try_ nvs_commit tt (
        call nvs_close >>
        try_ (esp_wifi_set_mode (mode_of wf)) tt (
        try_ (esp_base_mac_addr_set mac) tt (
        try_ (esp_wifi_set_mac wf mac) tt (Ret (tt, OPRT_OK)))))));
      Ret r.2
  end.

Definition tkl_wifi_set_work_mode (mode : WF_WK_MD_E) (s : wifi_state) : wifi (wifi_state * Z) :=
  assert_ (negb (bool_decide (mode = WWM_UNKNOWN))) >>
  if bool_decide (mode = s.(g_wifi_work_mode)) then Ret (s, OPRT_OK)
  else
    let esp_wifi_mode :=
      match mode with
      | WWM_POWERDOWN => Some WIFI_MODE_NULL
      | WWM_SNIFFER => Some WIFI_MODE_APSTA
      | WWM_STATION => Some WIFI_MODE_STA
      | WWM_SOFTAP => Some WIFI_MODE_AP
      | WWM_STATIONAP => Some WIFI_MODE_APSTA
      | WWM_UNKNOWN => None
      end in
    match esp_wifi_mode with
    | None => Ret (s, OPRT_COM_ERROR)
    | Some m =>
        if bool_decide (mode = WWM_SNIFFER) then Ret (set_work_mode s mode, OPRT_OK)
        else try_ (esp_wifi_set_mode m) s (Ret (set_work_mode s mode, OPRT_OK))
    end.

Definition tkl_wifi_get_work_mode (mode : bool) (s : wifi_state) : wifi (option WF_WK_MD_E * Z) :=
  assert_ mode >>
  do m <- call esp_wifi_get_mode;
  Ret (match m with Some _ => (Some s.(g_wifi_work_mode), OPRT_OK) | None => (None, OPRT_COM_ERROR) end).

Definition cc_tbls : list wifi_country_t :=
  [mk_country "CN" 1 13; mk_country "US" 1 11; mk_country "JP" 1 14; mk_country "EU" 1 11].

Definition country_of (ccode : COUNTRY_CODE_E) : string :=
  match ccode with COUNTRY_CODE_CN => "CN" | COUNTRY_CODE_US => "US" | COUNTRY_CODE_JP => "JP" | COUNTRY_CODE_EU => "AL" end.

Definition tkl_wifi_set_country_code (ccode : COUNTRY_CODE_E) : wifi Z :=
  match List.find (fun c => String.prefix c.(cc) (country_of ccode)) cc_tbls with
  | None => Ret OPRT_NOT_SUPPORTED
  | Some c => do ret <- call (esp_wifi_set_country c); Ret (if ret =? ESP_OK then OPRT_OK else OPRT_COM_ERROR)
  end.

(** [None]: a null pointer. *)
Definition tkl_wifi_send_mgnt (buf : option (list Z)) (len : Z) : wifi Z :=
  assert_ (negb (len =? 0)) >>
  match buf with
  | None => Halt Aborted
  | Some buf =>
      do mode <- call esp_wifi_get_mode;
      let vif_idx :=
        match mode with
        | Some WIFI_MODE_AP => Some WF_AP
        | Some WIFI_MODE_STA | Some WIFI_MODE_APSTA => Some WF_STATION
        | _ => None
        end in
      match vif_idx with
      | None => Ret OPRT_COM_ERROR
      | Some wf => do ret <- call (esp_wifi_80211_tx wf (take (Z.to_nat len) buf)); Ret (if ret =? ESP_OK then OPRT_OK else OPRT_COM_ERROR)
      end
  end.

(** The functions that do nothing. *)
Definition tkl_wifi_set_lp_mode (en : bool) (dtim : Z) : Z := OPRT_OK.
Definition tkl_wifi_set_rf_calibrated : bool := true.
Definition tkl_wifi_ioctl : Z := OPRT_NOT_SUPPORTED.
Definition tkl_wifi_get_bssid (mac : bool) : wifi Z := assert_ mac >> Ret OPRT_OK.
Definition tkl_wifi_stop_ap : Z := OPRT_OK.
Definition tkl_wifi_get_connected_ap_info : Z := OPRT_OK.
Definition tkl_wifi_station_fast_connect : Z := OPRT_NOT_SUPPORTED.

(** ** Start *)

(** The registrations, in order; each failure returns. *)
Definition registrations : list wifi_event :=
  [WIFI_EVENT_STA_START; WIFI_EVENT_STA_STOP; WIFI_EVENT_STA_CONNECTED; WIFI_EVENT_SCAN_DONE; WIFI_EVENT_STA_AUTHMODE_CHANGE;
   WIFI_EVENT_STA_BSS_RSSI_LOW; WIFI_EVENT_ACTION_TX_STATUS; WIFI_EVENT_ROC_DONE; WIFI_EVENT_STA_BEACON_TIMEOUT;
   WIFI_EVENT_STA_DISCONNECTED 0; IP_EVENT_STA_GOT_IP 0 0 0].

Fixpoint register_all (es : list wifi_event) {A} (s : A) (k : wifi (A * Z)) : wifi (A * Z) :=
  match es with
  | [] => k
  | e :: es => try_ (esp_event_handler_register e) s (register_all es s k)
  end.

(** The base address: the stored one, or the one in the fuses. *)
Definition read_base_mac : wifi (list Z) :=
  do ret <- call nvs_open;
  if ret =? ESP_OK then
    do mac <- call nvs_get_mac;
    match mac with Some mac => Ret mac | None => call esp_efuse_mac_get_default end
  else call esp_efuse_mac_get_default.

(** An interface that does not exist yet is created; [None] when that fails. *)
Definition new_netif (wf : WF_IF_E) (s : wifi_state) : wifi (option wifi_state) :=
  match wf with
  | WF_STATION =>
      if s.(netif_sta) then Ret (Some s)
      else do ok <- call (esp_netif_new WF_STATION); Ret (if ok : bool then Some (set_netif s true s.(netif_ap)) else None)
  | WF_AP =>
      if s.(netif_ap) then Ret (Some s)
      else do ok <- call (esp_netif_new WF_AP); Ret (if ok : bool then Some (set_netif s s.(netif_sta) true) else None)
  end.

Definition tkl_wifi_init (cb : bool) (s : wifi_state) : wifi (wifi_state * Z) :=
  assert_ cb >>
  do base_mac <- read_base_mac;
  try_ (esp_base_mac_addr_set base_mac) s (
  call nvs_close >>
  try_ esp_netif_init s (
  try_ esp_wifi_init s (
  do _ <- call esp_wifi_restore;
  do _ <- call esp_wifi_set_storage_ram;
  do sta <- new_netif WF_STATION s;
  match sta with
  | None => Ret (s, OPRT_COM_ERROR)
  | Some s =>
      try_ (esp_netif_attach WF_STATION) s (
      do ap <- new_netif WF_AP s;
      match ap with
      | None => Ret (s, OPRT_COM_ERROR)
      | Some s =>
          try_ (esp_netif_attach WF_AP) s (
          try_ esp_event_loop_create_default s (
          register_all registrations s (
          Ret (set_event_cb (set_addrs s no_addrs), OPRT_OK))))
      end)
  end))).

(** ** Station and access point *)

(** The two name arrays behind one another, and what is written behind them. *)
Definition NAMES : nat := (WIFI_SSID_LEN + WIFI_PASSWD_LEN)%nat.
Arguments NAMES : simpl never.

(** [strncpy] of [bytes] to offset [j] of the arrays. *)
Definition copy_name (names : list Z) (j : nat) (bytes : list Z) : wifi (list Z) :=
  let room := (NAMES - j)%nat in
  (if (room <? length bytes)%nat then call (write_behind (drop room bytes)) else Ret tt) >>
  Ret (store_at names j (take room bytes)).

Definition tkl_wifi_station_connect (ssid passwd : option (list Z)) (s : wifi_state) : wifi (wifi_state * Z) :=
  match ssid, passwd with
  | Some ssid, Some passwd =>
      do _ <- call esp_wifi_stop;
      do names <- copy_name (replicate NAMES 0) 0 ssid;
      do names <- (if (0 <? length passwd)%nat then copy_name names WIFI_SSID_LEN passwd else Ret names);
      let wifi_cfg := mk_sta names 10 true WIFI_AUTH_WPA2_PSK in
      try_ (esp_wifi_set_default_handlers WF_STATION) s (
      try_ (esp_wifi_set_mode WIFI_MODE_STA) s (
      try_ (esp_wifi_set_sta_config wifi_cfg) s (
      try_ esp_wifi_start s (
      do _ <- call esp_wifi_set_ps_min_modem;
      Ret (s, OPRT_OK)))))
  | _, _ => Halt Aborted
  end.

Definition tkl_wifi_station_disconnect : wifi Z :=
  do _ <- call esp_wifi_disconnect; do _ <- call esp_wifi_stop; Ret OPRT_OK.

Definition tkl_wifi_station_get_status (s : wifi_state) : WF_STATION_STAT_E * Z := (s.(wifi_sta_conn_status), OPRT_OK).

(** [old]: the caller's structure, as far as it is left unwritten. *)
Definition tkl_wifi_get_ip (wf : WF_IF_E) (old : option NW_IP_S) (s : wifi_state) : wifi (NW_IP_S * Z) :=
  match old with
  | None => Halt Aborted
  | Some old =>
      match wf with
      | WF_STATION =>
          if negb (bool_decide (s.(wifi_sta_conn_status) = WSS_GOT_IP)) then Ret (old, OPRT_COM_ERROR)
          else Ret (s.(wifi_sta_ip_addrs), OPRT_OK)
      | WF_AP =>
          if s.(netif_ap) then
            do info <- call esp_netif_get_ip_info;
            match info with
            | None => Ret (old, OPRT_NOT_SUPPORTED)
            | Some (a, m, g) => Ret ((write_addrs a m g old).1, OPRT_OK)
            end
          else Ret (old, OPRT_NOT_SUPPORTED)
      end
  end.

Definition tkl_wifi_station_get_conn_ap_rssi (rssi : bool) : wifi (option Z * Z) :=
  assert_ rssi >>
  do r <- call esp_wifi_sta_get_ap_info;
  Ret (match r with Some r => (Some r.(rec_rssi), OPRT_OK) | None => (None, OPRT_COM_ERROR) end).

(** [strncpy(dst, src, n)]: up to the end of [src], padded with zeros. *)
Definition strncpy (src : list Z) (n : nat) : list Z := take n (src ++ repeat 0 n).

Definition auth_mode_of (md : WF_AP_AUTH_MODE_E) : wifi_auth_mode_t :=
  match md with
  | WAAM_OPEN => WIFI_AUTH_OPEN
  | WAAM_WEP => WIFI_AUTH_WEP
  | WAAM_WPA_PSK => WIFI_AUTH_WPA_PSK
  | WAAM_WPA2_PSK => WIFI_AUTH_WPA2_PSK
  | WAAM_WPA_WPA2_PSK => WIFI_AUTH_WPA_WPA2_PSK
  | WAAM_WPA_WPA3_SAE => WIFI_AUTH_WPA2_WPA3_PSK
  | WAAM_UNKNOWN => WIFI_AUTH_OPEN
  end.

Definition tkl_wifi_start_ap (cfg : option WF_AP_CFG_IF_S) (s : wifi_state) : wifi (wifi_state * Z) :=
  match cfg with
  | None => Halt Aborted
  | Some cfg =>
      do names <- copy_name (replicate NAMES 0) 0 (strncpy cfg.(cfg_ssid) (Z.to_nat cfg.(cfg_s_len)));
      do names <-
        (if negb (cfg.(cfg_p_len) =? 0) && (cfg.(cfg_p_len) <=? 64)
         then copy_name names WIFI_SSID_LEN (strncpy cfg.(cfg_passwd) (Z.to_nat cfg.(cfg_p_len))) else Ret names);
      let auth_mode :=
        if negb (cfg.(cfg_p_len) =? 0) && (0 <? length cfg.(cfg_passwd))%nat then auth_mode_of cfg.(cfg_md) else WIFI_AUTH_OPEN in
      let wifi_cfg := mk_ap_config names cfg.(cfg_chan) auth_mode cfg.(cfg_ssid_hidden) cfg.(cfg_max_conn) cfg.(cfg_ms_interval) in
      try_ (esp_wifi_set_default_handlers WF_AP) s (
      try_ (esp_wifi_set_mode WIFI_MODE_AP) s (
      try_ (esp_wifi_set_ap_config wifi_cfg) s (
      try_ esp_wifi_start s (
      try_ (esp_netif_set_ip_info (ipaddr_addr cfg.(cfg_ip).(ip)) (ipaddr_addr cfg.(cfg_ip).(mask)) (ipaddr_addr cfg.(cfg_ip).(gw))) s (
      Ret (s, OPRT_OK))))))
  end.

(** ** A client and the driver's events *)

Inductive wifi_op :=
| OpEvent (e : wifi_event)
| OpSniffer (en cb : bool)
| OpMgnt (en cb : bool)
| OpWorkMode (m : WF_WK_MD_E)
| OpConnect (ssid passwd : option (list Z))
| OpStartAp (cfg : option WF_AP_CFG_IF_S).

Definition wifi_step (o : wifi_op) (s : wifi_state) : wifi wifi_state :=
  match o with
  | OpEvent e => tkl_wifi_event_handler e s
  | OpSniffer en cb => do r <- tkl_wifi_set_sniffer en cb s; Ret r.1
  | OpMgnt en cb => do r <- tkl_wifi_register_recv_mgnt_callback en cb s; Ret r.1
  | OpWorkMode m => do r <- tkl_wifi_set_work_mode m s; Ret r.1
  | OpConnect ssid passwd => do r <- tkl_wifi_station_connect ssid passwd s; Ret r.1
  | OpStartAp cfg => do r <- tkl_wifi_start_ap cfg s; Ret r.1
  end.

Fixpoint wifi_run (os : list wifi_op) (s : wifi_state) : wifi wifi_state :=
  match os with
  | [] => Ret s
  | o :: os => do s <- wifi_step o s; wifi_run os s
  end.

(** The addresses of the last event that brought some. *)
Definition got_of (o : wifi_op) (last : option (Z * Z * Z)) : option (Z * Z * Z) :=
  match o with OpEvent (IP_EVENT_STA_GOT_IP a m g) => Some (a, m, g) | _ => last end.
Definition last_got (os : list wifi_op) : option (Z * Z * Z) := fold_left (fun l o => got_of o l) os None.

(** What the callback has been told. *)
Definition note (ev : event wifi_call) : list WF_EVENT_E :=
  match ev with Ev e _ => match e with event_cb n => [n] | _ => [] end end.
Definition notes (l : list (event wifi_call)) : list WF_EVENT_E := concat (map note l).

(** The text of an address reads back as the address. *)
Definition text_of (str : list Z) (addr : Z) : Prop := ip4addr_aton str = Some (u32 addr).
Definition texts_of (a : NW_IP_S) (g : Z * Z * Z) : Prop :=
  text_of a.(ip) g.1.1 /\ text_of a.(mask) g.1.2 /\ text_of a.(gw) g.2.

Definition once (l : list WF_EVENT_E) : Prop :=
  forall i, l !! i = Some WFE_DISCONNECTED -> l !! S i = Some WFE_DISCONNECTED -> False.

Record wifi_inv (got : option (Z * Z * Z)) (told : list WF_EVENT_E) (s : wifi_state) : Prop := {
  inv_cb : s.(tkl_event_cb) = false -> told = [];
  inv_lost : last told = Some WFE_DISCONNECTED -> s.(s_wifi_sta_conne_evt_state) = Some WFE_DISCONNECTED;
  inv_once : once told;
  inv_got : s.(wifi_sta_conn_status) = WSS_GOT_IP ->
    last told = Some WFE_CONNECTED /\ exists g, got = Some g /\ texts_of s.(wifi_sta_ip_addrs) g;
}.

Lemma addr_text a : exists str, ip4addr_ntoa_r (u32 a) IP_SIZE = Some str /\ text_of str a.
Proof.
  destruct (word_bytes (u32 a) (u32_range a)) as (x & y & z & w & Hx & Hy & Hz & Hw & E).
  exists (dotted w z y x). unfold text_of. rewrite aton_dotted, E by done. split; [by apply ntoa_dotted|].
  unfold lwip_htonl. by rewrite htonl_bytes.
Qed.

Lemma write_addrs_text a m g old : exists addrs, write_addrs a m g old = (addrs, true) /\ texts_of addrs (a, m, g).
Proof.
  unfold write_addrs, write_addr. destruct (addr_text a) as (? & -> & ?). destruct (addr_text m) as (? & -> & ?).
  destruct (addr_text g) as (? & -> & ?). by eexists.
Qed.

Lemma once_snoc told n : once told -> (n = WFE_DISCONNECTED -> last told <> Some WFE_DISCONNECTED) -> once (told ++ [n]).
Proof.
  intros H Hn i H1 H2. pose proof (lookup_lt_Some _ _ _ H2) as Hl. rewrite length_app in Hl. simpl in Hl.
  destruct (decide (S i < length told)%nat) as [Hi|Hi].
  - rewrite lookup_app_l in H1, H2 by lia. by apply (H i).
  - rewrite lookup_app_l in H1 by lia. rewrite lookup_app_r in H2 by lia.
    replace (S i - length told)%nat with 0%nat in H2 by lia. simplify_eq/=.
    apply Hn; [done|]. rewrite last_lookup, <- H1. f_equal. lia.
Qed.

(** Nothing is told and nothing that matters changes. *)
Definition unchanged (s s' : wifi_state) : Prop :=
  s'.(tkl_event_cb) = s.(tkl_event_cb) /\ s'.(s_wifi_sta_conne_evt_state) = s.(s_wifi_sta_conne_evt_state) /\
  s'.(wifi_sta_conn_status) = s.(wifi_sta_conn_status) /\ s'.(wifi_sta_ip_addrs) = s.(wifi_sta_ip_addrs).

Lemma unchanged_inv got told s s' : wifi_inv got told s -> unchanged s s' -> wifi_inv got told s'.
Proof. intros [] (E1 & E2 & E3 & E4). constructor; rewrite ?E1, ?E2, ?E3, ?E4; done. Qed.

(** One more notification. *)
Lemma told_inv got got' told n s s' :
  wifi_inv got told s -> s'.(tkl_event_cb) = true ->
  (n = WFE_DISCONNECTED -> s.(s_wifi_sta_conne_evt_state) <> Some WFE_DISCONNECTED /\ s'.(s_wifi_sta_conne_evt_state) = Some WFE_DISCONNECTED) ->
  (s'.(wifi_sta_conn_status) = WSS_GOT_IP -> n = WFE_CONNECTED /\ exists g, got' = Some g /\ texts_of s'.(wifi_sta_ip_addrs) g) ->
  wifi_inv got' (told ++ [n]) s'.
Proof.
  intros [] Hcb Hn Hgot. constructor; rewrite ?last_snoc.
  - congruence.
  - intros [= ->]. by apply Hn.
  - apply once_snoc; [done|]. intros E Hl. destruct (Hn E) as [H _]. auto.
  - intros H. destruct (Hgot H) as [-> ?]. done.
Qed.

(** As [prog_steps], also through a program that has begun. *)
Ltac calls := repeat first [prog_step | match goal with |- wp (bind (Vis _ _) _) _ => cbn [bind wp] | |- forall _, wp _ _ => intro end].

(** The operations of the client. *)
Definition quiet (s : wifi_state) (l : list (event wifi_call)) (o : outcome wifi_state) : Prop :=
  notes l = [] /\ match o with Done s' => unchanged s s' | Stopped _ => True end.

Lemma client_quiet o s : (forall e, o <> OpEvent e) -> wp (wifi_step o s) (quiet s).
Proof.
  intros Ho. destruct o as [e|en cb|en cb|m|name passwd|cfg]; [by destruct (Ho e)|clear Ho..]; cbn [wifi_step];
    unfold tkl_wifi_set_sniffer, tkl_wifi_register_recv_mgnt_callback, tkl_wifi_set_work_mode, tkl_wifi_station_connect,
      tkl_wifi_start_ap, wifi_sniffer_start, wifi_sniffer_stop, copy_name, try_;
    cbv zeta; calls; split; done.
Qed.

(** The state after an event and what was told, together. *)
Definition event_keeps (got : option (Z * Z * Z)) (told : list WF_EVENT_E) (l : list (event wifi_call)) (o : outcome wifi_state) : Prop :=
  match o with Done s' => wifi_inv got (told ++ notes l) s' | Stopped _ => True end.

Lemma lost_keeps got told s : wifi_inv got told s -> wp (connection_lost s) (event_keeps got told).
Proof.
  intros H. unfold connection_lost. destruct (_ && _) eqn:E; [|cbn; by rewrite app_nil_r].
  apply andb_true_iff in E as [Hcb Hn%negb_true_iff%bool_decide_eq_false]. intros []. cbn.
  eapply told_inv; [exact H|done|done|done].
Qed.

(** A change of the status other than to WSS_GOT_IP, with no notification. *)
Lemma silent_inv got got' told s s' :
  wifi_inv got told s -> s'.(tkl_event_cb) = s.(tkl_event_cb) -> s'.(wifi_sta_conn_status) <> WSS_GOT_IP ->
  (told <> [] -> s'.(s_wifi_sta_conne_evt_state) = s.(s_wifi_sta_conne_evt_state)) -> wifi_inv got' told s'.
Proof.
  intros [] Hcb Hst Hevt. constructor; [by rewrite Hcb| |done|done].
  intros Hl. rewrite Hevt; [auto|]. by intros ->.
Qed.

Lemma disconnected_keeps got told s reason : wifi_inv got told s ->
  wp (tkl_wifi_event_handler (WIFI_EVENT_STA_DISCONNECTED reason) s) (event_keeps got told).
Proof.
  intros H. cbn [tkl_wifi_event_handler].
  set (st := if reason =? WIFI_REASON_NO_AP_FOUND then _ else _).
  assert (Hst : st <> WSS_GOT_IP) by (unfold st; by repeat case_match).
  unfold notify. cbn [set_addrs set_status tkl_event_cb s_wifi_sta_conne_evt_state].
  assert (Hno : tkl_event_cb s = false -> told = []) by apply H.
  case_bool_decide as E; destruct (tkl_event_cb s) eqn:Hcb; cbn; rewrite ?app_nil_r; try intros [].
  - eapply told_inv; [exact H|done| |done]. intros _. cbn. by rewrite E.
  - apply (silent_inv got _ _ s); [done|done|done|]. by rewrite Hno.
  - by eapply told_inv; [exact H|..].
  - apply (silent_inv got _ _ s); [done|done|done|]. by rewrite Hno.
Qed.

Lemma handler_keeps got told s e : wifi_inv got told s ->
  wp (tkl_wifi_event_handler e s) (event_keeps (got_of (OpEvent e) got) told).
Proof.
  intros H. destruct e as [| | |reason| | | | | | |a m g| |]; try (cbn; by rewrite app_nil_r).
  - intros ret. cbn. rewrite app_nil_r. destruct (_ =? _); [|done]. by apply (silent_inv got _ _ s).
  - cbn. rewrite app_nil_r. by apply (silent_inv got _ _ s).
  - by apply disconnected_keeps.
  - intros num. cbn [bind]. destruct (_ =? 0); [|cbn; by rewrite app_nil_r].
    cbn [set_addrs set_status tkl_event_cb s_wifi_sta_conne_evt_state].
    destruct (_ && _) eqn:E; [|cbn; rewrite app_nil_r; by apply (silent_inv got _ _ s)].
    apply andb_true_iff in E as [Hcb _]. intros []. cbn. by eapply told_inv; [exact H|..].
  - by apply lost_keeps.
  - by apply lost_keeps.
  - cbn [tkl_wifi_event_handler]. destruct (write_addrs_text a m g s.(wifi_sta_ip_addrs)) as (addrs & -> & Ht).
    cbn [set_addrs tkl_event_cb andb]. destruct (tkl_event_cb s) eqn:Hcb.
    + intros []. cbn. eapply told_inv; [exact H|done|done|]. intros _. split; [done|]. by eexists.
    + cbn. rewrite app_nil_r. apply (silent_inv got _ _ s); [done|done| |done]. cbn. intros Hg.
      apply (inv_cb _ _ _ H) in Hcb as ->. by destruct (inv_got _ _ _ H Hg).
Qed.

Lemma notes_app l l' : notes (l ++ l') = notes l ++ notes l'.
Proof. unfold notes. by rewrite map_app, concat_app. Qed.

Lemma step_keeps got told o s : wifi_inv got told s -> wp (wifi_step o s) (event_keeps (got_of o got) told).
Proof.
  intros H. assert (Hq : (forall e, o <> OpEvent e) -> got_of o got = got -> wp (wifi_step o s) (event_keeps (got_of o got) told)).
  { intros Ho ->. eapply wp_mono; [|by apply client_quiet]. intros l [s'|h] [Hl Hs]; [|done]. cbn.
    rewrite Hl, app_nil_r. by eapply unchanged_inv. }
  destruct o as [e| | | | |]; [by apply handler_keeps|by apply Hq..].
Qed.

Lemma run_keeps os : forall got told s, wifi_inv got told s ->
  wp (wifi_run os s) (event_keeps (fold_left (fun l o => got_of o l) os got) told).
Proof.
  induction os as [|o os IH]; intros got told s H; cbn [wifi_run fold_left]; [cbn; by rewrite app_nil_r|].
  apply (wp_call _ _ _ _ (step_keeps got told o s H)); [|done]. intros l s' Hs.
  eapply wp_mono; [|apply (IH _ _ _ Hs)]. intros l' [s2|h]; cbn; [|done]. by rewrite notes_app, app_assoc.
Qed.

Lemma init_keeps cb : wp (tkl_wifi_init cb wifi_start_state) (fun l o => notes l = [] /\
  match o with Done (s, _) => wifi_inv None [] s | Stopped _ => True end).
Proof.
  assert (H : forall s, unchanged wifi_start_state s \/ unchanged (set_event_cb wifi_start_state) s -> wifi_inv None [] s).
  { intros s [(E1 & E2 & E3 & E4)|(E1 & E2 & E3 & E4)]; constructor; rewrite ?E3; done. }
  unfold tkl_wifi_init, read_base_mac, try_, new_netif. cbn [register_all registrations]. unfold try_.
  calls; (split; [done|]); repeat case_match; simplify_eq/=; first [done|apply H; first [by left|by right] ].
Qed.

(** ** What a client can rely on *)

(** C38: After [tkl_wifi_init], whatever events the driver reports, whatever the client calls and whatever the driver answers: the
    callback is never told WFE_DISCONNECTED twice in a row; and whenever [tkl_wifi_get_ip] succeeds for the station, the last
    thing the callback was told is WFE_CONNECTED, and the three strings read back as the address, the mask and the gateway of
    the last event that brought an address. *)
Theorem station_ip_current (os : list wifi_op) (old : NW_IP_S) :
  always
    (do r <- tkl_wifi_init true wifi_start_state;
     do s <- wifi_run os r.1;
     tkl_wifi_get_ip WF_STATION (Some old) s)
    (fun l o => match o with
     | Done (addrs, ret) => once (notes l) /\
         (ret = OPRT_OK -> last (notes l) = Some WFE_CONNECTED /\ exists g, last_got os = Some g /\ texts_of addrs g)
     | Stopped _ => True
     end).
Proof.
  apply wp_always. apply (wp_call _ _ _ _ (init_keeps true)); [|done]. intros l0 [s0 r0] [Hl0 H0].
  apply (wp_call _ _ _ _ (run_keeps os _ _ _ H0)); [|done]. intros l s H. cbn in H. cbn [tkl_wifi_get_ip].
  case_bool_decide as E; cbn; rewrite !notes_app, Hl0; cbn; rewrite app_nil_r; (split; [apply H|]).
  - intros _. by apply (inv_got _ _ _ H).
  - done.
Qed.

(** ** Scanning *)

(** Whether the loop passes a record over. *)
Definition passed_over (ssid : option (list Z)) (r : wifi_ap_record_t) : bool :=
  match ssid with Some name => strncmp_eq name r.(rec_ssid) | None => false end.

Lemma fill_items_spec ssid recs : forall done_ total,
  fill_items ssid recs (length done_) (done_ ++ repeat no_ap (length recs)) total =
  (done_ ++ map (fun r => if passed_over ssid r then no_ap else ap_of_record r) recs,
   total + Z.of_nat (length (filter (fun r => passed_over ssid r = false) recs))).
Proof.
  induction recs as [|r recs IH]; intros items total; cbn [fill_items map length repeat]; [simpl; f_equal; lia|].
  assert (Hs : S (length items) = length (items ++ [no_ap])) by (rewrite length_app; simpl; lia).
  change (match ssid with Some name => strncmp_eq name (rec_ssid r) | None => false end) with (passed_over ssid r).
  destruct (passed_over ssid r) eqn:E.
  - rewrite Hs. change (no_ap :: repeat no_ap (length recs)) with ([no_ap] ++ repeat no_ap (length recs)).
    rewrite app_assoc, IH, <- app_assoc. rewrite filter_cons_False by congruence. done.
  - rewrite insert_app_r_alt, Nat.sub_diag by lia. cbn [list_insert insert].
    change (ap_of_record r :: repeat no_ap (length recs)) with ([ap_of_record r] ++ repeat no_ap (length recs)).
    replace (S (length items)) with (length (items ++ [ap_of_record r])) by (rewrite length_app; simpl; lia).
    rewrite app_assoc, IH, <- app_assoc. rewrite filter_cons_True by done. f_equal. cbn [length]. lia.
Qed.

(** The blocks allocated less the ones freed. *)
Definition blocks (l : list (event wifi_call)) : Z :=
  fold_right (fun ev n => n + match ev with Ev e x =>
    match e in wifi_call X return X -> Z with
    | wifi_malloc _ => fun ok : bool => if ok then 1 else 0
    | wifi_free => fun _ => -1
    | _ => fun _ => 0
    end x end) 0 l.

(** C39: Whatever the driver and the allocator answer, a scan leaves no block allocated but the array it returns, and the array has an item
    for each record of the driver, in order, with [num] the number of items that are filled in.  With no name every item is filled in.
    With a name the items of just those records stay empty whose network name starts with it. *)
Theorem scan_result (ssid : option (list Z)) :
  always (tkl_wifi_scan_ap ssid) (fun l o => match o with
    | Done (Some items, num, ret) => ret = OPRT_OK /\ blocks l = 1 /\
        exists room recs, Ev (esp_wifi_scan_get_ap_records room) (Some recs) ∈ l /\
          items = map (fun r => if passed_over ssid r then no_ap else ap_of_record r) recs /\
          num = Z.of_nat (length (filter (fun r => passed_over ssid r = false) recs))
    | Done (None, num, ret) => ret = OPRT_COM_ERROR /\ blocks l = 0 /\ num = 0
    | Stopped _ => False
    end).
Proof.
  apply wp_always. unfold tkl_wifi_scan_ap, _tkl_wifi_all_ap_scan. calls; cbn; try done.
  all: bool_to_prop; subst; try done.
  match goal with H : fill_items _ ?recs 0 _ 0 = _ |- _ =>
    pose proof (fill_items_spec ssid recs [] 0) as E; cbn [app length] in E; rewrite E in H; injection H as <- <- end.
  split_and!; [done|done|]. eexists _, _. split_and!; [do 3 constructor 2; constructor 1|done|lia].
Qed.

(** ** Modes, callbacks, names *)

(** The modes the driver has been set to. *)
Definition modes (l : list (event wifi_call)) : list wifi_mode_t :=
  concat (map (fun ev => match ev with Ev e _ => match e with esp_wifi_set_mode m => [m] | _ => [] end end) l).

Lemma modes_app l l' : modes (l ++ l') = modes l ++ modes l'.
Proof. unfold modes. by rewrite map_app, concat_app. Qed.

Lemma connect_modes ssid passwd s :
  wp (tkl_wifi_station_connect ssid passwd s) (fun l o => match o with
    | Done (s', ret) => s' = s /\ (ret = OPRT_OK -> modes l = [WIFI_MODE_STA])
    | Stopped _ => True
    end).
Proof. unfold tkl_wifi_station_connect, copy_name, try_. calls; done. Qed.

Lemma set_mode_ok m s :
  wp (tkl_wifi_set_work_mode m s) (fun l o => match o with
    | Done (s', ret) => ret = OPRT_OK -> s'.(g_wifi_work_mode) = m
    | Stopped _ => True
    end).
Proof.
  unfold tkl_wifi_set_work_mode, try_. calls; try done; cbn; intros _.
  match goal with H : bool_decide _ = true |- _ => by apply bool_decide_eq_true in H end.
Qed.

(** The mode is cached, and not forgotten when it is changed elsewhere: a client that sets a
    mode, connects the station and sets the mode again is told that it is set, and
    [g_wifi_work_mode] says so, while the driver is left in station mode. *)
Lemma work_mode_stale m s ssid passwd :
  always
    (do r1 <- tkl_wifi_set_work_mode m s;
     do r2 <- tkl_wifi_station_connect ssid passwd r1.1;
     do r3 <- tkl_wifi_set_work_mode m r2.1;
     Ret (r1.2, r2.2, r3))
    (fun l o => match o with
     | Done (ret1, ret2, (s3, ret3)) => ret1 = OPRT_OK -> ret2 = OPRT_OK ->
         ret3 = OPRT_OK /\ s3.(g_wifi_work_mode) = m /\ last (modes l) = Some WIFI_MODE_STA
     | Stopped _ => True
     end).
Proof.
  apply wp_always. apply (wp_call _ _ _ _ (set_mode_ok m s)); [|done]. intros l1 [s1 ret1] H1.
  apply (wp_call _ _ _ _ (connect_modes ssid passwd _)); [|done]. intros l2 [s2 ret2] [-> H2]. cbn [fst snd] in *.
  unfold tkl_wifi_set_work_mode, try_. calls; try done; cbn; intros -> ->; specialize (H1 eq_refl).
  1: by split_and!; [..|rewrite !modes_app, H2 by done; cbn; rewrite last_snoc].
  all: exfalso; by match goal with H : bool_decide (_ = g_wifi_work_mode _) = false |- _ => apply bool_decide_eq_false in H end.
Qed.

(** The last setting of the promiscuous mode. *)
Definition promiscuous (l : list (event wifi_call)) : option bool :=
  last (concat (map (fun ev => match ev with Ev e _ => match e with esp_wifi_set_promiscuous b => [b] | _ => [] end end) l)).

(** The condition of [tkl_wifi_register_recv_mgnt_callback] is the wrong way round: to disable the
    management callback stops the sniffer just when it is in use, and leaves the promiscuous mode on
    when it is not. *)
Lemma mgnt_disable_inverted s :
  always
    (do r1 <- tkl_wifi_register_recv_mgnt_callback true true s;
     tkl_wifi_register_recv_mgnt_callback false false r1.1)
    (fun l o => match o with
     | Done (s', ret) => ret = OPRT_OK /\ s'.(tuya_sniffer_cb) = s.(tuya_sniffer_cb) /\
         promiscuous l = Some (negb s.(tuya_sniffer_cb))
     | Stopped _ => False
     end).
Proof.
  apply wp_always. unfold tkl_wifi_register_recv_mgnt_callback, wifi_sniffer_start, wifi_sniffer_stop.
  destruct (tuya_sniffer_cb s) eqn:E; cbn; intros; rewrite ?E; calls; cbn; by rewrite ?E.
Qed.

(** The names as the driver sees them: the calls that configure the station, and the writes behind the arrays. *)
Definition names_given (l : list (event wifi_call)) : list (list Z) :=
  concat (map (fun ev => match ev with Ev e _ => match e with
    | esp_wifi_set_sta_config c => [c.(sta_names)] | write_behind b => [b] | _ => [] end end) l).

Definition pad (n : nat) (bytes : list Z) : list Z := bytes ++ replicate (n - length bytes) 0.

Lemma names_pad ssid passwd : (length ssid <= WIFI_SSID_LEN)%nat -> (length passwd <= WIFI_PASSWD_LEN)%nat ->
  store_at (store_at (replicate NAMES 0) 0 ssid) WIFI_SSID_LEN passwd = pad WIFI_SSID_LEN ssid ++ pad WIFI_PASSWD_LEN passwd.
Proof.
  unfold NAMES, pad, store_at. intros Hs Hp. rewrite take_0, app_nil_l, Nat.add_0_l, drop_replicate.
  rewrite take_app_ge, take_replicate, (drop_app_ge ssid), drop_replicate by lia.
  rewrite <- !app_assoc. do 2 f_equal; [f_equal; lia|]. f_equal. f_equal. lia.
Qed.

(** Names that fit are given to the driver as they are, padded with zeros, and nothing is written
    behind them; a name of more than 32 bytes reaches into the password. *)
Lemma station_connect_names ssid passwd s : (length ssid <= WIFI_SSID_LEN)%nat -> (length passwd <= WIFI_PASSWD_LEN)%nat ->
  always (tkl_wifi_station_connect (Some ssid) (Some passwd) s) (fun l o =>
    forall names, names ∈ names_given l -> names = pad WIFI_SSID_LEN ssid ++ pad WIFI_PASSWD_LEN passwd).
Proof.
  intros Hs Hp. apply wp_always. pose proof (names_pad ssid passwd Hs Hp) as E.
  assert (E1 : (NAMES - 0 <? length ssid)%nat = false) by (apply Nat.ltb_ge; unfold NAMES, WIFI_SSID_LEN, WIFI_PASSWD_LEN in *; lia).
  assert (E2 : (NAMES - WIFI_SSID_LEN <? length passwd)%nat = false)
    by (apply Nat.ltb_ge; unfold NAMES, WIFI_SSID_LEN, WIFI_PASSWD_LEN in *; lia).
  apply Nat.ltb_ge in E1 as L1. apply Nat.ltb_ge in E2 as L2.
  assert (E0 : (0 <? length passwd)%nat = false -> store_at (replicate NAMES 0) 0 ssid = pad WIFI_SSID_LEN ssid ++ pad WIFI_PASSWD_LEN passwd).
  { intros H0. rewrite <- E. destruct passwd; [|done]. unfold store_at at 2. by rewrite app_nil_l, Nat.add_0_r, take_drop. }
  unfold tkl_wifi_station_connect, copy_name, try_. rewrite E1, E2, (take_ge ssid), (take_ge passwd) by done.
  calls; cbn; intros names Hn; try (by apply not_elem_of_nil in Hn); apply list_elem_of_singleton in Hn as ->; auto.
Qed.

Lemma long_ssid_spills :
  exists l o, exec (fun _ X (e : wifi_call X) => match e in wifi_call X return X with
      | esp_wifi_stop | esp_wifi_start | esp_wifi_set_ps_min_modem => 0
      | esp_wifi_set_mode _ | esp_wifi_set_default_handlers _ | esp_wifi_set_sta_config _ => 0
      | _ => ltac:(first [exact 0 | exact tt | exact true | exact None | exact []])
      end) [] (tkl_wifi_station_connect (Some (repeat 0x61 40)) (Some []) wifi_start_state) = (l, o) /\
    names_given l = [repeat 0x61 40 ++ repeat 0 56].
Proof. eexists _, _. split; [vm_compute; reflexivity|]. vm_compute. reflexivity. Qed.

(** The European code is looked up as AL, which is not in the table. *)
Lemma eu_not_supported : tkl_wifi_set_country_code COUNTRY_CODE_EU = Ret OPRT_NOT_SUPPORTED.
Proof. reflexivity. Qed.

End Wifi.
