(* ===== verification/Gpio.v ===== *)
(** * Pins: [gpio.c] and [tkl_pin.c]

    The GPIO driver of the platform on the registers of its pins, its interrupt
    service with the table of handlers, and the adapter on top of it. *)
From stdpp Require Import base list.
From Stdlib Require Import ZArith Lia.
From S2P Require Import Prelude Oprt Flash.
Import Flash.
Local Open Scope Z_scope.

Module Gpio.

(** ** Pins and registers *)

Definition GPIO_PIN_COUNT : nat := 49.
Arguments GPIO_PIN_COUNT : simpl never.

(** [SOC_GPIO_VALID_GPIO_MASK], also that of the outputs: pins 22 to 25 do not exist. *)
Definition SOC_GPIO_VALID_GPIO_MASK : Z := Z.ldiff 0x1FFFFFFFFFFFF (2 ^ 22 + 2 ^ 23 + 2 ^ 24 + 2 ^ 25).
Definition GPIO_IS_VALID_GPIO (gpio_num : Z) : bool := negb (Z.land (Z.shiftl 1 gpio_num) SOC_GPIO_VALID_GPIO_MASK =? 0).

Record pin := mk_pin {
  p_input : bool;
  p_output : bool;
  p_od : bool;
  p_pullup : bool;
  p_pulldown : bool;
  p_level : Z;
  p_intr_type : Z;
  p_intr : bool;
}.

(** A function and its argument. *)
Definition handler : Type := (Z * Z)%type.

(** [gpio_isr_func] is [None] until the service is installed; a NULL function is [None]. *)
Record gpio_context := mk_gpio {
  pins : list pin;
  isr_core_id : Z;
  gpio_isr_func : option (list (option handler));
}.

Definition GPIO_ISR_CORE_ID_UNINIT : Z := 3.
Definition pin_after_reset : pin := mk_pin false false false false false 0 0 false.
Definition gpio_start : gpio_context := mk_gpio (replicate GPIO_PIN_COUNT pin_after_reset) GPIO_ISR_CORE_ID_UNINIT None.

Inductive gpio_call : Type -> Type :=
| gpio_calloc : gpio_call bool
| esp_ipc_call_blocking : gpio_call Z
| esp_intr_alloc : gpio_call Z
| esp_intr_free : gpio_call unit
| xPortGetCoreID : gpio_call Z
| gpio_hal_get_level (gpio_num : Z) : gpio_call Z
| isr_call (h : handler) : gpio_call unit.

Abbreviation gpio := (prog gpio_call).

Definition upd (f : pin -> pin) (gpio_num : Z) (g : gpio_context) : gpio_context :=
  mk_gpio (alter f (Z.to_nat gpio_num) g.(pins)) g.(isr_core_id) g.(gpio_isr_func).
Definition set_core (g : gpio_context) (c : Z) : gpio_context := mk_gpio g.(pins) c g.(gpio_isr_func).
Definition set_isr (g : gpio_context) (t : option (list (option handler))) : gpio_context := mk_gpio g.(pins) g.(isr_core_id) t.

(** [GPIO_CHECK] of the number, then the registers. *)
Definition checked (f : pin -> pin) (gpio_num : Z) (g : gpio_context) : gpio_context * Z :=
  if GPIO_IS_VALID_GPIO gpio_num then (upd f gpio_num g, ESP_OK) else (g, ESP_ERR_INVALID_ARG).

Definition gpio_pullup (en : bool) : Z -> gpio_context -> gpio_context * Z :=
  checked (fun p => mk_pin p.(p_input) p.(p_output) p.(p_od) en p.(p_pulldown) p.(p_level) p.(p_intr_type) p.(p_intr)).
Definition gpio_pulldown (en : bool) : Z -> gpio_context -> gpio_context * Z :=
  checked (fun p => mk_pin p.(p_input) p.(p_output) p.(p_od) p.(p_pullup) en p.(p_level) p.(p_intr_type) p.(p_intr)).
Definition gpio_input (en : bool) : Z -> gpio_context -> gpio_context * Z :=
  checked (fun p => mk_pin en p.(p_output) p.(p_od) p.(p_pullup) p.(p_pulldown) p.(p_level) p.(p_intr_type) p.(p_intr)).
Definition gpio_output (en : bool) : Z -> gpio_context -> gpio_context * Z :=
  checked (fun p => mk_pin p.(p_input) en p.(p_od) p.(p_pullup) p.(p_pulldown) p.(p_level) p.(p_intr_type) p.(p_intr)).
Definition gpio_od (en : bool) : Z -> gpio_context -> gpio_context * Z :=
  checked (fun p => mk_pin p.(p_input) p.(p_output) en p.(p_pullup) p.(p_pulldown) p.(p_level) p.(p_intr_type) p.(p_intr)).
Definition gpio_set_level (gpio_num level : Z) : gpio_context -> gpio_context * Z :=
  checked (fun p => mk_pin p.(p_input) p.(p_output) p.(p_od) p.(p_pullup) p.(p_pulldown) level p.(p_intr_type) p.(p_intr)) gpio_num.
Definition set_intr (en : bool) (p : pin) : pin :=
  mk_pin p.(p_input) p.(p_output) p.(p_od) p.(p_pullup) p.(p_pulldown) p.(p_level) p.(p_intr_type) en.
Definition gpio_intr_disable : Z -> gpio_context -> gpio_context * Z := checked (set_intr false).

Definition GPIO_INTR_DISABLE : Z := 0.
Definition GPIO_INTR_POSEDGE : Z := 1.
Definition GPIO_INTR_NEGEDGE : Z := 2.
Definition GPIO_INTR_ANYEDGE : Z := 3.
Definition GPIO_INTR_LOW_LEVEL : Z := 4.
Definition GPIO_INTR_HIGH_LEVEL : Z := 5.
Definition GPIO_INTR_MAX : Z := 6.

Definition gpio_set_intr_type (gpio_num intr_type : Z) (g : gpio_context) : gpio_context * Z :=
  if negb (GPIO_IS_VALID_GPIO gpio_num) then (g, ESP_ERR_INVALID_ARG)
  else if negb (intr_type <? GPIO_INTR_MAX) then (g, ESP_ERR_INVALID_ARG)
  else (upd (fun p => mk_pin p.(p_input) p.(p_output) p.(p_od) p.(p_pullup) p.(p_pulldown) p.(p_level) intr_type p.(p_intr)) gpio_num g, ESP_OK).

(** The first to enable an interrupt chooses the core. *)
Definition choose_core (g : gpio_context) : gpio gpio_context :=
  if g.(isr_core_id) =? GPIO_ISR_CORE_ID_UNINIT then do c <- call xPortGetCoreID; Ret (set_core g c) else Ret g.

Definition gpio_intr_enable (gpio_num : Z) (g : gpio_context) : gpio (gpio_context * Z) :=
  if negb (GPIO_IS_VALID_GPIO gpio_num) then Ret (g, ESP_ERR_INVALID_ARG)
  else do g <- choose_core g; Ret (checked (set_intr true) gpio_num g).

Inductive gpio_pull_mode_t := GPIO_PULLUP_ONLY | GPIO_PULLDOWN_ONLY | GPIO_PULLUP_PULLDOWN | GPIO_FLOATING.

Definition gpio_set_pull_mode (gpio_num : Z) (pull : gpio_pull_mode_t) (g : gpio_context) : gpio_context * Z :=
  if negb (GPIO_IS_VALID_GPIO gpio_num) then (g, ESP_ERR_INVALID_ARG)
  else
    let '(down, up) :=
      match pull with
      | GPIO_PULLUP_ONLY => (false, true)
      | GPIO_PULLDOWN_ONLY => (true, false)
      | GPIO_PULLUP_PULLDOWN => (true, true)
      | GPIO_FLOATING => (false, false)
      end in
    ((gpio_pullup up gpio_num (gpio_pulldown down gpio_num g).1).1, ESP_OK).

Definition GPIO_MODE_DEF_INPUT : Z := 1.
Definition GPIO_MODE_DEF_OUTPUT : Z := 2.
Definition GPIO_MODE_DEF_OD : Z := 4.
Definition has (mode bit : Z) : bool := negb (Z.land mode bit =? 0).

Definition gpio_set_direction (gpio_num mode : Z) (g : gpio_context) : gpio_context * Z :=
  if negb (GPIO_IS_VALID_GPIO gpio_num) then (g, ESP_ERR_INVALID_ARG)
  else if negb (GPIO_IS_VALID_GPIO gpio_num) && has mode GPIO_MODE_DEF_OUTPUT then (g, ESP_ERR_INVALID_ARG)
  else
    let g := (gpio_input (has mode GPIO_MODE_DEF_INPUT) gpio_num g).1 in
    let g := (gpio_output (has mode GPIO_MODE_DEF_OUTPUT) gpio_num g).1 in
    ((gpio_od (has mode GPIO_MODE_DEF_OD) gpio_num g).1, ESP_OK).

(** One pin of [gpio_config]. *)
Definition config_pin (io_num mode : Z) (pull_up_en pull_down_en : bool) (intr_type : Z) (g : gpio_context) : gpio gpio_context :=
  let g := (gpio_input (has mode GPIO_MODE_DEF_INPUT) io_num g).1 in
  let g := (gpio_od (has mode GPIO_MODE_DEF_OD) io_num g).1 in
  let g := (gpio_output (has mode GPIO_MODE_DEF_OUTPUT) io_num g).1 in
  let g := (gpio_pullup pull_up_en io_num g).1 in
  let g := (gpio_pulldown pull_down_en io_num g).1 in
  let g := (gpio_set_intr_type io_num intr_type g).1 in
  if negb (intr_type =? 0) then do r <- gpio_intr_enable io_num g; Ret r.1
  else Ret (gpio_intr_disable io_num g).1.

(** [do ... while (io_num < GPIO_PIN_COUNT)], with [n] pins left. *)
Fixpoint config_loop (n : nat) (io_num mask mode : Z) (up down : bool) (intr_type : Z) (g : gpio_context) : gpio gpio_context :=
  match n with
  | O => Ret g
  | S n =>
      do g <- (if Z.testbit mask io_num then config_pin io_num mode up down intr_type g else Ret g);
      config_loop n (io_num + 1) mask mode up down intr_type g
  end.

Definition gpio_config (mask mode : Z) (up down : bool) (intr_type : Z) (g : gpio_context) : gpio (gpio_context * Z) :=
  if (mask =? 0) || negb (Z.ldiff mask SOC_GPIO_VALID_GPIO_MASK =? 0) then Ret (g, ESP_ERR_INVALID_ARG)
  else do g <- config_loop GPIO_PIN_COUNT 0 mask mode up down intr_type g; Ret (g, ESP_OK).

Definition gpio_reset_pin (gpio_num : Z) (g : gpio_context) : gpio gpio_context :=
  assert_ ((0 <=? gpio_num) && GPIO_IS_VALID_GPIO gpio_num) >>
  do r <- gpio_config (Z.shiftl 1 gpio_num) 0 true false GPIO_INTR_DISABLE g; Ret r.1.

(** ** The interrupt service *)

(** [__builtin_ffs(status) - 1]: the position of the lowest bit that is set. *)
Fixpoint ffs (fuel : nat) (i status : Z) : Z :=
  match fuel with
  | O => i
  | S fuel => if Z.testbit status i then i else ffs fuel (i + 1) status
  end.

(** [while (status)]; each turn clears a bit.  The status words have no bit of a pin
    beyond the table of handlers, which the code does not check. *)
Fixpoint gpio_isr_loop (fuel : nat) (funcs : list (option handler)) (status gpio_num_start : Z) : option (gpio unit) :=
  match fuel with
  | O => if status =? 0 then Some (Ret tt) else None
  | S fuel =>
      if status =? 0 then Some (Ret tt)
      else
        let nbit := ffs 32 0 status in
        let status := Z.ldiff status (2 ^ nbit) in
        match gpio_isr_loop fuel funcs status gpio_num_start with
        | None => None
        | Some rest =>
            Some (match funcs !! Z.to_nat (gpio_num_start + nbit) with
                  | Some (Some h) => call (isr_call h) >> rest
                  | _ => rest
                  end)
        end
  end.

(** The two status words are what the hardware shows. *)
Definition gpio_intr_service (status status_h : Z) (g : gpio_context) : option (gpio unit) :=
  match g.(gpio_isr_func) with
  | None => Some (Ret tt)
  | Some funcs =>
      match gpio_isr_loop 32 funcs (u32 status) 0, gpio_isr_loop 32 funcs (u32 status_h) 32 with
      | Some lo, Some hi => Some (lo >> hi)
      | _, _ => None
      end
  end.

Definition gpio_isr_register (g : gpio_context) : gpio (gpio_context * Z) :=
  do g <- choose_core g;
  do ret <- call esp_ipc_call_blocking;
  if negb (ret =? ESP_OK) then Ret (g, ESP_ERR_NOT_FOUND)
  else
    do ret <- call esp_intr_alloc;
    Ret (g, if ret =? ESP_OK then ESP_OK else ESP_ERR_NOT_FOUND).

Definition gpio_install_isr_service (g : gpio_context) : gpio (gpio_context * Z) :=
  match g.(gpio_isr_func) with
  | Some _ => Ret (g, ESP_ERR_INVALID_STATE)
  | None =>
      do ok <- call gpio_calloc;
      if ok : bool then gpio_isr_register (set_isr g (Some (replicate GPIO_PIN_COUNT None)))
      else Ret (g, ESP_ERR_NO_MEM)
  end.

Definition set_handler (gpio_num : Z) (h : option handler) (funcs : list (option handler)) : list (option handler) :=
  <[Z.to_nat gpio_num := h]> funcs.

Definition gpio_isr_handler_add (gpio_num : Z) (h : option handler) (g : gpio_context) : gpio_context * Z :=
  match g.(gpio_isr_func) with
  | None => (g, ESP_ERR_INVALID_STATE)
  | Some funcs =>
      if negb (GPIO_IS_VALID_GPIO gpio_num) then (g, ESP_ERR_INVALID_ARG)
      else
        let g := (gpio_intr_disable gpio_num g).1 in
        let g := set_isr g (Some (set_handler gpio_num h funcs)) in
        (upd (set_intr true) gpio_num g, ESP_OK)
  end.

Definition gpio_isr_handler_remove (gpio_num : Z) (g : gpio_context) : gpio_context * Z :=
  match g.(gpio_isr_func) with
  | None => (g, ESP_ERR_INVALID_STATE)
  | Some funcs =>
      if negb (GPIO_IS_VALID_GPIO gpio_num) then (g, ESP_ERR_INVALID_ARG)
      else
        let g := (gpio_intr_disable gpio_num g).1 in
        (set_isr g (Some (set_handler gpio_num None funcs)), ESP_OK)
  end.

Definition gpio_uninstall_isr_service (g : gpio_context) : gpio gpio_context :=
  match g.(gpio_isr_func) with
  | None => Ret g
  | Some _ => call esp_intr_free >> Ret (set_core (set_isr g None) GPIO_ISR_CORE_ID_UNINIT)
  end.

(** ** The adapter *)

Inductive TUYA_GPIO_DRCT_E := TUYA_GPIO_INPUT | TUYA_GPIO_OUTPUT.
Inductive TUYA_GPIO_MODE_E :=
| TUYA_GPIO_PULLUP | TUYA_GPIO_PULLDOWN | TUYA_GPIO_HIGH_IMPEDANCE | TUYA_GPIO_FLOATING
| TUYA_GPIO_PUSH_PULL | TUYA_GPIO_OPENDRAIN | TUYA_GPIO_OPENDRAIN_PULLUP.
Inductive TUYA_GPIO_IRQ_E := TUYA_GPIO_IRQ_RISE | TUYA_GPIO_IRQ_FALL | TUYA_GPIO_IRQ_RISE_FALL | TUYA_GPIO_IRQ_LOW | TUYA_GPIO_IRQ_HIGH.

Record TUYA_GPIO_BASE_CFG_T := mk_base_cfg { cfg_mode : TUYA_GPIO_MODE_E; cfg_direct : TUYA_GPIO_DRCT_E; cfg_level : Z }.
Record TUYA_GPIO_IRQ_T := mk_irq_cfg { irq_mode : TUYA_GPIO_IRQ_E; irq_cb : option Z; irq_arg : Z }.

Record pin_dev_map_t := mk_dev { dev_gpio : Z; dev_cb : option Z; dev_args : Z }.

(** The numbers of the table; the last two groups are compiled in for some chips. *)
Definition numbers (from : Z) (n : nat) : list Z := map (fun k => from + Z.of_nat k) (seq 0 n).
Definition pinmap_gpios (esp32s2 esp32s3 : bool) : list Z :=
  numbers 0 22 ++ numbers 26 14 ++
  (if esp32s3 || esp32s2 then numbers 40 7 ++ (if esp32s3 then numbers 47 2 else []) else []).
Definition pinmap (esp32s2 esp32s3 : bool) : list pin_dev_map_t :=
  map (fun n => mk_dev n None 0) (pinmap_gpios esp32s2 esp32s3).

(** The table and the driver. *)
Record pin_state := mk_pins { devs : list pin_dev_map_t; drv : gpio_context }.

Definition pin_start (esp32s2 esp32s3 : bool) : pin_state := mk_pins (pinmap esp32s2 esp32s3) gpio_start.

(** [pin_id] is an [UINT32_T]. *)
Definition pin_index (pin_id : Z) : nat := Z.to_nat (u32 pin_id).

(** [PIN_DEV_CHECK_ERROR_RETURN], then [pinmap[pin_id].gpio]. *)
Definition gpio_of (pin_id : Z) (s : pin_state) : option Z := dev_gpio <$> s.(devs) !! pin_index pin_id.

Definition tkl_gpio_init (pin_id : Z) (cfg : option TUYA_GPIO_BASE_CFG_T) (s : pin_state) : gpio (pin_state * Z) :=
  match cfg with
  | None => Ret (s, OPRT_INVALID_PARM)
  | Some cfg =>
      match gpio_of pin_id s with
      | None => Ret (s, OPRT_INVALID_PARM)
      | Some gpio_num =>
          do g <- gpio_reset_pin gpio_num s.(drv);
          let g := (gpio_set_level gpio_num cfg.(cfg_level) g).1 in
          let gpio_dir := match cfg.(cfg_direct) with TUYA_GPIO_INPUT => GPIO_MODE_DEF_INPUT | TUYA_GPIO_OUTPUT => GPIO_MODE_DEF_OUTPUT end in
          let '(g, ret) := gpio_set_direction gpio_num gpio_dir g in
          if negb (ret =? ESP_OK) then Ret (mk_pins s.(devs) g, OPRT_COM_ERROR)
          else
            let pull_type := match cfg.(cfg_mode) with
              | TUYA_GPIO_PULLUP => Some GPIO_PULLUP_ONLY
              | TUYA_GPIO_PULLDOWN => Some GPIO_PULLDOWN_ONLY
              | _ => None
              end in
            match pull_type with
            | None => Ret (mk_pins s.(devs) g, OPRT_NOT_SUPPORTED)
            | Some pull =>
                let '(g, ret) := gpio_set_pull_mode gpio_num pull g in
                Ret (mk_pins s.(devs) g, if ret =? ESP_OK then OPRT_OK else OPRT_COM_ERROR)
            end
      end
  end.

Definition tkl_gpio_write (pin_id level : Z) (s : pin_state) : pin_state * Z :=
  match gpio_of pin_id s with
  | None => (s, OPRT_INVALID_PARM)
  | Some gpio_num => (mk_pins s.(devs) (gpio_set_level gpio_num level s.(drv)).1, OPRT_OK)
  end.

Definition tkl_gpio_read (pin_id : Z) (s : pin_state) : gpio (option Z * Z) :=
  match gpio_of pin_id s with
  | None => Ret (None, OPRT_INVALID_PARM)
  | Some gpio_num => do level <- call (gpio_hal_get_level gpio_num); Ret (Some level, OPRT_OK)
  end.

Definition trigger_of (m : TUYA_GPIO_IRQ_E) : Z :=
  match m with
  | TUYA_GPIO_IRQ_RISE => GPIO_INTR_POSEDGE
  | TUYA_GPIO_IRQ_FALL => GPIO_INTR_NEGEDGE
  | TUYA_GPIO_IRQ_RISE_FALL => GPIO_INTR_ANYEDGE
  | TUYA_GPIO_IRQ_LOW => GPIO_INTR_LOW_LEVEL
  | TUYA_GPIO_IRQ_HIGH => GPIO_INTR_HIGH_LEVEL
  end.

Definition tkl_gpio_irq_init (pin_id : Z) (cfg : option TUYA_GPIO_IRQ_T) (s : pin_state) : gpio (pin_state * Z) :=
  match cfg with
  | None => Ret (s, OPRT_INVALID_PARM)
  | Some cfg =>
      match gpio_of pin_id s with
      | None => Ret (s, OPRT_INVALID_PARM)
      | Some gpio_num =>
          let devs := <[pin_index pin_id := mk_dev gpio_num cfg.(irq_cb) cfg.(irq_arg)]> s.(devs) in
          let '(g, ret) := gpio_set_intr_type gpio_num (trigger_of cfg.(irq_mode)) s.(drv) in
          if negb (ret =? ESP_OK) then Ret (mk_pins devs g, OPRT_COM_ERROR)
          else
            let '(g, ret) := gpio_set_direction gpio_num GPIO_MODE_DEF_INPUT g in
            if negb (ret =? ESP_OK) then Ret (mk_pins devs g, OPRT_COM_ERROR)
            else
              do r <- gpio_install_isr_service g;
              let '(g, ret) := r in
              if negb (ret =? ESP_OK) then Ret (mk_pins devs g, OPRT_COM_ERROR)
              else
                let h := match cfg.(irq_cb) with Some fn => Some (fn, cfg.(irq_arg)) | None => None end in
                let '(g, ret) := gpio_isr_handler_add gpio_num h g in
                Ret (mk_pins devs g, if ret =? ESP_OK then OPRT_OK else OPRT_COM_ERROR)
      end
  end.

Definition tkl_gpio_irq_enable (pin_id : Z) (s : pin_state) : gpio (pin_state * Z) :=
  match gpio_of pin_id s with
  | None => Ret (s, OPRT_INVALID_PARM)
  | Some gpio_num =>
      do r <- gpio_intr_enable gpio_num s.(drv);
      let '(g, ret) := r in Ret (mk_pins s.(devs) g, if ret =? ESP_OK then OPRT_OK else OPRT_COM_ERROR)
  end.

Definition tkl_gpio_irq_disable (pin_id : Z) (s : pin_state) : pin_state * Z :=
  match gpio_of pin_id s with
  | None => (s, OPRT_INVALID_PARM)
  | Some gpio_num => (mk_pins s.(devs) (gpio_intr_disable gpio_num s.(drv)).1, OPRT_OK)
  end.

Definition tkl_gpio_deinit (pin_id : Z) (s : pin_state) : gpio (pin_state * Z) :=
  match gpio_of pin_id s with
  | None => Ret (s, OPRT_INVALID_PARM)
  | Some gpio_num =>
      let g := (gpio_isr_handler_remove gpio_num s.(drv)).1 in
      do g <- gpio_uninstall_isr_service g;
      do g <- gpio_reset_pin gpio_num g;
      Ret (mk_pins s.(devs) g, OPRT_OK)
  end.

(** A client. *)
Inductive pin_op :=
| PinInit (pin_id : Z) (cfg : option TUYA_GPIO_BASE_CFG_T)
| PinWrite (pin_id level : Z)
| PinIrqInit (pin_id : Z) (cfg : option TUYA_GPIO_IRQ_T)
| PinIrqEnable (pin_id : Z)
| PinIrqDisable (pin_id : Z)
| PinDeinit (pin_id : Z).

Definition pin_step (o : pin_op) (s : pin_state) : gpio (pin_state * Z) :=
  match o with
  | PinInit p cfg => tkl_gpio_init p cfg s
  | PinWrite p level => Ret (tkl_gpio_write p level s)
  | PinIrqInit p cfg => tkl_gpio_irq_init p cfg s
  | PinIrqEnable p => tkl_gpio_irq_enable p s
  | PinIrqDisable p => Ret (tkl_gpio_irq_disable p s)
  | PinDeinit p => tkl_gpio_deinit p s
  end.

Fixpoint pin_run (os : list pin_op) (s : pin_state) : gpio pin_state :=
  match os with
  | [] => Ret s
  | o :: os => do r <- pin_step o s; pin_run os r.1
  end.

(** ** The dispatch of interrupts *)

(** The handlers of the bits from [i] on, lowest first. *)
Definition handler_at (funcs : list (option handler)) (status start : Z) (k : nat) : option handler :=
  if Z.testbit status (Z.of_nat k) then mjoin (funcs !! Z.to_nat (start + Z.of_nat k)) else None.
Definition called (funcs : list (option handler)) (status start : Z) (i : nat) : list handler :=
  omap (handler_at funcs status start) (seq i (32 - i)).

Fixpoint run_all (hs : list handler) : gpio unit :=
  match hs with [] => Ret tt | h :: hs => call (isr_call h) >> run_all hs end.

Lemma run_all_app hs hs' : (run_all hs >> run_all hs') = run_all (hs ++ hs').
Proof. induction hs as [|h hs IH]; [done|]. cbn in *. by rewrite IH. Qed.

Lemma called_skip funcs status start i j : (i <= j <= 32)%nat -> (forall k, (i <= k < j)%nat -> Z.testbit status (Z.of_nat k) = false) ->
  called funcs status start i = called funcs status start j.
Proof.
  intros Hij. remember (j - i)%nat as n eqn:Hn. revert i Hij Hn. induction n as [|n IH]; intros i Hij Hn Hz.
  { by assert (i = j) as -> by lia. }
  unfold called. replace (32 - i)%nat with (S (32 - S i)) by lia. cbn [seq omap list_omap].
  unfold handler_at at 1. rewrite Hz by lia. apply IH; [lia|lia|]. intros k Hk. apply Hz. lia.
Qed.

Lemma called_hit funcs status start i : (i < 32)%nat ->
  called funcs status start i = option_list (handler_at funcs status start i) ++ called funcs status start (S i).
Proof.
  intros Hi. unfold called. replace (32 - i)%nat with (S (32 - S i)) by lia. cbn [seq omap list_omap].
  by destruct (handler_at funcs status start i).
Qed.

(** The position found: at least [i], the bit is set and none before it. *)
Lemma ffs_spec fuel : forall i status, 0 <= i -> (exists k, i <= k < i + Z.of_nat fuel /\ Z.testbit status k = true) ->
  i <= ffs fuel i status < i + Z.of_nat fuel /\ Z.testbit status (ffs fuel i status) = true /\
  forall k, i <= k < ffs fuel i status -> Z.testbit status k = false.
Proof.
  induction fuel as [|fuel IH]; intros i status Hi (k & Hk & Hb); cbn [ffs]; [lia|].
  destruct (Z.testbit status i) eqn:E; [split_and!; [lia|lia|done|intros; lia]|].
  assert (k <> i) by congruence. destruct (IH (i + 1) status ltac:(lia)) as (H1 & H2 & H3); [exists k; split; [lia|done]|].
  split_and!; [lia|lia|done|]. intros k' Hk'. destruct (decide (k' = i)) as [->|]; [done|]. apply H3. lia.
Qed.

Lemma low_bit status : 0 <= status < 2 ^ 32 -> status <> 0 -> exists k, 0 <= k < 0 + Z.of_nat 32 /\ Z.testbit status k = true.
Proof.
  intros Hs Hn. exists (Z.log2 status). split; [|apply Z.bit_log2; lia].
  pose proof (Z.log2_nonneg status). enough (Z.log2 status < 32) by lia. apply Z.log2_lt_pow2; lia.
Qed.

Lemma called_ldiff funcs status start i n : (n < i)%nat ->
  called funcs (Z.ldiff status (2 ^ Z.of_nat n)) start i = called funcs status start i.
Proof.
  intros Hn. unfold called. apply list_omap_ext. apply Forall_Forall2_diag, Forall_forall. intros k Hk.
  apply elem_of_seq in Hk. unfold handler_at.
  by rewrite Z.ldiff_spec, Z.pow2_bits_false, andb_true_r by lia.
Qed.

Lemma called_zero funcs start i : called funcs 0 start i = [].
Proof.
  destruct (decide (i <= 32)%nat) as [Hi|Hi].
  - rewrite (called_skip _ _ _ i 32); [done|lia|]. intros. apply Z.bits_0.
  - unfold called. by replace (32 - i)%nat with 0%nat by lia.
Qed.

Lemma ldiff_below status n : 0 <= status < 2 ^ 32 -> 0 <= Z.ldiff status n < 2 ^ 32.
Proof.
  intros Hs. replace (Z.ldiff status n) with (Z.ldiff status n mod 2 ^ 32); [apply Z.mod_pos_bound; lia|].
  rewrite <- (Z.mod_small status (2 ^ 32)) at 2 by lia. apply Z.bits_inj'. intros k Hk. rewrite Z.ldiff_spec.
  destruct (decide (k < 32)) as [?|?].
  - by rewrite !Z.mod_pow2_bits_low, Z.ldiff_spec by lia.
  - by rewrite !Z.mod_pow2_bits_high by lia.
Qed.

Lemma isr_loop_spec funcs start fuel : forall i status, (32 - i <= fuel)%nat -> 0 <= status < 2 ^ 32 ->
  (forall k, 0 <= k < Z.of_nat i -> Z.testbit status k = false) ->
  gpio_isr_loop fuel funcs status start = Some (run_all (called funcs status start i)).
Proof.
  induction fuel as [|fuel IH]; intros i status Hi Hs Hz; cbn [gpio_isr_loop];
    (destruct (Z.eqb_spec status 0) as [->|Hn]; [by rewrite called_zero|]);
    destruct (low_bit status Hs Hn) as (k & Hk & Hb).
  { rewrite Hz in Hb by lia. done. }
  destruct (ffs_spec 32 0 status ltac:(lia)) as (H1 & H2 & H3); [by exists k|].
  set (n := ffs 32 0 status) in *. set (m := Z.to_nat n). assert (Hm : n = Z.of_nat m) by (unfold m; lia).
  assert (Him : (i <= m)%nat).
  { destruct (decide (i <= m)%nat); [done|]. rewrite Hz in H2 by lia. done. }
  rewrite Hm. rewrite (IH (S m)); [|lia|by apply ldiff_below|].
  - rewrite called_ldiff by lia. rewrite (called_skip _ _ _ i m); [|lia|intros k' ?; apply H3; lia].
    rewrite (called_hit _ _ _ m) by lia. unfold handler_at. rewrite <- Hm, H2, Hm.
    destruct (funcs !! Z.to_nat (start + Z.of_nat m)) as [[h|]|]; done.
  - intros k' Hk'. rewrite Z.ldiff_spec. destruct (decide (k' = Z.of_nat m)) as [->|].
    + rewrite Z.pow2_bits_true by lia. apply andb_false_r.
    + rewrite <- Hm in *. rewrite H3 by lia. done.
Qed.

(** Whatever the hardware shows, the handlers of the pins whose bits are set are called, in the order of the pins, each once. *)
Lemma intr_service_spec g status status_h : exists hs,
  gpio_intr_service status status_h g = Some (run_all hs) /\
  hs = match g.(gpio_isr_func) with
       | Some funcs => called funcs (u32 status) 0 0 ++ called funcs (u32 status_h) 32 0
       | None => []
       end.
Proof.
  eexists. split; [|done]. unfold gpio_intr_service. destruct (gpio_isr_func g) as [funcs|]; [|done].
  rewrite (isr_loop_spec funcs 0 32 0), (isr_loop_spec funcs 32 32 0);
    [by rewrite run_all_app|lia|apply u32_range|intros; lia|lia|apply u32_range|intros; lia].
Qed.

(** ** What the adapter does with the interrupt service *)

Definition table (g : gpio_context) : list handler := match g.(gpio_isr_func) with Some funcs => omap id funcs | None => [] end.

(** Each pin number of the table is one of the chip. *)
Lemma pinmap_valid esp32s2 esp32s3 n : n ∈ pinmap_gpios esp32s2 esp32s3 -> 0 <= n /\ GPIO_IS_VALID_GPIO n = true.
Proof.
  intros Hn%list_elem_of_In. assert (H : forallb (fun n => (0 <=? n) && GPIO_IS_VALID_GPIO n) (pinmap_gpios esp32s2 esp32s3) = true)
    by (destruct esp32s2, esp32s3; vm_compute; reflexivity).
  rewrite forallb_forall in H. apply H, andb_true_iff in Hn as [?%Z.leb_le ?]. done.
Qed.

Lemma upd_isr f n g : (upd f n g).(gpio_isr_func) = g.(gpio_isr_func).
Proof. done. Qed.

Lemma checked_isr f n g : (checked f n g).1.(gpio_isr_func) = g.(gpio_isr_func).
Proof. unfold checked. by destruct (GPIO_IS_VALID_GPIO n). Qed.

Definition keeps_isr (g : gpio_context) (l : list (event gpio_call)) (o : outcome gpio_context) : Prop :=
  match o with Done g' => g'.(gpio_isr_func) = g.(gpio_isr_func) | Stopped _ => False end.

Lemma keeps_trans {A} (p : gpio A) (f : A -> gpio gpio_context) (get : A -> gpio_context) g :
  wp p (fun l o => match o with Done a => (get a).(gpio_isr_func) = g.(gpio_isr_func) | Stopped _ => False end) ->
  (forall a, wp (f a) (keeps_isr (get a))) -> wp (bind p f) (keeps_isr g).
Proof.
  intros Hp Hf. apply (wp_call _ _ _ _ Hp); [|done]. intros l a Ha. eapply wp_mono; [|apply Hf].
  intros l' [g'|h]; cbn; [|done]. congruence.
Qed.

Lemma choose_core_isr g : wp (choose_core g) (keeps_isr g).
Proof. unfold choose_core. by destruct (_ =? _); [intros ?|]. Qed.

Lemma intr_enable_isr n g : wp (gpio_intr_enable n g) (fun l o => match o with Done r => r.1.(gpio_isr_func) = g.(gpio_isr_func) | Stopped _ => False end).
Proof.
  unfold gpio_intr_enable. destruct (GPIO_IS_VALID_GPIO n); [|done]. cbn [negb].
  apply (wp_call _ _ _ _ (choose_core_isr g)); [|done]. intros l g' Hg. cbn. by rewrite checked_isr.
Qed.

Lemma set_intr_type_isr n t g : (gpio_set_intr_type n t g).1.(gpio_isr_func) = g.(gpio_isr_func).
Proof. unfold gpio_set_intr_type. by repeat case_match. Qed.

Lemma config_pin_isr n mode up down t g : wp (config_pin n mode up down t g) (keeps_isr g).
Proof.
  unfold config_pin, gpio_input, gpio_od, gpio_output, gpio_pullup, gpio_pulldown, gpio_intr_disable. destruct (negb _).
  - eapply (keeps_trans _ _ fst); [|done]. eapply wp_mono; [|apply intr_enable_isr]. intros l [r|h]; [|done]. intros ->.
    by rewrite set_intr_type_isr, !checked_isr.
  - cbn. by rewrite checked_isr, set_intr_type_isr, !checked_isr.
Qed.

Lemma config_loop_isr n : forall io mask mode up down t g, wp (config_loop n io mask mode up down t g) (keeps_isr g).
Proof.
  induction n as [|n IH]; intros io mask mode up down t g; cbn [config_loop]; [done|].
  apply (keeps_trans _ _ id); [|intros; apply IH]. destruct (Z.testbit mask io); [apply config_pin_isr|done].
Qed.

Lemma reset_pin_isr n g : 0 <= n -> GPIO_IS_VALID_GPIO n = true -> wp (gpio_reset_pin n g) (keeps_isr g).
Proof.
  intros Hn Hv. unfold gpio_reset_pin. rewrite Hv, (proj2 (Z.leb_le 0 n) Hn). cbn [andb assert_ bind].
  apply (keeps_trans _ _ fst); [|done]. unfold gpio_config. destruct (_ || _); [done|].
  apply (wp_call _ _ _ _ (config_loop_isr _ _ _ _ _ _ _ g)); done.
Qed.

(** The adapter's table keeps its numbers, and the service has at most one handler. *)
Definition one_pin (esp32s2 esp32s3 : bool) (s : pin_state) : Prop :=
  map dev_gpio s.(devs) = pinmap_gpios esp32s2 esp32s3 /\ (length (table s.(drv)) <= 1)%nat.

Lemma gpio_of_valid esp32s2 esp32s3 s p n : one_pin esp32s2 esp32s3 s -> gpio_of p s = Some n -> 0 <= n /\ GPIO_IS_VALID_GPIO n = true.
Proof.
  intros [Hd _] Hn. apply (pinmap_valid esp32s2 esp32s3). rewrite <- Hd. unfold gpio_of in Hn.
  apply fmap_Some in Hn as (d & Hd' & ->). apply list_elem_of_In, in_map, list_elem_of_In. by eapply list_elem_of_lookup_2.
Qed.

Lemma same_isr esp32s2 esp32s3 s g : one_pin esp32s2 esp32s3 s -> g.(gpio_isr_func) = s.(drv).(gpio_isr_func) ->
  one_pin esp32s2 esp32s3 (mk_pins s.(devs) g).
Proof. intros [H1 H2] E. split; [done|]. cbn. unfold table in *. by rewrite E. Qed.

Definition stays (esp32s2 esp32s3 : bool) (l : list (event gpio_call)) (o : outcome (pin_state * Z)) : Prop :=
  match o with Done (s', _) => one_pin esp32s2 esp32s3 s' | Stopped _ => False end.

Section Steps.
Context (esp32s2 esp32s3 : bool) (s : pin_state) (Hs : one_pin esp32s2 esp32s3 s).

Lemma init_stays p cfg : wp (tkl_gpio_init p cfg s) (stays esp32s2 esp32s3).
Proof.
  unfold tkl_gpio_init. destruct cfg as [cfg|]; [|done]. destruct (gpio_of p s) as [n|] eqn:En; [|done].
  destruct (gpio_of_valid _ _ _ _ _ Hs En) as [Hn Hv]. apply (wp_call _ _ _ _ (reset_pin_isr n s.(drv) Hn Hv)); [|done].
  intros l g Hg. cbn zeta. unfold gpio_set_direction, gpio_set_pull_mode. rewrite Hv. cbn [negb andb fst snd].
  destruct (cfg_mode cfg); cbn; apply same_isr; [done| |done| |done|..];
    try done; unfold gpio_input, gpio_od, gpio_output, gpio_pullup, gpio_pulldown, gpio_set_level; by rewrite !checked_isr.
Qed.

Lemma write_stays p level : one_pin esp32s2 esp32s3 (tkl_gpio_write p level s).1.
Proof. unfold tkl_gpio_write. destruct (gpio_of p s); [|done]. apply same_isr; [done|]. apply checked_isr. Qed.

Lemma irq_disable_stays p : one_pin esp32s2 esp32s3 (tkl_gpio_irq_disable p s).1.
Proof. unfold tkl_gpio_irq_disable. destruct (gpio_of p s); [|done]. apply same_isr; [done|]. apply checked_isr. Qed.

Lemma irq_enable_stays p : wp (tkl_gpio_irq_enable p s) (stays esp32s2 esp32s3).
Proof.
  unfold tkl_gpio_irq_enable. destruct (gpio_of p s) as [n|]; [|done].
  apply (wp_call _ _ _ _ (intr_enable_isr n s.(drv))); [|done]. intros l [g ret] Hg. by apply same_isr.
Qed.

Lemma deinit_stays p : wp (tkl_gpio_deinit p s) (stays esp32s2 esp32s3).
Proof.
  unfold tkl_gpio_deinit. destruct (gpio_of p s) as [n|] eqn:En; [|done].
  destruct (gpio_of_valid _ _ _ _ _ Hs En) as [Hn Hv].
  assert (H : wp (gpio_uninstall_isr_service (gpio_isr_handler_remove n s.(drv)).1) (fun l o =>
    match o with Done g => g.(gpio_isr_func) = None | Stopped _ => False end)).
  { unfold gpio_uninstall_isr_service, gpio_isr_handler_remove. destruct (gpio_isr_func (drv s)) eqn:E; cbn; [|by rewrite E].
    rewrite Hv. cbn. by intros ?. }
  apply (wp_call _ _ _ _ H); [|done]. intros l g Hg. apply (wp_call _ _ _ _ (reset_pin_isr n g Hn Hv)); [|done].
  intros l' g' Hg'. cbn. split; [apply Hs|]. cbn. unfold table. rewrite Hg', Hg. cbn. lia.
Qed.
End Steps.

(** Installing the service, and a handler in a table that has none. *)
Lemma omap_none k : omap id (replicate k (None : option handler)) = [].
Proof. induction k; done. Qed.

Lemma table_empty g k : g.(gpio_isr_func) = Some (replicate k None) -> table g = [].
Proof. unfold table. intros ->. apply omap_none. Qed.

Lemma table_add k n h : (length (omap id (<[n := h]> (replicate k (None : option handler)))) <= 1)%nat.
Proof.
  revert n. induction k as [|k IH]; intros n; [destruct n; cbn; lia|]. destruct n as [|n]; cbn.
  - change (length (omap id (h :: replicate k None)) <= 1)%nat. change (h :: replicate k None) with ([h] ++ replicate k None).
    rewrite omap_app, omap_none. destruct h; cbn; lia.
  - apply IH.
Qed.

Lemma install_isr g : wp (gpio_install_isr_service g) (fun l o => match o with
  | Done (g', ret) => g'.(gpio_isr_func) = g.(gpio_isr_func) /\ ret <> ESP_OK \/
      g.(gpio_isr_func) = None /\ g'.(gpio_isr_func) = Some (replicate GPIO_PIN_COUNT None)
  | Stopped _ => False
  end).
Proof.
  unfold gpio_install_isr_service. destruct (gpio_isr_func g) eqn:E; [left; by rewrite E|].
  intros []; cbn [bind]; [|left; by rewrite E]. unfold gpio_isr_register.
  apply (wp_call _ _ _ _ (choose_core_isr _)); [|done]. intros l g' Hg. cbn in Hg.
  intros ret. cbn [bind]. destruct (negb _); [cbn; by right|]. intros ret'. cbn. by right.
Qed.

Lemma irq_init_stays esp32s2 esp32s3 s p cfg : one_pin esp32s2 esp32s3 s -> wp (tkl_gpio_irq_init p cfg s) (stays esp32s2 esp32s3).
Proof.
  intros Hs. unfold tkl_gpio_irq_init. destruct cfg as [cfg|]; [|done]. destruct (gpio_of p s) as [n|] eqn:En; [|done].
  destruct (gpio_of_valid _ _ _ _ _ Hs En) as [Hn Hv]. cbn zeta. set (devs' := <[pin_index p := _]> _).
  assert (Hd : map dev_gpio devs' = pinmap_gpios esp32s2 esp32s3).
  { destruct Hs as [<- _]. unfold devs'. rewrite list_fmap_insert. apply list_insert_id. by rewrite list_lookup_fmap. }
  assert (Hok : forall g, (length (table g) <= 1)%nat -> one_pin esp32s2 esp32s3 (mk_pins devs' g)) by done.
  destruct (gpio_set_intr_type _ _ _) as [g1 r1] eqn:E1.
  assert (H1 : g1.(gpio_isr_func) = s.(drv).(gpio_isr_func)) by (change g1 with (g1, r1).1; rewrite <- E1; apply set_intr_type_isr).
  assert (Ht : forall g, g.(gpio_isr_func) = s.(drv).(gpio_isr_func) -> (length (table g) <= 1)%nat)
    by (intros g E; unfold table; rewrite E; apply Hs).
  destruct (negb _); [cbn; auto|]. unfold gpio_set_direction. rewrite Hv. cbn [negb andb].
  set (g2 := (gpio_od _ n _).1). assert (H2 : g2.(gpio_isr_func) = s.(drv).(gpio_isr_func))
    by (unfold g2, gpio_od, gpio_output, gpio_input; by rewrite !checked_isr).
  cbn [Z.eqb ESP_OK]. apply (wp_call _ _ _ _ (install_isr g2)); [|done]. intros l [g3 r3] [[H3 Hr]|[H3 H4]].
  - rewrite (proj2 (Z.eqb_neq _ _) Hr). cbn. apply Hok, Ht. congruence.
  - destruct (negb _); cbn; [apply Hok; rewrite (table_empty _ _ H4); cbn; lia|].
    unfold gpio_isr_handler_add. rewrite H4, Hv. cbn. apply Hok. cbn. apply table_add.
Qed.

Lemma pin_step_stays esp32s2 esp32s3 s o : one_pin esp32s2 esp32s3 s -> wp (pin_step o s) (stays esp32s2 esp32s3).
Proof.
  intros H. destruct o; cbn [pin_step].
  - by apply init_stays.
  - cbn. pose proof (write_stays _ _ _ H pin_id level). by destruct (tkl_gpio_write _ _ _).
  - by apply irq_init_stays.
  - by apply irq_enable_stays.
  - cbn. pose proof (irq_disable_stays _ _ _ H pin_id). by destruct (tkl_gpio_irq_disable _ _).
  - by apply deinit_stays.
Qed.

(** ** Handlers that are called *)

Lemma omap_le {A B} (f g : A -> option B) (l : list A) : (forall x, f x = None \/ f x = g x) ->
  (length (omap f l) <= length (omap g l))%nat.
Proof.
  intros H. induction l as [|x l IH]; [done|]. cbn. destruct (H x) as [-> | ->]; destruct (g x); cbn; lia.
Qed.

Lemma omap_lookup {A} (n : nat) : forall l : list (option A), omap (fun k => mjoin (l !! k)) (seq 0 n) = omap id (take n l).
Proof.
  induction n as [|n IH]; intros l; [done|]. cbn [seq]. rewrite <- seq_shift. destruct l as [|x l].
  - cbn. change (omap (fun k => mjoin (([] : list (option A)) !! k)) (map S (seq 0 n)) = []). generalize (map S (seq 0 n)).
    intros ks. by induction ks.
  - cbn [take omap list_omap]. cbn [lookup list_lookup mjoin option_join]. rewrite <- (IH l).
    change (list_omap nat A ?f ?l) with (omap f l). destruct x; cbn; [f_equal|]; clear; induction (seq 0 n) as [|k ks IHk]; cbn; try done;
      destruct (mjoin (l !! k)); by rewrite <- ?IHk.
Qed.

Lemma called_le funcs status start : 0 <= start ->
  (length (called funcs status start 0) <= length (omap id (take 32 (drop (Z.to_nat start) funcs))))%nat.
Proof.
  intros Hs. rewrite <- omap_lookup. apply omap_le. intros k. unfold handler_at.
  destruct (Z.testbit _ _); [right|by left]. rewrite lookup_drop. do 2 f_equal. lia.
Qed.

Lemma service_le g status status_h funcs : g.(gpio_isr_func) = Some funcs ->
  (length (called funcs status 0 0 ++ called funcs status_h 32 0) <= length (table g))%nat.
Proof.
  intros E. unfold table. rewrite E, length_app. pose proof (called_le funcs status 0 ltac:(lia)) as H1.
  pose proof (called_le funcs status_h 32 ltac:(lia)) as H2. change (Z.to_nat 32) with 32%nat in H2. change (Z.to_nat 0) with 0%nat in H1.
  rewrite drop_0 in H1.
  assert (Hf : omap id funcs = omap id (take 32 funcs) ++ omap id (take 32 (drop 32 funcs)) ++ omap id (drop 32 (drop 32 funcs)))
    by (by rewrite <- !omap_app, !take_drop).
  rewrite Hf, !length_app. lia.
Qed.

(** C40: Whatever a client does with the pins and whatever the platform answers, no assertion of the driver fails, and an interrupt calls
    the handlers of the pins that raise it, in the order of the pins; but that is never more than one
    handler, since [tkl_gpio_irq_init] installs the service for every pin and fails when it is installed
    already, and [tkl_gpio_deinit] of any pin removes the service with the handlers of the others. *)
Theorem interrupts_one_pin (esp32s2 esp32s3 : bool) (os : list pin_op) :
  always (pin_run os (pin_start esp32s2 esp32s3)) (fun l o => match o with
    | Stopped _ => False
    | Done s => forall status status_h, exists hs,
        gpio_intr_service status status_h s.(drv) = Some (run_all hs) /\
        hs = match s.(drv).(gpio_isr_func) with
             | Some funcs => called funcs (u32 status) 0 0 ++ called funcs (u32 status_h) 32 0
             | None => []
             end /\ (length hs <= 1)%nat
    end).
Proof.
  apply wp_always. assert (H : one_pin esp32s2 esp32s3 (pin_start esp32s2 esp32s3)).
  { split; [|cbn; lia]. unfold pin_start, pinmap. cbn [devs]. rewrite map_map. apply map_id. }
  revert H. generalize (pin_start esp32s2 esp32s3) as s. induction os as [|o os IH]; intros s H; cbn [pin_run].
  - intros status status_h. destruct (intr_service_spec s.(drv) status status_h) as (hs & Hh & E). exists hs. split_and!; [done|done|].
    destruct H as [_ H]. destruct (gpio_isr_func (drv s)) as [funcs|] eqn:Ef; subst hs; [|cbn; lia].
    pose proof (service_le _ (u32 status) (u32 status_h) _ Ef). lia.
  - apply (wp_call _ _ _ _ (pin_step_stays _ _ s o H)); [|done]. intros l [s' ret] Hs'. apply IH, Hs'.
Qed.

(** From the 23rd on the pin with id [n] is GPIO [n + 4]. *)
Lemma pin_id_shifted : Forall (fun n => gpio_of n (pin_start false true) = Some (n + 4)) (numbers 22 23).
Proof. repeat (constructor; [vm_compute; reflexivity|]). constructor. Qed.

(** A pin mode other than the two pull resistors, also one meant for outputs, is refused, after the pin has been reconfigured. *)
Lemma output_modes_refused p direct level s : gpio_of p s <> None ->
  always (tkl_gpio_init p (Some (mk_base_cfg TUYA_GPIO_PUSH_PULL direct level)) s) (fun l o => match o with
    | Done (_, ret) => ret = OPRT_NOT_SUPPORTED \/ ret = OPRT_COM_ERROR
    | Stopped _ => True
    end).
Proof.
  intros Hp. apply wp_always. unfold tkl_gpio_init. destruct (gpio_of p s) as [n|]; [|done].
  apply (wp_call _ _ (fun _ _ => True)); [|intros l g _|done].
  - generalize (gpio_reset_pin n (drv s)). clear. intros q. induction q; cbn; auto.
  - cbn zeta. destruct (gpio_set_direction _ _ _) as [g' ret]. destruct (negb _); cbn; auto.
Qed.

End Gpio.
