(* ===== verification/Devices.v ===== *)
(** * Bluetooth, serial port, clock and LED: [tkl_bt.c], [tkl_uart.c], [tkl_rtc.c], [LED.cpp]

    Four small adapters.  The drivers below them are calls whose answers are arbitrary. *)
From stdpp Require Import base list strings.
From Stdlib Require Import ZArith Lia.
From S2P Require Import Prelude Oprt.
Local Open Scope Z_scope.

(** ** Bluetooth *)

Module Bt.

Definition BLE_HCI_CMD_MSG_TYPE : Z := 1.
Definition BLE_HCI_ACL_MSG_TYPE : Z := 2.
Definition BLE_HCI_EVT_MSG_TYPE : Z := 4.

(** The two callbacks, as far as they are set. *)
Record bt_state := mk_bt { rx_cmd_hs_cb : bool; rx_acl_hs_cb : bool }.

Inductive bt_call : Type -> Type :=
| hci_evt_cb (data : list Z) (len : Z) : bt_call unit
| acl_pkt_cb (data : list Z) (len : Z) : bt_call unit
| esp_vhci_host_check_send_available : bt_call bool
| esp_vhci_host_send_packet (data : list Z) (len : Z) : bt_call unit
| esp_vhci_host_register_callback : bt_call unit
| bt_malloc (size : Z) : bt_call bool
| bt_free : bt_call unit
| heap_write (size offset : Z) (bytes : list Z) : bt_call unit
| esp_bt_controller_mem_release_classic : bt_call Z
| esp_bt_controller_init : bt_call Z
| esp_bt_controller_enable_ble : bt_call Z
| esp_bt_controller_disable : bt_call Z
| esp_bt_controller_deinit : bt_call Z.

Abbreviation bt := (prog bt_call).

(** A packet of the controller. *)
Definition tuya_ble_hci_ll_tx (data : option (list Z)) (len : Z) (s : bt_state) : bt Z :=
  match data with
  | Some (type :: rest) =>
      if len =? 0 then Ret (-1)
      else
        (if type =? BLE_HCI_EVT_MSG_TYPE then if s.(rx_cmd_hs_cb) then call (hci_evt_cb rest (u16 (len - 1))) else Ret tt
         else if type =? BLE_HCI_ACL_MSG_TYPE then if s.(rx_acl_hs_cb) then call (acl_pkt_cb rest (u16 (len - 1))) else Ret tt
         else Ret tt) >> Ret 0
  | _ => Ret (-1)
  end.

(** Both senders: a block of [u16 (buf_len + 1)] bytes gets the type and a copy of the packet. *)
Definition packet_send (type : Z) (p_buf : option (list Z)) (buf_len : Z) : bt Z :=
  match p_buf with
  | None => Ret OPRT_INVALID_PARM
  | Some p_buf =>
      if buf_len =? 0 then Ret OPRT_INVALID_PARM
      else
        do ok <- call esp_vhci_host_check_send_available;
        if negb ok then Ret OPRT_COM_ERROR
        else
          let len := u16 (buf_len + 1) in
          do ok <- call (bt_malloc len);
          if negb ok then Ret OPRT_MALLOC_FAILED
          else
            call (heap_write len 0 [type]) >>
            call (heap_write len 1 (take (Z.to_nat buf_len) p_buf)) >>
            call (esp_vhci_host_send_packet (take (Z.to_nat len) (type :: p_buf)) len) >>
            call bt_free >> Ret OPRT_OK
  end.

Definition tkl_hci_cmd_packet_send : option (list Z) -> Z -> bt Z := packet_send BLE_HCI_CMD_MSG_TYPE.
Definition tkl_hci_acl_packet_send : option (list Z) -> Z -> bt Z := packet_send BLE_HCI_ACL_MSG_TYPE.

Definition tkl_hci_callback_register (hci_evt acl_pkt : bool) (s : bt_state) : bt_state * Z := (mk_bt hci_evt acl_pkt, OPRT_OK).

Definition tkl_hci_reset : bt Z :=
  do ok <- call esp_vhci_host_check_send_available; Ret (if ok : bool then OPRT_OK else OPRT_COM_ERROR).

Definition or_fail (e : bt_call Z) (k : bt Z) : bt Z :=
  do ret <- call e; if ret =? ESP_OK then k else Ret OPRT_COM_ERROR.

Definition tkl_hci_init : bt Z :=
  or_fail esp_bt_controller_mem_release_classic (
  or_fail esp_bt_controller_init (
  or_fail esp_bt_controller_enable_ble (
  call esp_vhci_host_register_callback >> Ret OPRT_OK))).

Definition tkl_hci_deinit : bt Z :=
  or_fail esp_bt_controller_disable (or_fail esp_bt_controller_deinit (Ret OPRT_OK)).

(** The write stays within its block. *)
Definition in_block (ev : event bt_call) : Prop :=
  match ev with Ev e _ => match e with heap_write size offset bytes => offset + Z.of_nat (length bytes) <= size | _ => True end end.

(** What the controller is given, and what comes back from the heap. *)
Definition sent (l : list (event bt_call)) : list (list Z) :=
  concat (map (fun ev => match ev with Ev e _ => match e with esp_vhci_host_send_packet data _ => [data] | _ => [] end end) l).
Definition blocks (l : list (event bt_call)) : Z :=
  fold_right (fun ev n => n + match ev with Ev e x =>
    match e in bt_call X return X -> Z with
    | bt_malloc _ => fun ok : bool => if ok then 1 else 0
    | bt_free => fun _ => -1
    | _ => fun _ => 0
    end x end) 0 l.

(** A packet of fewer than 65535 bytes is written within its block, given to the controller just when the result is OPRT_OK,
    whole and with its type in front, and its block is freed, whatever the controller and the allocator answer. *)
Theorem packet_sent_whole (type : Z) (p : list Z) :
  (0 < length p)%nat -> Z.of_nat (length p) < 65535 ->
  always (packet_send type (Some p) (Z.of_nat (length p))) (fun l o =>
    Forall in_block l /\ blocks l = 0 /\
    exists ret, o = Done ret /\ sent l = if bool_decide (ret = OPRT_OK) then [type :: p] else []).
Proof.
  intros H0 H1. apply wp_always. unfold packet_send. rewrite (proj2 (Z.eqb_neq _ 0)) by lia.
  rewrite u16_small, Nat2Z.id, (take_ge p) by lia.
  replace (take (Z.to_nat (Z.of_nat (length p) + 1)) (type :: p)) with (type :: p)
    by (symmetry; apply take_ge; cbn [length]; lia).
  intros []; cbn [bind negb]; [|split_and!; [by repeat constructor|done|by eexists] ].
  intros []; cbn [bind negb]; [|split_and!; [by repeat constructor|done|by eexists] ].
  intros ? ? ? ?. split_and!; [|done|by eexists]. repeat (constructor; [cbn; lia || done|]). constructor.
Qed.

Lemma packet_sent_whole_witness :
  always (packet_send BLE_HCI_CMD_MSG_TYPE (Some [3; 12; 0]) 3) (fun l o =>
    Forall in_block l /\ blocks l = 0 /\
    exists ret, o = Done ret /\ sent l = if bool_decide (ret = OPRT_OK) then [[1; 3; 12; 0]] else []).
Proof. apply (packet_sent_whole BLE_HCI_CMD_MSG_TYPE [3; 12; 0]); cbn; lia. Defined.

(** The longest packet: the size of its block wraps to 0, and it is written over what lies behind. *)
Lemma longest_packet_overruns (type : Z) (p : list Z) : Z.of_nat (length p) = 65535 ->
  wp (packet_send type (Some p) 65535) (fun l o => o = Done OPRT_OK -> ~ Forall in_block l).
Proof.
  intros Hp. unfold packet_send. intros []; cbn [bind negb]; [|by intros [=] ]. intros []; cbn [bind negb]; [|by intros [=] ].
  intros ? ? ? ? _ H. do 2 apply Forall_inv_tail in H. apply Forall_inv in H. unfold in_block in H. change (u16 (65535 + 1)) with 0 in H.
  cbn in H. lia.
Qed.

End Bt.

(** ** Serial port *)

Module Uart.

Definition MAX_UART_NUM : Z := 2.
Definition UART_PIN_NO_CHANGE : Z := -1.

(** The lengths and modes as the caller's enumerations number them. *)
Record TUYA_UART_BASE_CFG_T := mk_uart_cfg { baudrate : Z; parity : Z; databits : Z; stopbits : Z }.

Inductive uart_parity_t := UART_PARITY_DISABLE | UART_PARITY_EVEN | UART_PARITY_ODD.
Inductive uart_stop_bits_t := UART_STOP_BITS_1 | UART_STOP_BITS_1_5 | UART_STOP_BITS_2.
Inductive uart_sclk_t := UART_SCLK_XTAL | UART_SCLK_APB.

(** [data_bits] as the number of bits. *)
Record uart_config_t := mk_config {
  c_baud_rate : Z;
  c_data_bits : Z;
  c_parity : uart_parity_t;
  c_stop_bits : uart_stop_bits_t;
  c_rx_flow_ctrl_thresh : Z;
  c_source_clk : uart_sclk_t;
}.

(** [tkl_uart_thread], [tkl_uart_rx_queue] and [uart_rx_cb], as far as they are set. *)
Record uart_state := mk_uart { tkl_uart_thread : bool; tkl_uart_rx_queue : bool; uart_rx_cb : list bool }.

Definition uart_start : uart_state := mk_uart false false [false; false].

(** [uart_write_bytes] and [uart_read_bytes] answer a number of bytes; the task gets a pointer to a
    variable of the function that creates it. *)
Inductive uart_call : Type -> Type :=
| uart_param_config (uart_num : Z) (c : uart_config_t) : uart_call Z
| uart_set_pin (uart_num txd rxd rts cts : Z) : uart_call Z
| uart_driver_install (uart_num rx_size tx_size queue_size : Z) : uart_call Z
| uart_driver_delete (uart_num : Z) : uart_call Z
| uart_disable_rx_intr (uart_num : Z) : uart_call Z
| uart_enable_rx_intr (uart_num : Z) : uart_call Z
| uart_enable_tx_intr (uart_num enable thresh : Z) : uart_call Z
| uart_disable_tx_intr (uart_num : Z) : uart_call Z
| uart_write_bytes (uart_num : Z) (bytes : list Z) : uart_call Z
| uart_read_bytes (uart_num len ticks : Z) : uart_call Z
| xQueueReceive_event : uart_call (option bool)
| rx_cb (uart_num : Z) : uart_call unit
| vTaskDelete (self : bool) : uart_call unit
| xTaskCreate_rx (stack priority : Z) : uart_call bool.

Abbreviation uart := (prog uart_call).

Definition data_bits_of (databits : Z) : option Z := if (5 <=? databits) && (databits <=? 8) then Some databits else None.
Definition stop_bits_of (stopbits : Z) : option uart_stop_bits_t :=
  if stopbits =? 1 then Some UART_STOP_BITS_1 else if stopbits =? 3 then Some UART_STOP_BITS_2
  else if stopbits =? 2 then Some UART_STOP_BITS_1_5 else None.
Definition parity_of (parity : Z) : option uart_parity_t :=
  if parity =? 0 then Some UART_PARITY_DISABLE else if parity =? 2 then Some UART_PARITY_EVEN
  else if parity =? 1 then Some UART_PARITY_ODD else None.

Definition or_fail (e : uart_call Z) (s : uart_state) (k : uart (uart_state * Z)) : uart (uart_state * Z) :=
  do ret <- call e; if ret =? ESP_OK then k else Ret (s, OPRT_COM_ERROR).

(** [port]: the number of an enumeration; [esp32s3]: compiled for that chip. *)
Definition tkl_uart_init (esp32s3 : bool) (port : Z) (cfg : option TUYA_UART_BASE_CFG_T) (s : uart_state) : uart (uart_state * Z) :=
  match cfg with
  | None => Ret (s, OPRT_INVALID_PARM)
  | Some cfg =>
      if MAX_UART_NUM <=? port then Ret (s, OPRT_INVALID_PARM)
      else
        match data_bits_of cfg.(databits), stop_bits_of cfg.(stopbits), parity_of cfg.(parity) with
        | Some data_bits, Some stop_bits, Some par =>
            let uart_cfg := mk_config cfg.(baudrate) data_bits par stop_bits 122 (if esp32s3 then UART_SCLK_XTAL else UART_SCLK_APB) in
            let '(txd, rxd) := if port =? 1 then (17, 18) else if esp32s3 then (43, 44) else (33, 34) in
            or_fail (uart_param_config port uart_cfg) s (
            or_fail (uart_set_pin port txd rxd UART_PIN_NO_CHANGE UART_PIN_NO_CHANGE) s (
            or_fail (uart_driver_install port 256 0 10) s (
            Ret (mk_uart s.(tkl_uart_thread) true s.(uart_rx_cb), OPRT_OK))))
        | _, _, _ => Ret (s, OPRT_INVALID_PARM)
        end
  end.

Definition tkl_uart_deinit (port : Z) (s : uart_state) : uart (uart_state * Z) :=
  assert_ (port <? MAX_UART_NUM) >>
  do _ <- call (uart_disable_rx_intr port);
  or_fail (uart_driver_delete port) s (
  (if s.(tkl_uart_thread) then call (vTaskDelete false) else Ret tt) >>
  Ret (mk_uart false false s.(uart_rx_cb), OPRT_OK)).

Definition tkl_uart_write (port : Z) (buff : option (list Z)) (len : Z) : uart Z :=
  assert_ (port <? MAX_UART_NUM) >>
  match buff with
  | None => Ret OPRT_INVALID_PARM
  | Some buff => if len =? 0 then Ret OPRT_INVALID_PARM else call (uart_write_bytes port (take (Z.to_nat len) buff))
  end.

(** One byte is asked for, whatever [len] is. *)
Definition tkl_uart_read (port : Z) (buff : bool) (len : Z) : uart Z :=
  assert_ (port <? MAX_UART_NUM) >>
  if negb buff || (len =? 0) then Ret OPRT_INVALID_PARM else call (uart_read_bytes port 1 0).

Definition tkl_uart_rx_irq_cb_reg (port : Z) (rx_cb : bool) (s : uart_state) : uart uart_state :=
  assert_ (port <? MAX_UART_NUM) >>
  if negb s.(tkl_uart_rx_queue) then Ret s
  else
    (if s.(tkl_uart_thread) then call (vTaskDelete false) else Ret tt) >>
    do ok <- call (xTaskCreate_rx 4096 4);
    if ok : bool then
      do _ <- call (uart_enable_rx_intr port);
      Ret (mk_uart true true (<[Z.to_nat port := rx_cb]> s.(uart_rx_cb)))
    else Ret (mk_uart false true s.(uart_rx_cb)).

Definition tkl_uart_set_tx_int (port : Z) (enable : bool) : uart Z :=
  assert_ (port <? MAX_UART_NUM) >>
  do ret <- (if enable then call (uart_enable_tx_intr port 1 10) else call (uart_disable_tx_intr port));
  Ret (if ret =? ESP_OK then OPRT_OK else OPRT_COM_ERROR).

(** Nothing is registered. *)
Definition tkl_uart_tx_irq_cb_reg (port : Z) (tx_cb : bool) : uart unit := Ret tt.

(** The receiving task for [n] events; [uart_num] is what it reads through its argument, [true] an event
    of type UART_DATA, [None] a queue that gives nothing. *)
Fixpoint tkl_uart_rx_process (n : nat) (uart_num : Z) (s : uart_state) : uart (option unit) :=
  match n with
  | O => Ret None
  | S n =>
      if s.(tkl_uart_rx_queue) then
        do ev <- call xQueueReceive_event;
        match ev with
        | None => call (vTaskDelete true) >> Ret (Some tt)
        | Some data =>
            (if (data : bool) && default false (s.(uart_rx_cb) !! Z.to_nat uart_num) then call (rx_cb uart_num) else Ret tt) >>
            tkl_uart_rx_process n uart_num s
        end
      else call (vTaskDelete true) >> Ret (Some tt)
  end.

Inductive uart_op :=
| UartInit (esp32s3 : bool) (port : Z) (cfg : option TUYA_UART_BASE_CFG_T)
| UartDeinit (port : Z)
| UartCallback (port : Z) (cb : bool).

Definition uart_step (o : uart_op) (s : uart_state) : uart uart_state :=
  match o with
  | UartInit e port cfg => do r <- tkl_uart_init e port cfg s; Ret r.1
  | UartDeinit port => do r <- tkl_uart_deinit port s; Ret r.1
  | UartCallback port cb => tkl_uart_rx_irq_cb_reg port cb s
  end.

Fixpoint uart_run (os : list uart_op) (s : uart_state) : uart uart_state :=
  match os with
  | [] => Ret s
  | o :: os => do s <- uart_step o s; uart_run os s
  end.

(** Tasks created less tasks deleted. *)
Definition tasks (l : list (event uart_call)) : Z :=
  fold_right (fun ev n => n + match ev with Ev e x =>
    match e in uart_call X return X -> Z with
    | xTaskCreate_rx _ _ => fun ok : bool => if ok then 1 else 0
    | vTaskDelete _ => fun _ => -1
    | _ => fun _ => 0
    end x end) 0 l.

Definition one_task (k : Z) (l : list (event uart_call)) (o : outcome uart_state) : Prop :=
  match o with
  | Done s => k + tasks l = (if s.(tkl_uart_thread) then 1 else 0) /\ (s.(tkl_uart_thread) = true -> s.(tkl_uart_rx_queue) = true)
  | Stopped _ => True
  end.

Lemma tasks_app l l' : tasks (l ++ l') = tasks l + tasks l'.
Proof. induction l as [|ev l IH]; [done|]. unfold tasks in *. cbn [app fold_right]. rewrite IH. lia. Qed.

Lemma uart_step_tasks o s k : k = (if s.(tkl_uart_thread) then 1 else 0) -> (s.(tkl_uart_thread) = true -> s.(tkl_uart_rx_queue) = true) ->
  wp (uart_step o s) (one_task k).
Proof.
  intros -> Hq. destruct o as [e port cfg|port|port cb]; cbn [uart_step];
    unfold tkl_uart_init, tkl_uart_deinit, tkl_uart_rx_irq_cb_reg, or_fail;
    repeat first [prog_step | match goal with |- wp (bind (Vis _ _) _) _ => cbn [bind wp] | |- forall _, wp _ _ => intro end];
    cbn in *; try done; repeat case_match; split; done.
Qed.

(** Whatever is done with the two ports, there is at most one receiving task, [tkl_uart_thread]
    says whether there is one, and it has a queue. *)
Theorem one_receiver (os : list uart_op) : always (uart_run os uart_start) (one_task 0).
Proof.
  apply wp_always. assert (H : forall s k, k = (if s.(tkl_uart_thread) then 1 else 0) ->
    (s.(tkl_uart_thread) = true -> s.(tkl_uart_rx_queue) = true) -> wp (uart_run os s) (one_task k)).
  { induction os as [|o os IH]; intros s k Hk Hq; cbn [uart_run]; [split; [cbn; lia|done]|].
    apply (wp_call _ _ _ _ (uart_step_tasks o s k Hk Hq)); [|done]. intros l s' [H1 H2].
    eapply wp_mono; [|apply (IH s' _ H1 H2)]. intros l' [s2|h]; cbn; [|done]. rewrite tasks_app. intros [? ?]. split; [lia|done]. }
  by apply H.
Qed.

End Uart.

(** ** Clock *)

Module Rtc.

(** The time of the system in seconds and microseconds; [TIME_T] is an unsigned 32-bit number. *)
Record timeval := mk_time { tv_sec : Z; tv_usec : Z }.

Definition tkl_rtc_init : Z := OPRT_OK.
Definition tkl_rtc_deinit : Z := OPRT_OK.
Definition tkl_rtc_time_get (now : timeval) : Z * Z := (u32 now.(tv_sec), OPRT_OK).
Definition tkl_rtc_time_set (time_sec : Z) (now : timeval) : timeval * Z := (mk_time (u32 time_sec) 0, OPRT_OK).

(** The time that is set is read back. *)
Lemma rtc_roundtrip t now : 0 <= t < 2 ^ 32 -> (tkl_rtc_time_get (tkl_rtc_time_set t now).1).1 = t.
Proof. intros Ht. cbn. rewrite u32_idem. by apply u32_small. Qed.

End Rtc.

(** ** LED *)

Module Led.

(** [m_current_percent] and [m_max_dc] of an object. *)
Record LED := mk_led { m_current_percent : Z; m_max_dc : Z }.

Inductive led_call : Type -> Type :=
| ledc_timer_config (resolution freq : Z) : led_call unit
| ledc_fade_func_install : led_call unit
| ledc_channel_config (pin : Z) : led_call unit
| ledc_set_fade_time_and_start (target fade_t : Z) (wait : bool) : led_call unit.

Abbreviation led := (prog led_call).

Definition LEDC_TIMER_11_BIT : Z := 11.

(** [initialized]: the static variable; [garbage]: what [m_max_dc] holds before it is assigned. *)
Definition LED_new (t_pin : Z) (initialized : bool) (garbage : Z) : led (LED * bool) :=
  do max_dc <-
    (if initialized then Ret garbage
     else
       call (ledc_timer_config LEDC_TIMER_11_BIT 20000) >> call ledc_fade_func_install >>
       Ret (2 ^ LEDC_TIMER_11_BIT - 1));
  call (ledc_channel_config t_pin) >> Ret (mk_led 0 max_dc, true).

(** [None]: a division by zero. *)
Definition fade_to_dc (t_target : Z) (t_block : bool) (t_fade_t : Z) (d : LED) : led (option LED) :=
  if d.(m_max_dc) =? 0 then Ret None
  else
    let percent := u32 (t_target * 100) / d.(m_max_dc) in
    if d.(m_current_percent) =? percent then Ret (Some d)
    else call (ledc_set_fade_time_and_start t_target t_fade_t t_block) >> Ret (Some (mk_led percent d.(m_max_dc))).

Definition fade_to_end (t_on t_block : bool) (t_fade_t : Z) (d : LED) : led (option LED) :=
  fade_to_dc (if t_on then d.(m_max_dc) else 0) t_block t_fade_t d.

(** On the first object, switching on and off reaches the end that is asked for, and the percentage kept is 100 or 0. *)
Lemma fade_to_end_percent t_pin t_on block t :
  wp (do r <- LED_new t_pin false 0; fade_to_end t_on block t r.1) (fun l o => exists d, o = Done (Some d) /\
    d.(m_current_percent) = if t_on then 100 else 0).
Proof. destruct t_on; repeat intro; cbn; eexists; split; done. Qed.

(** A second object whose [m_max_dc] happens to be 0 divides by it. *)
Lemma second_led_divides_by_zero t_pin t_on block t :
  wp (do r <- LED_new t_pin true 0; fade_to_end t_on block t r.1) (fun l o => o = Done None).
Proof. destruct t_on; by repeat intro. Qed.

End Led.
